(** * Monad static-site compositor: template pipeline and audit engine

    A shallow embedding of [packages/vite-plugin-monad/src/index.ts]: route
    mapping, frontmatter extraction, interpolation, recursive inclusion of
    partials, collection loops, the audit of a rendered page and the audit
    policy at the end of the build.

    JavaScript strings are modelled as [string] (code units in the Latin-1
    range).  The regular expressions of the source are written in a small
    regex syntax and run by a backtracking matcher that follows the
    ECMAScript matching order (leftmost match, greedy and lazy quantifiers,
    captures).  Node's [path] module, the JSON5 parser and the HTML parser
    are parameters of the model (class [Host]); the file system is a finite
    map from absolute paths to file contents.  The values of the rendering
    context are plain data; what the language runtime adds to them, the
    properties that they inherit and the built-in values that these reach,
    is a parameter as well (class [Runtime]).  A property read and the
    conversion [String] are modelled where they return; [Js.prop_checked]
    and [Js.printable] say where that is.  The recursion of
    [expandIncludes] carries an explicit bound on its nesting, and the
    properties show that a bound above the number of fragments is never
    reached. *)

From Stdlib Require Import Ascii String ZArith Lia Bool.
From stdpp Require Import gmap strings list pretty.

Set Warnings "-register-all".

Local Open Scope stdpp_scope.

(** ** Code units and character classes *)

Module Chr.

Definition code (c : ascii) : N := N_of_ascii c.

Definition between (lo hi : N) (c : ascii) : bool :=
  (lo <=? code c)%N && (code c <=? hi)%N.

(** [\s]: WhiteSpace and LineTerminator code units below U+0100. *)
Definition is_space (c : ascii) : bool :=
  between 9 13 c || (code c =? 32)%N || (code c =? 160)%N.

Definition is_digit (c : ascii) : bool := between 48 57 c.
Definition is_upper (c : ascii) : bool := between 65 90 c.
Definition is_lower (c : ascii) : bool := between 97 122 c.

(** [\w] = [A-Za-z0-9_]. *)
Definition is_word (c : ascii) : bool :=
  is_upper c || is_lower c || is_digit c || (code c =? 95)%N.

(** The double quote, U+0022. *)
Definition dquote : ascii := "034"%char.

Definition any (_ : ascii) : bool := true.
Definition exactly (a c : ascii) : bool := Ascii.eqb a c.
Definition none_of (l : list ascii) (c : ascii) : bool :=
  negb (existsb (Ascii.eqb c) l).
Definition one_of (l : list ascii) (c : ascii) : bool :=
  existsb (Ascii.eqb c) l.

Definition lower (c : ascii) : ascii :=
  if is_upper c then ascii_of_N (code c + 32) else c.

(** Comparison of a pattern character with an input code unit; with the
    [i] flag both are canonicalized first. *)
Definition eq (icase : bool) (a c : ascii) : bool :=
  if icase then Ascii.eqb (lower a) (lower c) else Ascii.eqb a c.

End Chr.

(** ** String primitives of the JavaScript runtime *)

Module Str.

Fixpoint take (n : nat) (s : string) : string :=
  match n, s with
  | S n', String c s' => String c (take n' s')
  | _, _ => ""
  end.

Fixpoint drop (n : nat) (s : string) : string :=
  match n, s with
  | S n', String _ s' => drop n' s'
  | _, _ => s
  end.

Definition slice (from to : nat) (s : string) : string :=
  take (to - from) (drop from s).

Fixpoint last (s : string) : option ascii :=
  match s with
  | "" => None
  | String c "" => Some c
  | String _ s' => last s'
  end.

Definition snoc (s : string) (c : ascii) : string := s +:+ String c "".

Definition startsWith (s p : string) : bool := String.prefix p s.

Fixpoint endsWith (s suf : string) : bool :=
  String.eqb s suf ||
  match s with
  | "" => false
  | String _ s' => endsWith s' suf
  end.

(** [s.includes(p)] *)
Fixpoint includes (s p : string) : bool :=
  String.prefix p s ||
  match s with
  | "" => false
  | String _ s' => includes s' p
  end.

Fixpoint trimStart (s : string) : string :=
  match s with
  | String c s' => if Chr.is_space c then trimStart s' else s
  | "" => ""
  end.

Fixpoint trimEnd (s : string) : string :=
  match s with
  | String c s' =>
      match trimEnd s' with
      | "" => if Chr.is_space c then "" else String c ""
      | t => String c t
      end
  | "" => ""
  end.

Definition trim (s : string) : string := trimEnd (trimStart s).

(** [s.split(sep)] for a one-character separator. *)
Fixpoint split (sep : ascii) (s : string) : list string :=
  match s with
  | "" => [""]
  | String c s' =>
      if Ascii.eqb c sep then "" :: split sep s'
      else match split sep s' with
           | [] => [String c ""]
           | w :: ws => String c w :: ws
           end
  end.

Definition join (sep : string) (l : list string) : string := String.concat sep l.

(** [s.indexOf(p)] *)
Fixpoint indexOf (p s : string) : option nat :=
  if String.prefix p s then Some 0
  else match s with
       | "" => None
       | String _ s' => S <$> indexOf p s'
       end.

Definition is_empty (s : string) : bool :=
  match s with "" => true | _ => false end.

End Str.

(** ** Regular expressions

    The constructs used by the patterns of the source.  A quantifier applies
    to a character class, except for the optional group [(?:r)?]. *)

Inductive regex : Type :=
| RChar (c : ascii)
| RClass (p : ascii → bool)
| RSeq (r1 r2 : regex)
| RAlt (r1 r2 : regex)
| RStar (greedy : bool) (p : ascii → bool)
| ROpt (r : regex)
| RGroup (i : nat) (r : regex)
| REnd
| RBegin
| RWordB.

Module Re.

(** Capture [i] as offsets from the start of the match. *)
Definition captures := list (nat * (nat * nat)).

Fixpoint cap_lookup (i : nat) (cs : captures) : option (nat * nat) :=
  match cs with
  | [] => None
  | (j, span) :: cs' => if Nat.eqb i j then Some span else cap_lookup i cs'
  end.

(** Matcher state: characters consumed since the start of the match, the
    code unit before the current position, the remaining input and the
    captures so far. *)
Definition cont := nat → option ascii → string → captures → option (nat * captures).

Fixpoint star_greedy (p : ascii → bool) (k : cont)
    (n : nat) (prev : option ascii) (s : string) (cs : captures) : option (nat * captures) :=
  match s with
  | String a s' =>
      if p a then
        match star_greedy p k (S n) (Some a) s' cs with
        | Some x => Some x
        | None => k n prev s cs
        end
      else k n prev s cs
  | "" => k n prev s cs
  end.

Fixpoint star_lazy (p : ascii → bool) (k : cont)
    (n : nat) (prev : option ascii) (s : string) (cs : captures) : option (nat * captures) :=
  match k n prev s cs with
  | Some x => Some x
  | None =>
      match s with
      | String a s' => if p a then star_lazy p k (S n) (Some a) s' cs else None
      | "" => None
      end
  end.

Definition word_at (o : option ascii) : bool :=
  match o with Some c => Chr.is_word c | None => false end.

Definition head (s : string) : option ascii :=
  match s with String c _ => Some c | "" => None end.

Fixpoint run (icase : bool) (r : regex) (k : cont)
    (n : nat) (prev : option ascii) (s : string) (cs : captures) : option (nat * captures) :=
  match r with
  | RChar c =>
      match s with
      | String a s' => if Chr.eq icase c a then k (S n) (Some a) s' cs else None
      | "" => None
      end
  | RClass p =>
      match s with
      | String a s' => if p a then k (S n) (Some a) s' cs else None
      | "" => None
      end
  | RSeq r1 r2 => run icase r1 (run icase r2 k) n prev s cs
  | RAlt r1 r2 =>
      match run icase r1 k n prev s cs with
      | Some x => Some x
      | None => run icase r2 k n prev s cs
      end
  | RStar true p => star_greedy p k n prev s cs
  | RStar false p => star_lazy p k n prev s cs
  | ROpt r1 =>
      match run icase r1 k n prev s cs with
      | Some x => Some x
      | None => k n prev s cs
      end
  | RGroup i r1 =>
      run icase r1 (λ n' prev' s' cs', k n' prev' s' ((i, (n, n')) :: cs')) n prev s cs
  | REnd => match s with "" => k n prev s cs | _ => None end
  | RBegin => match prev with None => k n prev s cs | _ => None end
  | RWordB => if xorb (word_at prev) (word_at (head s)) then k n prev s cs else None
  end.

Definition accept : cont := λ n _ _ cs, Some (n, cs).

(** One match attempt at the current position. *)
Definition here (icase : bool) (r : regex) (prev : option ascii) (s : string)
    : option (nat * captures) :=
  run icase r accept 0 prev s [].

(** A successful match, as the runtime reports it. *)
Record result : Type := Result {
  before : string;        (* text to the left of the match *)
  text : string;          (* the matched text, [m[0]] *)
  after : string;         (* text to the right of the match *)
  caps : captures
}.

Definition group (m : result) (i : nat) : option string :=
  match cap_lookup i m.(caps) with
  | Some (a, b) => Some (Str.slice a b m.(text))
  | None => None
  end.

Definition mk (pre s : string) (hit : nat * captures) : result :=
  Result pre (Str.take hit.1 s) (Str.drop hit.1 s) hit.2.

(** [re.exec(s)] without the [g] flag: the leftmost match. *)
Fixpoint search (icase : bool) (r : regex) (pre s : string) : option result :=
  match here icase r (Str.last pre) s with
  | Some hit => Some (mk pre s hit)
  | None =>
      match s with
      | String a s' => search icase r (Str.snoc pre a) s'
      | "" => None
      end
  end.

Definition exec (icase : bool) (r : regex) (s : string) : option result :=
  search icase r "" s.

Definition test (icase : bool) (r : regex) (s : string) : bool :=
  match exec icase r s with Some _ => true | None => false end.

(** A [g] regex cuts its input into matches and the code units between
    them.  After a match of [n] code units the scan resumes behind it
    ([skip] counts the units still to pass); after an empty match it
    resumes one unit further on. *)
Inductive piece : Type :=
| Unit (c : ascii)
| Hit (m : result).

Fixpoint scan (icase : bool) (r : regex) (skip : nat) (pre s : string) : list piece :=
  match skip with
  | S j =>
      match s with
      | String a s' => scan icase r j (Str.snoc pre a) s'
      | "" => []
      end
  | 0 =>
      match here icase r (Str.last pre) s with
      | Some hit =>
          Hit (mk pre s hit) ::
          match s with
          | String a s' =>
              match hit.1 with
              | 0 => Unit a :: scan icase r 0 (Str.snoc pre a) s'
              | S j => scan icase r j (Str.snoc pre a) s'
              end
          | "" => []
          end
      | None =>
          match s with
          | String a s' => Unit a :: scan icase r 0 (Str.snoc pre a) s'
          | "" => []
          end
      end
  end.

Definition pieces (icase : bool) (r : regex) (s : string) : list piece :=
  scan icase r 0 "" s.

(** The successive results of [re.exec(s)] with the [g] flag, and
    [s.match(re)] with it. *)
Definition matchAll (icase : bool) (r : regex) (s : string) : list result :=
  omap (λ p, match p with Hit m => Some m | Unit _ => None end) (pieces icase r s).

(** [s.replace(re, fn)] without the [g] flag. *)
Definition replace (icase : bool) (r : regex) (f : result → string) (s : string) : string :=
  match exec icase r s with
  | Some m => m.(before) +:+ f m +:+ m.(after)
  | None => s
  end.

Definition render (f : result → string) (p : piece) : string :=
  match p with
  | Unit c => String c ""
  | Hit m => f m
  end.

Fixpoint flat (l : list string) : string :=
  match l with
  | [] => ""
  | x :: l' => x +:+ flat l'
  end.

(** [s.replace(re, fn)] with the [g] flag. *)
Definition greplace (icase : bool) (r : regex) (f : result → string) (s : string) : string :=
  flat (render f <$> pieces icase r s).

(** Pattern builders. *)
Fixpoint lit (s : string) : regex :=
  match s with
  | "" => RStar true (λ _, false)
  | String c "" => RChar c
  | String c s' => RSeq (RChar c) (lit s')
  end.

Definition plus (greedy : bool) (p : ascii → bool) : regex :=
  RSeq (RClass p) (RStar greedy p).

Fixpoint seq (l : list regex) : regex :=
  match l with
  | [] => RStar true (λ _, false)
  | [r] => r
  | r :: l' => RSeq r (seq l')
  end.

End Re.

(** [GetSubstitution]: expansion of [$$], [$&], [$`], [$'] and [$n] in a
    replacement given as a string. *)
Module Subst.

Definition digit (c : ascii) : option nat :=
  if Chr.is_digit c then Some (N.to_nat (Chr.code c) - 48) else None.

Definition cap (m : Re.result) (ncaps i : nat) : option string :=
  if (1 <=? i) && (i <=? ncaps) then Some (default "" (Re.group m i)) else None.

Fixpoint expand (m : Re.result) (ncaps : nat) (t : string) : string :=
  match t with
  | "" => ""
  | String "$" t1 =>
      match t1 with
      | String "$" t2 => String "$" (expand m ncaps t2)
      | String "&" t2 => m.(Re.text) +:+ expand m ncaps t2
      | String "`" t2 => m.(Re.before) +:+ expand m ncaps t2
      | String "'" t2 => m.(Re.after) +:+ expand m ncaps t2
      | String d1 t2 =>
          match digit d1 with
          | None => String "$" (expand m ncaps t1)
          | Some a =>
              let one :=
                match cap m ncaps a with
                | Some g => g +:+ expand m ncaps t2
                | None => String "$" (String d1 (expand m ncaps t2))
                end in
              match t2 with
              | String d2 t3 =>
                  match digit d2 with
                  | Some b =>
                      match cap m ncaps (10 * a + b) with
                      | Some g => g +:+ expand m ncaps t3
                      | None => one
                      end
                  | None => one
                  end
              | "" => one
              end
          end
      | "" => "$"
      end
  | String c t1 => String c (expand m ncaps t1)
  end.

End Subst.

(** [s.replace(pattern, replacement)] with a string pattern: the first
    occurrence only, the replacement expanded by [GetSubstitution]. *)
Definition replaceStr (pat repl s : string) : string :=
  match Str.indexOf pat s with
  | Some i =>
      let m := Re.Result (Str.take i s) pat (Str.drop (i + String.length pat) s) [] in
      m.(Re.before) +:+ Subst.expand m 0 repl +:+ m.(Re.after)
  | None => s
  end.

(** ** Route mapping *)

(** [path.sep] of the host; the POSIX value. *)
Definition path_sep : ascii := "/".

Definition toPosix (p : string) : string :=
  Str.join "/" (Str.split path_sep p).

(** [/\.(html|md)$/i] *)
Definition re_ext : regex :=
  Re.seq [RChar "."; RGroup 1 (RAlt (Re.lit "html") (Re.lit "md")); REnd].

(** [/index$/i] *)
Definition re_index_end : regex := RSeq (Re.lit "index") REnd.

(** [/\/+/g] *)
Definition re_slashes : regex := Re.plus true (Chr.exactly "/").

Definition routeFromRelPath (relFilePath : string) (cleanUrls trailingSlash : bool) : string :=
  let posix := toPosix relFilePath in
  let noExt := Re.replace true re_ext (λ m, Subst.expand m 1 "") posix in
  if String.eqb noExt "index" then "/" else
  let route :=
    "/" +:+ Re.greplace false re_slashes (λ m, Subst.expand m 0 "/")
              (Re.replace true re_index_end (λ m, Subst.expand m 0 "") noExt) in
  let cleaned :=
    if Str.endsWith route "/" then route
    else route +:+ (if trailingSlash then "/" else "") in
  if negb cleanUrls then "/" +:+ noExt +:+ ".html" else cleaned.

(** ** Values of the rendering context

    Plain data as the JSON-superset parser produces it: objects are records
    of their own properties in insertion order, and [VNum z] is the integer
    [z].  [VOther id] is any other value of the language, known by a name:
    a built-in function or prototype object, which the lookup of an
    inherited property reaches, or a number that is not an integer. *)

Inductive value : Type :=
| VUndefined
| VNull
| VBool (b : bool)
| VNum (z : Z)
| VStr (s : string)
| VArr (l : list value)
| VObj (l : list (string * value))
| VOther (id : string).

(** The kinds of plain data that have a prototype. *)
Inductive kind : Type := KObject | KArray | KString | KNumber | KBoolean.

(** What the language runtime adds to plain data: the properties that
    plain values inherit from their prototypes, and the behaviour of the
    values that are not plain data. *)
Class Runtime : Type := {
  (** [v[k]] for a plain value [v] of the kind that has no own property
      [k]: the property found on the prototype chain, [VUndefined] when
      there is none. *)
  inherited : kind → string → value;
  (** [v[k]] for the value named [id]; [None] when the read throws, as the
      read of an accessor may. *)
  other_get : string → string → option value;
  (** [String(v)] for the value named [id]. *)
  other_text : string → string;
  (** [JSON.stringify(v)] for the value named [id]; [None] stands for
      [undefined]. *)
  other_json : string → option string;
  (** The elements of the value named [id] when [Array.isArray] holds of
      it ([Array.prototype] is an array). *)
  other_items : string → option (list value);
  (** The own enumerable properties of the value named [id]. *)
  other_entries : string → list (string * value);
  (** [String(n)] for an integer [n] beyond the safe range, where the
      shortest decimal that identifies the number is printed and the
      exponent form begins at [1e21]. *)
  number_text : Z → string
}.

Module Js.

(** [v == null] *)
Definition nullish (v : value) : bool :=
  match v with VUndefined | VNull => true | _ => false end.

(** [v ?? d] *)
Definition coalesce (v d : value) : value := if nullish v then d else v.

Fixpoint assoc (k : string) (l : list (string * value)) : option value :=
  match l with
  | [] => None
  | (k', v) :: l' => if String.eqb k k' then Some v else assoc k l'
  end.

Fixpoint parse_nat (acc : nat) (s : string) : option nat :=
  match s with
  | "" => Some acc
  | String c s' =>
      if Chr.is_digit c then parse_nat (10 * acc + (N.to_nat (Chr.code c) - 48)) s'
      else None
  end.

(** A canonical array index: the decimal numeral of a natural number. *)
Definition index_of_key (k : string) : option nat :=
  match k with
  | "" => None
  | _ => match parse_nat 0 k with
         | Some n => if String.eqb (pretty n) k then Some n else None
         | None => None
         end
  end.

Fixpoint char_at (n : nat) (s : string) : option ascii :=
  match s, n with
  | String c _, 0 => Some c
  | String _ s', S n' => char_at n' s'
  | "", _ => None
  end.

(** The property names of [Object.prototype] (ECMAScript 20.1.3 and
    B.2.2); every other name that an object does not own reads as
    [undefined]. *)
Definition objectNames : list string :=
  ["constructor"; "__defineGetter__"; "__defineSetter__"; "hasOwnProperty";
   "__lookupGetter__"; "__lookupSetter__"; "isPrototypeOf"; "propertyIsEnumerable";
   "toString"; "valueOf"; "__proto__"; "toLocaleString"].

Definition objectName (k : string) : bool := existsb (String.eqb k) objectNames.

(** [Number.MAX_SAFE_INTEGER] *)
Definition maxSafe : Z := 9007199254740991.

Definition safe (z : Z) : bool := (Z.abs z <=? maxSafe)%Z.

Definition has_key (k : string) (l : list (string * value)) : bool :=
  existsb (λ kv : string * value, String.eqb k kv.1) l.

(** [String(v)] returns for [v].  The properties of an object of plain data
    hold data, no function: an object that owns a property [toString] has
    no usable conversion, and [String] throws a [TypeError] on it, also
    when it prints an array that holds one. *)
Fixpoint printable (v : value) : bool :=
  match v with
  | VObj l => negb (has_key "toString" l)
  | VArr l => forallb (λ x, nullish x || printable x) l
  | _ => true
  end.

Section WithRuntime.

Context {R : Runtime}.

(** [v[k]] on a value that is neither [null] nor [undefined], where the
    read returns: an own property first, then the prototype chain. *)
Definition prop (v : value) (k : string) : value :=
  match v with
  | VObj l =>
      match assoc k l with
      | Some x => x
      | None => if objectName k then inherited KObject k else VUndefined
      end
  | VArr l =>
      if String.eqb k "length" then VNum (Z.of_nat (List.length l))
      else match index_of_key k with
           | Some i => default VUndefined (l !! i)
           | None => inherited KArray k
           end
  | VStr s =>
      if String.eqb k "length" then VNum (Z.of_nat (String.length s))
      else match index_of_key k with
           | Some i => match char_at i s with
                       | Some c => VStr (String c "")
                       | None => VUndefined
                       end
           | None => inherited KString k
           end
  | VNum _ => inherited KNumber k
  | VBool _ => inherited KBoolean k
  | VOther id => default VUndefined (other_get id k)
  | VUndefined | VNull => VUndefined
  end.

(** [v[k]] in general: reading a property of [null] or [undefined] throws,
    and so do the reads that the runtime says throw. *)
Definition prop_checked (v : value) (k : string) : option value :=
  match v with
  | VUndefined | VNull => None
  | VOther id => other_get id k
  | _ => Some (prop v k)
  end.

(** The read [v[k]] returns. *)
Definition readable (v : value) (k : string) : bool :=
  match prop_checked v k with Some _ => true | None => false end.

(** [String(v)] where it returns (see [printable]). *)
Fixpoint toString (v : value) : string :=
  match v with
  | VUndefined => "undefined"
  | VNull => "null"
  | VBool true => "true"
  | VBool false => "false"
  | VNum z => if safe z then pretty z else number_text z
  | VStr s => s
  | VArr l =>
      Str.join "," ((λ x, if nullish x then "" else toString x) <$> l)
  | VObj _ => "[object Object]"
  | VOther id => other_text id
  end.

(** [String(v)] in general; [None] when it throws. *)
Definition string_of (v : value) : option string :=
  if printable v then Some (toString v) else None.

(** The elements of [v] when [Array.isArray(v)] holds. *)
Definition items (v : value) : option (list value) :=
  match v with
  | VArr l => Some l
  | VOther id => other_items id
  | _ => None
  end.

(** [Array.isArray(v)] *)
Definition isArray (v : value) : bool := bool_decide (is_Some (items v)).

End WithRuntime.

Fixpoint obj_set (k : string) (v : value) (l : list (string * value)) : list (string * value) :=
  match l with
  | [] => [(k, v)]
  | (k', v') :: l' =>
      if String.eqb k k' then (k, v) :: l' else (k', v') :: obj_set k v l'
  end.

Fixpoint chars_from (i : nat) (s : string) : list (string * value) :=
  match s with
  | "" => []
  | String c s' => (pretty i, VStr (String c "")) :: chars_from (S i) s'
  end.

(** The own enumerable properties copied by [{...v}]. *)
Definition spread {R : Runtime} (v : value) : list (string * value) :=
  match v with
  | VObj l => l
  | VArr l => imap (λ i x, (pretty i, x)) l
  | VStr s => chars_from 0 s
  | VOther id => other_entries id
  | _ => []
  end.

(** [{...a, ...b}] on property lists. *)
Definition merge (a b : list (string * value)) : list (string * value) :=
  foldl (λ acc kv, obj_set kv.1 kv.2 acc) a b.

End Js.

(** ** The host: Node's [path] module, the JSON5 parser and the HTML parser *)

(** An element as [querySelectorAll] hands it out. *)
Record element : Type := Element {
  tagName : string;                    (* lower case *)
  attributes : list (string * string)
}.

Class Host : Type := {
  path_basename : string → string;
  path_dirname : string → string;
  path_join : list string → string;
  path_resolve : string → string;
  (** [JSON5.parse]; [None] when it throws. *)
  JSON5_parse : string → option value;
  (** The elements of [parseHtml(html)] in document order. *)
  parseHtml : string → list element
}.

(** ** Interpolation engine *)

(** The fragment store: absolute path of each existing fragment file and
    its text. *)
Abbreviation store := (gmap string string).

Section Templates.

Context {R : Runtime}.

(** [dotPath.split(".").filter(Boolean)] *)
Definition pathParts (dotPath : string) : list string :=
  filter (λ p, p ≠ "") (Str.split "." dotPath).

(** The loop of [getByPath] over the parts that remain, with its final
    [cur ?? ""]. *)
Fixpoint walkPath (cur : value) (parts : list string) : value :=
  match parts with
  | [] => Js.coalesce cur (VStr "")
  | p :: parts' => if Js.nullish cur then VStr "" else walkPath (Js.prop cur p) parts'
  end.

Definition getByPath (obj : value) (dotPath : string) : value :=
  walkPath obj (pathParts dotPath).

(** The reads of [getByPath] along the parts all return. *)
Fixpoint walkReturns (cur : value) (parts : list string) : bool :=
  match parts with
  | [] => true
  | p :: parts' =>
      Js.nullish cur || (Js.readable cur p && walkReturns (Js.prop cur p) parts')
  end.

(** [/\{\{\s*([^}]+?)\s*\}\}/g] *)
Definition re_mustache : regex :=
  Re.seq [RChar "{"; RChar "{"; RStar true Chr.is_space;
          RGroup 1 (Re.plus false (Chr.none_of ["}"%char]));
          RStar true Chr.is_space; RChar "}"; RChar "}"].

Definition group_text (m : Re.result) (i : nat) : string := default "undefined" (Re.group m i).

(** The callback prints [String(value)]; the pass is modelled where the
    reads of the lookup and [String] return ([walkReturns],
    [Js.printable]). *)
Definition interpolateMustache (template : string) (ctx : value) : string :=
  Re.greplace false re_mustache
    (λ m, Js.toString (getByPath ctx (Str.trim (group_text m 1)))) template.


(** ** Frontmatter of markup pages *)

(** [/<!--\s*monad\s*([\s\S]*?)-->/i] *)
Definition re_meta : regex :=
  Re.seq [Re.lit "<!--"; RStar true Chr.is_space; Re.lit "monad"; RStar true Chr.is_space;
          RGroup 1 (RStar false Chr.any); Re.lit "-->"].

Definition tryParsePageMeta `{Host} (raw : string) : value * string :=
  match Re.exec true re_meta raw with
  | None => (VObj [], raw)
  | Some m =>
      let block := Str.trim (group_text m 1) in
      match JSON5_parse block with
      | Some meta => (meta, Str.trim (Re.replace true re_meta (λ m, Subst.expand m 1 "") raw))
      | None => (VObj [], Str.trim (Re.replace true re_meta (λ m, Subst.expand m 1 "") raw))
      end
  end.

(** ** Partial resolution and template composition *)

(** [/^[\x22']|[\x22']$/g] *)
Definition re_quotes : regex :=
  RAlt (RSeq RBegin (RClass (Chr.one_of [Chr.dquote; "'"%char])))
       (RSeq (RClass (Chr.one_of [Chr.dquote; "'"%char])) REnd).

Definition resolvePartial `{Host} (partialsDir partialRef : string) : string :=
  let ref := Re.greplace false re_quotes (λ m, Subst.expand m 0 "") (Str.trim partialRef) in
  let ext := if Str.endsWith ref ".html" then "" else ".html" in
  let basename := path_basename ref in
  let dir := path_dirname ref in
  let underscore := if Str.startsWith basename "_" then basename else "_" +:+ basename in
  path_join [partialsDir; if String.eqb dir "." then "" else dir; underscore +:+ ext].

(** [/<%\s*([^,%]+?)\s*(?:,\s*([\s\S]*?))?\s*%>/g] *)
Definition re_include : regex :=
  Re.seq [RChar "<"; RChar "%"; RStar true Chr.is_space;
          RGroup 1 (Re.plus false (Chr.none_of [","%char; "%"%char]));
          RStar true Chr.is_space;
          ROpt (Re.seq [RChar ","; RStar true Chr.is_space; RGroup 2 (RStar false Chr.any)]);
          RStar true Chr.is_space; RChar "%"; RChar ">"].


Definition existsSync (files : store) (abs : string) : bool := bool_decide (is_Some (files !! abs)).
Definition readText (files : store) (abs : string) : string := default "" (files !! abs).

(** [stack.includes(abs)] *)
Definition on_stack (stack : list string) (abs : string) : bool := bool_decide (abs ∈ stack).

(** The data object of an inclusion site. *)
Definition includeData `{Host} (rawData : option string) : value :=
  match rawData with
  | Some d =>
      if Str.is_empty d || Str.is_empty (Str.trim d) then VObj []
      else match JSON5_parse (Str.trim d) with
           | Some v => v
           | None => VObj []
           end
  | None => VObj []
  end.

(** [{ ...ctx, data: { ...(ctx?.data ?? {}), ...(dataObj ?? {}) } }] *)
Definition nextContext (ctx dataObj : value) : value :=
  let data := if Js.nullish ctx then VUndefined else Js.prop ctx "data" in
  VObj (Js.obj_set "data"
          (VObj (Js.merge (Js.spread (Js.coalesce data (VObj [])))
                          (Js.spread (Js.coalesce dataObj (VObj [])))))
          (Js.spread ctx)).

Definition includeTarget `{Host} (partialsDir : string) (m : Re.result) : string :=
  path_resolve (resolvePartial partialsDir (Str.trim (group_text m 1))).

(** The replacement callback of [expandIncludes]; [recur] is the recursive
    call on the fragment text. *)
Definition includeSite `{Host} (files : store) (partialsDir : string)
    (recur : string → value → list string → option string)
    (ctx : value) (stack : list string) (m : Re.result) : option string :=
  let partialRef := Str.trim (group_text m 1) in
  let abs := includeTarget partialsDir m in
  if negb (existsSync files abs) then
    Some ("<!-- monad:missing-partial " +:+ partialRef +:+ " -->")
  else if on_stack stack abs then
    Some ("<!-- monad:cycle " +:+ partialRef +:+ " -->")
  else
    let nextCtx := nextContext ctx (includeData (Re.group m 2)) in
    match recur (readText files abs) nextCtx (stack ++ [abs]) with
    | Some expanded => Some (interpolateMustache expanded nextCtx)
    | None => None
    end.

(** Replacement of every piece of the text, in order; [None] as soon as one
    callback does not return. *)
Fixpoint renderM (f : Re.result → option string) (ps : list Re.piece) : option string :=
  match ps with
  | [] => Some ""
  | Re.Unit c :: ps' =>
      match renderM f ps' with
      | Some t => Some (String c t)
      | None => None
      end
  | Re.Hit m :: ps' =>
      match f m with
      | Some x =>
          match renderM f ps' with
          | Some t => Some (x +:+ t)
          | None => None
          end
      | None => None
      end
  end.

(** [expandIncludes]; [depth] bounds the nesting of calls, and [None] means
    that the bound was reached. *)
Fixpoint expandIncludes `{Host} (depth : nat) (files : store) (partialsDir : string)
    (html : string) (ctx : value) (stack : list string)
    (skipFinalInterpolation : bool) : option string :=
  match depth with
  | 0 => None
  | S d =>
      match renderM
              (includeSite files partialsDir
                 (λ h c st, expandIncludes d files partialsDir h c st false) ctx stack)
              (Re.pieces false re_include html) with
      | Some html' =>
          Some (if skipFinalInterpolation then html' else interpolateMustache html' ctx)
      | None => None
      end
  end.

End Templates.

(** ** A POSIX host for running examples *)

Module Posix.

Fixpoint norm_segs (allowAboveRoot : bool) (acc : list string) (segs : list string) : list string :=
  match segs with
  | [] => acc
  | seg :: rest =>
      if String.eqb seg "" || String.eqb seg "." then norm_segs allowAboveRoot acc rest
      else if String.eqb seg ".." then
        match List.rev acc with
        | top :: below =>
            if String.eqb top ".." then norm_segs allowAboveRoot (acc ++ [".."]) rest
            else norm_segs allowAboveRoot (List.rev below) rest
        | [] =>
            if allowAboveRoot then norm_segs allowAboveRoot [".."] rest
            else norm_segs allowAboveRoot [] rest
        end
      else norm_segs allowAboveRoot (acc ++ [seg]) rest
  end.

Definition normalizeString (p : string) (allowAboveRoot : bool) : string :=
  Str.join "/" (norm_segs allowAboveRoot [] (Str.split "/" p)).

Definition isAbsolute (p : string) : bool := Str.startsWith p "/".

Definition normalize (p : string) : string :=
  if Str.is_empty p then "." else
  let abs := isAbsolute p in
  let trailing := Str.endsWith p "/" in
  let q := normalizeString p (negb abs) in
  if Str.is_empty q then
    (if abs then "/" else if trailing then "./" else ".")
  else
    (if abs then "/" else "") +:+ q +:+ (if trailing then "/" else "").

Definition join (args : list string) : string :=
  match filter (λ a, a ≠ "") args with
  | [] => "."
  | l => normalize (Str.join "/" l)
  end.

Definition resolve (cwd p : string) : string :=
  let full := if isAbsolute p then p else if Str.is_empty p then cwd else cwd +:+ "/" +:+ p in
  "/" +:+ normalizeString full false.

Fixpoint strip_slashes_end (s : string) : string :=
  match s with
  | String c s' =>
      match strip_slashes_end s' with
      | "" => if Ascii.eqb c "/" then "" else String c ""
      | t => String c t
      end
  | "" => ""
  end.

Definition basename (p : string) : string :=
  default "" (last (Str.split "/" (strip_slashes_end p))).

Definition dirname (p : string) : string :=
  if Str.is_empty p then "." else
  let core := strip_slashes_end p in
  match List.rev (Str.split "/" core) with
  | _ :: (_ :: _) as parents =>
      let d := strip_slashes_end (Str.join "/" (List.rev parents)) in
      if Str.is_empty d then "/" else d
  | _ => if isAbsolute p then "/" else "."
  end.

End Posix.

(** A host with POSIX paths and working directory [cwd]; the two parsers are
    given by their results on the texts of interest. *)
Definition posixHost (cwd : string) (json : gmap string value)
    (dom : string → list element) : Host := {|
  path_basename := Posix.basename;
  path_dirname := Posix.dirname;
  path_join := Posix.join;
  path_resolve := Posix.resolve cwd;
  JSON5_parse := λ t, json !! t;
  parseHtml := dom
|}.

(** ** Collection loop expansion *)

Module Json.

Definition hex_digit (n : N) : ascii :=
  ascii_of_N (if (n <? 10)%N then 48 + n else 87 + n).

(** One code unit inside a JSON string literal. *)
Definition escape (c : ascii) : string :=
  let n := Chr.code c in
  if (n =? 34)%N then String "\" (String Chr.dquote "") else
  if (n =? 92)%N then "\\" else
  if (n =? 8)%N then "\b" else
  if (n =? 12)%N then "\f" else
  if (n =? 10)%N then "\n" else
  if (n =? 13)%N then "\r" else
  if (n =? 9)%N then "\t" else
  if (n <? 32)%N then
    "\u00" +:+ String (hex_digit (n / 16)) (String (hex_digit (n mod 16)) "")
  else String c "".

Fixpoint escape_all (s : string) : string :=
  match s with
  | "" => ""
  | String c s' => escape c +:+ escape_all s'
  end.

Definition quote (s : string) : string :=
  String Chr.dquote (escape_all s +:+ String Chr.dquote "").

(** [JSON.stringify(v)]; [None] stands for [undefined]. *)
Fixpoint stringify {R : Runtime} (v : value) : option string :=
  match v with
  | VUndefined => None
  | VNull => Some "null"
  | VBool true => Some "true"
  | VBool false => Some "false"
  | VNum z => Some (if Js.safe z then pretty z else number_text z)
  | VOther id => other_json id
  | VStr s => Some (quote s)
  | VArr l =>
      Some ("[" +:+ Str.join "," ((λ x, default "null" (stringify x)) <$> l) +:+ "]")
  | VObj l =>
      Some ("{" +:+
            Str.join ","
              (omap (λ kv : string * value,
                       match stringify kv.2 with
                       | Some t => Some (quote kv.1 +:+ ":" +:+ t)
                       | None => None
                       end) l) +:+ "}")
  end.

End Json.

Section Loops.

Context {R : Runtime}.

(** [/<!--\s*monad:loop\s+(\w+)\s+in\s+([\w.]+)\s*-->([\s\S]*?)<!--\s*monad:endloop\s*-->/g] *)
Definition re_loop : regex :=
  Re.seq [Re.lit "<!--"; RStar true Chr.is_space; Re.lit "monad:loop";
          Re.plus true Chr.is_space; RGroup 1 (Re.plus true Chr.is_word);
          Re.plus true Chr.is_space; Re.lit "in"; Re.plus true Chr.is_space;
          RGroup 2 (Re.plus true (λ c, Chr.is_word c || Chr.exactly "." c));
          RStar true Chr.is_space; Re.lit "-->";
          RGroup 3 (RStar false Chr.any);
          Re.lit "<!--"; RStar true Chr.is_space; Re.lit "monad:endloop";
          RStar true Chr.is_space; Re.lit "-->"].

(** [new RegExp(`{{\\s*${itemVar}\\.(\\w+)\\s*}}`, 'g')] *)
Definition re_item_field (itemVar : string) : regex :=
  Re.seq [Re.lit "{{"; RStar true Chr.is_space; Re.lit itemVar; RChar ".";
          RGroup 1 (Re.plus true Chr.is_word); RStar true Chr.is_space; Re.lit "}}"].

(** [new RegExp(`{{\\s*${itemVar}\\s*}}`, 'g')] *)
Definition re_item (itemVar : string) : regex :=
  Re.seq [Re.lit "{{"; RStar true Chr.is_space; Re.lit itemVar;
          RStar true Chr.is_space; Re.lit "}}"].

(** [/{{@index}}/g] and [/{{@index1}}/g] *)
Definition re_index : regex := Re.lit "{{@index}}".
Definition re_index1 : regex := Re.lit "{{@index1}}".

(** The body of the [forEach] callback for one item; [None] when the
    callback of a field token throws: in reading the field of the item, or
    in the conversion of its result to text. *)
Definition renderItem (itemVar template : string) (item : value) (index : nat) : option string :=
  match renderM
          (λ m, match Js.prop_checked item (group_text m 1) with
                | Some v => Js.string_of (Js.coalesce v (VStr ""))
                | None => None
                end)
          (Re.pieces false (re_item_field itemVar) template) with
  | None => None
  | Some h1 =>
      let json := default "undefined" (Json.stringify item) in
      let h2 := Re.greplace false (re_item itemVar) (λ m, Subst.expand m 0 json) h1 in
      let h3 := Re.greplace false re_index (λ m, Subst.expand m 0 (pretty index)) h2 in
      Some (Re.greplace false re_index1 (λ m, Subst.expand m 0 (pretty (index + 1))) h3)
  end.

(** [collection.forEach(...)] accumulating [rendered]. *)
Fixpoint renderItems (itemVar template : string) (items : list value) (index : nat) : option string :=
  match items with
  | [] => Some ""
  | item :: rest =>
      match renderItem itemVar template item index with
      | Some x =>
          match renderItems itemVar template rest (S index) with
          | Some t => Some (x +:+ t)
          | None => None
          end
      | None => None
      end
  end.

(** One iteration of the [while] loop. *)
Definition expandLoop (collections : value) (result : string) (m : Re.result) : option string :=
  let fullMatch := m.(Re.text) in
  let itemVar := group_text m 1 in
  let collectionPath := group_text m 2 in
  let template := group_text m 3 in
  match Js.items (getByPath collections collectionPath) with
  | Some items =>
      match renderItems itemVar template items 0 with
      | Some rendered => Some (replaceStr fullMatch rendered result)
      | None => None
      end
  | None =>
      Some (replaceStr fullMatch ("<!-- Collection " +:+ collectionPath +:+ " not found -->") result)
  end.

Definition expandCollectionLoops (html : string) (collections : value) : option string :=
  foldl (λ acc m, match acc with
                  | Some result => expandLoop collections result m
                  | None => None
                  end)
        (Some html) (Re.matchAll false re_loop html).

(** The body of a page in [renderAll]: inclusion expansion, deferred when
    collections are enabled, then the loops, then the final interpolation. *)
Definition renderBody `{Host} (depth : nat) (files : store) (partialsDir : string)
    (pageBodyTemplate : string) (ctx : value)
    (collectionsEnabled : bool) (collections : value) : option string :=
  match expandIncludes depth files partialsDir pageBodyTemplate ctx [] collectionsEnabled with
  | None => None
  | Some renderedBody =>
      let hasKeys := match Js.spread collections with [] => false | _ => true end in
      match
        (if collectionsEnabled && hasKeys
         then expandCollectionLoops renderedBody collections
         else Some renderedBody)
      with
      | Some looped => Some (interpolateMustache looped ctx)
      | None => None
      end
  end.

End Loops.

(** ** Audit engine *)

Definition getAttribute (e : element) (name : string) : option string :=
  (λ kv : string * string, kv.2) <$>
    List.find (λ kv : string * string, String.eqb kv.1 name) e.(attributes).

(** [root.querySelectorAll(tag)] and [root.querySelectorAll("a[href]")] *)
Definition byTag (tag : string) (root : list element) : list element :=
  List.filter (λ e, String.eqb e.(tagName) tag) root.
Definition anchorsWithHref (root : list element) : list element :=
  List.filter (λ e, String.eqb e.(tagName) "a" && bool_decide (is_Some (getAttribute e "href"))) root.

Definition quote_class : ascii → bool := Chr.one_of [Chr.dquote; "'"%char].

(** [/<title>\s*[^<]+\s*<\/title>/i] *)
Definition re_title : regex :=
  Re.seq [Re.lit "<title>"; RStar true Chr.is_space; Re.plus true (Chr.none_of ["<"%char]);
          RStar true Chr.is_space; Re.lit "</title>"].

(** [/<meta\s+name=[\x22']description[\x22']\s+content=[\x22'][^\x22']+[\x22']\s*\/?>/i] *)
Definition re_description : regex :=
  Re.seq [Re.lit "<meta"; Re.plus true Chr.is_space; Re.lit "name="; RClass quote_class;
          Re.lit "description"; RClass quote_class; Re.plus true Chr.is_space;
          Re.lit "content="; RClass quote_class;
          Re.plus true (Chr.none_of [Chr.dquote; "'"%char]); RClass quote_class;
          RStar true Chr.is_space; ROpt (RChar "/"); RChar ">"].

(** [/<h1\b/gi] *)
Definition re_h1 : regex := RSeq (Re.lit "<h1") RWordB.

(** [/rel=[\x22']WHAT[\x22']/i] for [icon], [shortcut icon] and [canonical] *)
Definition re_rel (what : string) : regex :=
  Re.seq [Re.lit "rel="; RClass quote_class; Re.lit what; RClass quote_class].

(** [/^\//] *)
Definition re_leading_slash : regex := RSeq RBegin (RChar "/").

Record AuditOpts : Type := {
  distDirAbs : option string;
  maxImageBytes : option N;
  allRoutes : option (list string)
}.

(** [Math.round(bytes / 1024)] *)
Definition roundKB (bytes : N) : N := ((bytes + 512) / 1024)%N.

(** The [alt] check on one [<img>]. *)
Definition altWarnings (img : element) : list string :=
  match getAttribute img "alt" with
  | Some a => if Str.is_empty (Str.trim a) then ["Image missing alt attribute"] else []
  | None => ["Image missing alt attribute"]
  end.

(** The weight check on one [<img>]; [disk] gives the size of each file
    under the output root. *)
Definition weightWarnings `{Host} (disk : gmap string N) (opts : option AuditOpts)
    (img : element) : list string :=
  let src := default "" (getAttribute img "src") in
  let maxBytes := default 500000%N (opts ≫= maxImageBytes) in
  match opts ≫= distDirAbs with
  | Some dist =>
      if negb (Str.is_empty dist) && Str.startsWith src "/" then
        let diskPath :=
          path_join [dist; Re.replace false re_leading_slash (λ m, Subst.expand m 0 "") src] in
        match disk !! diskPath with
        | Some size =>
            if (maxBytes <? size)%N then
              ["Large image (" +:+ pretty (roundKB size) +:+ " KB): " +:+ src +:+
               " (budget " +:+ pretty (roundKB maxBytes) +:+ " KB)"]
            else []
        | None => []
        end
      else []
  | None => []
  end.

(** The body of the loop over the images. *)
Definition auditImage `{Host} (disk : gmap string N) (opts : option AuditOpts)
    (img : element) : list string :=
  altWarnings img ++ weightWarnings disk opts img.

(** [href.split("?")[0].split("#")[0]] *)
Definition cleanHref (href : string) : string :=
  default "" (head (Str.split "#" (default "" (head (Str.split "?" href))))).

Definition withSlash (s : string) : string :=
  if Str.endsWith s "/" then s else s +:+ "/".

Definition routeExists (routes : list string) (clean : string) : bool :=
  existsb (λ route, String.eqb route clean || String.eqb (withSlash route) (withSlash clean)) routes.

Definition isInternal (href : string) : bool :=
  Str.startsWith href "/" && negb (Str.startsWith href "//").

Definition auditLink (routes : list string) (link : element) : list string :=
  let href := default "" (getAttribute link "href") in
  if isInternal href then
    if routeExists routes (cleanHref href) then []
    else ["Broken internal link: " +:+ href]
  else [].

(** The favicon warning; its text quotes the attribute value [icon]. *)
Definition faviconWarning : string :=
  "No favicon <link rel=" +:+ String Chr.dquote "icon" +:+
  String Chr.dquote "> found (consider adding)".

Definition auditHtml `{Host} (disk : gmap string N) (html route : string)
    (opts : option AuditOpts) : list string :=
  let root := parseHtml html in
  let h1 := List.length (Re.matchAll true re_h1 html) in
  (if negb (Re.test true re_title html) then ["Missing <title>"] else []) ++
  (if negb (Re.test true re_description html) then ["Missing meta description"] else []) ++
  (if Nat.eqb h1 0 then ["Missing <h1>"] else []) ++
  (if Nat.ltb 1 h1 then ["Multiple <h1> (" +:+ pretty h1 +:+ ")"] else []) ++
  concat (auditImage disk opts <$> byTag "img" root) ++
  match opts ≫= allRoutes with
  | Some routes => concat (auditLink routes <$> anchorsWithHref root)
  | None => []
  end ++
  (if negb (Re.test true (re_rel "icon") html) && negb (Re.test true (re_rel "shortcut icon") html)
   then [faviconWarning] else []) ++
  (if negb (Re.test true (re_rel "canonical") html) then ["Missing canonical link tag"] else []).

(** ** End of the build: outputs, reports and the audit policy *)

Inductive AuditMode : Type := Off | Warn | Fail.

Record RenderResult : Type := {
  route : string;
  outFile : string;
  html : string;
  warnings : list string;
  title : string
}.

(** The options read by [closeBundle], after defaults. *)
Record BuildOptions : Type := {
  audit_enabled : bool;
  audit_mode : AuditMode;
  accessibility_enabled : bool;
  accessibility_mode : AuditMode;
  sitemap_enabled : bool;
  robots_enabled : bool;
  redirects_enabled : bool;
  redirects_rules : nat;            (* number of redirect rules *)
  redirects_netlify : bool;         (* platform is netlify or both *)
  redirects_vercel : bool;          (* platform is vercel or both *)
  lighthouse_enabled : bool
}.

(** What the build does to the outside, in order. *)
Inductive effect : Type :=
| WriteFile (path : string)
| RunLighthouse.

Inductive outcome : Type :=
| Completed
| Thrown (message : string).

(** The markers by which [closeBundle] recognises an accessibility warning. *)
Definition accessibilityMarkers : list string :=
  ["h1"; "ARIA"; "aria-"; "role="; "Alt text"; "alt attribute"; "tabindex"; "keyboard";
   "focus"; "screen reader"; "landmark"; "skip link"; "contrast ratio"; "Button";
   "Form input"; "table"; "List item"; "Interactive"; "heading hierarchy"; "multiple main"].

Definition isAccessibilityWarning (warning : string) : bool :=
  existsb (Str.includes warning) accessibilityMarkers.

Definition totalWarnings (results : list RenderResult) : nat :=
  foldl (λ a r, a + List.length r.(warnings)) 0 results.

Definition accessibilityWarnings (results : list RenderResult) : nat :=
  foldl (λ acc r, acc + List.length (List.filter isAccessibilityWarning r.(warnings))) 0 results.

(** A step of the build: its effects, and whether it threw. *)
Definition step : Type := list effect * outcome.

(** Sequencing: the second step runs only if the first one completed. *)
Definition andThen (a b : step) : step :=
  match a.2 with
  | Completed => (a.1 ++ b.1, b.2)
  | Thrown _ => a
  end.

Definition write (path : string) : step := ([WriteFile path], Completed).
Definition skip : step := ([], Completed).
Definition throw (message : string) : step := ([], Thrown message).
Definition when (b : bool) (s : step) : step := if b then s else skip.

Notation "a ;; b" := (andThen a b) (at level 100, b at level 200, only parsing).

Definition auditReports `{Host} (o : BuildOptions) (root distDir : string)
    (results : list RenderResult) : step :=
  when o.(audit_enabled)
    (let reportDir := path_join [root; distDir; "__monad"] in
     write (path_join [reportDir; "report.json"]) ;;
     write (path_join [reportDir; "report.html"]) ;;
     match o.(audit_mode) with
     | Fail =>
         when (Nat.ltb 0 (totalWarnings results))
           (throw ("Monad audit failed: " +:+ pretty (totalWarnings results) +:+
                   " warnings (see dist/__monad/report.html)"))
     | _ => skip
     end).

Definition accessibilityGate (o : BuildOptions) (results : list RenderResult) : step :=
  when o.(accessibility_enabled)
    match o.(accessibility_mode) with
    | Fail =>
        when (Nat.ltb 0 (accessibilityWarnings results))
          (throw ("Monad accessibility audit failed: " +:+
                  pretty (accessibilityWarnings results) +:+
                  " accessibility warnings (see dist/__monad/report.html)"))
    | _ => skip
    end.

(** The pages, the 404 page, the sitemap, the robots file and the redirect
    manifests. *)
Definition writeOutputs `{Host} (o : BuildOptions) (root distDir : string)
    (pages : list RenderResult) (notFound : option RenderResult) : step :=
  (flat_map (λ r, [WriteFile r.(outFile)]) pages, Completed) ;;
  match notFound with Some r => write r.(outFile) | None => skip end ;;
  when o.(sitemap_enabled) (write (path_join [root; distDir; "sitemap.xml"])) ;;
  when o.(robots_enabled) (write (path_join [root; distDir; "robots.txt"])) ;;
  when (o.(redirects_enabled) && Nat.ltb 0 o.(redirects_rules))
    (when o.(redirects_netlify) (write (path_join [root; distDir; "_redirects"])) ;;
     when o.(redirects_vercel) (write (path_join [root; distDir; "vercel.json"]))).

(** [closeBundle]; [pages] is the result of [renderAll] and [notFound] that
    of [render404], which is added to the results that are reported. *)
Definition closeBundle `{Host} (isBuild : bool) (o : BuildOptions) (root distDir : string)
    (pages : list RenderResult) (notFound : option RenderResult) : step :=
  if negb isBuild then skip else
  let results := pages ++ match notFound with Some r => [r] | None => [] end in
  writeOutputs o root distDir pages notFound ;;
  auditReports o root distDir results ;;
  accessibilityGate o results ;;
  when o.(lighthouse_enabled) ([RunLighthouse], Completed).

(** *** Notions used to state the audit policy *)

Definition reportJson `{Host} (root distDir : string) : string :=
  path_join [path_join [root; distDir; "__monad"]; "report.json"].
Definition reportHtml `{Host} (root distDir : string) : string :=
  path_join [path_join [root; distDir; "__monad"]; "report.html"].

Definition reportWrites `{Host} (o : BuildOptions) (root distDir : string) : list effect :=
  if o.(audit_enabled) then [WriteFile (reportJson root distDir); WriteFile (reportHtml root distDir)]
  else [].

Definition isFail (m : AuditMode) : bool :=
  match m with Fail => true | _ => false end.

Definition auditAborts (o : BuildOptions) (results : list RenderResult) : bool :=
  o.(audit_enabled) && isFail o.(audit_mode) && Nat.ltb 0 (totalWarnings results).

Definition accessibilityAborts (o : BuildOptions) (results : list RenderResult) : bool :=
  o.(accessibility_enabled) && isFail o.(accessibility_mode) &&
  Nat.ltb 0 (accessibilityWarnings results).

Definition auditMessage (results : list RenderResult) : string :=
  "Monad audit failed: " +:+ pretty (totalWarnings results) +:+
  " warnings (see dist/__monad/report.html)".

Definition accessibilityMessage (results : list RenderResult) : string :=
  "Monad accessibility audit failed: " +:+ pretty (accessibilityWarnings results) +:+
  " accessibility warnings (see dist/__monad/report.html)".

(** A build with the audit on and its mode set to [fail]. *)
Definition auditFailOptions : BuildOptions := {|
  audit_enabled := true; audit_mode := Fail;
  accessibility_enabled := true; accessibility_mode := Warn;
  sitemap_enabled := true; robots_enabled := true;
  redirects_enabled := false; redirects_rules := 0;
  redirects_netlify := true; redirects_vercel := true;
  lighthouse_enabled := true
|}.

Definition homeResult : RenderResult := {|
  route := "/"; outFile := "/site/dist/index.html"; html := "<html></html>";
  warnings := ["OG image skipped: unknown error"]; title := "Home"
|}.

(** ** The fragment dependency graph *)

(** The fragments referenced by the inclusion tags of a text. *)
Definition includeRefs `{Host} (partialsDir html : string) : list string :=
  includeTarget partialsDir <$> Re.matchAll false re_include html.

(** [chain files dir html l]: [l] is a path of the dependency graph that
    starts at the text [html]: its first fragment is referenced by [html],
    every further one by the text of the one before, and all of them exist. *)
Inductive chain `{Host} (files : store) (partialsDir : string) : string → list string → Prop :=
| chain_nil (html : string) : chain files partialsDir html []
| chain_cons (html abs : string) (rest : list string) :
    abs ∈ includeRefs partialsDir html →
    is_Some (files !! abs) →
    chain files partialsDir (readText files abs) rest →
    chain files partialsDir html (abs :: rest).

(** Every acyclic chain from [html] has at most [d] fragments. *)
Definition chainsBounded `{Host} (files : store) (partialsDir html : string) (d : nat) : Prop :=
  ∀ l, chain files partialsDir html l → NoDup l → List.length l ≤ d.

(** The markers left in place of an inclusion tag. *)
Definition cycleMarker (partialRef : string) : string :=
  "<!-- monad:cycle " +:+ partialRef +:+ " -->".
Definition missingMarker (partialRef : string) : string :=
  "<!-- monad:missing-partial " +:+ partialRef +:+ " -->".

(** A store with a fragment that includes itself, and one with a cycle of
    three fragments. *)
Definition selfStore : store :=
  {[ "/site/partials/_nav.html" := "<nav><% nav %></nav>" ]}.

Definition ringStore : store :=
  <["/site/partials/_a.html" := "a(<% b %>)"]>
  (<["/site/partials/_b.html" := "b(<% c.html %>)"]>
  (<["/site/partials/_c.html" := "c(<% a %>)"]> ∅)).

Definition plainHost : Host := posixHost "/site" ∅ (λ _, []).


(** The match of the tag [<% nav %>]. *)
Definition navTag : Re.result := Re.Result "" "<% nav %>" "" [(1, (3, 6))].


(** ** Notions used to state the properties *)

Fixpoint str_all (p : ascii → bool) (s : string) : bool :=
  match s with
  | "" => true
  | String c s' => p c && str_all p s'
  end.

(** The code units of a plain fragment reference: no white space, comma or
    percent sign. *)
Definition refChar (c : ascii) : bool :=
  negb (Chr.is_space c) && Chr.none_of [","%char; "%"%char] c.

(** The code units of a plain token path: no white space and no closing
    brace. *)
Definition pathChar (c : ascii) : bool :=
  negb (Chr.is_space c) && Chr.none_of ["}"%char] c.

(** A continuation that does not look at the code unit before the current
    position. *)
Definition prevFree (k : Re.cont) : Prop :=
  ∀ n p p' s cs, k n p s cs = k n p' s cs.

(** Patterns whose matching does not look at the text before the match. *)
Fixpoint anchorFree (r : regex) : bool :=
  match r with
  | RBegin | RWordB => false
  | RSeq r1 r2 | RAlt r1 r2 => anchorFree r1 && anchorFree r2
  | ROpt r1 | RGroup _ r1 => anchorFree r1
  | _ => true
  end.

Fixpoint units (s : string) : list Re.piece :=
  match s with
  | "" => []
  | String c s' => Re.Unit c :: units s'
  end.


(** The text [s] does not contain the text [p]. *)
Definition lacks (p s : string) : bool := negb (Str.includes s p).

(** A lookup that misses: at some step of the path the value reached is
    [null] or [undefined].  A property that the value neither owns nor
    inherits reads as [undefined]; a read that throws is not a miss. *)
Inductive missing {R : Runtime} : value → list string → Prop :=
| missing_here (v : value) (parts : list string) :
    Js.nullish v = true → missing v parts
| missing_later (v w : value) (p : string) (parts : list string) :
    Js.prop_checked v p = Some w → missing w parts → missing v (p :: parts).

(** The entries of Node's runtime that the examples read: the constructor
    and the prototype of plain objects and of arrays, and the number
    [1e21]; the other entries are placeholders, which no example reads. *)
Definition nodeRuntime : Runtime := {|
  inherited := λ kd k,
    match kd with
    | KObject =>
        if String.eqb k "constructor" then VOther "Object"
        else if String.eqb k "__proto__" then VOther "Object.prototype"
        else VUndefined
    | KArray =>
        if String.eqb k "constructor" then VOther "Array"
        else if String.eqb k "__proto__" then VOther "Array.prototype"
        else VUndefined
    | _ => VUndefined
    end;
  other_get := λ id k,
    if String.eqb id "Object" && String.eqb k "name" then Some (VStr "Object")
    else if String.eqb id "Array" && String.eqb k "name" then Some (VStr "Array")
    else if String.eqb id "Array.prototype" && String.eqb k "length" then Some (VNum 0)
    else Some VUndefined;
  other_text := λ id,
    if String.eqb id "Object" then "function Object() { [native code] }"
    else if String.eqb id "Array" then "function Array() { [native code] }"
    else if String.eqb id "Object.prototype" then "[object Object]"
    else "";
  other_json := λ id,
    if String.eqb id "Object.prototype" then Some "{}"
    else if String.eqb id "Array.prototype" then Some "[]"
    else None;
  other_items := λ id, if String.eqb id "Array.prototype" then Some [] else None;
  other_entries := λ _, [];
  number_text := λ z, if (z =? 10 ^ 21)%Z then "1e+21" else pretty z
|}.

(** A page context with a title and no author. *)
Definition pageCtx : value :=
  VObj [("site", VObj [("name", VStr "Monad")]);
        ("page", VObj [("route", VStr "/"); ("title", VStr "Home")]);
        ("data", VObj [])].


(** The match of a plain tag [<% name %>]. *)
Definition tagOf (name : string) : Re.result :=
  Re.Result "" ("<% " +:+ name +:+ " %>") "" [(1, (3, 3 + String.length name))].

(** The file a plain reference resolves to. *)
Definition fragmentPath `{Host} (partialsDir name : string) : string :=
  path_resolve (resolvePartial partialsDir name).

(** A host whose JSON5 parser accepts one data object. *)
Definition cardHost : Host :=
  posixHost "/site" {[ "{title:'Hi'}" := VObj [("title", VStr "Hi")] ]} (λ _, []).

Definition cardStore : store :=
  {[ "/site/partials/_card.html" := "<b>{{data.title}}{{item.name}}</b>" ]}.


Definition badgeStore : store :=
  {[ "/site/partials/_badge.html" := "<b>{{item.name}}</b>" ]}.


(** A markup page with text before its metadata block, and the parser's
    result on the block. *)
Definition metaHost : Host :=
  posixHost "/site" {[ "{title:'About'}" := VObj [("title", VStr "About")] ]} (λ _, []).

Definition pageWithIntro : string :=
  "<p>intro</p><!-- monad {title:'About'} --><h1>About</h1>".


(** ** Sample documents for the audit *)

Definition isBrokenLink (warning : string) : bool :=
  String.prefix "Broken internal link: " warning.

(** A document with two top-level headings and an image without [alt]. *)
Definition docTwoHeadings : string :=
  "<html><head><title>T</title></head><body><h1>A</h1><h1>B</h1><img src='a.png'></body></html>".

(** A document with one heading, a title, a description, a canonical link
    and an image with [alt], and no favicon link. *)
Definition docNoFavicon : string :=
  "<html><head><title>Home</title><meta name='description' content='Welcome'>" +:+
  "<link rel='canonical' href='https://example.com/'></head>" +:+
  "<body><h1>Home</h1><img src='/a.png' alt='Logo'></body></html>".

(** The same with a favicon link. *)
Definition docComplete : string :=
  "<html><head><title>Home</title><meta name='description' content='Welcome'>" +:+
  "<link rel='canonical' href='https://example.com/'><link rel='icon' href='/favicon.ico'></head>" +:+
  "<body><h1>Home</h1><img src='/a.png' alt='Logo'></body></html>".

(** A document with four anchors. *)
Definition docLinks : string :=
  "<a href='/missing/'>a</a><a href='/about'>b</a>" +:+
  "<a href='//cdn.example.com/x'>c</a><a href='/about/?q=1#top'>d</a><a name='top'>e</a>".

(** The elements of the sample documents, as the HTML parser returns them. *)
Definition sampleDom (html : string) : list element :=
  if String.eqb html docTwoHeadings then
    [Element "h1" []; Element "h1" []; Element "img" [("src", "a.png")]]
  else if String.eqb html docNoFavicon || String.eqb html docComplete then
    [Element "h1" []; Element "img" [("src", "/a.png"); ("alt", "Logo")]]
  else if String.eqb html docLinks then
    [Element "a" [("href", "/missing/")]; Element "a" [("href", "/about")];
     Element "a" [("href", "//cdn.example.com/x")]; Element "a" [("href", "/about/?q=1#top")];
     Element "a" [("name", "top")]]
  else [].

Definition auditHost : Host := posixHost "/site" ∅ sampleDom.

Definition siteRoutes : list string := ["/"; "/about/"].

Definition linkOpts : AuditOpts :=
  {| distDirAbs := None; maxImageBytes := None; allRoutes := Some siteRoutes |}.


(** The text in front of the first [sep]. *)
Fixpoint upto (sep : ascii) (s : string) : string :=
  match s with
  | "" => ""
  | String c s' => if Ascii.eqb c sep then "" else String c (upto sep s')
  end.

(** The text [s] does not contain the code unit [x]. *)
Definition without (x : ascii) (s : string) : bool :=
  str_all (λ c, negb (Ascii.eqb c x)) s.


(** ** Sample collections *)

Definition postsLoop : string :=
  "<!-- monad:loop p in posts.items --><h2>{{p.title}}</h2><!-- monad:endloop -->".

Definition postsAB : value :=
  VObj [("posts", VObj [("items", VArr [VObj [("title", VStr "A")]; VObj [("title", VStr "B")]])])].

Definition postsBA : value :=
  VObj [("posts", VObj [("items", VArr [VObj [("title", VStr "B")]; VObj [("title", VStr "A")]])])].

(** A collection with a title that contains two dollar signs. *)
Definition postsDollar : value :=
  VObj [("posts", VObj [("items", VArr [VObj [("title", VStr "Save $$ now")]])])].

Definition numbers : value := VObj [("nums", VArr [VNum 7; VNum 8])].


(** A fragment that holds the loop over the posts, and a page context with
    the collections. *)
Definition listStore : store :=
  {[ "/site/partials/_list.html" := postsLoop ]}.

Definition postsCtx : value :=
  VObj [("site", VObj [("name", VStr "Monad")]);
        ("page", VObj [("route", VStr "/"); ("title", VStr "Home")]);
        ("data", VObj []);
        ("collections", postsAB)].

(** ** Site URL, output files and escaping *)

(** [/\/$/] *)
Definition re_trailing_slash : regex := RSeq (RChar "/") REnd.

Definition normalizeUrl (url : string) : string :=
  Re.replace false re_trailing_slash (λ m, Subst.expand m 0 "") url.

Definition isPartialFilename `{Host} (filePath : string) : bool :=
  Str.startsWith (path_basename filePath) "_".

Definition outFileFromRoute `{Host} (route distDir : string) (cleanUrls : bool) : string :=
  let clean := if Str.startsWith route "/" then Str.drop 1 route else route in
  if negb cleanUrls then
    let file :=
      if String.eqb clean "" then "index.html"
      else Re.replace false re_trailing_slash (λ m, Subst.expand m 0 "") clean +:+ ".html" in
    path_join [distDir; file]
  else if String.eqb clean "" then path_join [distDir; "index.html"]
  else
    let folder := Re.replace false re_trailing_slash (λ m, Subst.expand m 0 "") clean in
    path_join [distDir; folder; "index.html"].

(** [s.replaceAll(pat, repl)] with a string pattern: every occurrence of
    the pattern, taken literally, from left to right; the replacement is
    expanded by [GetSubstitution]. *)
Definition replaceAllStr (pat repl s : string) : string :=
  Re.greplace false (Re.lit pat) (λ m, Subst.expand m 0 repl) s.

Definition escapeHtml (s : string) : string :=
  replaceAllStr ">" "&gt;" (replaceAllStr "<" "&lt;" (replaceAllStr "&" "&amp;" s)).

Definition escapeAttr (s : string) : string :=
  replaceAllStr (String Chr.dquote "") "&quot;" (escapeHtml s).

(** The entity that stands for a code unit in escaped text. *)
Definition entity (c : ascii) : string :=
  if Ascii.eqb c "&" then "&amp;"
  else if Ascii.eqb c "<" then "&lt;"
  else if Ascii.eqb c ">" then "&gt;"
  else String c "".

Definition entityAttr (c : ascii) : string :=
  if Ascii.eqb c Chr.dquote then "&quot;" else entity c.

Fixpoint encode (f : ascii → string) (s : string) : string :=
  match s with
  | "" => ""
  | String c s' => f c +:+ encode f s'
  end.

(** [s.toLowerCase()] on code units below U+0100. *)
Definition lowerUnit (c : ascii) : ascii :=
  let n := Chr.code c in
  if Chr.between 65 90 c || (Chr.between 192 222 c && negb (n =? 215)%N)
  then ascii_of_N (n + 32) else c.

Fixpoint toLowerCase (s : string) : string :=
  match s with
  | "" => ""
  | String c s' => String (lowerUnit c) (toLowerCase s')
  end.

(** ** Head tags, sitemap and robots file *)

(** A line feed, and a text between double quotes. *)
Definition nl : string := String "010"%char "".
Definition quoted (s : string) : string := String Chr.dquote (s +:+ String Chr.dquote "").

(** A string used as a condition: defined and not empty. *)
Definition truthy (s : option string) : bool :=
  match s with Some t => negb (Str.is_empty t) | None => false end.

(** [<meta KEY="NAME" content="CONTENT">] *)
Definition metaTag (key name content : string) : string :=
  "<meta " +:+ key +:+ "=" +:+ quoted name +:+ " content=" +:+ quoted content +:+ ">".

(** The address of a route under the site URL. *)
Definition locationOf (siteUrl route : string) : string :=
  normalizeUrl siteUrl +:+ (if String.eqb route "/" then "/" else route).

Definition buildMetaTags (siteUrl route title description : string)
    (locale twitterHandle ogImageAbs themeColor : option string) : string :=
  let canonical := locationOf siteUrl route in
  let ogImage := default "" ogImageAbs in
  let locale := default "en_US" locale in
  let twitter := default "" twitterHandle in
  let theme := default "" themeColor in
  Str.join nl (filter (λ t, t ≠ "")
    [ "<meta charset=" +:+ quoted "utf-8" +:+ ">";
      metaTag "name" "viewport" "width=device-width, initial-scale=1";
      "<title>" +:+ escapeHtml title +:+ "</title>";
      metaTag "name" "description" (escapeAttr description);
      "<link rel=" +:+ quoted "canonical" +:+ " href=" +:+ quoted (escapeAttr canonical) +:+ ">";
      if Str.is_empty theme then "" else metaTag "name" "theme-color" (escapeAttr theme);
      metaTag "property" "og:type" "website";
      metaTag "property" "og:locale" (escapeAttr locale);
      metaTag "property" "og:title" (escapeAttr title);
      metaTag "property" "og:description" (escapeAttr description);
      metaTag "property" "og:url" (escapeAttr canonical);
      if Str.is_empty ogImage then "" else metaTag "property" "og:image" (escapeAttr ogImage);
      metaTag "name" "twitter:card" "summary_large_image";
      if Str.is_empty twitter then "" else metaTag "name" "twitter:site" (escapeAttr twitter);
      metaTag "name" "twitter:title" (escapeAttr title);
      metaTag "name" "twitter:description" (escapeAttr description);
      if Str.is_empty ogImage then "" else metaTag "name" "twitter:image" (escapeAttr ogImage) ]).

(** A route of the sitemap with its date of last change. *)
Record SitemapRoute : Type := {
  sitemap_route : string;
  lastmod : option string
}.

(** The options of the sitemap; the priority is counted in tenths, and
    [toFixed(1)] prints it with one decimal. *)
Record SitemapOpts : Type := {
  changefreq : option string;
  priority : option N
}.

Definition toFixed1 (tenths : N) : string :=
  pretty (tenths / 10)%N +:+ "." +:+ pretty (tenths mod 10)%N.

Definition sitemapUrl (siteUrl : string) (opts : option SitemapOpts) (r : SitemapRoute) : string :=
  let loc := locationOf siteUrl r.(sitemap_route) in
  let lastmod :=
    if truthy r.(lastmod) then "<lastmod>" +:+ default "" r.(lastmod) +:+ "</lastmod>" else "" in
  let cf :=
    if truthy (opts ≫= changefreq)
    then "<changefreq>" +:+ default "" (opts ≫= changefreq) +:+ "</changefreq>" else "" in
  let pr :=
    match opts ≫= priority with
    | Some p => "<priority>" +:+ toFixed1 p +:+ "</priority>"
    | None => ""
    end in
  "<url><loc>" +:+ escapeHtml loc +:+ "</loc>" +:+ lastmod +:+ cf +:+ pr +:+ "</url>".

Definition generateSitemap (siteUrl : string) (routes : list SitemapRoute)
    (opts : option SitemapOpts) : string :=
  "<?xml version=" +:+ quoted "1.0" +:+ " encoding=" +:+ quoted "UTF-8" +:+ "?>" +:+ nl +:+
  "<urlset xmlns=" +:+ quoted "http://www.sitemaps.org/schemas/sitemap/0.9" +:+ ">" +:+
  Str.join "" (sitemapUrl siteUrl opts <$> routes) +:+ "</urlset>".

Inductive RobotsPolicy : Type := AllowAll | DisallowAll.

Definition generateRobots (siteUrl : string) (policy : RobotsPolicy)
    (disallow : option (list string)) : string :=
  let rules :=
    match policy with
    | DisallowAll => ["Disallow: /"]
    | AllowAll =>
        match disallow with
        | Some (d :: ds) => (λ d, "Disallow: " +:+ d) <$> (d :: ds)
        | _ => ["Allow: /"]
        end
    end in
  Str.join nl (["User-agent: *"] ++ rules ++
               ["Sitemap: " +:+ normalizeUrl siteUrl +:+ "/sitemap.xml"]) +:+ nl.

(** The routes listed in the sitemap by [closeBundle]: those of the
    results that start with none of the excluded prefixes, dated [today]. *)
Definition sitemapRoutes (results : list RenderResult) (exclude : list string)
    (today : string) : list SitemapRoute :=
  List.filter (λ r, negb (existsb (Str.startsWith r.(sitemap_route)) exclude))
    ((λ r : RenderResult, {| sitemap_route := r.(route); lastmod := Some today |}) <$> results).

(** The result of [render404] for a site without a page of its own for
    missing addresses. *)
Definition notFoundResult : RenderResult := {|
  route := "/404"; outFile := "/site/dist/404.html"; html := "<html></html>";
  warnings := []; title := "Page Not Found"
|}.

(** Attribute text without a quote of either kind. *)
Definition plainAttr (s : string) : bool := str_all (Chr.none_of [Chr.dquote; "'"%char]) s.

(** ** Colours *)

(** [[a-f\d]] under the [i] flag. *)
Definition hexClass (c : ascii) : bool :=
  Chr.is_digit c || Chr.between 97 102 c || Chr.between 65 70 c.

(** [([a-f\d]{2})] as group [i] *)
Definition hexPair (i : nat) : regex := RGroup i (RSeq (RClass hexClass) (RClass hexClass)).

(** [/^#?([a-f\d]{2})([a-f\d]{2})([a-f\d]{2})$/i] *)
Definition re_hex : regex :=
  Re.seq [RBegin; ROpt (RChar "#"); hexPair 1; hexPair 2; hexPair 3; REnd].

Definition hexDigit (c : ascii) : option N :=
  if Chr.is_digit c then Some (Chr.code c - 48)%N
  else if Chr.between 97 102 c then Some (Chr.code c - 87)%N
  else if Chr.between 65 70 c then Some (Chr.code c - 55)%N
  else None.

(** The value of the longest stretch of hexadecimal digits at the start. *)
Fixpoint hexDigits (acc : N) (s : string) : N :=
  match s with
  | String c s' =>
      match hexDigit c with
      | Some d => hexDigits (16 * acc + d) s'
      | None => acc
      end
  | "" => acc
  end.

(** [parseInt(s, 16)]; [None] stands for [NaN]. *)
Definition parseInt16 (s : string) : option Z :=
  let s1 := Str.trimStart s in
  let negative := String.prefix "-" s1 in
  let s2 := if String.prefix "-" s1 || String.prefix "+" s1 then Str.drop 1 s1 else s1 in
  let s3 := if String.prefix "0x" s2 || String.prefix "0X" s2 then Str.drop 2 s2 else s2 in
  match s3 with
  | String c _ =>
      match hexDigit c with
      | Some _ =>
          let v := Z.of_N (hexDigits 0 s3) in
          Some (if negative then (- v)%Z else v)
      | None => None
      end
  | "" => None
  end.

Record Rgb : Type := { r : option Z; g : option Z; b : option Z }.

Definition hexToRgb (hex : string) : option Rgb :=
  match Re.exec true re_hex hex with
  | Some result =>
      Some {| r := parseInt16 (group_text result 1);
              g := parseInt16 (group_text result 2);
              b := parseInt16 (group_text result 3) |}
  | None => None
  end.

(** A colour channel: a number from 0 to 255. *)
Definition channel (v : option Z) : Prop := ∃ z, v = Some z ∧ (0 ≤ z < 256)%Z.

(** The number written by two hexadecimal digits. *)
Definition byteOf (h l : ascii) : Z :=
  Z.of_N (16 * default 0%N (hexDigit h) + default 0%N (hexDigit l)).

(** A text of six code units. *)
Definition sixDigits (c1 c2 c3 c4 c5 c6 : ascii) : string :=
  String c1 (String c2 (String c3 (String c4 (String c5 (String c6 ""))))).

(** The colour written by six hexadecimal digits. *)
Definition colour (c1 c2 c3 c4 c5 c6 : ascii) : Rgb :=
  {| r := Some (byteOf c1 c2); g := Some (byteOf c3 c4); b := Some (byteOf c5 c6) |}.

(** ** Slot blocks and the layout *)

(** [/<!--\s*monad:slot\s+(\w+)\s*-->([\s\S]*?)<!--\s*monad:endslot\s*-->/gi] *)
Definition re_slot : regex :=
  Re.seq [Re.lit "<!--"; RStar true Chr.is_space; Re.lit "monad:slot";
          Re.plus true Chr.is_space; RGroup 1 (Re.plus true Chr.is_word);
          RStar true Chr.is_space; Re.lit "-->";
          RGroup 2 (RStar false Chr.any);
          Re.lit "<!--"; RStar true Chr.is_space; Re.lit "monad:endslot";
          RStar true Chr.is_space; Re.lit "-->"].

(** The slots by name, and the text without the slot blocks. *)
Definition extractSlotBlocks (html : string) : list (string * value) * string :=
  let slots :=
    foldl (λ slots m,
             Js.obj_set (group_text m 1) (VStr (Str.trim (default "" (Re.group m 2)))) slots)
          [] (Re.matchAll true re_slot html) in
  (slots, Str.trim (Re.greplace true re_slot (λ m, Subst.expand m 2 "") html)).

(** The layout used when the layout fragment does not exist. *)
Definition builtinLayout : string :=
  "<!doctype html><html><head>{{slot:head}}</head><body>{{slot:main}}</body></html>".

(** [/<\/head>/i] *)
Definition re_head_end : regex := Re.lit "</head>".

(** The layout step of [renderAll]: the rendered body goes into the main
    slot, the footer slot is emptied, and the head tags that are not empty
    go into the head slot or, in a layout without one, in front of the end
    of the head element. *)
Definition insertSlots (layoutHtml renderedBody : string)
    (metaTags assetTags fontOptimizationTags extraHead : string) : string :=
  let layout1 := replaceAllStr "{{slot:main}}" renderedBody layoutHtml in
  let layout2 := replaceAllStr "{{slot:footer}}" "" layout1 in
  let headCombined :=
    Str.join nl (filter (λ t, t ≠ "") [metaTags; assetTags; fontOptimizationTags; extraHead]) in
  if Str.includes layout2 "{{slot:head}}"
  then replaceAllStr "{{slot:head}}" headCombined layout2
  else Re.replace true re_head_end
         (λ m, Subst.expand m 0 (headCombined +:+ nl +:+ "</head>")) layout2.

(** The text behind a greedy quantifier: empty, or starting with a code
    unit outside the class. *)
Definition stops (cls : ascii → bool) (rest : string) : bool :=
  match rest with
  | "" => true
  | String a _ => negb (cls a)
  end.

(** The text of a slot block. *)
Definition slotBlock (name body : string) : string :=
  "<!-- monad:slot " +:+ name +:+ " -->" +:+ body +:+ "<!-- monad:endslot -->".

(** The text of the comment that opens a slot. *)
Definition slotOpener (name : string) : string := "<!-- monad:slot " +:+ name +:+ " -->".

(** The pattern and the text differ at a position that both have. *)
Fixpoint clash (p t : string) : bool :=
  match p, t with
  | String x p', String c t' => if Ascii.eqb x c then clash p' t' else true
  | _, _ => false
  end.

(** The pattern clashes with every end of the text that is not empty. *)
Fixpoint clashAll (p tok : string) : bool :=
  match tok with
  | "" => true
  | String c tok' => clash p tok && clashAll p tok'
  end.

(** The main slot of the built-in layout, with the text around it; the
    replacement of the body is expanded against it. *)
Definition mainSlot : Re.result :=
  Re.Result "<!doctype html><html><head>{{slot:head}}</head><body>" "{{slot:main}}"
            "</body></html>" [].

(** ** Heading hierarchy and the accessibility check *)

(** [s.toUpperCase()] on code units below U+0100; the sharp s gives two
    letters, and the two code units whose capital lies beyond U+00FF are
    left as they are. *)
Definition upperUnit (c : ascii) : string :=
  let n := Chr.code c in
  if Chr.between 97 122 c || (Chr.between 224 254 c && negb (n =? 247)%N)
  then String (ascii_of_N (n - 32)) ""
  else if (n =? 223)%N then "SS"
  else String c "".

Definition toUpperCase (s : string) : string := encode upperUnit s.

Definition headingTags : list string := ["h1"; "h2"; "h3"; "h4"; "h5"; "h6"].

(** [root.querySelectorAll('h1, h2, h3, h4, h5, h6')] *)
Definition headingsOf (root : list element) : list element :=
  List.filter (λ e, existsb (String.eqb e.(tagName)) headingTags) root.

(** [parseInt(tagName.charAt(1))]; 0 stands for [NaN], with which every
    comparison of the loop fails as it does with 0. *)
Definition headingLevel (tag : string) : nat :=
  default 0 (Js.char_at 1 tag ≫= Subst.digit).

Definition multipleH1Warning (h1Count : nat) : string :=
  "Multiple h1 elements found (" +:+ pretty h1Count +:+ "). Use only one h1 per page".

Definition skipWarning (tag : string) (previousLevel : nat) : string :=
  "Heading hierarchy skipped level: " +:+ toUpperCase tag +:+ " after h" +:+ pretty previousLevel.

Definition missingH1Warning : string :=
  "Missing h1 element - every page should have exactly one h1".

(** The variables of the loop over the headings, and the warnings pushed. *)
Record HeadingScan : Type := {
  previousLevel : nat;
  hasH1 : bool;
  h1Count : nat;
  pushed : list string
}.

Definition headingStep (st : HeadingScan) (heading : element) : HeadingScan :=
  let tag := heading.(tagName) in
  let currentLevel := headingLevel tag in
  let count := if Nat.eqb currentLevel 1 then S st.(h1Count) else st.(h1Count) in
  {| previousLevel := currentLevel;
     hasH1 := st.(hasH1) || Nat.eqb currentLevel 1;
     h1Count := count;
     pushed :=
       st.(pushed) ++
       (if Nat.eqb currentLevel 1 && Nat.ltb 1 count then [multipleH1Warning count] else []) ++
       (if Nat.ltb 0 st.(previousLevel) && Nat.ltb (st.(previousLevel) + 1) currentLevel
        then [skipWarning tag st.(previousLevel)] else []) |}.

(** The heading check of [auditAccessibility] (rule [headingHierarchy]). *)
Definition headingHierarchyWarnings (root : list element) : list string :=
  let st := foldl headingStep
              {| previousLevel := 0; hasH1 := false; h1Count := 0; pushed := [] |}
              (headingsOf root) in
  st.(pushed) ++ (if st.(hasH1) then [] else [missingH1Warning]).

(** No heading lies more than one level below the heading before it. *)
Fixpoint stepwise (previous : nat) (levels : list nat) : bool :=
  match levels with
  | [] => true
  | l :: rest => negb (Nat.ltb 0 previous && Nat.ltb (previous + 1) l) && stepwise l rest
  end.

(** The levels of the headings of a document, in document order. *)
Definition levelsOf (root : list element) : list nat :=
  (λ e, headingLevel e.(tagName)) <$> headingsOf root.

(** A build with the audit off and the accessibility check in mode
    [fail], and a page on which a heading is skipped. *)
Definition accessibilityFailOptions : BuildOptions := {|
  audit_enabled := false; audit_mode := Warn;
  accessibility_enabled := true; accessibility_mode := Fail;
  sitemap_enabled := false; robots_enabled := false;
  redirects_enabled := false; redirects_rules := 0;
  redirects_netlify := true; redirects_vercel := true;
  lighthouse_enabled := false
|}.

Definition skippedHeadingResult : RenderResult := {|
  route := "/"; outFile := "/site/dist/index.html"; html := "<h1>a</h1><h2>b</h2><h4>c</h4>";
  warnings := [skipWarning "h4" 2]; title := "Home"
|}.

(** A page without a first-level heading, as the accessibility check
    reports it. *)
Definition noHeadingResult : RenderResult := {|
  route := "/"; outFile := "/site/dist/index.html"; html := "<h2>a</h2>";
  warnings := [missingH1Warning]; title := "Home"
|}.

(** A warning about a level skipped behind a heading below the first
    level. *)
Definition isLowSkip (w : string) : Prop :=
  ∃ tag previous, tag ∈ headingTags ∧ 2 ≤ previous ≤ 6 ∧ w = skipWarning tag previous.

(** ** The shapes of a document that the checks of the audit recognise *)

(** A title element without attributes. *)
Definition titleTag (t : string) : string := "<title>" +:+ t +:+ "</title>".

(** A description: the attribute [name] before the attribute [content],
    one space between them, the values in the quote character [q]. *)
Definition descriptionTag (q : ascii) (d : string) : string :=
  "<meta name=" +:+ String q ("description" +:+ String q
    (" content=" +:+ String q (d +:+ String q ">"))).

(** The attribute [rel] with a value in the quote character [q]. *)
Definition relAttr (q : ascii) (what : string) : string :=
  "rel=" +:+ String q (what +:+ String q "").

(** Three documents that differ from [docComplete] in the spelling of one
    tag: a title element with an attribute, a description whose text holds
    an apostrophe, and a description with [content] before [name]. *)
Definition docTitleAttr : string :=
  "<html><head><title lang='en'>Home</title><meta name='description' content='Welcome'>" +:+
  "<link rel='canonical' href='https://example.com/'><link rel='icon' href='/favicon.ico'></head>" +:+
  "<body><h1>Home</h1></body></html>".

Definition docApostrophe : string :=
  "<html><head><title>Home</title><meta name=" +:+ String Chr.dquote "description" +:+
  String Chr.dquote " content=" +:+ String Chr.dquote "Bob's page" +:+ String Chr.dquote ">" +:+
  "<link rel='canonical' href='https://example.com/'><link rel='icon' href='/favicon.ico'></head>" +:+
  "<body><h1>Home</h1></body></html>".

Definition docSwapped : string :=
  "<html><head><title>Home</title><meta content='Welcome' name='description'>" +:+
  "<link rel='canonical' href='https://example.com/'><link rel='icon' href='/favicon.ico'></head>" +:+
  "<body><h1>Home</h1></body></html>".

(** The opener of a first-level heading at the start of a text: [<h1], the
    letter in either case, with no word character behind it. *)
Definition h1At (s : string) : bool :=
  match s with
  | String c1 (String c2 (String c3 rest)) =>
      Ascii.eqb "<" c1 && (Ascii.eqb "h" c2 || Ascii.eqb "H" c2) && Ascii.eqb "1" c3 &&
      stops Chr.is_word rest
  | _ => false
  end.

(** The number of places of a text at which such an opener stands. *)
Fixpoint countH1 (s : string) : nat :=
  match s with
  | "" => 0
  | String c s' => (if h1At (String c s') then 1 else 0) + countH1 s'
  end.

(** The match that a piece of a scan holds, if it is one. *)
Definition hit (p : Re.piece) : option Re.result :=
  match p with Re.Hit m => Some m | Re.Unit _ => None end.

(** ** Loop blocks *)

(** A loop block and the marker left for a collection that is not a list. *)
Definition loopBlock (itemVar collectionPath template : string) : string :=
  "<!-- monad:loop " +:+ itemVar +:+ " in " +:+ collectionPath +:+ " -->" +:+ template +:+
  "<!-- monad:endloop -->".

Definition collectionMarker (collectionPath : string) : string :=
  "<!-- Collection " +:+ collectionPath +:+ " not found -->".

Definition pathUnit (c : ascii) : bool := Chr.is_word c || Chr.exactly "." c.

(** The token for a field of the loop variable. *)
Definition fieldToken (itemVar field : string) : string :=
  "{{" +:+ itemVar +:+ "." +:+ field +:+ "}}".

(** The match of a loop block between [a] and [b]. *)
Definition loopMatch (a itemVar collectionPath template b : string) : Re.result :=
  Re.Result a (loopBlock itemVar collectionPath template) b
    [(3, (24 + String.length itemVar + String.length collectionPath,
          24 + String.length itemVar + String.length collectionPath + String.length template));
     (2, (20 + String.length itemVar,
          20 + String.length itemVar + String.length collectionPath));
     (1, (16, 16 + String.length itemVar))].

(** The text that a field of an item contributes. *)
Definition fieldText {R : Runtime} (item : value) (field : string) : string :=
  Js.toString (Js.coalesce (Js.prop item field) (VStr "")).

(** The callback of a field token returns for the item: the read of the
    field does, and so does the conversion of its result to text. *)
Definition fieldPrints {R : Runtime} (item : value) (field : string) : bool :=
  Js.readable item field && Js.printable (Js.coalesce (Js.prop item field) (VStr "")).

(** The instances of a template with one field token, one per item. *)
Definition instances {R : Runtime} (ta field tb : string) (items : list value) : string :=
  foldr (λ item acc, (ta +:+ fieldText item field +:+ tb) +:+ acc) "" items.

Definition postsNull : value :=
  VObj [("posts", VArr [VObj [("title", VStr "A")]; VNull])].

Definition postsTitles : value :=
  VObj [("posts", VArr [VObj [("title", VStr "A")]; VObj [("title", VNum 7)]; VObj []])].

(** The patterns of the item pass start with two braces. *)
Definition bracesFirst (r : regex) : Prop :=
  ∀ (k : Re.cont) s n prev cs, String.prefix "{{" s = false → Re.run false r k n prev s cs = None.

(** ** References to fragments *)

(** The code units of a plain fragment name, and those of a file name. *)
Definition nameChar (c : ascii) : bool := Chr.is_word c || Chr.exactly "-" c.

Definition fileChar (c : ascii) : bool := nameChar c || Chr.exactly "." c.

(** The file of the fragment [name], in the folder [sub] of the fragment
    directory when one is given. *)
Definition fragmentFile `{Host} (partialsDir sub name : string) : string :=
  path_join [partialsDir; sub; "_" +:+ name +:+ ".html"].

(** ** The report page *)

(** The cell of the warnings of a page in [htmlReport]. *)
Definition warningCell (ws : list string) : string :=
  match ws with
  | [] => "<span class=" +:+ quoted "ok" +:+ ">OK</span>"
  | _ => "<ul>" +:+ Str.join "" ((λ w, "<li>" +:+ escapeHtml w +:+ "</li>") <$> ws) +:+ "</ul>"
  end.

(** The row of a page; the title is a text, the empty one when the page
    has none. *)
Definition reportRow (r : RenderResult) : string :=
  "<tr>" +:+ nl +:+
  "      <td><code>" +:+ escapeHtml r.(route) +:+ "</code></td>" +:+ nl +:+
  "      <td>" +:+ escapeHtml r.(title) +:+ "</td>" +:+ nl +:+
  "      <td>" +:+ warningCell r.(warnings) +:+ "</td>" +:+ nl +:+
  "    </tr>".

(** [rows] of [htmlReport]. *)
Definition reportRows (results : list RenderResult) : string :=
  Str.join nl (reportRow <$> results).

(** The number of occurrences of a code unit in a text. *)
Fixpoint countUnit (x : ascii) (s : string) : nat :=
  match s with
  | "" => 0
  | String c s' => (if Ascii.eqb c x then 1 else 0) + countUnit x s'
  end.

(** The number of angle brackets that open a tag in the row of a page with
    [n] warnings. *)
Definition rowTags (n : nat) : nat := 12 + 2 * n.

(** ** Social images *)

(** The slug of a route in [renderAll], and the file of its image ([mode]
    single or per route). *)
Definition ogSlug (route : string) : string :=
  if String.eqb route "/" then "home"
  else
    Re.greplace false (RChar "/") (λ m, Subst.expand m 0 "_")
      (Re.replace false re_trailing_slash (λ m, Subst.expand m 0 "")
         (Re.replace false re_leading_slash (λ m, Subst.expand m 0 "") route)).

Definition ogFile `{Host} (outDir : string) (single : bool) (route : string) : string :=
  path_join [outDir; if single then "og.png" else ogSlug route +:+ ".png"].

Definition slashToUnderscore (c : ascii) : string :=
  if Ascii.eqb "/" c then "_" else String c "".

(** A build that writes the robots file and no sitemap. *)
Definition robotsOnlyOptions : BuildOptions := {|
  audit_enabled := false; audit_mode := Warn;
  accessibility_enabled := false; accessibility_mode := Warn;
  sitemap_enabled := false; robots_enabled := true;
  redirects_enabled := false; redirects_rules := 0;
  redirects_netlify := true; redirects_vercel := true;
  lighthouse_enabled := false
|}.

(** ** The files of the build and their texts *)

(** The settings that the sitemap and the robots file read: [siteUrl],
    [options.sitemap?.exclude ?? []], the change frequency and priority of
    the sitemap, [options.robots?.policy ?? "allowAll"] and
    [options.robots?.disallow]. *)
Record SiteSettings : Type := {
  site_url : string;
  sitemap_exclude : list string;
  sitemap_opts : option SitemapOpts;
  robots_policy : RobotsPolicy;
  robots_disallow : option (list string)
}.

(** The files that [closeBundle] writes before the redirect manifests, each
    with its text: the pages, the page for missing addresses, the sitemap
    and the robots file.  The result of [render404] is pushed to the
    results before the sitemap is generated from them; [today] is the date
    of the build. *)
Definition outputFiles `{Host} (o : BuildOptions) (s : SiteSettings)
    (today root distDir : string)
    (pages : list RenderResult) (notFound : option RenderResult) : list (string * string) :=
  let results := pages ++ match notFound with Some r => [r] | None => [] end in
  ((λ r : RenderResult, (r.(outFile), r.(html))) <$> pages) ++
  match notFound with Some r => [(r.(outFile), r.(html))] | None => [] end ++
  (if o.(sitemap_enabled)
   then [(path_join [root; distDir; "sitemap.xml"],
          generateSitemap s.(site_url)
            (sitemapRoutes results s.(sitemap_exclude) today) s.(sitemap_opts))]
   else []) ++
  (if o.(robots_enabled)
   then [(path_join [root; distDir; "robots.txt"],
          generateRobots s.(site_url) s.(robots_policy) s.(robots_disallow))]
   else []).

(** The writes of the redirect manifests. *)
Definition redirectWrites `{Host} (o : BuildOptions) (root distDir : string) : list effect :=
  if o.(redirects_enabled) && Nat.ltb 0 o.(redirects_rules) then
    (if o.(redirects_netlify) then [WriteFile (path_join [root; distDir; "_redirects"])] else []) ++
    (if o.(redirects_vercel) then [WriteFile (path_join [root; distDir; "vercel.json"])] else [])
  else [].

(** The settings of a sample site. *)
Definition exampleSite : SiteSettings := {|
  site_url := "https://example.com/"; sitemap_exclude := ["/drafts"]; sitemap_opts := None;
  robots_policy := DisallowAll; robots_disallow := None
|}.

(** * Properties *)

(** ** Strings *)

#[local] Arguments String.append !s1 s2 / : simpl nomatch.
#[local] Arguments Re.scan : simpl never.
#[local] Arguments Re.search : simpl never.
#[local] Arguments Re.here : simpl never.
#[local] Arguments Chr.eq : simpl never.
#[local] Arguments Chr.exactly : simpl never.
#[local] Arguments Chr.is_space : simpl never.
#[local] Arguments Chr.is_word : simpl never.
#[local] Arguments Chr.none_of : simpl never.
#[local] Arguments Chr.one_of : simpl never.

Section AnyRuntime.

Context {R : Runtime}.

Section StrFacts.

Lemma str_app_nil_r (s : string) : s +:+ "" = s.
Proof. induction s as [|c s IH]; simpl; [done | by rewrite IH]. Qed.

Lemma str_app_assoc (a b c : string) : (a +:+ b) +:+ c = a +:+ b +:+ c.
Proof. induction a as [|x a IH]; simpl; [done | by rewrite IH]. Qed.

Lemma str_app_length (a b : string) : String.length (a +:+ b) = String.length a + String.length b.
Proof. induction a as [|x a IH]; simpl; [done | by rewrite IH]. Qed.

Lemma snoc_app (pre : string) (c : ascii) (s : string) :
  Str.snoc pre c +:+ s = pre +:+ String c s.
Proof. unfold Str.snoc. by rewrite str_app_assoc. Qed.

Lemma eqb_app_longer (a b : string) :
  String.length b < String.length a → String.eqb a b = false.
Proof.
  intros Hlen. apply String.eqb_neq. intros ->. lia.
Qed.

Lemma split_not_nil (sep : ascii) (s : string) : Str.split sep s ≠ [].
Proof.
  induction s as [|c s IH]; simpl; [done |].
  destruct (Ascii.eqb c sep); [done |].
  by destruct (Str.split sep s).
Qed.

Lemma join_split (sep : ascii) (s : string) :
  Str.join (String sep "") (Str.split sep s) = s.
Proof.
  induction s as [|c s IH]; simpl; [done |].
  destruct (Ascii.eqb c sep) eqn:E.
  - apply Ascii.eqb_eq in E as ->.
    pose proof (split_not_nil sep s) as Hne.
    unfold Str.join in *. simpl.
    destruct (Str.split sep s) as [|w ws]; [done |].
    by rewrite IH.
  - pose proof (split_not_nil sep s) as Hne.
    unfold Str.join in *.
    destruct (Str.split sep s) as [|w ws]; [done |].
    simpl in *. destruct ws; simpl in *; by rewrite IH.
Qed.

Lemma endsWith_unfold (s suf : string) :
  Str.endsWith s suf =
  String.eqb s suf || match s with "" => false | String _ s' => Str.endsWith s' suf end.
Proof. by destruct s. Qed.

Lemma endsWith_app (a suf : string) : Str.endsWith (a +:+ suf) suf = true.
Proof.
  induction a as [|c a IH].
  - rewrite endsWith_unfold. simpl. by rewrite String.eqb_refl.
  - rewrite endsWith_unfold. simpl. rewrite IH. apply orb_true_r.
Qed.

End StrFacts.

Lemma toPosix_id (p : string) : toPosix p = p.
Proof. apply join_split. Qed.

(** ** The matcher on inputs that are only partly known *)

Section Engine.

Variables (icase : bool) (r : regex).

Lemma search_unfold (pre s : string) :
  Re.search icase r pre s =
  match Re.here icase r (Str.last pre) s with
  | Some hit => Some (Re.mk pre s hit)
  | None =>
      match s with
      | String a s' => Re.search icase r (Str.snoc pre a) s'
      | "" => None
      end
  end.
Proof. by destruct s. Qed.

(** Positions at which no match starts are passed over. *)
Lemma search_skip (pre a b : string) :
  (∀ a1 a2, a = a1 +:+ a2 → a2 ≠ "" →
     Re.here icase r (Str.last (pre +:+ a1)) (a2 +:+ b) = None) →
  Re.search icase r pre (a +:+ b) = Re.search icase r (pre +:+ a) b.
Proof.
  revert pre. induction a as [|c a IH]; intros pre Hno.
  - simpl. by rewrite str_app_nil_r.
  - rewrite search_unfold.
    specialize (Hno "" (String c a) eq_refl) as Hhere.
    rewrite str_app_nil_r in Hhere. simpl in *. rewrite Hhere by done.
    rewrite IH.
    + by rewrite snoc_app.
    + intros a1 a2 -> Hne. rewrite snoc_app. by apply (Hno (String c a1) a2).
Qed.

End Engine.

(** ** Route mapping *)

(** Case analysis on every test of an input code unit in the goal. *)
Ltac split_tests :=
  repeat match goal with
         | |- context [Chr.eq ?i ?a ?c] => destruct (Chr.eq i a c); simpl; try done
         end.

Lemma here_ext_long (prev : option ascii) (s : string) :
  6 ≤ String.length s → Re.here true re_ext prev s = None.
Proof.
  intros Hlen. unfold Re.here, re_ext. simpl.
  do 6 (try (destruct s as [|? s]; simpl in *; [first [done | lia] |]; split_tests; try done)).
Qed.

Lemma here_index_long (prev : option ascii) (s : string) :
  6 ≤ String.length s → Re.here true re_index_end prev s = None.
Proof.
  intros Hlen. unfold Re.here, re_index_end. simpl.
  do 6 (try (destruct s as [|? s]; simpl in *; [first [done | lia] |]; split_tests; try done)).
Qed.

Lemma replace_ext_html (p : string) :
  Re.replace true re_ext (λ m, Subst.expand m 1 "") (p +:+ ".html") = p.
Proof.
  unfold Re.replace, Re.exec.
  destruct p as [|c p].
  - reflexivity.
  - rewrite search_skip.
    + simpl. by rewrite !str_app_nil_r.
    + intros a1 a2 _ Hne. apply here_ext_long.
      rewrite str_app_length. destruct a2; [done | simpl; lia].
Qed.

Lemma replace_index_end (d : string) :
  Re.replace true re_index_end (λ m, Subst.expand m 0 "") (d +:+ "/index") = d +:+ "/".
Proof.
  unfold Re.replace, Re.exec.
  change "/index" with ("/" +:+ "index"). rewrite <- str_app_assoc.
  rewrite search_skip.
  - simpl. by rewrite !str_app_nil_r.
  - intros a1 a2 _ Hne. apply here_index_long.
    rewrite str_app_length. destruct a2; [done | simpl; lia].
Qed.

Lemma includes_unfold (s p : string) :
  Str.includes s p =
  String.prefix p s || match s with "" => false | String _ s' => Str.includes s' p end.
Proof. by destruct s. Qed.

Lemma scan_unfold (icase : bool) (r : regex) (pre : string) (a : ascii) (s' : string) :
  Re.scan icase r 0 pre (String a s') =
  match Re.here icase r (Str.last pre) (String a s') with
  | Some hit =>
      Re.Hit (Re.mk pre (String a s') hit) ::
      match hit.1 with
      | 0 => Re.Unit a :: Re.scan icase r 0 (Str.snoc pre a) s'
      | S j => Re.scan icase r j (Str.snoc pre a) s'
      end
  | None => Re.Unit a :: Re.scan icase r 0 (Str.snoc pre a) s'
  end.
Proof. reflexivity. Qed.

Lemma exactly_eq (a c : ascii) : Chr.exactly a c = true → c = a.
Proof. unfold Chr.exactly. intros H. by apply Ascii.eqb_eq in H. Qed.

(** Collapsing runs of slashes changes nothing where there is no run. *)
Lemma collapse_slashes_id (pre s : string) :
  Str.includes s "//" = false →
  Re.flat (Re.render (λ m, Subst.expand m 0 "/") <$> Re.scan false re_slashes 0 pre s) = s.
Proof.
  revert pre. induction s as [|a s IH]; intros pre Hno; [done |].
  rewrite includes_unfold in Hno. apply orb_false_elim in Hno as [Hpre Hno].
  rewrite scan_unfold. unfold Re.here, re_slashes, Re.plus. simpl.
  destruct (Chr.exactly "/" a) eqn:Ea.
  - apply exactly_eq in Ea as ->.
    destruct s as [|b s].
    + reflexivity.
    + simpl. destruct (Chr.exactly "/" b) eqn:Eb.
      * apply exactly_eq in Eb as ->. simpl in Hpre. by destruct s.
      * simpl. f_equal. by apply IH.
  - simpl. f_equal. by apply IH.
Qed.

(** ** C2: route mapping *)

(** C2 fails as stated: with clean URLs switched off, the index page of a
    sub-directory keeps its file name in the route and does not map to the
    root of its directory. *)
Lemma C2_index_leaf_counterexample :
  routeFromRelPath "blog/index.html" false true = "/blog/index.html" ∧
  routeFromRelPath "blog/index.html" false true ≠ "/blog/".
Proof. split; [reflexivity | discriminate]. Qed.

(** C2 (amended): the three routes of the specification; with clean URLs an
    index leaf maps to the root of its directory, under either trailing-slash
    setting, and the top-level index maps to the site root under all flags;
    without clean URLs an index leaf of a sub-directory keeps its file name;
    equal inputs give equal routes. *)
Theorem C2_route_mapping :
  routeFromRelPath "index.html" true true = "/" ∧
  routeFromRelPath "about.html" true true = "/about/" ∧
  (∀ b, routeFromRelPath "about.html" false b = "/about.html") ∧
  (∀ clean slash, routeFromRelPath "index.html" clean slash = "/") ∧
  (∀ dir slash, Str.includes (dir +:+ "/") "//" = false →
     routeFromRelPath (dir +:+ "/index.html") true slash = "/" +:+ dir +:+ "/") ∧
  (∀ dir slash,
     routeFromRelPath (dir +:+ "/index.html") false slash = "/" +:+ dir +:+ "/index.html") ∧
  (∀ p p' clean clean' slash slash', p = p' → clean = clean' → slash = slash' →
     routeFromRelPath p clean slash = routeFromRelPath p' clean' slash').
Proof.
  split_and!.
  - reflexivity.
  - reflexivity.
  - by intros [].
  - by intros [] [].
  - intros dir slash Hno. unfold routeFromRelPath. rewrite toPosix_id.
    change "/index.html" with ("/index" +:+ ".html"). rewrite <- str_app_assoc.
    rewrite replace_ext_html.
    rewrite eqb_app_longer by (rewrite str_app_length; simpl; lia).
    rewrite replace_index_end. unfold Re.greplace, Re.pieces.
    rewrite collapse_slashes_id by done.
    change ("/" +:+ dir +:+ "/") with (String "/" (dir +:+ "/")).
    rewrite endsWith_unfold.
    replace (Str.endsWith (dir +:+ "/") "/") with true by (by rewrite endsWith_app).
    by rewrite orb_true_r.
  - intros dir slash. unfold routeFromRelPath. rewrite toPosix_id.
    change "/index.html" with ("/index" +:+ ".html"). rewrite <- str_app_assoc.
    rewrite replace_ext_html.
    rewrite eqb_app_longer by (rewrite str_app_length; simpl; lia).
    simpl. by rewrite str_app_assoc.
  - by intros p p' clean clean' slash slash' -> -> ->.
Qed.

(** A directory to which the rule for index leaves applies. *)
Lemma C2_route_mapping_witness :
  Str.includes ("docs/guide" +:+ "/") "//" = false ∧
  routeFromRelPath ("docs/guide" +:+ "/index.html") true false = "/docs/guide/".
Proof.
  split; [reflexivity |].
  exact (proj1 (proj2 (proj2 (proj2 (proj2 C2_route_mapping)))) "docs/guide" false eq_refl).
Defined.

(** ** C1: termination of inclusion expansion *)

Section Includes.

Context `{Host}.
Variables (files : store) (partialsDir : string).

Lemma renderM_some (f : Re.result → option string) (ps : list Re.piece) :
  (∀ m, Re.Hit m ∈ ps → is_Some (f m)) → is_Some (renderM f ps).
Proof.
  induction ps as [|p ps IH]; intros Hf; simpl; [by eexists |].
  destruct IH as [t Ht].
  { intros m Hm. apply Hf. by right. }
  destruct p as [c|m]; rewrite ?Ht; [by eexists |].
  destruct (Hf m) as [x Hx]; [by left |]. rewrite Hx. by eexists.
Qed.

Lemma renderM_mono (f g : Re.result → option string) (ps : list Re.piece) (out : string) :
  (∀ m x, Re.Hit m ∈ ps → f m = Some x → g m = Some x) →
  renderM f ps = Some out → renderM g ps = Some out.
Proof.
  revert out. induction ps as [|p ps IH]; intros out Hfg; simpl; [done |].
  destruct p as [c|m].
  - destruct (renderM f ps) as [t|] eqn:Et; [|done].
    intros [= <-]. rewrite (IH t); [done | | done].
    intros m x Hm. apply Hfg. by right.
  - destruct (f m) as [x|] eqn:Ex; [|done].
    destruct (renderM f ps) as [t|] eqn:Et; [|done].
    intros [= <-]. rewrite (Hfg m x); [| by left | done].
    rewrite (IH t); [done | | done].
    intros m' x' Hm. apply Hfg. by right.
Qed.

Lemma hit_in_matchAll (html : string) (m : Re.result) :
  Re.Hit m ∈ Re.pieces false re_include html → m ∈ Re.matchAll false re_include html.
Proof.
  unfold Re.matchAll. intros Hm. apply list_elem_of_omap. by exists (Re.Hit m).
Qed.

Lemma hit_ref (html : string) (m : Re.result) :
  Re.Hit m ∈ Re.pieces false re_include html →
  includeTarget partialsDir m ∈ includeRefs partialsDir html.
Proof.
  intros Hm. unfold includeRefs. apply list_elem_of_fmap.
  exists m. split; [done | by apply hit_in_matchAll].
Qed.

Lemma existsSync_true (abs : string) : existsSync files abs = true ↔ is_Some (files !! abs).
Proof. unfold existsSync. by rewrite bool_decide_eq_true. Qed.

Lemma on_stack_true (stack : list string) (abs : string) : on_stack stack abs = true ↔ abs ∈ stack.
Proof. unfold on_stack. by rewrite bool_decide_eq_true. Qed.

(** A larger bound on the nesting does not change a result. *)
Lemma expandIncludes_mono (depth : nat) :
  ∀ html ctx stack skip out,
    expandIncludes depth files partialsDir html ctx stack skip = Some out →
    expandIncludes (S depth) files partialsDir html ctx stack skip = Some out.
Proof.
  induction depth as [|d IH]; intros html ctx stack skip out; [done |].
  intros Hd.
  change (expandIncludes (S (S d)) files partialsDir html ctx stack skip) with
    (match renderM
             (includeSite files partialsDir
                (λ h c st, expandIncludes (S d) files partialsDir h c st false) ctx stack)
             (Re.pieces false re_include html) with
     | Some html' => Some (if skip then html' else interpolateMustache html' ctx)
     | None => None
     end).
  change (expandIncludes (S d) files partialsDir html ctx stack skip) with
    (match renderM
             (includeSite files partialsDir
                (λ h c st, expandIncludes d files partialsDir h c st false) ctx stack)
             (Re.pieces false re_include html) with
     | Some html' => Some (if skip then html' else interpolateMustache html' ctx)
     | None => None
     end) in Hd.
  destruct (renderM _ _) as [t|] eqn:Et in Hd; [|done].
  erewrite renderM_mono; [exact Hd | | exact Et].
  intros m x _. unfold includeSite.
  destruct (negb _); [done |]. destruct (on_stack _ _); [done |].
  destruct (expandIncludes d _ _ _ _ _ _) as [e|] eqn:Ee; [|done].
  by rewrite (IH _ _ _ _ _ Ee).
Qed.

Lemma expandIncludes_mono_le (d1 d2 : nat) html ctx stack skip out :
  d1 ≤ d2 →
  expandIncludes d1 files partialsDir html ctx stack skip = Some out →
  expandIncludes d2 files partialsDir html ctx stack skip = Some out.
Proof.
  induction 1 as [|d2 Hle IH]; [done |].
  intros Hd. by apply expandIncludes_mono, IH.
Qed.

(** The nesting never exceeds the longest acyclic chain that extends the
    current stack. *)
Lemma expandIncludes_total (d depth : nat) :
  ∀ html ctx stack skip,
    NoDup stack →
    (∀ l, chain files partialsDir html l → NoDup (stack ++ l) →
          List.length (stack ++ l) ≤ d) →
    d < depth + List.length stack →
    is_Some (expandIncludes depth files partialsDir html ctx stack skip).
Proof.
  induction depth as [|k IH]; intros html ctx stack skip Hnd Hbound Hlt.
  - specialize (Hbound [] (chain_nil _ _ _)). rewrite app_nil_r in Hbound.
    specialize (Hbound Hnd). simpl in Hlt. lia.
  - simpl.
    destruct (renderM_some
                (includeSite files partialsDir
                   (λ h c st, expandIncludes k files partialsDir h c st false) ctx stack)
                (Re.pieces false re_include html)) as [t Ht]; [| rewrite Ht; by eexists].
    intros m Hm. unfold includeSite.
    destruct (existsSync files (includeTarget partialsDir m)) eqn:Eex; simpl; [| by eexists].
    destruct (on_stack stack (includeTarget partialsDir m)) eqn:Est; [by eexists |].
    apply existsSync_true in Eex.
    assert (includeTarget partialsDir m ∉ stack) as Hnotin.
    { intros Hin. apply on_stack_true in Hin. congruence. }
    destruct (IH (readText files (includeTarget partialsDir m))
                 (nextContext ctx (includeData (Re.group m 2)))
                 (stack ++ [includeTarget partialsDir m]) false) as [e He].
    + apply NoDup_app. split_and!; [done | | apply NoDup_singleton].
      intros x Hx Hx'. apply list_elem_of_singleton in Hx' as ->. done.
    + intros l Hl Hnd'. rewrite <- app_assoc in *. simpl in *.
      apply Hbound; [| done].
      apply chain_cons; [by apply hit_ref | done | done].
    + rewrite length_app. simpl. lia.
    + rewrite He. by eexists.
Qed.

Lemma chain_exists (html : string) (l : list string) :
  chain files partialsDir html l → ∀ x, x ∈ l → is_Some (files !! x).
Proof.
  induction 1 as [|html abs rest Href Hex Hch IH]; intros x Hx.
  - by apply elem_of_nil in Hx.
  - apply elem_of_cons in Hx as [-> | Hx]; [done | by apply IH].
Qed.

(** An acyclic chain visits each fragment of the store at most once. *)
Lemma chain_le_size (html : string) : chainsBounded files partialsDir html (size files).
Proof.
  intros l Hch Hnd.
  rewrite <- size_dom, <- (size_list_to_set (C := gset string) l Hnd).
  apply subseteq_size. intros x Hx. apply elem_of_list_to_set in Hx.
  apply elem_of_dom. by eapply chain_exists.
Qed.

Lemma expandIncludes_bounded (d : nat) html ctx skip :
  chainsBounded files partialsDir html d →
  ∃ out, ∀ depth, d < depth →
    expandIncludes depth files partialsDir html ctx [] skip = Some out.
Proof.
  intros Hb.
  destruct (expandIncludes_total d (S d) html ctx [] skip) as [out Hout].
  - apply NoDup_nil_2.
  - intros l Hl Hnd. simpl in *. by apply Hb.
  - simpl. lia.
  - exists out. intros depth Hlt. eapply expandIncludes_mono_le; [| exact Hout]. lia.
Qed.

(** At an inclusion site whose fragment is on the stack the marker is
    emitted, whatever the recursive call would do. *)
Lemma includeSite_cycle recur ctx stack m :
  is_Some (files !! includeTarget partialsDir m) →
  includeTarget partialsDir m ∈ stack →
  includeSite files partialsDir recur ctx stack m =
    Some (cycleMarker (Str.trim (group_text m 1))).
Proof.
  intros Hex Hin. unfold includeSite.
  apply existsSync_true in Hex. apply on_stack_true in Hin.
  by rewrite Hex, Hin.
Qed.

Lemma includeSite_missing recur ctx stack m :
  files !! includeTarget partialsDir m = None →
  includeSite files partialsDir recur ctx stack m =
    Some (missingMarker (Str.trim (group_text m 1))).
Proof.
  intros Hno. unfold includeSite.
  replace (existsSync files (includeTarget partialsDir m)) with false; [done |].
  symmetry. apply not_true_is_false. intros Hex. apply existsSync_true in Hex.
  rewrite Hno in Hex. by destruct Hex.
Qed.

End Includes.

(** C1. For every fragment store and template, [expandIncludes] returns: a
    nesting bound above the number of fragments always suffices, and so
    does any bound above the length of the longest acyclic chain of the
    dependency graph from the template.  At a site whose fragment is
    already on the stack the cycle marker is emitted instead of a recursive
    call; a fragment that includes itself and a cycle of three fragments
    render with the marker at the recursive site. *)
Theorem C1_expandIncludes_terminates :
  (∀ (H : Host) (files : store) (partialsDir html : string) (ctx : value) (skip : bool),
     ∃ out, ∀ depth, size files < depth →
       expandIncludes depth files partialsDir html ctx [] skip = Some out) ∧
  (∀ (H : Host) (files : store) (partialsDir html : string) (ctx : value) (skip : bool) (d : nat),
     chainsBounded files partialsDir html d →
     ∃ out, ∀ depth, d < depth →
       expandIncludes depth files partialsDir html ctx [] skip = Some out) ∧
  (∀ (H : Host) (files : store) (partialsDir : string) recur ctx stack m,
     is_Some (files !! includeTarget partialsDir m) →
     includeTarget partialsDir m ∈ stack →
     includeSite files partialsDir recur ctx stack m =
       Some (cycleMarker (Str.trim (group_text m 1)))) ∧
  expandIncludes (H := plainHost) 2 selfStore "/site/partials" "<% nav %>" (VObj []) [] false
    = Some "<nav><!-- monad:cycle nav --></nav>" ∧
  expandIncludes (H := plainHost) 4 ringStore "/site/partials" "<% a %>|<% b %>" (VObj []) [] false
    = Some "a(b(c(<!-- monad:cycle a -->)))|b(c(a(<!-- monad:cycle b -->)))".
Proof.
  split_and!.
  - intros H files partialsDir html ctx skip.
    apply expandIncludes_bounded, chain_le_size.
  - intros H files partialsDir html ctx skip d. apply expandIncludes_bounded.
  - intros H files partialsDir recur ctx stack m. apply includeSite_cycle.
  - vm_compute. reflexivity.
  - vm_compute. reflexivity.
Qed.


(** ** The scan of a text that is only partly known *)

Section Scan.

Variables (icase : bool) (r : regex).

Lemma scan_skip_n (pre t b : string) :
  Re.scan icase r (String.length t) pre (t +:+ b) = Re.scan icase r 0 (pre +:+ t) b.
Proof.
  revert pre. induction t as [|c t IH]; intros pre; simpl.
  - by rewrite str_app_nil_r.
  - change (Re.scan icase r (S (String.length t)) pre (String c (t +:+ b)))
      with (Re.scan icase r (String.length t) (Str.snoc pre c) (t +:+ b)).
    by rewrite IH, snoc_app.
Qed.

Lemma take_app (t b : string) : Str.take (String.length t) (t +:+ b) = t.
Proof. induction t as [|c t IH]; simpl; [by destruct b | by rewrite IH]. Qed.

Lemma drop_app (t b : string) : Str.drop (String.length t) (t +:+ b) = b.
Proof. induction t as [|c t IH]; simpl; [by destruct b | done]. Qed.

(** A match found at the current position. *)
Lemma scan_hit (pre t b : string) (cs : Re.captures) :
  t ≠ "" →
  Re.here icase r (Str.last pre) (t +:+ b) = Some (String.length t, cs) →
  Re.scan icase r 0 pre (t +:+ b) =
    Re.Hit (Re.Result pre t b cs) :: Re.scan icase r 0 (pre +:+ t) b.
Proof.
  intros Hne Hhere. destruct t as [|c t]; [done |].
  change (String c t +:+ b) with (String c (t +:+ b)) in *.
  rewrite scan_unfold, Hhere. unfold Re.mk. cbn [fst snd].
  change (String c (t +:+ b)) with (String c t +:+ b).
  rewrite take_app, drop_app. f_equal.
  change (String.length (String c t)) with (S (String.length t)). cbn iota.
  change (String c t +:+ b) with (String c (t +:+ b)).
  by rewrite scan_skip_n, snoc_app.
Qed.

(** Positions at which no match starts are copied. *)
Lemma scan_skip (pre a b : string) :
  (∀ a1 a2, a = a1 +:+ a2 → a2 ≠ "" →
     Re.here icase r (Str.last (pre +:+ a1)) (a2 +:+ b) = None) →
  Re.scan icase r 0 pre (a +:+ b) = units a ++ Re.scan icase r 0 (pre +:+ a) b.
Proof.
  revert pre. induction a as [|c a IH]; intros pre Hno.
  - simpl. by rewrite str_app_nil_r.
  - change (String c a +:+ b) with (String c (a +:+ b)).
    rewrite scan_unfold.
    specialize (Hno "" (String c a) eq_refl) as Hhere.
    rewrite str_app_nil_r in Hhere. simpl in Hhere. rewrite Hhere by done.
    rewrite IH.
    + by rewrite snoc_app.
    + intros a1 a2 -> Hne. rewrite snoc_app. by apply (Hno (String c a1) a2).
Qed.

End Scan.

Lemma renderM_units (f : Re.result → option string) (a : string) (ps : list Re.piece) :
  renderM f (units a ++ ps) = (λ t, a +:+ t) <$> renderM f ps.
Proof.
  induction a as [|c a IH]; simpl.
  - by destruct (renderM f ps).
  - rewrite IH. by destruct (renderM f ps).
Qed.

Lemma flat_units (f : Re.result → string) (a : string) (ps : list Re.piece) :
  Re.flat (Re.render f <$> (units a ++ ps)) = a +:+ Re.flat (Re.render f <$> ps).
Proof.
  induction a as [|c a IH]; simpl; [done |].
  f_equal. exact IH.
Qed.

(** *** Patterns without anchors *)

Lemma star_greedy_prevFree (cls : ascii → bool) (k : Re.cont) :
  prevFree k → prevFree (Re.star_greedy cls k).
Proof.
  intros Hk n p p' s cs. revert n p p'.
  induction s as [|a s IH]; intros n p p'; simpl; [apply Hk |].
  destruct (cls a); [| apply Hk].
  by rewrite (Hk n p p').
Qed.

Lemma star_lazy_prevFree (cls : ascii → bool) (k : Re.cont) :
  prevFree k → prevFree (Re.star_lazy cls k).
Proof.
  intros Hk n p p' s cs. revert n p p'.
  induction s as [|a s IH]; intros n p p'; simpl; rewrite (Hk n p p'); reflexivity.
Qed.

Lemma run_prevFree (icase : bool) (r : regex) :
  anchorFree r = true → ∀ k, prevFree k → prevFree (Re.run icase r k).
Proof.
  induction r as [c|cls|r1 IH1 r2 IH2|r1 IH1 r2 IH2|g cls|r1 IH1|i r1 IH1| | |];
    simpl; intros Hfree k Hk.
  - intros n p p' s cs. reflexivity.
  - intros n p p' s cs. reflexivity.
  - apply andb_true_iff in Hfree as [H1 H2]. apply IH1; [done |]. by apply IH2.
  - apply andb_true_iff in Hfree as [H1 H2]. intros n p p' s cs. simpl.
    by rewrite (IH1 H1 k Hk n p p'), (IH2 H2 k Hk n p p').
  - destruct g; [by apply star_greedy_prevFree | by apply star_lazy_prevFree].
  - intros n p p' s cs. simpl. by rewrite (IH1 Hfree k Hk n p p'), (Hk n p p').
  - intros n p p' s cs. simpl. apply IH1; [done |].
    intros n0 q q' s0 cs0. apply Hk.
  - intros n p p' s cs. simpl. destruct s; [apply Hk | done].
  - done.
  - done.
Qed.

Lemma here_prevFree (icase : bool) (r : regex) (p p' : option ascii) (s : string) :
  anchorFree r = true → Re.here icase r p s = Re.here icase r p' s.
Proof.
  intros Hfree. unfold Re.here. by apply run_prevFree.
Qed.

(** A callback that reads the matched text and the captures only sees the
    same matches whatever precedes the scanned text. *)
Lemma renderM_scan_pre (icase : bool) (r : regex) (f : Re.result → option string) :
  anchorFree r = true →
  (∀ m m', m.(Re.text) = m'.(Re.text) → m.(Re.caps) = m'.(Re.caps) → f m = f m') →
  ∀ s skip pre pre',
    renderM f (Re.scan icase r skip pre s) = renderM f (Re.scan icase r skip pre' s).
Proof.
  intros Hfree Hf. induction s as [|a s IH]; intros skip pre pre'.
  - destruct skip; [| done].
    unfold Re.scan. rewrite (here_prevFree icase r (Str.last pre) (Str.last pre')) by done.
    destruct (Re.here _ _ _ _) as [hit|]; [| done].
    simpl. by rewrite (Hf (Re.mk pre "" hit) (Re.mk pre' "" hit)).
  - destruct skip as [|j].
    + rewrite !scan_unfold.
      rewrite (here_prevFree icase r (Str.last pre) (Str.last pre')) by done.
      destruct (Re.here _ _ _ _) as [hit|]; simpl.
      * rewrite (Hf (Re.mk pre (String a s) hit) (Re.mk pre' (String a s) hit)) by done.
        destruct hit.1; simpl;
          by rewrite (IH _ (Str.snoc pre a) (Str.snoc pre' a)).
      * by rewrite (IH _ (Str.snoc pre a) (Str.snoc pre' a)).
    + change (Re.scan icase r (S j) pre (String a s))
        with (Re.scan icase r j (Str.snoc pre a) s).
      change (Re.scan icase r (S j) pre' (String a s))
        with (Re.scan icase r j (Str.snoc pre' a) s).
      apply IH.
Qed.

(** *** Quantified character classes *)

Lemma str_all_app (p : ascii → bool) (a b : string) :
  str_all p (a +:+ b) = str_all p a && str_all p b.
Proof. induction a as [|c a IH]; simpl; [done |]. by rewrite IH, andb_assoc. Qed.

(** A lazy quantifier stops at the first position where the rest of the
    pattern matches. *)
Lemma star_lazy_until (cls : ascii → bool) (k : Re.cont) (t rest : string) res :
  ∀ n prev cs,
    str_all cls t = true →
    (∀ t1 t2 p, t = t1 +:+ t2 → t2 ≠ "" →
       k (n + String.length t1) p (t2 +:+ rest) cs = None) →
    (∀ p, k (n + String.length t) p rest cs = Some res) →
    Re.star_lazy cls k n prev (t +:+ rest) cs = Some res.
Proof.
  induction t as [|c t IH]; intros n prev cs Hall Hfail Hend.
  - simpl in *. rewrite Nat.add_0_r in Hend. destruct rest; simpl; by rewrite Hend.
  - simpl in Hall. apply andb_true_iff in Hall as [Hc Hall].
    simpl. specialize (Hfail "" (String c t) prev eq_refl) as Hhere.
    simpl in Hhere. rewrite Nat.add_0_r in Hhere. rewrite Hhere by done. rewrite Hc.
    apply IH; [done | |].
    + intros t1 t2 q -> Hne.
      specialize (Hfail (String c t1) t2 q eq_refl Hne). simpl in Hfail.
      by rewrite Nat.add_succ_r in Hfail.
    + intros p. rewrite <- (Hend p). simpl. f_equal. lia.
Qed.

Lemma eqb_sym_false (a c : ascii) : Ascii.eqb c a = false → Ascii.eqb a c = false.
Proof. rewrite !Ascii.eqb_neq. congruence. Qed.

Lemma none_of_1 (a c : ascii) : Chr.none_of [a] c = true → Chr.eq false a c = false.
Proof.
  unfold Chr.none_of, Chr.eq. simpl. rewrite orb_false_r, negb_true_iff. apply eqb_sym_false.
Qed.

Lemma none_of_2 (a b c : ascii) :
  Chr.none_of [a; b] c = true → Chr.eq false a c = false ∧ Chr.eq false b c = false.
Proof.
  unfold Chr.none_of, Chr.eq. simpl. rewrite orb_false_r, negb_true_iff.
  intros [H1 H2]%orb_false_elim. split; by apply eqb_sym_false.
Qed.

Lemma pathChar_elim (c : ascii) :
  pathChar c = true →
  Chr.is_space c = false ∧ Chr.none_of ["}"%char] c = true ∧ Chr.eq false "}" c = false.
Proof.
  unfold pathChar. intros [Hs Hn]%andb_true_iff. apply negb_true_iff in Hs.
  split_and!; [done | done | by apply none_of_1].
Qed.

Lemma refChar_elim (c : ascii) :
  refChar c = true →
  Chr.is_space c = false ∧ Chr.none_of [","%char; "%"%char] c = true ∧
  Chr.eq false "," c = false ∧ Chr.eq false "%" c = false.
Proof.
  unfold refChar. intros [Hs Hn]%andb_true_iff. apply negb_true_iff in Hs.
  destruct (none_of_2 _ _ _ Hn). by split_and!.
Qed.

Lemma str_all_weaken (p q : ascii → bool) (s : string) :
  (∀ c, p c = true → q c = true) → str_all p s = true → str_all q s = true.
Proof.
  intros Hpq. induction s as [|c s IH]; simpl; [done |].
  intros [Hc Hs]%andb_true_iff. by rewrite (Hpq c Hc), IH.
Qed.

(** Evaluation of the tests on code units that are known. *)
Ltac known_tests :=
  repeat match goal with
         | |- context [Chr.is_space (Ascii ?a ?b ?c ?d ?e ?f ?g ?h)] =>
             let v := eval vm_compute in (Chr.is_space (Ascii a b c d e f g h)) in
             change (Chr.is_space (Ascii a b c d e f g h)) with v
         | |- context [Chr.eq ?i (Ascii ?a ?b ?c ?d ?e ?f ?g ?h) (Ascii ?a' ?b' ?c' ?d' ?e' ?f' ?g' ?h')] =>
             let v := eval vm_compute in
               (Chr.eq i (Ascii a b c d e f g h) (Ascii a' b' c' d' e' f' g' h')) in
             change (Chr.eq i (Ascii a b c d e f g h) (Ascii a' b' c' d' e' f' g' h')) with v
         | |- context [Chr.none_of ?l (Ascii ?a ?b ?c ?d ?e ?f ?g ?h)] =>
             let v := eval vm_compute in (Chr.none_of l (Ascii a b c d e f g h)) in
             change (Chr.none_of l (Ascii a b c d e f g h)) with v
         | |- context [Chr.is_word (Ascii ?a ?b ?c ?d ?e ?f ?g ?h)] =>
             let v := eval vm_compute in (Chr.is_word (Ascii a b c d e f g h)) in
             change (Chr.is_word (Ascii a b c d e f g h)) with v
         end.

(** *** Tokens *)

(** A token [{{path}}] at the current position, for a plain path. *)
Lemma here_mustache (prev : option ascii) (path rest : string) :
  path ≠ "" → str_all pathChar path = true →
  Re.here false re_mustache prev ("{{" +:+ path +:+ "}}" +:+ rest) =
    Some (String.length ("{{" +:+ path +:+ "}}"), [(1, (2, 2 + String.length path))]).
Proof.
  intros Hne Hall. destruct path as [|c path]; [done |].
  simpl in Hall. apply andb_true_iff in Hall as [Hc Hall].
  destruct (pathChar_elim c Hc) as (Hsp & Hcls & Hbr).
  unfold Re.here, re_mustache, Re.plus. simpl. known_tests. simpl.
  rewrite Hsp, Hcls.
  apply star_lazy_until.
  - eapply str_all_weaken; [| exact Hall]. intros x Hx. by destruct (pathChar_elim x Hx) as (_ & ? & _).
  - intros t1 t2 p -> Hne2. destruct t2 as [|x t2]; [done |].
    rewrite str_all_app in Hall. apply andb_true_iff in Hall as [_ Hall].
    simpl in Hall. apply andb_true_iff in Hall as [Hx _].
    destruct (pathChar_elim x Hx) as (Hxs & _ & Hxb).
    simpl. by rewrite Hxs, Hxb.
  - intros p. simpl. known_tests. simpl.
    rewrite !str_app_length. simpl. unfold Re.accept. do 2 f_equal. lia.
Qed.

(** *** Inclusion tags *)

(** A tag [<% name %>] at the current position, for a plain reference. *)
Lemma here_include (prev : option ascii) (name rest : string) :
  name ≠ "" → str_all refChar name = true →
  Re.here false re_include prev ("<% " +:+ name +:+ " %>" +:+ rest) =
    Some (String.length ("<% " +:+ name +:+ " %>"), [(1, (3, 3 + String.length name))]).
Proof.
  intros Hne Hall. destruct name as [|c name]; [done |].
  simpl in Hall. apply andb_true_iff in Hall as [Hc Hall].
  destruct (refChar_elim c Hc) as (Hsp & Hcls & Hcomma & Hpct).
  unfold Re.here, re_include, Re.plus. simpl. known_tests. simpl.
  rewrite Hsp, Hcls.
  erewrite star_lazy_until; [reflexivity | | |].
  - eapply str_all_weaken; [| exact Hall]. intros x Hx.
    by destruct (refChar_elim x Hx) as (_ & ? & _).
  - intros t1 t2 p -> Hne2. destruct t2 as [|x t2]; [done |].
    rewrite str_all_app in Hall. apply andb_true_iff in Hall as [_ Hall].
    simpl in Hall. apply andb_true_iff in Hall as [Hx _].
    destruct (refChar_elim x Hx) as (Hxs & _ & Hxc & Hxp).
    simpl. by rewrite Hxs, Hxc, Hxp.
  - intros p. simpl. known_tests. simpl. known_tests. simpl.
    rewrite !str_app_length. simpl. unfold Re.accept. do 2 f_equal. lia.
Qed.

(** *** Stretches of text without a tag or a token *)

Lemma prefix_nil (s : string) : String.prefix "" s = true.
Proof. by destruct s. Qed.

Lemma prefix_cons (x : ascii) (p : string) (c : ascii) (s : string) :
  String.prefix (String x p) (String c s) = Ascii.eqb x c && String.prefix p s.
Proof.
  simpl. destruct (ascii_dec x c) as [-> | Hx].
  - by rewrite Ascii.eqb_refl.
  - apply Ascii.eqb_neq in Hx. by rewrite Hx.
Qed.

Lemma prefix_two (x y c c' : ascii) (s : string) :
  String.prefix (String x (String y "")) (String c (String c' s)) =
    Ascii.eqb x c && Ascii.eqb y c'.
Proof. by rewrite !prefix_cons, prefix_nil, andb_true_r. Qed.

Lemma lacks_cons (p : string) (c : ascii) (s : string) :
  lacks p (String c s) = true → String.prefix p (String c s) = false ∧ lacks p s = true.
Proof.
  unfold lacks. rewrite includes_unfold, negb_orb.
  intros [H1 H2]%andb_true_iff. by apply negb_true_iff in H1.
Qed.

Lemma lacks_app_r (p a b : string) : lacks p (a +:+ b) = true → lacks p b = true.
Proof.
  induction a as [|c a IH]; simpl; [done |].
  intros [_ Hl]%lacks_cons. by apply IH.
Qed.

Lemma endsWith_app_r (a b x : string) :
  Str.endsWith b x = true → Str.endsWith (a +:+ b) x = true.
Proof.
  intros Hb. induction a as [|c a IH]; [done |].
  change (String c a +:+ b) with (String c (a +:+ b)).
  rewrite endsWith_unfold, IH. apply orb_true_r.
Qed.

(** No tag starts inside a text that lacks [<%], if no percent sign
    follows it. *)
Lemma here_include_gap (prev : option ascii) (a rest : string) :
  a ≠ "" → lacks "<%" a = true → Str.startsWith rest "%" = false →
  Re.here false re_include prev (a +:+ rest) = None.
Proof.
  intros Hne Ha Hrest. destruct a as [|c a]; [done |].
  apply lacks_cons in Ha as [Hpre _].
  unfold Re.here, re_include. simpl.
  destruct (Chr.eq false "<" c) eqn:Ec; [| done].
  unfold Chr.eq in Ec.
  destruct a as [|c' a]; simpl.
  - destruct rest as [|c' rest]; [done |].
    unfold Str.startsWith in Hrest. rewrite prefix_cons, prefix_nil, andb_true_r in Hrest.
    change (Chr.eq false "%" c') with (Ascii.eqb "%" c'). by rewrite Hrest.
  - rewrite prefix_two, Ec, andb_true_l in Hpre.
    change (Chr.eq false "%" c') with (Ascii.eqb "%" c'). by rewrite Hpre.
Qed.

(** No token starts inside a text that lacks [{{] and does not end in a
    brace. *)
Lemma here_mustache_gap (prev : option ascii) (a rest : string) :
  a ≠ "" → lacks "{{" a = true → Str.endsWith a "{" = false →
  Re.here false re_mustache prev (a +:+ rest) = None.
Proof.
  intros Hne Ha Hend. destruct a as [|c a]; [done |].
  apply lacks_cons in Ha as [Hpre _].
  unfold Re.here, re_mustache. simpl.
  destruct (Chr.eq false "{" c) eqn:Ec; [| done].
  unfold Chr.eq in Ec.
  destruct a as [|c' a]; simpl.
  - apply Ascii.eqb_eq in Ec as <-. done.
  - rewrite prefix_two, Ec, andb_true_l in Hpre.
    change (Chr.eq false "{" c') with (Ascii.eqb "{" c'). by rewrite Hpre.
Qed.

Lemma endsWith_suffix (a1 a2 x : string) :
  Str.endsWith (a1 +:+ a2) x = false → Str.endsWith a2 x = false.
Proof.
  intros Hno. apply not_true_is_false. intros Hyes.
  by rewrite (endsWith_app_r a1 a2 x Hyes) in Hno.
Qed.

(** Joining two texts that lack [{{] gives a text that lacks it, unless the
    first one ends in a brace. *)
Lemma lacks_braces_app (a b : string) :
  lacks "{{" a = true → Str.endsWith a "{" = false → lacks "{{" b = true →
  lacks "{{" (a +:+ b) = true.
Proof.
  intros Ha Hend Hb. induction a as [|c a IH]; [done |].
  apply lacks_cons in Ha as [Hpre Ha].
  rewrite endsWith_unfold in Hend. apply orb_false_elim in Hend as [Hc Hend].
  change (String c a +:+ b) with (String c (a +:+ b)).
  unfold lacks. rewrite includes_unfold, negb_orb.
  apply andb_true_iff. split; [| by apply IH].
  apply negb_true_iff. rewrite prefix_cons.
  destruct a as [|c' a].
  - destruct (Ascii.eqb "{" c) eqn:Ec; [| done].
    apply Ascii.eqb_eq in Ec as <-. done.
  - rewrite prefix_two in Hpre.
    change (String c' a +:+ b) with (String c' (a +:+ b)).
    by rewrite prefix_cons, prefix_nil, andb_true_r.
Qed.

(** *** One match after a stretch without matches *)

Lemma renderM_pure (f : Re.result → string) (ps : list Re.piece) :
  renderM (λ m, Some (f m)) ps = Some (Re.flat (Re.render f <$> ps)).
Proof.
  induction ps as [|p ps IH]; [done |].
  rewrite fmap_cons. simpl. rewrite IH. by destruct p.
Qed.

Section Token.

Variables (icase : bool) (r : regex).
Hypothesis r_free : anchorFree r = true.

Lemma renderM_token (f : Re.result → option string) (a t b : string) (cs : Re.captures) :
  (∀ m m', m.(Re.text) = m'.(Re.text) → m.(Re.caps) = m'.(Re.caps) → f m = f m') →
  (∀ a1 a2 prev, a = a1 +:+ a2 → a2 ≠ "" → Re.here icase r prev (a2 +:+ t +:+ b) = None) →
  t ≠ "" →
  (∀ prev, Re.here icase r prev (t +:+ b) = Some (String.length t, cs)) →
  renderM f (Re.pieces icase r (a +:+ t +:+ b)) =
    match f (Re.Result "" t "" cs), renderM f (Re.pieces icase r b) with
    | Some x, Some y => Some (a +:+ x +:+ y)
    | _, _ => None
    end.
Proof.
  intros Hf Ha Hne Hhere. unfold Re.pieces.
  rewrite scan_skip.
  - rewrite renderM_units, (scan_hit icase r _ t b cs Hne (Hhere _)). simpl.
    rewrite (Hf (Re.Result a t b cs) (Re.Result "" t "" cs)) by done.
    rewrite (renderM_scan_pre icase r f r_free Hf b 0 _ "").
    destruct (f _); [| done]. by destruct (renderM f _).
  - intros a1 a2 Ha12 Hne2. by apply (Ha a1 a2).
Qed.

Lemma greplace_token (f : Re.result → string) (a t b : string) (cs : Re.captures) :
  (∀ m m', m.(Re.text) = m'.(Re.text) → m.(Re.caps) = m'.(Re.caps) → f m = f m') →
  (∀ a1 a2 prev, a = a1 +:+ a2 → a2 ≠ "" → Re.here icase r prev (a2 +:+ t +:+ b) = None) →
  t ≠ "" →
  (∀ prev, Re.here icase r prev (t +:+ b) = Some (String.length t, cs)) →
  Re.greplace icase r f (a +:+ t +:+ b) =
    a +:+ f (Re.Result "" t "" cs) +:+ Re.greplace icase r f b.
Proof.
  intros Hf Ha Hne Hhere.
  pose proof (renderM_token (λ m, Some (f m)) a t b cs) as Htok.
  rewrite !renderM_pure in Htok. unfold Re.greplace.
  specialize (Htok ltac:(intros; f_equal; by apply Hf) Ha Hne Hhere).
  by injection Htok.
Qed.

(** A text without any match is left as it is. *)
Lemma pieces_none (a : string) :
  (∀ a1 a2 prev, a = a1 +:+ a2 → a2 ≠ "" → Re.here icase r prev a2 = None) →
  (∀ prev, Re.here icase r prev "" = None) →
  Re.pieces icase r a = units a.
Proof.
  intros Ha Hend. unfold Re.pieces.
  rewrite <- (str_app_nil_r a) at 1. rewrite scan_skip.
  - unfold Re.scan. rewrite Hend. by rewrite app_nil_r.
  - intros a1 a2 Ha12 Hne2. rewrite str_app_nil_r. by apply (Ha a1 a2).
Qed.

Lemma greplace_none (f : Re.result → string) (a : string) :
  (∀ a1 a2 prev, a = a1 +:+ a2 → a2 ≠ "" → Re.here icase r prev a2 = None) →
  (∀ prev, Re.here icase r prev "" = None) →
  Re.greplace icase r f a = a.
Proof.
  intros Ha Hend. unfold Re.greplace. rewrite pieces_none by done.
  rewrite <- (app_nil_r (units a)), flat_units. simpl. apply str_app_nil_r.
Qed.

End Token.


(** ** C8: interpolation *)

Lemma trimEnd_id (s : string) :
  str_all (λ c, negb (Chr.is_space c)) s = true → Str.trimEnd s = s.
Proof.
  induction s as [|c s IH]; simpl; [done |].
  intros [Hc Hs]%andb_true_iff. rewrite IH by done.
  apply negb_true_iff in Hc. rewrite Hc. by destruct s.
Qed.

Lemma trim_id (s : string) :
  str_all (λ c, negb (Chr.is_space c)) s = true → Str.trim s = s.
Proof.
  intros Hs. unfold Str.trim.
  replace (Str.trimStart s) with s; [by apply trimEnd_id |].
  destruct s as [|c s]; simpl in *; [done |].
  apply andb_true_iff in Hs as [Hc _]. apply negb_true_iff in Hc. by rewrite Hc.
Qed.

Lemma re_mustache_free : anchorFree re_mustache = true.
Proof. reflexivity. Qed.

Lemma re_include_free : anchorFree re_include = true.
Proof. reflexivity. Qed.

Lemma group_text_token (pre post open_ close body : string) :
  group_text
    (Re.Result pre (open_ +:+ body +:+ close) post
       [(1, (String.length open_, String.length open_ + String.length body))]) 1 = body.
Proof.
  unfold group_text, Re.group, Str.slice. simpl.
  replace (String.length open_ + String.length body - String.length open_)
    with (String.length body) by lia.
  by rewrite drop_app, take_app.
Qed.

(** The first token after a stretch of text without tokens. *)
Lemma interpolate_token (ctx : value) (a path b : string) :
  lacks "{{" a = true → Str.endsWith a "{" = false →
  path ≠ "" → str_all pathChar path = true →
  interpolateMustache (a +:+ "{{" +:+ path +:+ "}}" +:+ b) ctx =
    a +:+ Js.toString (getByPath ctx path) +:+ interpolateMustache b ctx.
Proof.
  intros Ha Hend Hne Hall. unfold interpolateMustache.
  replace ("{{" +:+ path +:+ "}}" +:+ b) with (("{{" +:+ path +:+ "}}") +:+ b)
    by (by rewrite !str_app_assoc).
  rewrite (greplace_token false re_mustache re_mustache_free _ a ("{{" +:+ path +:+ "}}") b
             [(1, (2, 2 + String.length path))]).
  - pose proof (group_text_token "" "" "{{" "}}" path) as Hg.
    change (String.length "{{") with 2 in Hg. rewrite Hg.
    rewrite trim_id; [done |].
    eapply str_all_weaken; [| exact Hall]. intros c Hc.
    destruct (pathChar_elim c Hc) as (-> & _). done.
  - intros m m' Ht Hc. unfold group_text, Re.group. by rewrite Ht, Hc.
  - intros a1 a2 prev -> Hne2. apply here_mustache_gap; [done | |].
    + by apply lacks_app_r in Ha.
    + by apply endsWith_suffix in Hend.
  - done.
  - intros prev. rewrite !str_app_assoc. by apply here_mustache.
Qed.

Lemma prop_checked_some (v w : value) (p : string) :
  Js.prop_checked v p = Some w → Js.nullish v = false ∧ Js.prop v p = w.
Proof.
  destruct v; simpl; intros Hp; try discriminate Hp; try (by injection Hp as <-).
  by rewrite Hp.
Qed.

Lemma walkPath_missing (v : value) (parts : list string) :
  missing v parts → walkPath v parts = VStr "".
Proof.
  induction 1 as [v parts Hv | v w p parts Hp Hm IH].
  - destruct parts; simpl; unfold Js.coalesce; by rewrite Hv.
  - apply prop_checked_some in Hp as [Hn <-]. simpl. by rewrite Hn.
Qed.


(** ** Inclusion sites *)

Section Sites.

Context `{Host}.
Variables (files : store) (partialsDir : string).

Lemma expandIncludes_unfold d html ctx stack skip :
  expandIncludes (S d) files partialsDir html ctx stack skip =
  match renderM
          (includeSite files partialsDir
             (λ h c st, expandIncludes d files partialsDir h c st false) ctx stack)
          (Re.pieces false re_include html) with
  | Some html' => Some (if skip then html' else interpolateMustache html' ctx)
  | None => None
  end.
Proof. reflexivity. Qed.

(** Without deferral the text is interpolated once more at the end. *)
Lemma expandIncludes_final d html ctx stack :
  expandIncludes d files partialsDir html ctx stack false =
    (λ h, interpolateMustache h ctx) <$> expandIncludes d files partialsDir html ctx stack true.
Proof. destruct d; [done |]. rewrite !expandIncludes_unfold. by destruct (renderM _ _). Qed.

Lemma includeSite_reads recur ctx stack (m m' : Re.result) :
  m.(Re.text) = m'.(Re.text) → m.(Re.caps) = m'.(Re.caps) →
  includeSite files partialsDir recur ctx stack m =
  includeSite files partialsDir recur ctx stack m'.
Proof.
  intros Ht Hc. unfold includeSite, includeTarget, group_text, Re.group.
  by rewrite Ht, Hc.
Qed.

Lemma refChar_nospace (name : string) :
  str_all refChar name = true → str_all (λ c, negb (Chr.is_space c)) name = true.
Proof.
  apply str_all_weaken. intros c Hc. by destruct (refChar_elim c Hc) as (-> & _).
Qed.

Lemma tagOf_ref (name : string) :
  str_all refChar name = true → Str.trim (group_text (tagOf name) 1) = name.
Proof.
  intros Hname. unfold tagOf.
  pose proof (group_text_token "" "" "<% " " %>" name) as Hg.
  change (String.length "<% ") with 3 in Hg. rewrite Hg.
  by apply trim_id, refChar_nospace.
Qed.

Lemma tagOf_target (name : string) :
  str_all refChar name = true →
  includeTarget partialsDir (tagOf name) = fragmentPath partialsDir name.
Proof. intros Hname. unfold includeTarget, fragmentPath. by rewrite tagOf_ref. Qed.

(** A plain tag after a stretch of text that lacks [<%]: the text before it
    is copied, the tag is replaced by what its site gives, and expansion goes
    on behind it. *)
Lemma expandIncludes_tag d (a name b : string) ctx stack :
  lacks "<%" a = true → name ≠ "" → str_all refChar name = true →
  expandIncludes (S d) files partialsDir (a +:+ "<% " +:+ name +:+ " %>" +:+ b) ctx stack true =
    match includeSite files partialsDir
            (λ h c st, expandIncludes d files partialsDir h c st false) ctx stack (tagOf name),
          expandIncludes (S d) files partialsDir b ctx stack true with
    | Some x, Some y => Some (a +:+ x +:+ y)
    | _, _ => None
    end.
Proof.
  intros Ha Hne Hname. rewrite !expandIncludes_unfold.
  replace ("<% " +:+ name +:+ " %>" +:+ b) with (("<% " +:+ name +:+ " %>") +:+ b)
    by (by rewrite !str_app_assoc).
  rewrite (renderM_token false re_include re_include_free _ a ("<% " +:+ name +:+ " %>") b
             [(1, (3, 3 + String.length name))]).
  - fold (tagOf name). destruct (includeSite _ _ _ _ _ _); [| done].
    by destruct (renderM _ _).
  - intros m m'. apply includeSite_reads.
  - intros a1 a2 prev -> Hne2. apply here_include_gap; [done | | done].
    by apply lacks_app_r in Ha.
  - done.
  - intros prev. rewrite !str_app_assoc. by apply here_include.
Qed.

(** A text that lacks [<%] has no inclusion tag. *)
Lemma expandIncludes_plain d (h : string) ctx stack :
  lacks "<%" h = true →
  expandIncludes (S d) files partialsDir h ctx stack true = Some h.
Proof.
  intros Hh. rewrite expandIncludes_unfold.
  rewrite (pieces_none false re_include).
  - rewrite <- (app_nil_r (units h)), renderM_units. simpl. by rewrite str_app_nil_r.
  - intros a1 a2 prev -> Hne2. rewrite <- (str_app_nil_r a2).
    apply here_include_gap; [done | | done]. by apply lacks_app_r in Hh.
  - done.
Qed.

Lemma includeData_invalid (d : string) :
  JSON5_parse (Str.trim d) = None → includeData (Some d) = VObj [].
Proof.
  intros Hparse. unfold includeData. rewrite Hparse. by destruct (_ || _).
Qed.

Lemma includeSite_proceeds recur ctx stack m :
  is_Some (files !! includeTarget partialsDir m) →
  includeTarget partialsDir m ∉ stack →
  includeSite files partialsDir recur ctx stack m =
    (λ expanded, interpolateMustache expanded (nextContext ctx (includeData (Re.group m 2))))
      <$> recur (readText files (includeTarget partialsDir m))
                (nextContext ctx (includeData (Re.group m 2)))
                (stack ++ [includeTarget partialsDir m]).
Proof.
  intros Hex Hnot. unfold includeSite.
  apply existsSync_true in Hex. rewrite Hex. simpl.
  replace (on_stack stack (includeTarget partialsDir m)) with false.
  - by destruct (recur _ _ _).
  - symmetry. apply not_true_is_false. by rewrite on_stack_true.
Qed.

End Sites.

(** *** The context of an inclusion *)

Lemma assoc_obj_set (k k' : string) (v : value) (l : list (string * value)) :
  Js.assoc k (Js.obj_set k' v l) = if String.eqb k k' then Some v else Js.assoc k l.
Proof.
  induction l as [|[x y] l IH]; simpl.
  - by destruct (String.eqb k k').
  - destruct (String.eqb k' x) eqn:E; simpl.
    + apply String.eqb_eq in E as ->. by destruct (String.eqb k x).
    + destruct (String.eqb k x) eqn:E'.
      * apply String.eqb_eq in E' as ->.
        rewrite String.eqb_sym in E. by rewrite E.
      * exact IH.
Qed.

Lemma obj_set_same (k : string) (v : value) (l : list (string * value)) :
  Js.assoc k l = Some v → Js.obj_set k v l = l.
Proof.
  induction l as [|[x y] l IH]; simpl; [done |].
  destruct (String.eqb k x) eqn:E.
  - apply String.eqb_eq in E as ->. by intros [= ->].
  - intros Hl. by rewrite IH.
Qed.

(** The layers of the caller other than [data] pass unchanged to the
    fragment. *)
Lemma nextContext_layer (l : list (string * value)) (dataObj : value) (k : string) :
  k ≠ "data" → Js.prop (nextContext (VObj l) dataObj) k = Js.prop (VObj l) k.
Proof.
  intros Hk. unfold nextContext. simpl. rewrite assoc_obj_set.
  replace (String.eqb k "data") with false; [done |].
  symmetry. by apply String.eqb_neq.
Qed.

(** With an empty data object the fragment sees the context of its caller. *)
Lemma nextContext_empty (l d : list (string * value)) :
  Js.assoc "data" l = Some (VObj d) → nextContext (VObj l) (VObj []) = VObj l.
Proof.
  intros Hd. unfold nextContext. simpl. rewrite Hd. simpl.
  by rewrite obj_set_same.
Qed.


(** ** C7: missing fragments and invalid inclusion data *)

(** C7. Inclusion expansion always returns.  A tag whose fragment file does
    not exist is replaced by the missing-partial marker and expansion goes
    on behind it; inclusion data that fails to parse counts as the empty
    object, and the inclusion proceeds in the context of the caller: layers
    other than [data] are passed on as they are, and with the empty data
    object the whole context is. *)
Theorem C7_inclusion_degrades :
  (∀ (H : Host) files partialsDir html ctx skip depth,
     size files < depth →
     is_Some (expandIncludes depth files partialsDir html ctx [] skip)) ∧
  (∀ (H : Host) files partialsDir recur ctx stack m,
     files !! includeTarget partialsDir m = None →
     includeSite files partialsDir recur ctx stack m =
       Some (missingMarker (Str.trim (group_text m 1)))) ∧
  (∀ (H : Host) files partialsDir d a name b ctx stack,
     lacks "<%" a = true → name ≠ "" → str_all refChar name = true →
     files !! fragmentPath partialsDir name = None →
     expandIncludes (S d) files partialsDir (a +:+ "<% " +:+ name +:+ " %>" +:+ b) ctx stack true =
       (λ y, a +:+ missingMarker name +:+ y)
         <$> expandIncludes (S d) files partialsDir b ctx stack true) ∧
  (∀ (H : Host) d, JSON5_parse (Str.trim d) = None → includeData (Some d) = VObj []) ∧
  (∀ (H : Host) files partialsDir recur ctx stack m d,
     Re.group m 2 = Some d → JSON5_parse (Str.trim d) = None →
     is_Some (files !! includeTarget partialsDir m) →
     includeTarget partialsDir m ∉ stack →
     includeSite files partialsDir recur ctx stack m =
       (λ expanded, interpolateMustache expanded (nextContext ctx (VObj [])))
         <$> recur (readText files (includeTarget partialsDir m))
                   (nextContext ctx (VObj []))
                   (stack ++ [includeTarget partialsDir m])) ∧
  (∀ l dataObj k,
     k ≠ "data" → Js.prop (nextContext (VObj l) dataObj) k = Js.prop (VObj l) k) ∧
  (∀ l d, Js.assoc "data" l = Some (VObj d) → nextContext (VObj l) (VObj []) = VObj l) ∧
  expandIncludes (H := cardHost) 2 cardStore "/site/partials"
    "<% nope %>|<% card, {title:'Hi'} %>|<% card, {oops %>" pageCtx [] false
    = Some "<!-- monad:missing-partial nope -->|<b>Hi</b>|<b></b>".
Proof.
  split_and!.
  - intros H files partialsDir html ctx skip depth Hlt.
    destruct (expandIncludes_bounded files partialsDir (size files) html ctx skip
                (chain_le_size files partialsDir html)) as [out Hout].
    rewrite (Hout depth Hlt). by eexists.
  - intros H files partialsDir recur ctx stack m. apply includeSite_missing.
  - intros H files partialsDir d a name b ctx stack Ha Hne Hname Hno.
    rewrite expandIncludes_tag by done.
    rewrite includeSite_missing by (by rewrite tagOf_target).
    rewrite tagOf_ref by done.
    by destruct (expandIncludes _ _ _ b _ _ _).
  - intros H d. apply includeData_invalid.
  - intros H files partialsDir recur ctx stack m d Hg Hparse Hex Hnot.
    rewrite includeSite_proceeds by done.
    by rewrite Hg, (includeData_invalid d Hparse).
  - apply nextContext_layer.
  - apply nextContext_empty.
  - vm_compute. reflexivity.
Qed.


(** ** C10: deferred interpolation *)

(** A text that lacks [{{] has no token. *)
Lemma interpolate_plain (h : string) (ctx : value) :
  lacks "{{" h = true → Str.endsWith h "{" = false → interpolateMustache h ctx = h.
Proof.
  intros Hh Hend. unfold interpolateMustache.
  apply (greplace_none false re_mustache); [| done].
  intros a1 a2 prev -> Hne2. rewrite <- (str_app_nil_r a2).
  apply here_mustache_gap; [done | |].
  - by apply lacks_app_r in Hh.
  - by apply endsWith_suffix in Hend.
Qed.

Lemma endsWith_single_app (a b : string) (x : ascii) :
  b ≠ "" → Str.endsWith (a +:+ b) (String x "") = Str.endsWith b (String x "").
Proof.
  intros Hb. induction a as [|c a IH]; [done |].
  change (String c a +:+ b) with (String c (a +:+ b)).
  rewrite endsWith_unfold, IH.
  rewrite eqb_app_longer; [done |].
  simpl. rewrite str_app_length. destruct b; [done | simpl; lia].
Qed.

Section Deferral.

Context `{Host}.
Variables (files : store) (partialsDir : string).

(** A page with one plain tag, for a fragment without tags of its own:
    under deferral the fragment text is interpolated in the context of the
    inclusion, and the page text around the tag is returned as it is. *)
Lemma expandIncludes_deferred d ctx (a name b fb : string) :
  lacks "<%" a = true → lacks "<%" b = true →
  name ≠ "" → str_all refChar name = true →
  files !! fragmentPath partialsDir name = Some fb → lacks "<%" fb = true →
  expandIncludes (S (S d)) files partialsDir (a +:+ "<% " +:+ name +:+ " %>" +:+ b) ctx [] true =
    Some (a +:+
          interpolateMustache (interpolateMustache fb (nextContext ctx (VObj [])))
            (nextContext ctx (VObj [])) +:+ b).
Proof.
  intros Ha Hb Hne Hname Hfb Hplain.
  rewrite expandIncludes_tag by done.
  rewrite includeSite_proceeds.
  - cbv beta. rewrite tagOf_target by done. unfold readText. rewrite Hfb.
    change (default "" (Some fb)) with fb.
    rewrite expandIncludes_final, !expandIncludes_plain by done. done.
  - rewrite tagOf_target by done. by rewrite Hfb.
  - apply not_elem_of_nil.
Qed.

End Deferral.

(** C10. Deferral only removes the trailing interpolation pass of the
    top-level call.  For a page with a plain tag whose fragment has no tags
    of its own, the result under deferral is the page text with the tag
    replaced by the fragment text interpolated in the context of the
    inclusion; a token of the fragment whose lookup misses is blanked,
    while page text without tags, tokens included, is returned unchanged.
    So a loop written on the page sees its item tokens, and the same loop
    written in a fragment has lost them before the loops run. *)
Theorem C10_deferral_is_top_level_only :
  (∀ (H : Host) files partialsDir depth html ctx stack,
     expandIncludes depth files partialsDir html ctx stack false =
       (λ h, interpolateMustache h ctx)
         <$> expandIncludes depth files partialsDir html ctx stack true) ∧
  (∀ (H : Host) files partialsDir d ctx stack h,
     lacks "<%" h = true →
     expandIncludes (S d) files partialsDir h ctx stack true = Some h) ∧
  (∀ (H : Host) files partialsDir d ctx a name b fb,
     lacks "<%" a = true → lacks "<%" b = true →
     name ≠ "" → str_all refChar name = true →
     files !! fragmentPath partialsDir name = Some fb → lacks "<%" fb = true →
     expandIncludes (S (S d)) files partialsDir (a +:+ "<% " +:+ name +:+ " %>" +:+ b) ctx [] true =
       Some (a +:+
             interpolateMustache (interpolateMustache fb (nextContext ctx (VObj [])))
               (nextContext ctx (VObj [])) +:+ b)) ∧
  (∀ (H : Host) files partialsDir d ctx a name b fa path fc,
     lacks "<%" a = true → lacks "<%" b = true →
     name ≠ "" → str_all refChar name = true →
     files !! fragmentPath partialsDir name = Some (fa +:+ "{{" +:+ path +:+ "}}" +:+ fc) →
     lacks "<%" (fa +:+ "{{" +:+ path +:+ "}}" +:+ fc) = true →
     lacks "{{" fa = true → Str.endsWith fa "{" = false →
     lacks "{{" fc = true → Str.endsWith fc "{" = false →
     path ≠ "" → str_all pathChar path = true →
     missing (nextContext ctx (VObj [])) (pathParts path) →
     expandIncludes (S (S d)) files partialsDir (a +:+ "<% " +:+ name +:+ " %>" +:+ b) ctx [] true =
       Some (a +:+ (fa +:+ fc) +:+ b)) ∧
  expandIncludes (H := cardHost) 2 cardStore "/site/partials"
    "<% card %><i>{{item.name}}</i>" pageCtx [] true = Some "<b></b><i>{{item.name}}</i>" ∧
  expandIncludes (H := cardHost) 2 cardStore "/site/partials"
    "<% card %><i>{{item.name}}</i>" pageCtx [] false = Some "<b></b><i></i>" ∧
  renderBody (H := plainHost) 2 listStore "/site/partials" postsLoop postsCtx true postsAB
    = Some "<h2>A</h2><h2>B</h2>" ∧
  renderBody (H := plainHost) 2 listStore "/site/partials" "<% list %>" postsCtx true postsAB
    = Some "<h2></h2><h2></h2>".
Proof.
  split_and!.
  - intros H files partialsDir depth html ctx stack. apply expandIncludes_final.
  - intros H files partialsDir d ctx stack h. apply expandIncludes_plain.
  - intros H files partialsDir d ctx a name b fb. apply expandIncludes_deferred.
  - intros H files partialsDir d ctx a name b fa path fc
      Ha Hb Hne Hname Hfb Hplain Hfa Hfa' Hfc Hfc' Hpne Hpath Hmiss.
    rewrite (expandIncludes_deferred files partialsDir d ctx a name b _ Ha Hb Hne Hname Hfb Hplain).
    rewrite interpolate_token by done.
    unfold getByPath. rewrite walkPath_missing by done.
    change (Js.toString (VStr "")) with "".
    change ("" +:+ interpolateMustache fc (nextContext ctx (VObj [])))
      with (interpolateMustache fc (nextContext ctx (VObj []))).
    rewrite (interpolate_plain fc) by done.
    rewrite interpolate_plain; [done | by apply lacks_braces_app |].
    destruct fc as [|x fc].
    + by rewrite str_app_nil_r.
    + by rewrite endsWith_single_app.
  - vm_compute. reflexivity.
  - vm_compute. reflexivity.
  - vm_compute. reflexivity.
  - vm_compute. reflexivity.
Qed.


(** ** C6: frontmatter of markup pages *)

Lemma take_drop (n : nat) (s : string) : Str.take n s +:+ Str.drop n s = s.
Proof.
  revert s. induction n as [|n IH]; intros [|c s]; simpl; try done.
  by rewrite IH.
Qed.

(** A match splits the text it was found in. *)
Lemma search_sound (icase : bool) (r : regex) (s : string) :
  ∀ pre m, Re.search icase r pre s = Some m →
    pre +:+ s = m.(Re.before) +:+ m.(Re.text) +:+ m.(Re.after).
Proof.
  induction s as [|c s IH]; intros pre m; rewrite search_unfold.
  - destruct (Re.here _ _ _ _) as [hit|]; [| done].
    intros [= <-]. unfold Re.mk. simpl. by rewrite take_drop.
  - destruct (Re.here _ _ _ _) as [hit|].
    + intros [= <-]. unfold Re.mk. simpl. by rewrite take_drop.
    + intros Hm. apply IH in Hm. by rewrite snoc_app in Hm.
Qed.

Lemma exec_sound (icase : bool) (r : regex) (s : string) (m : Re.result) :
  Re.exec icase r s = Some m → s = m.(Re.before) +:+ m.(Re.text) +:+ m.(Re.after).
Proof. intros Hm. by apply search_sound in Hm. Qed.

Section Meta.

Context `{Host}.

Lemma tryParsePageMeta_none (raw : string) :
  Re.exec true re_meta raw = None → tryParsePageMeta raw = (VObj [], raw).
Proof. intros Hno. unfold tryParsePageMeta. by rewrite Hno. Qed.

Lemma tryParsePageMeta_some (raw : string) (m : Re.result) :
  Re.exec true re_meta raw = Some m →
  tryParsePageMeta raw =
    (default (VObj []) (JSON5_parse (Str.trim (group_text m 1))),
     Str.trim (m.(Re.before) +:+ m.(Re.after))).
Proof.
  intros Hm. unfold tryParsePageMeta, Re.replace. rewrite Hm.
  change (Subst.expand m 1 "") with "".
  change ("" +:+ m.(Re.after)) with (m.(Re.after)).
  by destruct (JSON5_parse _).
Qed.

End Meta.

(** Under the [i] flag a pattern character that is not a letter still
    matches only itself. *)
Lemma eq_icase_lt (c : ascii) : Chr.eq true "<" c = Ascii.eqb "<" c.
Proof. by destruct c as [[] [] [] [] [] [] [] []]. Qed.
Lemma eq_icase_bang (c : ascii) : Chr.eq true "!" c = Ascii.eqb "!" c.
Proof. by destruct c as [[] [] [] [] [] [] [] []]. Qed.
Lemma eq_icase_minus (c : ascii) : Chr.eq true "-" c = Ascii.eqb "-" c.
Proof. by destruct c as [[] [] [] [] [] [] [] []]. Qed.
Lemma eq_icase_gt (c : ascii) : Chr.eq true ">" c = Ascii.eqb ">" c.
Proof. by destruct c as [[] [] [] [] [] [] [] []]. Qed.

Lemma prefix_three (x y z c c' c'' : ascii) (s : string) :
  String.prefix (String x (String y (String z ""))) (String c (String c' (String c'' s))) =
    Ascii.eqb x c && Ascii.eqb y c' && Ascii.eqb z c''.
Proof. by rewrite !prefix_cons, prefix_nil, andb_true_r, andb_assoc. Qed.

Lemma startsWith_char (x c : ascii) (s : string) :
  Str.startsWith (String c s) (String x "") = Ascii.eqb x c.
Proof. unfold Str.startsWith. by rewrite prefix_cons, prefix_nil, andb_true_r. Qed.

(** No metadata block starts inside a text that lacks [<!-], when the text
    behind it does not begin with [!] or [-]. *)
Lemma here_meta_gap (prev : option ascii) (a rest : string) :
  a ≠ "" → lacks "<!-" a = true →
  Str.startsWith rest "!" = false → Str.startsWith rest "-" = false →
  Re.here true re_meta prev (a +:+ rest) = None.
Proof.
  intros Hne Ha Hr1 Hr2. destruct a as [|c a]; [done |].
  apply lacks_cons in Ha as [Hpre _].
  unfold Re.here, re_meta. simpl. rewrite eq_icase_lt.
  destruct (Ascii.eqb "<" c) eqn:Ec; [| done].
  destruct a as [|c' a]; simpl.
  { destruct rest as [|x rest]; [done |].
    rewrite startsWith_char in Hr1. by rewrite eq_icase_bang, Hr1. }
  rewrite eq_icase_bang. destruct (Ascii.eqb "!" c') eqn:Ec'; [| done].
  destruct a as [|c'' a]; simpl.
  { destruct rest as [|x rest]; [done |].
    rewrite startsWith_char in Hr2. by rewrite eq_icase_minus, Hr2. }
  rewrite prefix_three, Ec, Ec', !andb_true_l in Hpre.
  by rewrite eq_icase_minus, Hpre.
Qed.

(** The end of the block is the first [-->]. *)
Lemma close_not_before (json post t1 t2 : string) n p cs :
  lacks "-->" json = true → json = t1 +:+ t2 → t2 ≠ "" →
  Re.run true (Re.lit "-->") Re.accept n p (t2 +:+ "-->" +:+ post) cs = None.
Proof.
  intros Hj -> Hne. apply lacks_app_r in Hj.
  destruct t2 as [|x t2]; [done |]. apply lacks_cons in Hj as [Hpre _].
  simpl. rewrite eq_icase_minus. destruct (Ascii.eqb "-" x) eqn:Ex; [| done].
  destruct t2 as [|y t2]; simpl; [by known_tests |].
  rewrite eq_icase_minus. destruct (Ascii.eqb "-" y) eqn:Ey; [| done].
  destruct t2 as [|z t2]; simpl; [by known_tests |].
  rewrite prefix_three, Ex, Ey, !andb_true_l in Hpre.
  by rewrite eq_icase_gt, Hpre.
Qed.

Lemma str_all_any (s : string) : str_all Chr.any s = true.
Proof. induction s as [|c s IH]; simpl; [done | exact IH]. Qed.

(** A block [<!-- monad {...}-->] at the current position. *)
Lemma here_meta_block (prev : option ascii) (json post : string) :
  lacks "-->" (String "{" json) = true →
  Re.here true re_meta prev ("<!-- monad " +:+ String "{" json +:+ "-->" +:+ post) =
    Some (String.length ("<!-- monad " +:+ String "{" json +:+ "-->"),
          [(1, (11, 11 + String.length (String "{" json)))]).
Proof.
  intros Hj. unfold Re.here, re_meta. simpl. known_tests. simpl.
  known_tests. simpl.
  erewrite star_lazy_until; [reflexivity | apply str_all_any | |].
  - intros t1 t2 p Ht Hne.
    apply lacks_cons in Hj as [_ Hj].
    exact (close_not_before json post t1 t2 (12 + String.length t1) p
             [(1, (11, 12 + String.length t1))] Hj Ht Hne).
  - intros p. simpl. known_tests. simpl.
    rewrite !str_app_length. simpl. unfold Re.accept. do 2 f_equal. lia.
Qed.

Section MetaBlock.

Context `{Host}.

(** A page made of a text without comment opener, a metadata block, and any
    text behind it. *)
Lemma tryParsePageMeta_block (pre json post : string) :
  lacks "<!-" pre = true → lacks "-->" (String "{" json) = true →
  tryParsePageMeta (pre +:+ "<!-- monad " +:+ String "{" json +:+ "-->" +:+ post) =
    (default (VObj []) (JSON5_parse (Str.trim (String "{" json))), Str.trim (pre +:+ post)).
Proof.
  intros Hpre Hj.
  assert (Re.exec true re_meta (pre +:+ "<!-- monad " +:+ String "{" json +:+ "-->" +:+ post) =
          Some (Re.Result pre ("<!-- monad " +:+ String "{" json +:+ "-->") post
                  [(1, (11, 11 + String.length (String "{" json)))])) as Hm.
  { unfold Re.exec. rewrite search_skip.
    - rewrite search_unfold, here_meta_block by done. unfold Re.mk. cbn [fst snd].
      replace ("<!-- monad " +:+ String "{" json +:+ "-->" +:+ post)
        with (("<!-- monad " +:+ String "{" json +:+ "-->") +:+ post)
        by (by rewrite !str_app_assoc).
      by rewrite take_app, drop_app.
    - intros a1 a2 -> Hne. apply (here_meta_gap _ a2); [done | | done | done].
      by apply lacks_app_r in Hpre. }
  rewrite (tryParsePageMeta_some _ _ Hm). cbn [Re.before Re.after].
  pose proof (group_text_token pre post "<!-- monad " "-->" (String "{" json)) as Hg.
  change (String.length "<!-- monad ") with 11 in Hg. by rewrite Hg.
Qed.

(** A page without comment opener has no block. *)
Lemma tryParsePageMeta_plain (raw : string) :
  lacks "<!-" raw = true → tryParsePageMeta raw = (VObj [], raw).
Proof.
  intros Hraw. apply tryParsePageMeta_none. unfold Re.exec.
  rewrite <- (str_app_nil_r raw) at 1. rewrite search_skip.
  - by rewrite search_unfold.
  - intros a1 a2 -> Hne. apply here_meta_gap; [done | | done | done].
    by apply lacks_app_r in Hraw.
Qed.

End MetaBlock.

(** C6 fails as stated: text in front of the block stays in the body. *)
Lemma C6_body_keeps_text_before_block :
  tryParsePageMeta (H := metaHost) pageWithIntro =
    (VObj [("title", VStr "About")], "<p>intro</p><h1>About</h1>") ∧
  snd (tryParsePageMeta (H := metaHost) pageWithIntro) ≠ "<h1>About</h1>".
Proof. split; [reflexivity | discriminate]. Qed.

(** C6 (amended). Without a match of the block pattern the metadata is empty
    and the body is the whole text, as for any page without comment opener.
    With a match, the body is the text in front of the first block joined to
    the text behind it, trimmed, and the metadata is the parsed content of
    the block, or empty when the parser rejects it. *)
Theorem C6_frontmatter :
  (∀ (H : Host) raw,
     Re.exec true re_meta raw = None → tryParsePageMeta raw = (VObj [], raw)) ∧
  (∀ (H : Host) raw, lacks "<!-" raw = true → tryParsePageMeta raw = (VObj [], raw)) ∧
  (∀ (H : Host) raw m,
     Re.exec true re_meta raw = Some m →
     raw = m.(Re.before) +:+ m.(Re.text) +:+ m.(Re.after) ∧
     tryParsePageMeta raw =
       (default (VObj []) (JSON5_parse (Str.trim (group_text m 1))),
        Str.trim (m.(Re.before) +:+ m.(Re.after)))) ∧
  (∀ (H : Host) pre json post,
     lacks "<!-" pre = true → lacks "-->" (String "{" json) = true →
     tryParsePageMeta (pre +:+ "<!-- monad " +:+ String "{" json +:+ "-->" +:+ post) =
       (default (VObj []) (JSON5_parse (Str.trim (String "{" json))),
        Str.trim (pre +:+ post))) ∧
  (∀ (H : Host) pre json post,
     lacks "<!-" pre = true → lacks "-->" (String "{" json) = true →
     JSON5_parse (Str.trim (String "{" json)) = None →
     tryParsePageMeta (pre +:+ "<!-- monad " +:+ String "{" json +:+ "-->" +:+ post) =
       (VObj [], Str.trim (pre +:+ post))) ∧
  tryParsePageMeta (H := metaHost) pageWithIntro =
    (VObj [("title", VStr "About")], "<p>intro</p><h1>About</h1>").
Proof.
  split_and!.
  - intros H raw. apply tryParsePageMeta_none.
  - intros H raw. apply tryParsePageMeta_plain.
  - intros H raw m Hm. split; [by apply exec_sound in Hm | by apply tryParsePageMeta_some].
  - intros H pre json post. apply tryParsePageMeta_block.
  - intros H pre json post Hpre Hj Hparse.
    rewrite tryParsePageMeta_block by done. by rewrite Hparse.
  - reflexivity.
Qed.

(** A page whose block the parser rejects: the body is still produced. *)
Lemma C6_frontmatter_witness :
  lacks "<!-" "<p>intro</p>" = true ∧ lacks "-->" (String "{" "title: } ") = true ∧
  JSON5_parse (Host := metaHost) (Str.trim (String "{" "title: } ")) = None ∧
  tryParsePageMeta (H := metaHost)
    ("<p>intro</p>" +:+ "<!-- monad " +:+ String "{" "title: } " +:+ "-->" +:+ " <h1>About</h1> ")
    = (VObj [], Str.trim ("<p>intro</p>" +:+ " <h1>About</h1> ")).
Proof.
  do 3 (split; [reflexivity |]).
  exact (proj1 (proj2 (proj2 (proj2 (proj2 C6_frontmatter))))
           metaHost "<p>intro</p>" "title: } " " <h1>About</h1> " eq_refl eq_refl eq_refl).
Defined.


(** ** C3 and C5: the audit of a rendered page *)

Lemma prefix_app (p s : string) : String.prefix p (p +:+ s) = true.
Proof.
  induction p as [|c p IH]; [apply prefix_nil |].
  change (String c p +:+ s) with (String c (p +:+ s)).
  by rewrite prefix_cons, IH, Ascii.eqb_refl.
Qed.

Lemma filter_concat {A} (f : A → bool) (ls : list (list A)) :
  List.filter f (concat ls) = concat (List.filter f <$> ls).
Proof.
  induction ls as [|l ls IH]; [done |].
  simpl. by rewrite List.filter_app, IH.
Qed.

Section Audit.

Context `{Host}.
Variables (disk : gmap string N).

Lemma auditLink_broken (routes : list string) (link : element) :
  List.filter isBrokenLink (auditLink routes link) = auditLink routes link.
Proof.
  unfold auditLink. destruct (isInternal _); [| done].
  destruct (routeExists _ _); [done |].
  cbn [List.filter]. unfold isBrokenLink. by rewrite prefix_app.
Qed.

Lemma auditImage_not_broken (opts : option AuditOpts) (img : element) :
  List.filter isBrokenLink (auditImage disk opts img) = [].
Proof.
  unfold auditImage, altWarnings, weightWarnings. rewrite List.filter_app.
  assert (∀ b : bool, List.filter isBrokenLink
            (if b then ["Image missing alt attribute"] else []) = []) as Halt
    by (by intros []).
  replace (List.filter isBrokenLink
             match getAttribute img "alt" with
             | Some a => if Str.is_empty (Str.trim a) then ["Image missing alt attribute"] else []
             | None => ["Image missing alt attribute"]
             end) with (@nil string).
  2: { destruct (getAttribute img "alt"); [by rewrite Halt | done]. }
  destruct (opts ≫= distDirAbs) as [dist|]; [| done].
  destruct (_ && _); [| done].
  destruct (disk !! _) as [size|]; [| done].
  by destruct (_ <? _)%N.
Qed.

(** The broken-link warnings of a page are those of its anchors. *)
Lemma auditHtml_links (html route : string) (opts : AuditOpts) (routes : list string) :
  opts.(allRoutes) = Some routes →
  List.filter isBrokenLink (auditHtml disk html route (Some opts)) =
    concat (auditLink routes <$> anchorsWithHref (parseHtml html)).
Proof.
  intros Hroutes. unfold auditHtml. simpl. rewrite Hroutes.
  rewrite !List.filter_app, !filter_concat.
  assert (∀ (b : bool) w, isBrokenLink w = false →
            List.filter isBrokenLink (if b then [w] else []) = []) as Hone.
  { intros [] w Hw; simpl; [by rewrite Hw | done]. }
  rewrite !Hone by done.
  replace (concat (List.filter isBrokenLink <$> (auditImage disk (Some opts) <$> byTag "img" (parseHtml html))))
    with (@nil string).
  2: { induction (byTag "img" (parseHtml html)) as [|i l IH]; [done |].
       rewrite !fmap_cons. simpl. by rewrite auditImage_not_broken. }
  simpl. rewrite app_nil_r. f_equal.
  induction (anchorsWithHref (parseHtml html)) as [|a l IH]; [done |].
  rewrite !fmap_cons. by rewrite auditLink_broken, IH.
Qed.

End Audit.

Lemma routeExists_spec (routes : list string) (clean : string) :
  routeExists routes clean = true ↔
  ∃ route, route ∈ routes ∧ (route = clean ∨ withSlash route = withSlash clean).
Proof.
  unfold routeExists. rewrite existsb_exists. split.
  - intros (route & Hin & Hm). exists route. split; [by apply list_elem_of_In |].
    apply orb_true_iff in Hm as [Hm | Hm]; apply String.eqb_eq in Hm; [by left | by right].
  - intros (route & Hin & Hm). exists route. split; [by apply list_elem_of_In |].
    apply orb_true_iff. destruct Hm as [-> | ->]; [left | right]; apply String.eqb_refl.
Qed.

Lemma head_split (sep : ascii) (s : string) :
  head (Str.split sep s) = Some (upto sep s).
Proof.
  induction s as [|c s IH]; simpl; [done |].
  destruct (Ascii.eqb c sep); [done |].
  destruct (Str.split sep s) as [|w ws]; by simplify_eq/=.
Qed.

Lemma upto_app (sep : ascii) (p s : string) :
  without sep p = true → upto sep (p +:+ s) = p +:+ upto sep s.
Proof.
  induction p as [|c p IH]; simpl; [done |].
  intros [Hc Hp]%andb_true_iff. apply negb_true_iff in Hc. by rewrite Hc, IH.
Qed.

Lemma upto_whole (sep : ascii) (p : string) : without sep p = true → upto sep p = p.
Proof.
  intros Hp. rewrite <- (str_app_nil_r p) at 1. rewrite upto_app by done.
  simpl. apply str_app_nil_r.
Qed.

Lemma upto_sep (sep : ascii) (s : string) : upto sep (String sep s) = "".
Proof. simpl. by rewrite Ascii.eqb_refl. Qed.

Lemma cleanHref_upto (href : string) : cleanHref href = upto "#" (upto "?" href).
Proof. unfold cleanHref. by rewrite !head_split. Qed.

(** Query and fragment are cut off. *)
Lemma cleanHref_strips (p q : string) :
  without "?" p = true → without "#" p = true →
  cleanHref p = p ∧ cleanHref (p +:+ String "?" q) = p ∧ cleanHref (p +:+ String "#" q) = p.
Proof.
  intros Hq Hf. rewrite !cleanHref_upto. split_and!.
  - by rewrite (upto_whole "?" p Hq), (upto_whole "#" p Hf).
  - rewrite (upto_app "?" p _ Hq), upto_sep, str_app_nil_r. by apply upto_whole.
  - rewrite (upto_app "?" p _ Hq).
    change (upto "?" (String "#" q)) with (String "#" (upto "?" q)).
    rewrite (upto_app "#" p _ Hf), upto_sep. by rewrite str_app_nil_r.
Qed.

(** C3. With a route table given, the broken-link warnings of a page are
    exactly those of its anchors with [href], one for each anchor whose
    reference begins with a single slash and, with query and fragment cut
    off, matches no route directly or up to a trailing slash.  Against the
    routes [/] and [/about/], the reference [/missing/] gives one warning
    and [/about] gives none. *)
Theorem C3_broken_links :
  (∀ (H : Host) disk html route opts routes,
     opts.(allRoutes) = Some routes →
     List.filter isBrokenLink (auditHtml disk html route (Some opts)) =
       concat (auditLink routes <$> anchorsWithHref (parseHtml html))) ∧
  (∀ routes link,
     auditLink routes link =
       let href := default "" (getAttribute link "href") in
       if isInternal href && negb (routeExists routes (cleanHref href))
       then ["Broken internal link: " +:+ href] else []) ∧
  (∀ routes clean,
     routeExists routes clean = true ↔
     ∃ route, route ∈ routes ∧ (route = clean ∨ withSlash route = withSlash clean)) ∧
  (∀ p q, without "?" p = true → without "#" p = true →
     cleanHref p = p ∧ cleanHref (p +:+ String "?" q) = p ∧ cleanHref (p +:+ String "#" q) = p) ∧
  (∀ c s, isInternal (String c s) = Ascii.eqb "/" c && negb (Str.startsWith s "/")) ∧
  auditLink siteRoutes (Element "a" [("href", "/missing/")]) = ["Broken internal link: /missing/"] ∧
  auditLink siteRoutes (Element "a" [("href", "/about")]) = [] ∧
  List.filter isBrokenLink (auditHtml (H := auditHost) ∅ docLinks "/" (Some linkOpts))
    = ["Broken internal link: /missing/"].
Proof.
  split_and!.
  - intros H disk html route opts routes. apply auditHtml_links.
  - intros routes link. unfold auditLink. cbv zeta.
    destruct (isInternal _); [| done]. by destruct (routeExists _ _).
  - apply routeExists_spec.
  - apply cleanHref_strips.
  - intros c s. unfold isInternal, Str.startsWith.
    rewrite (prefix_cons "/" "" c s), prefix_nil, andb_true_r.
    destruct s as [|c' s].
    + rewrite (prefix_cons "/" "/" c ""). change (String.prefix "/" "") with false.
      by rewrite andb_false_r.
    + rewrite prefix_two, (prefix_cons "/" "" c' s), prefix_nil, andb_true_r.
      by destruct (Ascii.eqb "/" c), (Ascii.eqb "/" c').
  - reflexivity.
  - reflexivity.
  - reflexivity.
Qed.

(** The link document audited against the two routes of the site. *)
Lemma C3_broken_links_witness :
  linkOpts.(allRoutes) = Some siteRoutes ∧
  List.filter isBrokenLink (auditHtml (H := auditHost) ∅ docLinks "/" (Some linkOpts)) =
    concat (auditLink siteRoutes <$> anchorsWithHref (parseHtml (Host := auditHost) docLinks)) ∧
  without "?" "/about/" = true ∧ without "#" "/about/" = true ∧
  cleanHref ("/about/" +:+ String "?" "q=1#top") = "/about/".
Proof.
  split; [reflexivity |]. split.
  - exact (proj1 C3_broken_links auditHost ∅ docLinks "/" linkOpts siteRoutes eq_refl).
  - do 2 (split; [reflexivity |]).
    exact (proj1 (proj2 (proj1 (proj2 (proj2 (proj2 C3_broken_links)))
                    "/about/" "q=1#top" eq_refl eq_refl))).
Defined.


(** ** C5: the SEO checks *)

Lemma elem_of_concat {A} (x : A) (l : list A) (ls : list (list A)) :
  x ∈ l → l ∈ ls → x ∈ concat ls.
Proof.
  intros Hx. induction 1 as [? ls | l' ? ls Hin IH]; simpl.
  - apply elem_of_app. by left.
  - apply elem_of_app. right. by apply IH.
Qed.

Section Seo.

Context `{Host}.
Variables (disk : gmap string N).

Lemma auditImage_missing_alt (opts : option AuditOpts) (img : element) :
  getAttribute img "alt" = None →
  "Image missing alt attribute" ∈ auditImage disk opts img.
Proof.
  intros Halt. unfold auditImage, altWarnings. rewrite Halt.
  apply elem_of_app. left. by left.
Qed.

Lemma auditImage_fine (opts : option AuditOpts) (img : element) (alt : string) :
  getAttribute img "alt" = Some alt → Str.trim alt ≠ "" →
  weightWarnings disk opts img = [] →
  auditImage disk opts img = [].
Proof.
  intros Halt Hne Hweight. unfold auditImage, altWarnings. rewrite Halt, Hweight.
  by destruct (Str.trim alt).
Qed.

(** No weight is checked without an output root, for a file that does not
    exist, or for a file within the budget. *)
Lemma weightWarnings_none (opts : option AuditOpts) (img : element) :
  opts ≫= distDirAbs = None → weightWarnings disk opts img = [].
Proof. intros Hdist. unfold weightWarnings. by rewrite Hdist. Qed.

Lemma weightWarnings_budget (opts : option AuditOpts) (img : element) :
  (∀ path size, disk !! path = Some size →
     (size <= default 500000 (opts ≫= maxImageBytes))%N) →
  weightWarnings disk opts img = [].
Proof.
  intros Hsmall. unfold weightWarnings.
  destruct (opts ≫= distDirAbs) as [dist|]; [| done].
  destruct (_ && _); [| done].
  destruct (disk !! _) as [size|] eqn:Hsize; [| done].
  apply Hsmall in Hsize.
  replace (_ <? size)%N with false; [done |].
  symmetry. apply N.ltb_ge. exact Hsize.
Qed.

(** A page that passes every check of the audit other than the link
    check. *)
Lemma auditHtml_clean (html route : string) (opts : option AuditOpts) :
  Re.test true re_title html = true →
  Re.test true re_description html = true →
  List.length (Re.matchAll true re_h1 html) = 1 →
  Re.test true (re_rel "icon") html || Re.test true (re_rel "shortcut icon") html = true →
  Re.test true (re_rel "canonical") html = true →
  (∀ img, img ∈ byTag "img" (parseHtml html) →
     (∃ alt, getAttribute img "alt" = Some alt ∧ Str.trim alt ≠ "") ∧
     weightWarnings disk opts img = []) →
  auditHtml disk html route opts =
    match opts ≫= allRoutes with
    | Some routes => concat (auditLink routes <$> anchorsWithHref (parseHtml html))
    | None => []
    end.
Proof.
  intros Ht Hd Hh1 Hicon Hcanon Himgs.
  unfold auditHtml. rewrite Ht, Hd, Hh1, Hcanon. cbn [negb Nat.eqb Nat.ltb Nat.leb app].
  replace (negb (Re.test true (re_rel "icon") html) &&
           negb (Re.test true (re_rel "shortcut icon") html)) with false
    by (by rewrite <- negb_orb, Hicon).
  replace (concat (auditImage disk opts <$> byTag "img" (parseHtml html))) with (@nil string).
  - cbn [app]. by rewrite app_nil_r.
  - symmetry. induction (byTag "img" (parseHtml html)) as [|i l IH]; [done |].
    rewrite fmap_cons. simpl.
    destruct (Himgs i ltac:(by left)) as ((alt & Halt & Hne) & Hweight).
    rewrite (auditImage_fine opts i alt Halt Hne Hweight). simpl.
    apply IH. intros img Himg. apply Himgs. by right.
Qed.

End Seo.

(** C5 fails as stated: a document with one heading, a title, a meta
    description, a canonical link and [alt] on its image still gets the
    favicon warning. *)
Lemma C5_favicon_warning_remains :
  auditHtml (H := auditHost) ∅ docNoFavicon "/" None = [faviconWarning] ∧
  auditHtml (H := auditHost) ∅ docNoFavicon "/" None ≠ [].
Proof. split; [reflexivity | discriminate]. Qed.


(** ** C9: the audit policy at the end of the build *)

Section Policy.

Context `{Host}.
Variables (o : BuildOptions) (root distDir : string).

Lemma writeOutputs_completes pages notFound :
  (writeOutputs o root distDir pages notFound).2 = Completed.
Proof.
  unfold writeOutputs, andThen, when, write, skip.
  destruct notFound, (sitemap_enabled o), (robots_enabled o),
    (redirects_enabled o && Nat.ltb 0 (redirects_rules o)),
    (redirects_netlify o), (redirects_vercel o); reflexivity.
Qed.

(** What [closeBundle] does in a build: the outputs, then the reports when
    the audit is on, then the abort that the policy asks for, if any. *)
Lemma closeBundle_policy pages notFound :
  let results := pages ++ match notFound with Some r => [r] | None => [] end in
  closeBundle true o root distDir pages notFound =
    ((writeOutputs o root distDir pages notFound).1 ++ reportWrites o root distDir ++
       (if auditAborts o results || accessibilityAborts o results then []
        else if o.(lighthouse_enabled) then [RunLighthouse] else []),
     if auditAborts o results then Thrown (auditMessage results)
     else if accessibilityAborts o results then Thrown (accessibilityMessage results)
     else Completed).
Proof.
  intros results. unfold closeBundle. cbn [negb]. fold results.
  pose proof (writeOutputs_completes pages notFound) as Hw.
  destruct (writeOutputs o root distDir pages notFound) as [w out]. simpl in Hw. subst out.
  unfold andThen at 1. cbn [fst snd].
  unfold auditReports, accessibilityGate, reportWrites, auditAborts, accessibilityAborts,
    auditMessage, accessibilityMessage, reportJson, reportHtml, andThen, when, write, skip, throw.
  destruct (audit_enabled o), (audit_mode o), (Nat.ltb 0 (totalWarnings results)),
    (accessibility_enabled o), (accessibility_mode o),
    (Nat.ltb 0 (accessibilityWarnings results)), (lighthouse_enabled o);
    cbn [fst snd isFail andb orb app]; rewrite ?app_nil_r, <- ?app_assoc; reflexivity.
Qed.

End Policy.

Lemma accessibilityWarnings_le (results : list RenderResult) :
  accessibilityWarnings results ≤ totalWarnings results.
Proof.
  unfold accessibilityWarnings, totalWarnings.
  assert (∀ a b, a ≤ b →
    foldl (λ acc r, acc + List.length (List.filter isAccessibilityWarning r.(warnings))) a results
    ≤ foldl (λ a r, a + List.length r.(warnings)) b results) as Hgen.
  { induction results as [|r rs IH]; intros a b Hab; simpl; [done |].
    apply IH. pose proof (List.filter_length_le isAccessibilityWarning r.(warnings)). lia. }
  by apply Hgen.
Qed.

(** C9. The policy at the end of the build.  With the audit enabled, the
    JSON report and the HTML report are written after the outputs whatever
    the outcome, and an abort comes after them: that of the audit in mode
    [fail] when there is a warning of any kind, or else that of the
    accessibility check in mode [fail] when a warning carries one of its
    markers; with neither mode [fail], or without warnings, the build
    completes.  The accessibility check departs from the policy in two
    ways.  Its abort does not depend on the reports: with the audit
    disabled the build aborts without a report, with a message that points
    to the report.  And its count goes by markers in the text of a
    warning, which the warning for a skipped heading level does not carry:
    a page with that warning alone does not abort the build. *)
Theorem C9_audit_policy :
  (∀ (H : Host) o root distDir pages notFound,
     let results := pages ++ match notFound with Some r => [r] | None => [] end in
     closeBundle true o root distDir pages notFound =
       ((writeOutputs o root distDir pages notFound).1 ++ reportWrites o root distDir ++
          (if auditAborts o results || accessibilityAborts o results then []
           else if o.(lighthouse_enabled) then [RunLighthouse] else []),
        if auditAborts o results then Thrown (auditMessage results)
        else if accessibilityAborts o results then Thrown (accessibilityMessage results)
        else Completed)) ∧
  (∀ (H : Host) o root distDir pages notFound,
     let results := pages ++ match notFound with Some r => [r] | None => [] end in
     o.(audit_enabled) = true → o.(audit_mode) = Fail → 0 < totalWarnings results →
     closeBundle true o root distDir pages notFound =
       ((writeOutputs o root distDir pages notFound).1 ++
          [WriteFile (reportJson root distDir); WriteFile (reportHtml root distDir)],
        Thrown (auditMessage results))) ∧
  (∀ (H : Host) o root distDir pages notFound,
     let results := pages ++ match notFound with Some r => [r] | None => [] end in
     o.(audit_enabled) = true → auditAborts o results = false →
     o.(accessibility_enabled) = true → o.(accessibility_mode) = Fail →
     0 < accessibilityWarnings results →
     closeBundle true o root distDir pages notFound =
       ((writeOutputs o root distDir pages notFound).1 ++
          [WriteFile (reportJson root distDir); WriteFile (reportHtml root distDir)],
        Thrown (accessibilityMessage results))) ∧
  (∀ (H : Host) o root distDir pages notFound,
     o.(audit_enabled) = true →
     ∃ rest,
       (closeBundle true o root distDir pages notFound).1 =
         (writeOutputs o root distDir pages notFound).1 ++
         [WriteFile (reportJson root distDir); WriteFile (reportHtml root distDir)] ++ rest) ∧
  (∀ (H : Host) o root distDir pages notFound,
     o.(audit_mode) ≠ Fail → o.(accessibility_mode) ≠ Fail →
     (closeBundle true o root distDir pages notFound).2 = Completed) ∧
  (∀ (H : Host) o root distDir pages notFound,
     totalWarnings (pages ++ match notFound with Some r => [r] | None => [] end) = 0 →
     (closeBundle true o root distDir pages notFound).2 = Completed) ∧
  (∀ (H : Host) o root distDir pages notFound,
     let results := pages ++ match notFound with Some r => [r] | None => [] end in
     o.(audit_enabled) = false →
     o.(accessibility_enabled) = true → o.(accessibility_mode) = Fail →
     0 < accessibilityWarnings results →
     closeBundle true o root distDir pages notFound =
       ((writeOutputs o root distDir pages notFound).1, Thrown (accessibilityMessage results)) ∧
     Str.endsWith (accessibilityMessage results) "(see dist/__monad/report.html)" = true) ∧
  (∀ (H : Host) o root distDir pages notFound,
     closeBundle false o root distDir pages notFound = ([], Completed)) ∧
  closeBundle (H := plainHost) true auditFailOptions "/site" "dist" [homeResult] None =
    ([WriteFile "/site/dist/index.html"; WriteFile "/site/dist/sitemap.xml";
      WriteFile "/site/dist/robots.txt"; WriteFile "/site/dist/__monad/report.json";
      WriteFile "/site/dist/__monad/report.html"],
     Thrown "Monad audit failed: 1 warnings (see dist/__monad/report.html)") ∧
  closeBundle (H := plainHost) true accessibilityFailOptions "/site" "dist" [noHeadingResult] None =
    ([WriteFile "/site/dist/index.html"],
     Thrown "Monad accessibility audit failed: 1 accessibility warnings (see dist/__monad/report.html)") ∧
  (totalWarnings [skippedHeadingResult] = 1 ∧
   closeBundle (H := plainHost) true accessibilityFailOptions "/site" "dist"
     [skippedHeadingResult] None = ([WriteFile "/site/dist/index.html"], Completed)).
Proof.
  split_and!.
  - intros H o root distDir pages notFound. apply closeBundle_policy.
  - intros H o root distDir pages notFound results He Hm Hw.
    rewrite closeBundle_policy. fold results.
    unfold auditAborts, reportWrites. rewrite He, Hm.
    apply Nat.ltb_lt in Hw. rewrite Hw. cbn [isFail andb orb]. by rewrite app_nil_r.
  - intros H o root distDir pages notFound results He Hna Ha Hm Hw.
    rewrite closeBundle_policy. fold results.
    unfold accessibilityAborts, reportWrites. rewrite Hna, He, Ha, Hm.
    apply Nat.ltb_lt in Hw. rewrite Hw. cbn [isFail andb orb]. by rewrite app_nil_r.
  - intros H o root distDir pages notFound He.
    rewrite closeBundle_policy. unfold reportWrites. rewrite He. cbn [fst].
    eexists. reflexivity.
  - intros H o root distDir pages notFound Hm Ha.
    rewrite closeBundle_policy. cbn [snd].
    unfold auditAborts, accessibilityAborts.
    destruct (audit_mode o), (accessibility_mode o); try done;
      cbn [isFail]; by rewrite !andb_false_r.
  - intros H o root distDir pages notFound Hzero.
    rewrite closeBundle_policy. cbn [snd].
    pose proof (accessibilityWarnings_le
                  (pages ++ match notFound with Some r => [r] | None => [] end)) as Hle.
    unfold auditAborts, accessibilityAborts. rewrite Hzero in *.
    replace (accessibilityWarnings _) with 0 by lia.
    cbn [Nat.ltb Nat.leb]. by rewrite !andb_false_r.
  - intros H o root distDir pages notFound results He Ha Hm Hw. split.
    + rewrite closeBundle_policy. fold results.
      unfold auditAborts, accessibilityAborts, reportWrites. rewrite He, Ha, Hm.
      apply Nat.ltb_lt in Hw. rewrite Hw. cbn [isFail andb orb app]. by rewrite app_nil_r.
    + unfold accessibilityMessage. rewrite <- str_app_assoc.
      by apply endsWith_app_r.
  - done.
  - reflexivity.
  - reflexivity.
  - reflexivity.
  - reflexivity.
Qed.

(** A build with the audit on, mode [fail] and one warning on the home
    page; and a build with the audit off, the accessibility check in mode
    [fail] and a page without a first-level heading. *)
Lemma C9_audit_policy_witness :
  (audit_enabled auditFailOptions = true ∧ audit_mode auditFailOptions = Fail ∧
   0 < totalWarnings ([homeResult] ++ []) ∧
   closeBundle (H := plainHost) true auditFailOptions "/site" "dist" [homeResult] None =
     ((writeOutputs (H := plainHost) auditFailOptions "/site" "dist" [homeResult] None).1 ++
        [WriteFile (reportJson (H := plainHost) "/site" "dist");
         WriteFile (reportHtml (H := plainHost) "/site" "dist")],
      Thrown (auditMessage ([homeResult] ++ [])))) ∧
  (audit_enabled accessibilityFailOptions = false ∧
   accessibility_enabled accessibilityFailOptions = true ∧
   accessibility_mode accessibilityFailOptions = Fail ∧
   0 < accessibilityWarnings ([noHeadingResult] ++ []) ∧
   closeBundle (H := plainHost) true accessibilityFailOptions "/site" "dist"
     [noHeadingResult] None =
     ((writeOutputs (H := plainHost) accessibilityFailOptions "/site" "dist"
         [noHeadingResult] None).1,
      Thrown (accessibilityMessage ([noHeadingResult] ++ [])))).
Proof.
  assert (0 < totalWarnings ([homeResult] ++ [])) as Hw by (vm_compute; lia).
  assert (0 < accessibilityWarnings ([noHeadingResult] ++ [])) as Ha by (vm_compute; lia).
  split.
  - do 2 (split; [reflexivity |]). split; [exact Hw |].
    exact (proj1 (proj2 C9_audit_policy) plainHost auditFailOptions "/site" "dist"
             [homeResult] None eq_refl eq_refl Hw).
  - do 3 (split; [reflexivity |]). split; [exact Ha |].
    exact (proj1 (proj1 (proj2 (proj2 (proj2 (proj2 (proj2 (proj2 C9_audit_policy))))))
                    plainHost accessibilityFailOptions "/site" "dist"
                    [noHeadingResult] None eq_refl eq_refl eq_refl Ha)).
Defined.


(** ** C4: collection loops *)

(** C4, on the code.  The loop of the specification expands to one heading
    per item, in the order of the collection, and the index tokens count
    from zero and from one; a path that is not a sequence leaves a comment
    and later loops are still expanded.  But the rendered block is handed to
    [String.replace] as a replacement pattern: for an item whose title is
    [Save $$ now] the instantiation of the body holds the title as it is,
    while the page gets [Save $ now]. *)
Theorem C4_loop_expansion :
  expandCollectionLoops postsLoop postsAB = Some "<h2>A</h2><h2>B</h2>" ∧
  expandCollectionLoops postsLoop postsBA = Some "<h2>B</h2><h2>A</h2>" ∧
  expandCollectionLoops
    "<ol><!-- monad:loop p in posts.items --><li>{{@index}}/{{@index1}} {{ p.title }}</li><!-- monad:endloop --></ol>"
    postsAB = Some "<ol><li>0/1 A</li><li>1/2 B</li></ol>" ∧
  expandCollectionLoops
    "<!-- monad:loop n in nums -->[{{n}}]<!-- monad:endloop -->" numbers = Some "[7][8]" ∧
  expandCollectionLoops
    ("<!-- monad:loop q in posts.missing -->x<!-- monad:endloop -->|" +:+ postsLoop) postsAB
    = Some "<!-- Collection posts.missing not found -->|<h2>A</h2><h2>B</h2>" ∧
  renderItems "p" "<h2>{{p.title}}</h2>" [VObj [("title", VStr "Save $$ now")]] 0
    = Some "<h2>Save $$ now</h2>" ∧
  expandCollectionLoops postsLoop postsDollar = Some "<h2>Save $ now</h2>".
Proof. split_and!; vm_compute; reflexivity. Qed.

(** ** Site URL, output files and escaping *)

Section SearchNone.

Variables (icase : bool) (r : regex).

Lemma search_none (s : string) :
  ∀ pre,
    (∀ a1 a2, s = a1 +:+ a2 → Re.here icase r (Str.last (pre +:+ a1)) a2 = None) →
    Re.search icase r pre s = None.
Proof.
  induction s as [|c s IH]; intros pre Hn.
  - rewrite search_unfold. specialize (Hn "" "" eq_refl). rewrite str_app_nil_r in Hn.
    by rewrite Hn.
  - rewrite search_unfold.
    pose proof (Hn "" (String c s) eq_refl) as H0. rewrite str_app_nil_r in H0. rewrite H0.
    apply IH. intros a1 a2 -> . rewrite snoc_app. apply (Hn (String c a1) a2). done.
Qed.

End SearchNone.

Lemma here_trailing_long (prev : option ascii) (c c' : ascii) (s : string) :
  Re.here false re_trailing_slash prev (String c (String c' s)) = None.
Proof.
  unfold Re.here, re_trailing_slash. cbn [Re.run].
  by destruct (Chr.eq false "/" c).
Qed.

Lemma here_trailing_nil (prev : option ascii) :
  Re.here false re_trailing_slash prev "" = None.
Proof. done. Qed.

Lemma strip_trailing_slash (f : Re.result → string) (s : string) :
  Re.replace false re_trailing_slash f (s +:+ "/") =
    s +:+ f (Re.Result s "/" "" []).
Proof.
  unfold Re.replace, Re.exec.
  rewrite (search_skip false re_trailing_slash "" s "/").
  - rewrite search_unfold. simpl.
    change (Re.here false re_trailing_slash (Str.last s) "/") with (Some (1, @nil (nat * (nat * nat)))).
    simpl. by rewrite str_app_nil_r.
  - intros a1 a2 -> Ha2. destruct a2 as [|c a2]; [done|].
    destruct a2; simpl; apply here_trailing_long.
Qed.

Lemma keep_without_trailing_slash (f : Re.result → string) (s : string) :
  Str.endsWith s "/" = false → Re.replace false re_trailing_slash f s = s.
Proof.
  intros He. unfold Re.replace, Re.exec.
  rewrite search_none; [done|].
  intros a1 a2 ->. destruct a2 as [|c [|c' a2]].
  - apply here_trailing_nil.
  - apply endsWith_suffix in He. 
    unfold Re.here, re_trailing_slash. cbn [Re.run].
    destruct (Chr.eq false "/" c) eqn:E; [|done].
    apply Ascii.eqb_eq in E. subst c. done.
  - apply here_trailing_long.
Qed.

Lemma expand_plain (m : Re.result) (n : nat) (t : string) :
  without "$" t = true → Subst.expand m n t = t.
Proof.
  induction t as [|c t IH]; [done|].
  unfold without. simpl str_all. intros [Hc Ht]%andb_true_iff.
  specialize (IH Ht).
  destruct c as [[] [] [] [] [] [] [] []]; try discriminate Hc; simpl; by rewrite IH.
Qed.

Lemma encode_app (f : ascii → string) (a b : string) :
  encode f (a +:+ b) = encode f a +:+ encode f b.
Proof. induction a as [|c a IH]; simpl; [done|]. by rewrite IH, str_app_assoc. Qed.

Lemma encode_encode (f g : ascii → string) (s : string) :
  encode g (encode f s) = encode (λ c, encode g (f c)) s.
Proof. induction s as [|c s IH]; simpl; [done|]. by rewrite encode_app, IH. Qed.

Lemma encode_ext (f g : ascii → string) (s : string) :
  (∀ c, f c = g c) → encode f s = encode g s.
Proof. intros E. induction s as [|c s IH]; simpl; [done|]. by rewrite E, IH. Qed.

(** Replacing every occurrence of one code unit. *)
Lemma replaceAll_unit (x : ascii) (t s : string) :
  without "$" t = true →
  replaceAllStr (String x "") t s = encode (λ c, if Ascii.eqb x c then t else String c "") s.
Proof.
  intros Ht. unfold replaceAllStr, Re.greplace, Re.pieces.
  cut (∀ pre, Re.flat (Re.render (λ m, Subst.expand m 0 t) <$>
                 Re.scan false (Re.lit (String x EmptyString)) 0 pre s) =
              encode (λ c, if Ascii.eqb x c then t else String c EmptyString) s); [by intros ->|].
  induction s as [|c s IH]; intros pre; [done|].
  change (Re.lit (String x "")) with (RChar x) in *.
  rewrite scan_unfold. unfold Re.here. cbn [Re.run encode].
  change (Chr.eq false x c) with (Ascii.eqb x c).
  destruct (Ascii.eqb x c); cbn [Re.accept fst fmap list_fmap Re.flat Re.render].
  - rewrite expand_plain by done. by rewrite IH.
  - simpl. by rewrite IH.
Qed.

Lemma escapeHtml_encode (s : string) : escapeHtml s = encode entity s.
Proof.
  unfold escapeHtml. rewrite !replaceAll_unit by done. rewrite !encode_encode.
  apply encode_ext. intros c.
  destruct c as [[] [] [] [] [] [] [] []]; reflexivity.
Qed.

Lemma escapeAttr_encode (s : string) : escapeAttr s = encode entityAttr s.
Proof.
  unfold escapeAttr. rewrite escapeHtml_encode, replaceAll_unit by done.
  rewrite encode_encode. apply encode_ext. intros c.
  destruct c as [[] [] [] [] [] [] [] []]; reflexivity.
Qed.

Lemma str_all_encode (p : ascii → bool) (f : ascii → string) (s : string) :
  (∀ c, str_all p (f c) = true) → str_all p (encode f s) = true.
Proof.
  intros Hf. induction s as [|c s IH]; simpl; [done|].
  by rewrite str_all_app, Hf, IH.
Qed.

(** X1. Escaping is one pass over the text: each code unit is replaced by its
    entity, and the ampersand of an entity is not escaped again. *)
Theorem escapeHtml_single_pass (s : string) :
  escapeHtml s = encode entity s ∧ escapeAttr s = encode entityAttr s.
Proof. split; [apply escapeHtml_encode | apply escapeAttr_encode]. Qed.

(** X2. Escaped text holds no angle bracket, and escaped attribute text holds no
    double quote either. *)
Theorem escaped_text_has_no_markup (s : string) :
  without "<" (escapeHtml s) = true ∧ without ">" (escapeHtml s) = true ∧
  without "<" (escapeAttr s) = true ∧ without ">" (escapeAttr s) = true ∧
  without Chr.dquote (escapeAttr s) = true.
Proof.
  rewrite escapeHtml_encode, escapeAttr_encode. unfold without.
  split_and!; apply str_all_encode; intros c;
    destruct c as [[] [] [] [] [] [] [] []]; reflexivity.
Qed.

Lemma entity_head (c : ascii) : ∃ x t, entity c = String x t.
Proof. unfold entity. repeat case_match; eauto. Qed.

Lemma encode_entity_inj (a : string) : ∀ b, encode entity a = encode entity b → a = b.
Proof.
  induction a as [|c a IH]; intros [|d b] Heq.
  - done.
  - exfalso. simpl in Heq. destruct (entity_head d) as (x & t & E). rewrite E in Heq. done.
  - exfalso. simpl in Heq. destruct (entity_head c) as (x & t & E). rewrite E in Heq. done.
  - simpl in Heq.
    assert (c = d ∧ encode entity a = encode entity b) as [-> Htl].
    { unfold entity in Heq.
      destruct (Ascii.eqb_spec c "&") as [->|Hc1]; destruct (Ascii.eqb_spec d "&") as [->|Hd1];
        [simpl in Heq; by simplify_eq| | |].
      - destruct (Ascii.eqb_spec d "<") as [->|Hd2]; [simpl in Heq; discriminate|].
        destruct (Ascii.eqb_spec d ">") as [->|Hd3]; [simpl in Heq; discriminate|].
        simpl in Heq. injection Heq as Hx _. by subst d.
      - destruct (Ascii.eqb_spec c "<") as [->|Hc2]; [simpl in Heq; discriminate|].
        destruct (Ascii.eqb_spec c ">") as [->|Hc3]; [simpl in Heq; discriminate|].
        simpl in Heq. injection Heq as Hx _. by subst c.
      - destruct (Ascii.eqb_spec c "<") as [->|Hc2]; destruct (Ascii.eqb_spec d "<") as [->|Hd2].
        + simpl in Heq. by simplify_eq.
        + destruct (Ascii.eqb_spec d ">") as [->|Hd3]; [simpl in Heq; discriminate|].
          simpl in Heq. injection Heq as Hx _. by subst d.
        + destruct (Ascii.eqb_spec c ">") as [->|Hc3]; [simpl in Heq; discriminate|].
          simpl in Heq. injection Heq as Hx _. by subst c.
        + destruct (Ascii.eqb_spec c ">") as [->|Hc3]; destruct (Ascii.eqb_spec d ">") as [->|Hd3].
          * simpl in Heq. by simplify_eq.
          * simpl in Heq. injection Heq as Hx _. by subst d.
          * simpl in Heq. injection Heq as Hx _. by subst c.
          * simpl in Heq. by simplify_eq. }
    f_equal. by apply IH.
Qed.

(** X3. Escaping loses nothing: texts with the same escaped form are equal. *)
Theorem escapeHtml_injective (a b : string) :
  escapeHtml a = escapeHtml b → a = b.
Proof. rewrite !escapeHtml_encode. apply encode_entity_inj. Qed.

Lemma escapeHtml_injective_witness :
  escapeHtml ("a<b" +:+ "") = escapeHtml "a<b" ∧ "a<b" +:+ "" = "a<b".
Proof.
  split; [reflexivity|]. apply escapeHtml_injective. reflexivity.
Defined.

Lemma toLowerCase_app (a b : string) : toLowerCase (a +:+ b) = toLowerCase a +:+ toLowerCase b.
Proof. induction a as [|c a IH]; simpl; [done|]. by rewrite IH. Qed.

(** A code unit that matches a lower-case letter under the [i] flag has
    that letter as its lower case. *)
Lemma icase_letter (x c : ascii) :
  Chr.is_lower x = true → Chr.eq true x c = true → lowerUnit c = x.
Proof.
  intros Hx Hc. unfold Chr.eq in Hc. apply Ascii.eqb_eq in Hc.
  assert (Chr.lower x = x) as Ex by (unfold Chr.lower; destruct x as [[] [] [] [] [] [] [] []]; by vm_compute in Hx |- *).
  rewrite Ex in Hc. subst x. clear Ex.
  destruct c as [[] [] [] [] [] [] [] []]; vm_compute in Hx; first [discriminate Hx | reflexivity].
Qed.

Lemma not_index_leaf (name : string) :
  Str.endsWith (toLowerCase name) "index" = false → Re.exec true re_index_end name = None.
Proof.
  intros He. unfold Re.exec. apply search_none. intros a1 a2 ->.
  rewrite toLowerCase_app in He. apply endsWith_suffix in He.
  generalize (Str.last ("" +:+ a1)) as prev. intros prev.
  destruct a2 as [|c1 [|c2 [|c3 [|c4 [|c5 [|c6 a2]]]]]].
  1-5: unfold Re.here, re_index_end; simpl; split_tests; done.
  - unfold Re.here, re_index_end. simpl.
    destruct (Chr.eq true "i" c1) eqn:E1; [|done].
    destruct (Chr.eq true "n" c2) eqn:E2; [|done].
    destruct (Chr.eq true "d" c3) eqn:E3; [|done].
    destruct (Chr.eq true "e" c4) eqn:E4; [|done].
    destruct (Chr.eq true "x" c5) eqn:E5; [|done].
    apply icase_letter in E1, E2, E3, E4, E5; try done.
    simpl in He. rewrite E1, E2, E3, E4, E5 in He. done.
  - apply here_index_long. simpl. lia.
Qed.

(** The route of a page that is not an index page. *)
Lemma route_of_page (name : string) (cleanUrls trailingSlash : bool) :
  name ≠ "" →
  Str.endsWith (toLowerCase name) "index" = false →
  Str.includes name "//" = false →
  Str.endsWith name "/" = false →
  routeFromRelPath (name +:+ ".html") cleanUrls trailingSlash =
    if cleanUrls then "/" +:+ name +:+ (if trailingSlash then "/" else "")
    else "/" +:+ name +:+ ".html".
Proof.
  intros Hne Hix Hsl Hend. unfold routeFromRelPath. rewrite toPosix_id, replace_ext_html.
  assert (String.eqb name "index" = false) as ->.
  { apply String.eqb_neq. intros ->. done. }
  unfold Re.replace. rewrite not_index_leaf by done.
  unfold Re.greplace, Re.pieces. rewrite collapse_slashes_id by done.
  assert (Str.endsWith ("/" +:+ name) "/" = false) as ->.
  { change ("/" +:+ name) with (String "/" name). rewrite endsWith_unfold, Hend.
    destruct name; [done|]. simpl. by destruct name. }
  destruct cleanUrls; simpl; [|done]. done.
Qed.

Lemma replace_ext_md (p : string) :
  Re.replace true re_ext (λ m, Subst.expand m 1 "") (p +:+ ".md") = p.
Proof.
  unfold Re.replace, Re.exec.
  destruct p as [|c p]; [reflexivity|].
  rewrite search_skip.
  - simpl. by rewrite !str_app_nil_r.
  - intros a1 a2 _ Hne.
    destruct a2 as [|c1 [|c2 [|c3 a2]]]; [done| | |].
    + unfold Re.here, re_ext. simpl. known_tests. split_tests; known_tests; done.
    + unfold Re.here, re_ext. simpl. known_tests.
      repeat (split_tests; known_tests; simpl; try done).
    + apply here_ext_long. rewrite str_app_length. simpl. lia.
Qed.

(** X4. A Markdown page has the route of the markup page of the same name. *)
Theorem markdown_route_equals_markup_route (p : string) (cleanUrls trailingSlash : bool) :
  routeFromRelPath (p +:+ ".md") cleanUrls trailingSlash =
  routeFromRelPath (p +:+ ".html") cleanUrls trailingSlash.
Proof.
  unfold routeFromRelPath. by rewrite !toPosix_id, replace_ext_md, replace_ext_html.
Qed.

(** X5. [normalizeUrl] removes one trailing slash, and only that. *)
Theorem normalizeUrl_strips_one_slash (url : string) :
  normalizeUrl (url +:+ "/") = url ∧
  (Str.endsWith url "/" = false → normalizeUrl url = url).
Proof.
  split.
  - unfold normalizeUrl. rewrite strip_trailing_slash. simpl. apply str_app_nil_r.
  - apply keep_without_trailing_slash.
Qed.

Lemma normalizeUrl_strips_one_slash_witness :
  Str.endsWith "https://example.com" "/" = false ∧
  normalizeUrl "https://example.com" = "https://example.com" ∧
  normalizeUrl ("https://example.com/" +:+ "/") = "https://example.com/".
Proof.
  split; [reflexivity|]. split.
  - exact (proj2 (normalizeUrl_strips_one_slash "https://example.com") eq_refl).
  - exact (proj1 (normalizeUrl_strips_one_slash "https://example.com/")).
Defined.

Section OutFile.

Context `{Host}.

(** X6. The output file of a page that is not an index page: with clean URLs
    the index file of a folder named after the page; without them the page
    name with the extension twice, since the route already carries it. *)
Theorem outFile_of_page (name distDir : string) (trailingSlash : bool) :
  name ≠ "" →
  Str.endsWith (toLowerCase name) "index" = false →
  Str.includes name "//" = false →
  Str.endsWith name "/" = false →
  outFileFromRoute (routeFromRelPath (name +:+ ".html") true trailingSlash) distDir true =
    path_join [distDir; name; "index.html"] ∧
  outFileFromRoute (routeFromRelPath (name +:+ ".html") false trailingSlash) distDir false =
    path_join [distDir; name +:+ ".html.html"].
Proof.
  intros Hne Hix Hsl Hend. rewrite !route_of_page by done.
  unfold outFileFromRoute.
  change ("/" +:+ ?s) with (String "/" s). rewrite !startsWith_char.
  cbn [negb Str.drop Ascii.eqb Bool.eqb].
  split.
  - assert (String.eqb (name +:+ (if trailingSlash then "/" else "")) "" = false) as ->.
    { apply String.eqb_neq. by destruct name. }
    destruct trailingSlash.
    + rewrite strip_trailing_slash. simpl. by rewrite str_app_nil_r.
    + rewrite str_app_nil_r. by rewrite keep_without_trailing_slash.
  - assert (String.eqb (name +:+ ".html") "" = false) as ->.
    { apply String.eqb_neq. by destruct name. }
    rewrite keep_without_trailing_slash.
    + by rewrite str_app_assoc.
    + by rewrite endsWith_single_app.
Qed.

(** The top-level index page is written to [index.html] of the output
    directory under all flags. *)
Lemma outFile_of_home (distDir : string) (cleanUrls trailingSlash : bool) :
  outFileFromRoute (routeFromRelPath "index.html" cleanUrls trailingSlash) distDir cleanUrls =
    path_join [distDir; "index.html"].
Proof. by destruct cleanUrls, trailingSlash. Qed.

End OutFile.

Lemma outFile_of_page_witness :
  "docs/guide" ≠ "" ∧ Str.endsWith (toLowerCase "docs/guide") "index" = false ∧
  Str.includes "docs/guide" "//" = false ∧ Str.endsWith "docs/guide" "/" = false ∧
  outFileFromRoute (H := plainHost) (routeFromRelPath ("docs/guide" +:+ ".html") true false)
    "/site/dist" true = "/site/dist/docs/guide/index.html" ∧
  outFileFromRoute (H := plainHost) (routeFromRelPath ("docs/guide" +:+ ".html") false false)
    "/site/dist" false = "/site/dist/docs/guide.html.html".
Proof.
  do 4 (split; [first [reflexivity | discriminate]|]).
  exact (outFile_of_page (H := plainHost) "docs/guide" "/site/dist" false
           ltac:(discriminate) eq_refl eq_refl eq_refl).
Defined.

(** ** Head tags, sitemap and robots file *)

Lemma normalizeUrl_slash (url : string) : normalizeUrl (url +:+ "/") = url.
Proof. unfold normalizeUrl. rewrite strip_trailing_slash. simpl. apply str_app_nil_r. Qed.

Lemma locationOf_slash (siteUrl route : string) :
  Str.endsWith siteUrl "/" = false →
  locationOf (siteUrl +:+ "/") route = locationOf siteUrl route.
Proof.
  intros He. unfold locationOf, normalizeUrl at 2.
  by rewrite normalizeUrl_slash, keep_without_trailing_slash.
Qed.

(** X7. A slash at the end of the site URL makes no difference to the head
    tags, the sitemap and the robots file. *)
Theorem site_url_trailing_slash_is_ignored (siteUrl : string) :
  Str.endsWith siteUrl "/" = false →
  (∀ route title description locale twitterHandle ogImageAbs themeColor,
     buildMetaTags (siteUrl +:+ "/") route title description
       locale twitterHandle ogImageAbs themeColor =
     buildMetaTags siteUrl route title description
       locale twitterHandle ogImageAbs themeColor) ∧
  (∀ routes opts,
     generateSitemap (siteUrl +:+ "/") routes opts = generateSitemap siteUrl routes opts) ∧
  (∀ policy disallow,
     generateRobots (siteUrl +:+ "/") policy disallow = generateRobots siteUrl policy disallow).
Proof.
  intros He. split_and!.
  - intros. unfold buildMetaTags. by rewrite locationOf_slash.
  - intros. unfold generateSitemap.
    replace (sitemapUrl (siteUrl +:+ "/") opts <$> routes)
      with (sitemapUrl siteUrl opts <$> routes); [done|].
    apply list_fmap_ext. intros _ r _. unfold sitemapUrl. by rewrite locationOf_slash.
  - intros. unfold generateRobots, normalizeUrl at 2.
    by rewrite normalizeUrl_slash, keep_without_trailing_slash.
Qed.

Lemma site_url_trailing_slash_is_ignored_witness :
  Str.endsWith "https://example.com" "/" = false ∧
  generateRobots ("https://example.com" +:+ "/") AllowAll None =
  generateRobots "https://example.com" AllowAll None.
Proof.
  split; [reflexivity|].
  exact (proj2 (proj2 (site_url_trailing_slash_is_ignored "https://example.com" eq_refl))
           AllowAll None).
Defined.

Lemma prefix_app_l (p : string) : ∀ s b, String.prefix p s = true → String.prefix p (s +:+ b) = true.
Proof.
  induction p as [|x p IH]; intros s b Hp; [apply prefix_nil|].
  destruct s as [|y s]; [done|]. simpl in *.
  destruct (ascii_dec x y); [|done]. by apply IH.
Qed.

Lemma includes_app_l (a b p : string) : Str.includes a p = true → Str.includes (a +:+ b) p = true.
Proof.
  induction a as [|c a IH]; intros Hi.
  - rewrite includes_unfold in Hi. rewrite orb_false_r in Hi.
    destruct p; [|done]. rewrite includes_unfold. by rewrite prefix_nil.
  - rewrite includes_unfold in Hi.
    change (String c a +:+ b) with (String c (a +:+ b)). rewrite includes_unfold.
    apply orb_true_iff in Hi as [Hp|Hi]; apply orb_true_iff.
    + left. by apply (prefix_app_l p (String c a) b).
    + right. by apply IH.
Qed.

Lemma includes_app_r (a b p : string) : Str.includes b p = true → Str.includes (a +:+ b) p = true.
Proof.
  intros Hi. induction a as [|c a IH]; [done|].
  change (String c a +:+ b) with (String c (a +:+ b)). rewrite includes_unfold, IH. apply orb_true_r.
Qed.

Lemma includes_self (p : string) : Str.includes p p = true.
Proof.
  rewrite includes_unfold.
  replace p with (p +:+ "") at 2 by apply str_app_nil_r. by rewrite prefix_app.
Qed.

Lemma includes_join (sep e p : string) (l : list string) :
  e ∈ l → Str.includes e p = true → Str.includes (Str.join sep l) p = true.
Proof.
  intros Hin Hp. unfold Str.join. induction l as [|x l IH]; [by apply elem_of_nil in Hin|].
  apply elem_of_cons in Hin as [->|Hin].
  - simpl. destruct l; [done|]. by apply includes_app_l.
  - simpl. destruct l as [|y l]; [by apply elem_of_nil in Hin|].
    apply includes_app_r, includes_app_r. by apply IH.
Qed.

(** The outputs of [closeBundle] are the files with their texts, in order,
    and the redirect manifests behind them. *)
Lemma writeOutputs_files `{Host} (o : BuildOptions) (s : SiteSettings)
    (today root distDir : string) (pages : list RenderResult) (notFound : option RenderResult) :
  (writeOutputs o root distDir pages notFound).1 =
    ((λ f : string * string, WriteFile f.1) <$> outputFiles o s today root distDir pages notFound)
    ++ redirectWrites o root distDir.
Proof.
  unfold writeOutputs, outputFiles, redirectWrites, andThen, when, write, skip.
  assert (flat_map (λ r : RenderResult, [WriteFile r.(outFile)]) pages =
          (λ f : string * string, WriteFile f.1) <$>
            ((λ r : RenderResult, (r.(outFile), r.(html))) <$> pages)) as ->.
  { induction pages as [|p pages IH]; [done|]. simpl. by rewrite IH. }
  destruct notFound, (sitemap_enabled o), (robots_enabled o),
    (redirects_enabled o && Nat.ltb 0 (redirects_rules o)),
    (redirects_netlify o), (redirects_vercel o);
    cbn [fst snd app]; rewrite ?fmap_app, ?app_nil_r, <- ?app_assoc; reflexivity.
Qed.

(** X8. [closeBundle] pushes the page for missing addresses to the results
    before it generates the sitemap, so the sitemap that it writes lists
    that page, unless an excluded prefix covers its route. *)
Theorem sitemap_lists_not_found_page `{Host} (o : BuildOptions) (s : SiteSettings)
    (today root distDir : string) (pages : list RenderResult) (notFound : RenderResult) :
  o.(sitemap_enabled) = true →
  existsb (Str.startsWith notFound.(route)) s.(sitemap_exclude) = false →
  ∃ text rest,
    (path_join [root; distDir; "sitemap.xml"], text) ∈
      outputFiles o s today root distDir pages (Some notFound) ∧
    Str.includes text
      ("<loc>" +:+ escapeHtml (locationOf s.(site_url) notFound.(route)) +:+ "</loc>") = true ∧
    (closeBundle true o root distDir pages (Some notFound)).1 =
      ((λ f : string * string, WriteFile f.1) <$>
         outputFiles o s today root distDir pages (Some notFound)) ++ rest.
Proof.
  intros Hon Hex.
  exists (generateSitemap s.(site_url)
            (sitemapRoutes (pages ++ [notFound]) s.(sitemap_exclude) today) s.(sitemap_opts)).
  eexists. split_and!.
  - unfold outputFiles. rewrite Hon.
    apply elem_of_app. right. apply elem_of_app. right. apply elem_of_app. left. by left.
  - unfold generateSitemap.
    do 9 apply includes_app_r. apply includes_app_l.
    apply includes_join with
      (e := sitemapUrl s.(site_url) s.(sitemap_opts)
              {| sitemap_route := notFound.(route); lastmod := Some today |}).
    + apply list_elem_of_fmap_2. unfold sitemapRoutes.
      apply list_elem_of_In, filter_In. split.
      * apply list_elem_of_In. rewrite fmap_app. apply elem_of_app. right. simpl. by left.
      * simpl. by rewrite Hex.
    + unfold sitemapUrl. cbn [sitemap_route].
      change ("<url><loc>" +:+ ?x) with ("<url>" +:+ "<loc>" +:+ x).
      apply includes_app_r. rewrite <- !str_app_assoc. do 4 apply includes_app_l.
      rewrite str_app_assoc. apply includes_self.
  - rewrite closeBundle_policy. cbn [fst].
    rewrite (writeOutputs_files o s today). rewrite <- app_assoc. reflexivity.
Qed.

Lemma sitemap_lists_not_found_page_witness :
  sitemap_enabled auditFailOptions = true ∧
  existsb (Str.startsWith notFoundResult.(route)) exampleSite.(sitemap_exclude) = false ∧
  ∃ text rest,
    ("/site/dist/sitemap.xml", text) ∈
      outputFiles (H := plainHost) auditFailOptions exampleSite "2025-01-01" "/site" "dist"
        [homeResult] (Some notFoundResult) ∧
    Str.includes text "<loc>https://example.com/404</loc>" = true ∧
    (closeBundle (H := plainHost) true auditFailOptions "/site" "dist"
       [homeResult] (Some notFoundResult)).1 =
      ((λ f : string * string, WriteFile f.1) <$>
         outputFiles (H := plainHost) auditFailOptions exampleSite "2025-01-01" "/site" "dist"
           [homeResult] (Some notFoundResult)) ++ rest.
Proof.
  do 2 (split; [reflexivity|]).
  exact (sitemap_lists_not_found_page (H := plainHost) auditFailOptions exampleSite
           "2025-01-01" "/site" "dist" [homeResult] notFoundResult eq_refl eq_refl).
Defined.

(** *** A match somewhere in the text *)

Section Finds.

Variables (icase : bool) (r : regex).
Hypothesis r_free : anchorFree r = true.

Lemma search_finds (a b : string) (prev : option ascii) :
  is_Some (Re.here icase r prev b) → ∀ pre, is_Some (Re.search icase r pre (a +:+ b)).
Proof.
  intros Hb. induction a as [|c a IH]; intros pre; rewrite search_unfold.
  - simpl. rewrite (here_prevFree icase r _ prev) by done.
    destruct Hb as [h ->]. eauto.
  - destruct (Re.here icase r (Str.last pre) (String c a +:+ b)); [eauto|]. apply IH.
Qed.

Lemma test_finds (a b : string) (prev : option ascii) :
  is_Some (Re.here icase r prev b) → Re.test icase r (a +:+ b) = true.
Proof.
  intros Hb. unfold Re.test, Re.exec.
  by destruct (search_finds a b prev Hb "") as [m ->].
Qed.

End Finds.

Lemma join_elem (sep e : string) (l : list string) :
  e ∈ l → ∃ x y, Str.join sep l = x +:+ e +:+ y.
Proof.
  unfold Str.join. induction l as [|z l IH]; intros Hin; [by apply elem_of_nil in Hin|].
  apply elem_of_cons in Hin as [->|Hin].
  - destruct l as [|z' l].
    + exists "", "". simpl. by rewrite str_app_nil_r.
    + exists "", (sep +:+ String.concat sep (z' :: l)). done.
  - destruct l as [|z' l]; [by apply elem_of_nil in Hin|].
    destruct (IH Hin) as (x & y & E).
    exists (z +:+ sep +:+ x), y. simpl in *. rewrite E. by rewrite !str_app_assoc.
Qed.

(** A greedy star gives a match whenever its continuation matches behind
    a stretch of the class. *)
Lemma star_greedy_some (cls : ascii → bool) (k : Re.cont) (t rest : string) :
  ∀ n prev cs,
    str_all cls t = true →
    (∀ p, is_Some (k (n + String.length t) p rest cs)) →
    is_Some (Re.star_greedy cls k n prev (t +:+ rest) cs).
Proof.
  induction t as [|c t IH]; intros n prev cs Ht Hk'.
  - simpl in *. rewrite Nat.add_0_r in Hk'.
    destruct rest as [|a rest]; simpl; [apply Hk'|].
    destruct (cls a); [|apply Hk'].
    destruct (Re.star_greedy cls k (S n) (Some a) rest cs); [eauto | apply Hk'].
  - simpl in Ht. apply andb_true_iff in Ht as [Hc Ht]. simpl. rewrite Hc.
    destruct (IH (S n) (Some c) cs Ht) as [x ->]; [|eauto].
    intros p. replace (S n + String.length t) with (n + String.length (String c t)) by (simpl; lia).
    apply Hk'.
Qed.

Lemma chr_eq_refl (icase : bool) (c : ascii) : Chr.eq icase c c = true.
Proof. unfold Chr.eq. destruct icase; apply Ascii.eqb_refl. Qed.

(** A literal matches its own text. *)
Lemma run_lit_some (icase : bool) (k : Re.cont) (s : string) (cs : Re.captures) (p : string) :
  p ≠ "" →
  ∀ n,
    (∀ prev, is_Some (k (n + String.length p) prev s cs)) →
    ∀ prev, is_Some (Re.run icase (Re.lit p) k n prev (p +:+ s) cs).
Proof.
  induction p as [|c p IH]; [done|]. intros _ n Hk prev.
  destruct p as [|c' p].
  - simpl. rewrite chr_eq_refl. replace (S n) with (n + 1) by lia. apply Hk.
  - change (Re.lit (String c (String c' p))) with (RSeq (RChar c) (Re.lit (String c' p))).
    cbn [Re.run]. change (String c (String c' p) +:+ s) with (String c (String c' p +:+ s)).
    cbv beta iota. rewrite chr_eq_refl. apply IH; [done|].
    intros prev'. replace (S n + String.length (String c' p))
      with (n + String.length (String c (String c' p))) by (simpl; lia).
    apply Hk.
Qed.

Lemma here_title (prev : option ascii) (t rest : string) :
  t ≠ "" → without "<" t = true →
  is_Some (Re.here true re_title prev ("<title>" +:+ t +:+ "</title>" +:+ rest)).
Proof.
  intros Hne Ht. unfold Re.here, re_title. cbn [Re.seq Re.run].
  apply run_lit_some; [done|]. intros p1.
  apply (star_greedy_some _ _ "" _); [done|]. intros p2.
  unfold Re.plus. cbn [Re.run].
  destruct t as [|c t]; [done|]. unfold without in Ht. simpl in Ht.
  apply andb_true_iff in Ht as [Hc Ht].
  change (String c t +:+ ?x) with (String c (t +:+ x)). cbv beta iota.
  assert (Chr.none_of ["<"%char] c = true) as ->.
  { unfold Chr.none_of. simpl. by rewrite orb_false_r. }
  apply star_greedy_some.
  { eapply str_all_weaken; [|exact Ht]. intros x Hx. unfold Chr.none_of. simpl.
    by rewrite orb_false_r. }
  intros p3. apply (star_greedy_some _ _ "" _); [done|]. intros p4.
  apply (run_lit_some true Re.accept rest [] "</title>"); [done|]. intros p5. by eexists.
Qed.

Ltac known_classes :=
  repeat match goal with
         | |- context [quote_class (Ascii ?a ?b ?c ?d ?e ?f ?g ?h)] =>
             let v := eval vm_compute in (quote_class (Ascii a b c d e f g h)) in
             change (quote_class (Ascii a b c d e f g h)) with v
         | |- context [Chr.one_of ?l (Ascii ?a ?b ?c ?d ?e ?f ?g ?h)] =>
             let v := eval vm_compute in (Chr.one_of l (Ascii a b c d e f g h)) in
             change (Chr.one_of l (Ascii a b c d e f g h)) with v
         end.

(** One white-space code unit in front of other text, under [\s+]. *)
Lemma run_space_some (icase : bool) (k : Re.cont) (s : string) (cs : Re.captures) (n : nat) :
  (∀ prev, is_Some (k (n + 1) prev s cs)) →
  ∀ prev, is_Some (Re.run icase (Re.plus true Chr.is_space) k n prev (" " +:+ s) cs).
Proof.
  intros Hk prev. unfold Re.plus. cbn [Re.run].
  change (" " +:+ s) with (String " " s). cbv beta iota. known_tests.
  apply (star_greedy_some _ _ "" _); [done|]. intros p.
  replace (S n + String.length "") with (n + 1) by (simpl; lia). apply Hk.
Qed.

Lemma run_quote_some (icase : bool) (k : Re.cont) (s : string) (cs : Re.captures) (n : nat) :
  (∀ prev, is_Some (k (n + 1) prev s cs)) →
  ∀ prev, is_Some (Re.run icase (RClass quote_class) k n prev (String Chr.dquote s) cs).
Proof.
  intros Hk prev. cbn [Re.run]. unfold Chr.dquote. known_classes.
  replace (S n) with (n + 1) by lia. apply Hk.
Qed.


Lemma run_seq (icase : bool) (a b : regex) (k : Re.cont) n prev s cs :
  Re.run icase (RSeq a b) k n prev s cs = Re.run icase a (Re.run icase b k) n prev s cs.
Proof. reflexivity. Qed.

Lemma here_description (prev : option ascii) (d rest : string) :
  d ≠ "" → plainAttr d = true →
  is_Some (Re.here true re_description prev
             ("<meta" +:+ " " +:+ "name=" +:+ String Chr.dquote ("description" +:+
              String Chr.dquote (" " +:+ "content=" +:+ String Chr.dquote (d +:+
              String Chr.dquote (String ">" rest)))))).
Proof.
  intros Hne Hd. unfold Re.here, re_description. cbn [Re.seq].
  rewrite run_seq. apply run_lit_some; [done|]. intros p1.
  rewrite run_seq. apply run_space_some. intros p2.
  rewrite run_seq. apply run_lit_some; [done|]. intros p3.
  rewrite run_seq. apply run_quote_some. intros p4.
  rewrite run_seq. apply run_lit_some; [done|]. intros p5.
  rewrite run_seq. apply run_quote_some. intros p6.
  rewrite run_seq. apply run_space_some. intros p7.
  rewrite run_seq. apply run_lit_some; [done|]. intros p8.
  rewrite run_seq. apply run_quote_some. intros p9.
  rewrite run_seq. unfold Re.plus. rewrite run_seq.
  destruct d as [|c d]; [done|]. unfold plainAttr in Hd. simpl in Hd.
  apply andb_true_iff in Hd as [Hc Hd].
  change (String c d +:+ ?x) with (String c (d +:+ x)).
  cbn [Re.run]. rewrite Hc.
  apply star_greedy_some; [done|]. intros p10.
  unfold Chr.dquote. known_classes.
  apply (star_greedy_some _ _ "" _); [done|]. intros p12.
  known_tests. by eexists.
Qed.

Lemma here_canonical (prev : option ascii) (rest : string) :
  is_Some (Re.here true (re_rel "canonical") prev
             ("rel=" +:+ String Chr.dquote ("canonical" +:+ String Chr.dquote rest))).
Proof.
  unfold Re.here, re_rel. cbn [Re.seq].
  rewrite run_seq. apply run_lit_some; [done|]. intros p1.
  rewrite run_seq. apply run_quote_some. intros p2.
  rewrite run_seq. apply run_lit_some; [done|]. intros p3.
  apply run_quote_some. intros p4. by eexists.
Qed.

Lemma test_finds_elem (icase : bool) (r : regex) (a b sep pre post : string) (l : list string) :
  anchorFree r = true →
  a +:+ b ∈ l →
  (∀ rest, is_Some (Re.here icase r None (b +:+ rest))) →
  Re.test icase r (pre +:+ Str.join sep l +:+ post) = true.
Proof.
  intros Hfree Hin Hb. destruct (join_elem sep _ l Hin) as (x & y & ->).
  replace (pre +:+ (x +:+ (a +:+ b) +:+ y) +:+ post)
    with ((pre +:+ x +:+ a) +:+ (b +:+ (y +:+ post))) by (by rewrite !str_app_assoc).
  by apply test_finds with (prev := None).
Qed.

Lemma str_all_encode_if (p q : ascii → bool) (f : ascii → string) (s : string) :
  (∀ c, q c = true → str_all p (f c) = true) →
  str_all q s = true → str_all p (encode f s) = true.
Proof.
  intros Hf. induction s as [|c s IH]; simpl; [done|].
  intros [Hc Hs]%andb_true_iff. by rewrite str_all_app, Hf, IH.
Qed.

Lemma escapeAttr_plain (s : string) :
  without "'" s = true → plainAttr (escapeAttr s) = true.
Proof.
  rewrite escapeAttr_encode. unfold plainAttr, without. apply str_all_encode_if.
  intros c Hc. destruct c as [[] [] [] [] [] [] [] []]; first [discriminate Hc | reflexivity].
Qed.

Lemma encode_not_empty (f : ascii → string) (s : string) :
  (∀ c, f c ≠ "") → s ≠ "" → encode f s ≠ "".
Proof.
  intros Hf Hs. destruct s as [|c s]; [done|]. simpl.
  specialize (Hf c). by destruct (f c).
Qed.

Lemma entity_not_empty (c : ascii) : entity c ≠ "".
Proof. destruct (entity_head c) as (x & t & ->). done. Qed.

Lemma entityAttr_not_empty (c : ascii) : entityAttr c ≠ "".
Proof. unfold entityAttr. case_match; [done | apply entity_not_empty]. Qed.

Lemma escapeHtml_without (s : string) :
  without "<" (escapeHtml s) = true ∧ without ">" (escapeHtml s) = true.
Proof.
  rewrite escapeHtml_encode. unfold without.
  split; apply str_all_encode; intros c;
    destruct c as [[] [] [] [] [] [] [] []]; reflexivity.
Qed.

(** The head tags contain a title element, a description and a canonical
    link that the checks of the audit recognise. *)
Lemma generated_head_tests (pre post siteUrl route title description : string)
    (locale twitterHandle ogImageAbs themeColor : option string) :
  title ≠ "" → description ≠ "" → without "'" description = true →
  let page :=
    pre +:+ buildMetaTags siteUrl route title description
              locale twitterHandle ogImageAbs themeColor +:+ post in
  Re.test true re_title page = true ∧
  Re.test true re_description page = true ∧
  Re.test true (re_rel "canonical") page = true.
Proof.
  intros Ht Hd Hq page. unfold page, buildMetaTags.
  split_and!.
  - apply test_finds_elem with (a := "") (b := "<title>" +:+ escapeHtml title +:+ "</title>");
      [done| |].
    + apply list_elem_of_filter. split; [done|]. do 2 right. by left.
    + intros rest. rewrite !str_app_assoc. apply here_title.
      * rewrite escapeHtml_encode. by apply encode_not_empty; [apply entity_not_empty|].
      * apply escapeHtml_without.
  - apply test_finds_elem with (a := "") (b := metaTag "name" "description" (escapeAttr description));
      [done| |].
    + apply list_elem_of_filter. split; [done|]. do 3 right. by left.
    + intros rest. unfold metaTag, quoted.
      replace (("<meta " +:+ "name" +:+ "=" +:+
                String Chr.dquote ("description" +:+ String Chr.dquote "") +:+ " content=" +:+
                String Chr.dquote (escapeAttr description +:+ String Chr.dquote "") +:+ ">") +:+ rest)
        with ("<meta" +:+ " " +:+ "name=" +:+ String Chr.dquote ("description" +:+
              String Chr.dquote (" " +:+ "content=" +:+ String Chr.dquote (escapeAttr description +:+
              String Chr.dquote (String ">" rest))))).
      * apply here_description; [|by apply escapeAttr_plain].
        rewrite escapeAttr_encode. by apply encode_not_empty; [apply entityAttr_not_empty|].
      * simpl. by rewrite !str_app_assoc.
  - apply test_finds_elem with
      (a := "<link ")
      (b := "rel=" +:+ String Chr.dquote ("canonical" +:+ String Chr.dquote
              (" href=" +:+ quoted (escapeAttr (locationOf siteUrl route)) +:+ ">")));
      [done| |].
    + apply list_elem_of_filter. split; [done|]. do 4 right. by left.
    + intros rest.
      replace ("rel=" +:+ String Chr.dquote ("canonical" +:+ String Chr.dquote
                 (" href=" +:+ quoted (escapeAttr (locationOf siteUrl route)) +:+ ">")) +:+ rest)
        with ("rel=" +:+ String Chr.dquote ("canonical" +:+ String Chr.dquote
                 ((" href=" +:+ quoted (escapeAttr (locationOf siteUrl route)) +:+ ">") +:+ rest)))
        by (simpl; by rewrite !str_app_assoc).
      apply here_canonical.
Qed.

Lemma elem_of_concat_inv {A} (x : A) (ls : list (list A)) :
  x ∈ concat ls → ∃ l, l ∈ ls ∧ x ∈ l.
Proof.
  induction ls as [|l ls IH]; simpl; intros Hin; [by apply elem_of_nil in Hin|].
  apply elem_of_app in Hin as [Hin|Hin].
  - exists l. split; [by left | done].
  - destruct (IH Hin) as (l' & Hl' & Hx). exists l'. split; [by right | done].
Qed.

Section Kinds.

Context `{Host}.
Variables (disk : gmap string N).

(** Every warning of [auditHtml] is of one of nine kinds, and the three
    about the title, the description and the canonical link are given only
    when the check concerned fails. *)
Lemma auditHtml_kinds (html route : string) (opts : option AuditOpts) (w : string) :
  w ∈ auditHtml disk html route opts →
  (w = "Missing <title>" ∧ Re.test true re_title html = false) ∨
  (w = "Missing meta description" ∧ Re.test true re_description html = false) ∨
  w = "Missing <h1>" ∨
  (∃ n : nat, w = "Multiple <h1> (" +:+ pretty n +:+ ")") ∨
  w = "Image missing alt attribute" ∨
  (∃ t, w = "Large image (" +:+ t) ∨
  (∃ href, w = "Broken internal link: " +:+ href) ∨
  w = faviconWarning ∨
  (w = "Missing canonical link tag" ∧ Re.test true (re_rel "canonical") html = false).
Proof.
  unfold auditHtml. rewrite !elem_of_app.
  intros [Hw|[Hw|[Hw|[Hw|[Hw|[Hw|[Hw|Hw]]]]]]].
  - destruct (Re.test true re_title html); simpl in Hw; [by apply elem_of_nil in Hw|].
    apply list_elem_of_singleton in Hw. by left.
  - destruct (Re.test true re_description html); simpl in Hw; [by apply elem_of_nil in Hw|].
    apply list_elem_of_singleton in Hw. right. by left.
  - destruct (Nat.eqb _ 0); [|by apply elem_of_nil in Hw].
    apply list_elem_of_singleton in Hw. do 2 right. by left.
  - destruct (Nat.ltb 1 _); [|by apply elem_of_nil in Hw].
    apply list_elem_of_singleton in Hw. do 3 right. left. eauto.
  - apply elem_of_concat_inv in Hw as (l & Hl & Hw).
    apply list_elem_of_fmap in Hl as (img & -> & _).
    unfold auditImage in Hw. apply elem_of_app in Hw as [Hw|Hw].
    + do 4 right. left. unfold altWarnings in Hw.
      destruct (getAttribute img "alt") as [a|];
        [destruct (Str.is_empty (Str.trim a)); [|by apply elem_of_nil in Hw]|];
        by apply list_elem_of_singleton in Hw.
    + do 5 right. left. unfold weightWarnings in Hw.
      destruct (opts ≫= distDirAbs) as [dist|]; [|by apply elem_of_nil in Hw].
      destruct (negb (Str.is_empty dist) && _); [|by apply elem_of_nil in Hw].
      destruct (disk !! _) as [size|]; [|by apply elem_of_nil in Hw].
      destruct (_ <? size)%N; [|by apply elem_of_nil in Hw].
      apply list_elem_of_singleton in Hw. rewrite Hw. eauto.
  - do 6 right. left.
    destruct (opts ≫= allRoutes) as [routes|]; [|by apply elem_of_nil in Hw].
    apply elem_of_concat_inv in Hw as (l & Hl & Hw).
    apply list_elem_of_fmap in Hl as (link & -> & _).
    unfold auditLink in Hw.
    destruct (isInternal _); [|by apply elem_of_nil in Hw].
    destruct (routeExists _ _); [by apply elem_of_nil in Hw|].
    apply list_elem_of_singleton in Hw. eauto.
  - do 7 right. left.
    destruct (negb _ && negb _); [|by apply elem_of_nil in Hw].
    by apply list_elem_of_singleton in Hw.
  - do 8 right.
    destruct (Re.test true (re_rel "canonical") html); simpl in Hw; [by apply elem_of_nil in Hw|].
    by apply list_elem_of_singleton in Hw.
Qed.

(** X9. A page that carries the head tags of [buildMetaTags] for a title and a
    description that are not empty, the description without apostrophe, is
    never reported for a missing title, description or canonical link. *)
Theorem generated_head_passes_seo_checks
    (pre post siteUrl pageRoute title description auditRoute : string)
    (locale twitterHandle ogImageAbs themeColor : option string) (opts : option AuditOpts) :
  title ≠ "" → description ≠ "" → without "'" description = true →
  let page :=
    pre +:+ buildMetaTags siteUrl pageRoute title description
              locale twitterHandle ogImageAbs themeColor +:+ post in
  ("Missing <title>" ∉ auditHtml disk page auditRoute opts) ∧
  ("Missing meta description" ∉ auditHtml disk page auditRoute opts) ∧
  ("Missing canonical link tag" ∉ auditHtml disk page auditRoute opts).
Proof.
  intros Ht Hd Hq page.
  destruct (generated_head_tests pre post siteUrl pageRoute title description
              locale twitterHandle ogImageAbs themeColor Ht Hd Hq) as (T1 & T2 & T3).
  fold page in T1, T2, T3.
  split_and!; intros Hin; apply auditHtml_kinds in Hin;
    destruct Hin as [[E F]|[[E F]|[E|[[n E]|[E|[[t E]|[[h E]|[E|[E F]]]]]]]]];
    try congruence; try discriminate E.
Qed.

End Kinds.

Lemma generated_head_passes_seo_checks_witness :
  "Home" ≠ "" ∧ "Welcome" ≠ "" ∧ without "'" "Welcome" = true ∧
  ("Missing meta description" ∉
     auditHtml (H := plainHost) ∅
       ("<html><head>" +:+
        buildMetaTags "https://example.com" "/" "Home" "Welcome" None None None None +:+
        "</head><body></body></html>") "/" None).
Proof.
  do 3 (split; [first [reflexivity | discriminate]|]).
  exact (proj1 (proj2 (generated_head_passes_seo_checks (H := plainHost) ∅
           "<html><head>" "</head><body></body></html>" "https://example.com" "/"
           "Home" "Welcome" "/" None None None None None
           ltac:(discriminate) ltac:(discriminate) eq_refl))).
Defined.

(** ** Colours *)

Lemma last_snoc (pre : string) (c : ascii) : Str.last (Str.snoc pre c) = Some c.
Proof.
  unfold Str.snoc. induction pre as [|x pre IH]; [done|].
  simpl. destruct (pre +:+ String c "") eqn:E; [by destruct pre|]. done.
Qed.

Lemma hex_anchored (pre s : string) (c : ascii) :
  Re.search true re_hex (Str.snoc pre c) s = None.
Proof.
  revert pre c. induction s as [|a s IH]; intros pre c; rewrite search_unfold, last_snoc.
  - done.
  - change (Re.here true re_hex (Some c) (String a s)) with (@None (nat * Re.captures)).
    apply IH.
Qed.

Lemma exec_hex (s : string) :
  Re.exec true re_hex s = Re.mk "" s <$> Re.here true re_hex None s.
Proof.
  unfold Re.exec. rewrite search_unfold. simpl Str.last.
  destruct (Re.here true re_hex None s); [done|].
  destruct s as [|a s]; [done|]. apply hex_anchored.
Qed.

Lemma hexClass_digit (c : ascii) :
  hexClass c = true →
  (∃ d, hexDigit c = Some d ∧ (d < 16)%N) ∧ Chr.is_space c = false ∧
  Ascii.eqb "-" c = false ∧ Ascii.eqb "+" c = false ∧
  Ascii.eqb "x" c = false ∧ Ascii.eqb "X" c = false ∧ Chr.eq true "#" c = false.
Proof.
  intros Hc. destruct c as [[] [] [] [] [] [] [] []]; vm_compute in Hc; try discriminate Hc;
    (split_and!; [eexists; split; [reflexivity | by vm_compute] | reflexivity ..]).
Qed.

Lemma parseInt16_pair (h l : ascii) :
  hexClass h = true → hexClass l = true →
  parseInt16 (String h (String l "")) = Some (byteOf h l) ∧ (0 ≤ byteOf h l < 256)%Z.
Proof.
  intros Hh Hl.
  destruct (hexClass_digit h Hh) as ((dh & Eh & Bh) & Sh & Mh & Ph & _).
  destruct (hexClass_digit l Hl) as ((dl & El & Bl) & _ & _ & _ & Xl & XXl & _).
  unfold parseInt16, byteOf. rewrite Eh, El. simpl Str.trimStart. rewrite Sh.
  rewrite !prefix_cons, !prefix_nil, Mh, Ph. cbn [andb orb].
  rewrite !prefix_two, Xl, XXl, !andb_false_r. cbn [orb].
  rewrite Eh. simpl hexDigits. rewrite Eh, El. simpl default.
  split; [f_equal; f_equal; lia | lia].
Qed.

#[local] Arguments hexClass : simpl never.

Lemma hex_core_inv (n0 : nat) (prev : option ascii) (s : string) (n : nat) (cs : Re.captures) :
  Re.run true (RSeq (hexPair 1) (RSeq (hexPair 2) (RSeq (hexPair 3) REnd))) Re.accept n0 prev s []
    = Some (n, cs) →
  ∃ c1 c2 c3 c4 c5 c6,
    hexClass c1 = true ∧ hexClass c2 = true ∧ hexClass c3 = true ∧
    hexClass c4 = true ∧ hexClass c5 = true ∧ hexClass c6 = true ∧
    s = sixDigits c1 c2 c3 c4 c5 c6 ∧ n = n0 + 6 ∧
    cs = [(3, (n0 + 4, n0 + 6)); (2, (n0 + 2, n0 + 4)); (1, (n0, n0 + 2))].
Proof.
  unfold hexPair. simpl. intros E.
  destruct s as [|c1 s]; [done|]. destruct (hexClass c1) eqn:H1; [|done].
  destruct s as [|c2 s]; [done|]. destruct (hexClass c2) eqn:H2; [|done].
  destruct s as [|c3 s]; [done|]. destruct (hexClass c3) eqn:H3; [|done].
  destruct s as [|c4 s]; [done|]. destruct (hexClass c4) eqn:H4; [|done].
  destruct s as [|c5 s]; [done|]. destruct (hexClass c5) eqn:H5; [|done].
  destruct s as [|c6 s]; [done|]. destruct (hexClass c6) eqn:H6; [|done].
  destruct s; [|done]. injection E as <- <-.
  exists c1, c2, c3, c4, c5, c6. split_and!; try done; try lia.
  repeat f_equal; lia.
Qed.

Lemma hex_core (n0 : nat) (prev : option ascii) (c1 c2 c3 c4 c5 c6 : ascii) :
  hexClass c1 = true → hexClass c2 = true → hexClass c3 = true →
  hexClass c4 = true → hexClass c5 = true → hexClass c6 = true →
  Re.run true (RSeq (hexPair 1) (RSeq (hexPair 2) (RSeq (hexPair 3) REnd))) Re.accept n0 prev
    (sixDigits c1 c2 c3 c4 c5 c6) []
    = Some (S (S (S (S (S (S n0))))),
            [(3, (S (S (S (S n0))), S (S (S (S (S (S n0)))))));
             (2, (S (S n0), S (S (S (S n0))))); (1, (n0, S (S n0)))]).
Proof.
  intros H1 H2 H3 H4 H5 H6. unfold hexPair, sixDigits. simpl.
  by rewrite H1, H2, H3, H4, H5, H6.
Qed.

Lemma icase_hash (c : ascii) : Chr.eq true "#" c = true → c = "#"%char.
Proof.
  intros H. destruct c as [[] [] [] [] [] [] [] []]; vm_compute in H;
    first [discriminate H | reflexivity].
Qed.

Lemma here_hex_unfold (s : string) :
  Re.here true re_hex None s =
  match
    match s with
    | String c s' =>
        if Chr.eq true "#" c
        then Re.run true (RSeq (hexPair 1) (RSeq (hexPair 2) (RSeq (hexPair 3) REnd)))
               Re.accept 1 (Some c) s' []
        else None
    | "" => None
    end
  with
  | Some x => Some x
  | None =>
      Re.run true (RSeq (hexPair 1) (RSeq (hexPair 2) (RSeq (hexPair 3) REnd)))
        Re.accept 0 None s []
  end.
Proof. by destruct s. Qed.

Lemma hexToRgb_digits (c1 c2 c3 c4 c5 c6 : ascii) :
  hexClass c1 = true → hexClass c2 = true → hexClass c3 = true →
  hexClass c4 = true → hexClass c5 = true → hexClass c6 = true →
  hexToRgb (sixDigits c1 c2 c3 c4 c5 c6) = Some (colour c1 c2 c3 c4 c5 c6) ∧
  hexToRgb (String "#" (sixDigits c1 c2 c3 c4 c5 c6)) = Some (colour c1 c2 c3 c4 c5 c6).
Proof.
  intros H1 H2 H3 H4 H5 H6.
  destruct (parseInt16_pair c1 c2 H1 H2) as [P1 _].
  destruct (parseInt16_pair c3 c4 H3 H4) as [P2 _].
  destruct (parseInt16_pair c5 c6 H5 H6) as [P3 _].
  unfold hexToRgb. rewrite !exec_hex, !here_hex_unfold. split.
  - destruct (hexClass_digit c1 H1) as (_ & _ & _ & _ & _ & _ & Hh).
    rewrite hex_core by done. unfold sixDigits. cbv beta iota. rewrite Hh.
    cbn [fmap option_fmap option_map].
    unfold colour. by rewrite <- P1, <- P2, <- P3.
  - known_tests. rewrite hex_core by done. cbn [fmap option_fmap option_map].
    unfold colour. by rewrite <- P1, <- P2, <- P3.
Qed.

Lemma hexToRgb_inv (hex : string) (c : Rgb) :
  hexToRgb hex = Some c →
  ∃ c1 c2 c3 c4 c5 c6,
    hexClass c1 = true ∧ hexClass c2 = true ∧ hexClass c3 = true ∧
    hexClass c4 = true ∧ hexClass c5 = true ∧ hexClass c6 = true ∧
    (hex = sixDigits c1 c2 c3 c4 c5 c6 ∨ hex = String "#" (sixDigits c1 c2 c3 c4 c5 c6)) ∧
    c = colour c1 c2 c3 c4 c5 c6.
Proof.
  intros Hc.
  assert (∃ c1 c2 c3 c4 c5 c6,
    hexClass c1 = true ∧ hexClass c2 = true ∧ hexClass c3 = true ∧
    hexClass c4 = true ∧ hexClass c5 = true ∧ hexClass c6 = true ∧
    (hex = sixDigits c1 c2 c3 c4 c5 c6 ∨ hex = String "#" (sixDigits c1 c2 c3 c4 c5 c6)))
    as (c1 & c2 & c3 & c4 & c5 & c6 & H1 & H2 & H3 & H4 & H5 & H6 & Hs).
  { unfold hexToRgb in Hc. rewrite exec_hex, here_hex_unfold in Hc.
    destruct hex as [|a hex].
    - simpl in Hc. done.
    - destruct (Chr.eq true "#" a) eqn:Ea.
      + destruct (Re.run true _ Re.accept 1 (Some a) hex []) as [[n cs]|] eqn:E.
        * apply icase_hash in Ea as ->.
          apply hex_core_inv in E as (c1 & c2 & c3 & c4 & c5 & c6 & ? & ? & ? & ? & ? & ? & -> & _).
          exists c1, c2, c3, c4, c5, c6. split_and!; try done. by right.
        * destruct (Re.run true _ Re.accept 0 None (String a hex) []) as [[n cs]|] eqn:E'; [|done].
          apply hex_core_inv in E' as (c1 & c2 & c3 & c4 & c5 & c6 & ? & ? & ? & ? & ? & ? & E' & _).
          exists c1, c2, c3, c4, c5, c6. split_and!; try done. by left.
      + destruct (Re.run true _ Re.accept 0 None (String a hex) []) as [[n cs]|] eqn:E'; [|done].
        apply hex_core_inv in E' as (c1 & c2 & c3 & c4 & c5 & c6 & ? & ? & ? & ? & ? & ? & E' & _).
        exists c1, c2, c3, c4, c5, c6. split_and!; try done. by left. }
  exists c1, c2, c3, c4, c5, c6. split_and!; try done.
  destruct (hexToRgb_digits c1 c2 c3 c4 c5 c6 H1 H2 H3 H4 H5 H6) as [D1 D2].
  destruct Hs as [->| ->]; congruence.
Qed.

(** X10. [hexToRgb] reads exactly the colours written with six hexadecimal
    digits, with or without a number sign in front, and every channel of
    its result is a number from 0 to 255. *)
Theorem hexToRgb_reads_six_digits :
  (∀ c1 c2 c3 c4 c5 c6,
     hexClass c1 = true → hexClass c2 = true → hexClass c3 = true →
     hexClass c4 = true → hexClass c5 = true → hexClass c6 = true →
     hexToRgb (sixDigits c1 c2 c3 c4 c5 c6) = Some (colour c1 c2 c3 c4 c5 c6) ∧
     hexToRgb (String "#" (sixDigits c1 c2 c3 c4 c5 c6)) = Some (colour c1 c2 c3 c4 c5 c6)) ∧
  (∀ hex c,
     hexToRgb hex = Some c →
     (String.length hex = 6 ∨ String.length hex = 7) ∧
     channel c.(r) ∧ channel c.(g) ∧ channel c.(b)).
Proof.
  split; [apply hexToRgb_digits|].
  intros hex c Hc.
  apply hexToRgb_inv in Hc as (c1 & c2 & c3 & c4 & c5 & c6 & H1 & H2 & H3 & H4 & H5 & H6 & Hs & ->).
  split; [destruct Hs as [->| ->]; [by left | by right]|].
  unfold channel, colour. simpl.
  split_and!; eexists; (split; [reflexivity|]); by apply parseInt16_pair.
Qed.

Lemma hexToRgb_reads_six_digits_witness :
  hexToRgb "#1a2B3c" = Some {| r := Some 26%Z; g := Some 43%Z; b := Some 60%Z |} ∧
  channel (Some 26%Z).
Proof.
  split.
  - exact (proj2 (proj1 hexToRgb_reads_six_digits "1"%char "a"%char "2"%char "B"%char "3"%char "c"%char
                    eq_refl eq_refl eq_refl eq_refl eq_refl eq_refl)).
  - exact (proj1 (proj2 (proj2 hexToRgb_reads_six_digits "#1a2B3c" _
             (proj2 (proj1 hexToRgb_reads_six_digits "1"%char "a"%char "2"%char "B"%char "3"%char "c"%char
                      eq_refl eq_refl eq_refl eq_refl eq_refl eq_refl))))).
Defined.

(** ** Slot blocks and the layout *)

(** *** Matching step by step *)
(** Equality of two results of the matcher, up to arithmetic. *)
Ltac same_result :=
  repeat first [ lia | reflexivity
               | apply (f_equal (@Some (nat * Re.captures)))
               | apply (f_equal2 (@pair nat Re.captures))
               | apply (f_equal2 (@pair nat (nat * nat)))
               | apply (f_equal2 (@pair nat nat))
               | apply (f_equal2 (@cons (nat * (nat * nat)))) ].

Lemma run_lit_eq (icase : bool) (k : Re.cont) (s : string) (cs : Re.captures)
    (res : option (nat * Re.captures)) (p : string) :
  p ≠ "" →
  ∀ n,
    (∀ q, k (n + String.length p) q s cs = res) →
    ∀ prev, Re.run icase (Re.lit p) k n prev (p +:+ s) cs = res.
Proof.
  induction p as [|c p IH]; [done|]. intros _ n Hk prev.
  destruct p as [|c' p].
  - simpl. rewrite chr_eq_refl. replace (S n) with (n + 1) by lia. apply Hk.
  - change (Re.lit (String c (String c' p))) with (RSeq (RChar c) (Re.lit (String c' p))).
    cbn [Re.run]. change (String c (String c' p) +:+ s) with (String c (String c' p +:+ s)).
    cbv beta iota. rewrite chr_eq_refl. apply IH; [done|].
    intros q. replace (S n + String.length (String c' p))
      with (n + String.length (String c (String c' p))) by (simpl; lia).
    apply Hk.
Qed.

Lemma star_greedy_eq (cls : ascii → bool) (k : Re.cont) (t rest : string)
    (x : nat * Re.captures) :
  ∀ n cs,
    str_all cls t = true → stops cls rest = true →
    (∀ q, k (n + String.length t) q rest cs = Some x) →
    ∀ prev, Re.star_greedy cls k n prev (t +:+ rest) cs = Some x.
Proof.
  induction t as [|c t IH]; intros n cs Ht Hr Hk prev.
  - simpl in *. rewrite Nat.add_0_r in Hk.
    destruct rest as [|a rest]; simpl; [apply Hk|].
    simpl in Hr. apply negb_true_iff in Hr. rewrite Hr. apply Hk.
  - simpl in Ht. apply andb_true_iff in Ht as [Hc Ht]. simpl. rewrite Hc.
    rewrite (IH (S n) cs Ht Hr); [done|].
    intros q. rewrite <- (Hk q). f_equal. simpl. lia.
Qed.

Lemma plus_greedy_eq (icase : bool) (cls : ascii → bool) (k : Re.cont) (t rest : string)
    (x : nat * Re.captures) (n : nat) (cs : Re.captures) :
  t ≠ "" → str_all cls t = true → stops cls rest = true →
  (∀ q, k (n + String.length t) q rest cs = Some x) →
  ∀ prev, Re.run icase (Re.plus true cls) k n prev (t +:+ rest) cs = Some x.
Proof.
  intros Hne Ht Hr Hk prev. destruct t as [|c t]; [done|].
  simpl in Ht. apply andb_true_iff in Ht as [Hc Ht].
  unfold Re.plus. cbn [Re.run]. change (String c t +:+ rest) with (String c (t +:+ rest)).
  cbv beta iota. rewrite Hc. apply star_greedy_eq; [done | done |].
  intros q. rewrite <- (Hk q). f_equal. simpl. lia.
Qed.

Lemma run_star_greedy (icase : bool) (cls : ascii → bool) (k : Re.cont) n prev s cs :
  Re.run icase (RStar true cls) k n prev s cs = Re.star_greedy cls k n prev s cs.
Proof. reflexivity. Qed.

Lemma run_star_lazy (icase : bool) (cls : ascii → bool) (k : Re.cont) n prev s cs :
  Re.run icase (RStar false cls) k n prev s cs = Re.star_lazy cls k n prev s cs.
Proof. reflexivity. Qed.

Lemma run_group (icase : bool) (i : nat) (r : regex) (k : Re.cont) n prev s cs :
  Re.run icase (RGroup i r) k n prev s cs =
  Re.run icase r (λ n' prev' s' cs', k n' prev' s' ((i, (n, n')) :: cs')) n prev s cs.
Proof. reflexivity. Qed.

(** No comment opener starts inside a text that lacks one, when the text
    behind it does not begin with [!] or [-]. *)
Lemma run_opener_gap (icase : bool) (k : Re.cont) n prev cs (a rest : string) :
  a ≠ "" → lacks "<!--" a = true →
  Str.startsWith rest "!" = false → Str.startsWith rest "-" = false →
  Re.run icase (Re.lit "<!--") k n prev (a +:+ rest) cs = None.
Proof.
  intros Hne Ha Hr1 Hr2.
  assert (∀ x c, (x = "<" ∨ x = "!" ∨ x = "-")%char → Chr.eq icase x c = Ascii.eqb x c) as Hx.
  { intros x c [->|[->| ->]]; destruct icase; try done.
    - apply eq_icase_lt. - apply eq_icase_bang. - apply eq_icase_minus. }
  destruct a as [|c1 a]; [done|]. apply lacks_cons in Ha as [Hpre _].
  simpl. rewrite Hx by auto. destruct (Ascii.eqb "<" c1) eqn:E1; [|done].
  destruct a as [|c2 a]; simpl.
  { destruct rest as [|x rest]; [done|]. rewrite startsWith_char in Hr1.
    by rewrite Hx, Hr1 by auto. }
  rewrite Hx by auto. destruct (Ascii.eqb "!" c2) eqn:E2; [|done].
  destruct a as [|c3 a]; simpl.
  { destruct rest as [|x rest]; [done|]. rewrite startsWith_char in Hr2.
    by rewrite Hx, Hr2 by auto. }
  rewrite Hx by auto. destruct (Ascii.eqb "-" c3) eqn:E3; [|done].
  destruct a as [|c4 a]; simpl.
  { destruct rest as [|x rest]; [done|]. rewrite startsWith_char in Hr2.
    by rewrite Hx, Hr2 by auto. }
  rewrite !prefix_cons, prefix_nil, E1, E2, E3, andb_true_r, !andb_true_l in Hpre.
  by rewrite Hx, Hpre by auto.
Qed.

Lemma word_not_space (c : ascii) : Chr.is_word c = true → Chr.is_space c = false.
Proof.
  intros H. destruct c as [[] [] [] [] [] [] [] []]; vm_compute in H;
    first [discriminate H | reflexivity].
Qed.

Lemma stops_space_word (name rest : string) :
  name ≠ "" → str_all Chr.is_word name = true → stops Chr.is_space (name +:+ rest) = true.
Proof.
  intros Hne Hw. destruct name as [|c name]; [done|]. simpl in *.
  apply andb_true_iff in Hw as [Hc _]. by rewrite (word_not_space c Hc).
Qed.

(** A slot block at the current position. *)
Lemma here_slot (prev : option ascii) (name body post : string) :
  name ≠ "" → str_all Chr.is_word name = true → lacks "<!--" body = true →
  Re.here true re_slot prev
    ("<!--" +:+ " " +:+ "monad:slot" +:+ " " +:+ name +:+ " " +:+ "-->" +:+ body +:+
     "<!--" +:+ " " +:+ "monad:endslot" +:+ " " +:+ "-->" +:+ post) =
    Some (42 + String.length name + String.length body,
          [(2, (20 + String.length name, 20 + String.length name + String.length body));
           (1, (16, 16 + String.length name))]).
Proof.
  intros Hne Hw Hb. unfold Re.here, re_slot. cbn [Re.seq].
  rewrite run_seq. apply run_lit_eq; [done|]. intros q1.
  rewrite run_seq, run_star_greedy. apply (star_greedy_eq _ _ " " _); [done | done |]. intros q2.
  rewrite run_seq. apply run_lit_eq; [done|]. intros q3.
  rewrite run_seq. apply (plus_greedy_eq _ _ _ " "); [done | done | by apply stops_space_word |].
  intros q4.
  rewrite run_seq, run_group. apply plus_greedy_eq; [done | done | done |]. intros q5.
  cbv beta.
  rewrite run_seq, run_star_greedy. apply (star_greedy_eq _ _ " " _); [done | done |]. intros q6.
  rewrite run_seq. apply run_lit_eq; [done|]. intros q7.
  rewrite run_seq, run_group, run_star_lazy.
  apply star_lazy_until; [apply str_all_any | |].
  - intros t1 t2 p -> Hne2. cbv beta. rewrite run_seq.
    apply run_opener_gap; [done | by apply lacks_app_r in Hb | done | done].
  - intros p. cbv beta.
    rewrite run_seq. apply run_lit_eq; [done|]. intros q8.
    rewrite run_seq, run_star_greedy. apply (star_greedy_eq _ _ " " _); [done | done |]. intros q9.
    rewrite run_seq. apply run_lit_eq; [done|]. intros q10.
    rewrite run_seq, run_star_greedy. apply (star_greedy_eq _ _ " " _); [done | done |]. intros q11.
    apply run_lit_eq; [done|]. intros q12.
    unfold Re.accept. simpl String.length. same_result.
Qed.

(** *** A text with one match *)
Lemma omap_units {A} (f : Re.piece → option A) (s : string) :
  (∀ c, f (Re.Unit c) = None) → omap f (units s) = [].
Proof. intros Hf. induction s as [|c s IH]; simpl; [done|]. by rewrite Hf. Qed.

Lemma flat_render_units (f : Re.result → string) (s : string) :
  Re.flat (Re.render f <$> units s) = s.
Proof.
  induction s as [|c s IH]; [done|].
  change (units (String c s)) with (Re.Unit c :: units s).
  rewrite fmap_cons. cbn [Re.flat Re.render]. by rewrite IH.
Qed.

Section One.

Variables (icase : bool) (r : regex).

Lemma scan_none (pre b : string) :
  (∀ b1 b2 prev, b = b1 +:+ b2 → b2 ≠ "" → Re.here icase r prev b2 = None) →
  (∀ prev, Re.here icase r prev "" = None) →
  Re.scan icase r 0 pre b = units b.
Proof.
  intros Hb Hend. rewrite <- (str_app_nil_r b) at 1. rewrite scan_skip.
  - unfold Re.scan. rewrite Hend. by rewrite app_nil_r.
  - intros b1 b2 Hb12 Hne. rewrite str_app_nil_r. by apply (Hb b1 b2).
Qed.

Lemma pieces_one (a t b : string) (cs : Re.captures) :
  (∀ a1 a2 prev, a = a1 +:+ a2 → a2 ≠ "" → Re.here icase r prev (a2 +:+ t +:+ b) = None) →
  t ≠ "" →
  (∀ prev, Re.here icase r prev (t +:+ b) = Some (String.length t, cs)) →
  (∀ b1 b2 prev, b = b1 +:+ b2 → b2 ≠ "" → Re.here icase r prev b2 = None) →
  (∀ prev, Re.here icase r prev "" = None) →
  Re.pieces icase r (a +:+ t +:+ b) = units a ++ Re.Hit (Re.Result a t b cs) :: units b.
Proof.
  intros Ha Hne Ht Hb Hend. unfold Re.pieces. rewrite scan_skip.
  - rewrite (scan_hit icase r _ t b cs Hne (Ht _)). simpl. by rewrite scan_none.
  - intros a1 a2 Ha12 Hne2. by apply (Ha a1 a2).
Qed.

Lemma greplace_one (f : Re.result → string) (a t b : string) (cs : Re.captures) :
  (∀ a1 a2 prev, a = a1 +:+ a2 → a2 ≠ "" → Re.here icase r prev (a2 +:+ t +:+ b) = None) →
  t ≠ "" →
  (∀ prev, Re.here icase r prev (t +:+ b) = Some (String.length t, cs)) →
  (∀ b1 b2 prev, b = b1 +:+ b2 → b2 ≠ "" → Re.here icase r prev b2 = None) →
  (∀ prev, Re.here icase r prev "" = None) →
  Re.greplace icase r f (a +:+ t +:+ b) = a +:+ f (Re.Result a t b cs) +:+ b.
Proof.
  intros Ha Hne Ht Hb Hend. unfold Re.greplace. rewrite (pieces_one a t b cs) by done.
  rewrite flat_units. simpl. by rewrite flat_render_units.
Qed.

Lemma matchAll_one (a t b : string) (cs : Re.captures) :
  (∀ a1 a2 prev, a = a1 +:+ a2 → a2 ≠ "" → Re.here icase r prev (a2 +:+ t +:+ b) = None) →
  t ≠ "" →
  (∀ prev, Re.here icase r prev (t +:+ b) = Some (String.length t, cs)) →
  (∀ b1 b2 prev, b = b1 +:+ b2 → b2 ≠ "" → Re.here icase r prev b2 = None) →
  (∀ prev, Re.here icase r prev "" = None) →
  Re.matchAll icase r (a +:+ t +:+ b) = [Re.Result a t b cs].
Proof.
  intros Ha Hne Ht Hb Hend. unfold Re.matchAll. rewrite (pieces_one a t b cs) by done.
  rewrite omap_app, omap_units by done. simpl. by rewrite omap_units.
Qed.

Lemma matchAll_none (a : string) :
  (∀ a1 a2 prev, a = a1 +:+ a2 → a2 ≠ "" → Re.here icase r prev a2 = None) →
  (∀ prev, Re.here icase r prev "" = None) →
  Re.matchAll icase r a = [] ∧ ∀ f, Re.greplace icase r f a = a.
Proof.
  intros Ha Hend. unfold Re.matchAll, Re.greplace, Re.pieces. rewrite scan_none by done.
  split; [by apply omap_units|]. intros f. apply flat_render_units.
Qed.

End One.

Lemma slice_mid (open_ body close : string) :
  Str.slice (String.length open_) (String.length open_ + String.length body)
    (open_ +:+ body +:+ close) = body.
Proof.
  unfold Str.slice. rewrite drop_app.
  replace (String.length open_ + String.length body - String.length open_)
    with (String.length body) by lia.
  apply take_app.
Qed.

(** The slot pattern has no match in a text without comment opener. *)
Lemma here_slot_gap (prev : option ascii) (a rest : string) :
  a ≠ "" → lacks "<!--" a = true →
  Str.startsWith rest "!" = false → Str.startsWith rest "-" = false →
  Re.here true re_slot prev (a +:+ rest) = None.
Proof.
  intros. unfold Re.here, re_slot. cbn [Re.seq]. rewrite run_seq. by apply run_opener_gap.
Qed.

Lemma here_slot_plain (prev : option ascii) (a : string) :
  lacks "<!--" a = true → Re.here true re_slot prev a = None.
Proof.
  intros Ha. destruct a as [|c a]; [done|].
  rewrite <- (str_app_nil_r (String c a)). by apply here_slot_gap.
Qed.

Lemma here_slot_block (prev : option ascii) (name body post : string) :
  name ≠ "" → str_all Chr.is_word name = true → lacks "<!--" body = true →
  Re.here true re_slot prev (slotBlock name body +:+ post) =
    Some (String.length (slotBlock name body),
          [(2, (20 + String.length name, 20 + String.length name + String.length body));
           (1, (16, 16 + String.length name))]).
Proof.
  intros Hne Hw Hb.
  replace (slotBlock name body +:+ post)
    with ("<!--" +:+ " " +:+ "monad:slot" +:+ " " +:+ name +:+ " " +:+ "-->" +:+ body +:+
          "<!--" +:+ " " +:+ "monad:endslot" +:+ " " +:+ "-->" +:+ post)
    by (unfold slotBlock; rewrite !str_app_assoc; reflexivity).
  rewrite here_slot by done. unfold slotBlock.
  rewrite !str_app_length. cbn [String.length]. same_result.
Qed.

(** X11. A text without comment opener has no slot, and a text with one slot
    block between two such texts has that slot, with its content trimmed;
    the rest is the text around the block, trimmed. *)
Theorem extractSlotBlocks_one_block (a name body b : string) :
  lacks "<!--" a = true → lacks "<!--" b = true →
  name ≠ "" → str_all Chr.is_word name = true → lacks "<!--" body = true →
  extractSlotBlocks a = ([], Str.trim a) ∧
  extractSlotBlocks (a +:+ slotBlock name body +:+ b) =
    ([(name, VStr (Str.trim body))], Str.trim (a +:+ b)).
Proof.
  intros Ha Hb Hne Hw Hbody. split.
  - unfold extractSlotBlocks.
    destruct (matchAll_none true re_slot a) as [-> ->]; [| |done].
    + intros a1 a2 prev -> _. apply here_slot_plain. by apply lacks_app_r in Ha.
    + intros prev. by apply here_slot_plain.
  - assert (∀ a1 a2 prev, a = a1 +:+ a2 → a2 ≠ "" →
              Re.here true re_slot prev (a2 +:+ slotBlock name body +:+ b) = None) as Ga.
    { intros a1 a2 prev -> Hne2. apply here_slot_gap; [done | | done | done].
      by apply lacks_app_r in Ha. }
    assert (∀ b1 b2 prev, b = b1 +:+ b2 → b2 ≠ "" → Re.here true re_slot prev b2 = None) as Gb.
    { intros b1 b2 prev -> _. apply here_slot_plain. by apply lacks_app_r in Hb. }
    assert (slotBlock name body ≠ "") as Hs by done.
    unfold extractSlotBlocks.
    rewrite (matchAll_one true re_slot a _ b _ Ga Hs
               (λ prev, here_slot_block prev name body b Hne Hw Hbody) Gb
               (λ prev, here_slot_plain prev "" eq_refl)).
    rewrite (greplace_one true re_slot _ a _ b _ Ga Hs
               (λ prev, here_slot_block prev name body b Hne Hw Hbody) Gb
               (λ prev, here_slot_plain prev "" eq_refl)).
    cbn [foldl]. f_equal.
    unfold group_text, Re.group. cbn [Re.caps Re.cap_lookup Nat.eqb Re.text default].
    unfold slotBlock, id.
    pose proof (slice_mid "<!-- monad:slot " name (" -->" +:+ body +:+ "<!-- monad:endslot -->"))
      as S1.
    change (String.length "<!-- monad:slot ") with 16 in S1. rewrite S1.
    pose proof (slice_mid ("<!-- monad:slot " +:+ name +:+ " -->") body "<!-- monad:endslot -->")
      as S2.
    rewrite !str_app_length, !str_app_assoc in S2. cbn [String.length] in S2.
    replace (16 + (String.length name + 4)) with (20 + String.length name) in S2 by lia.
    by rewrite S2.
Qed.

(** *** The metadata pattern on a slot block *)
Lemma lacks_without (x : ascii) (p s : string) :
  without x s = true → lacks (String x p) s = true.
Proof.
  unfold without, lacks. induction s as [|c s IH]; [done|].
  simpl str_all. intros [Hc Hs]%andb_true_iff.
  rewrite includes_unfold, negb_orb, prefix_cons. apply negb_true_iff in Hc.
  rewrite Ascii.eqb_sym, Hc. simpl. by apply IH.
Qed.

Lemma word_not_minus (c : ascii) : Chr.is_word c = true → negb (Ascii.eqb c "-") = true.
Proof.
  intros H. destruct c as [[] [] [] [] [] [] [] []]; vm_compute in H;
    first [discriminate H | reflexivity].
Qed.

(** A comment [<!-- monad...-->] at the current position, for a content
    that does not start with white space. *)
Lemma here_meta_text (prev : option ascii) (c : ascii) (t post : string) :
  Chr.is_space c = false → lacks "-->" (String c t) = true →
  Re.here true re_meta prev ("<!--" +:+ " " +:+ "monad" +:+ String c t +:+ "-->" +:+ post) =
    Some (13 + String.length (String c t), [(1, (10, 10 + String.length (String c t)))]).
Proof.
  intros Hc Ht. unfold Re.here, re_meta. cbn [Re.seq].
  rewrite run_seq. apply run_lit_eq; [done|]. intros q1.
  rewrite run_seq, run_star_greedy. apply (star_greedy_eq _ _ " " _); [done | done |]. intros q2.
  rewrite run_seq. apply run_lit_eq; [done|]. intros q3.
  rewrite run_seq, run_star_greedy. apply (star_greedy_eq _ _ "" _); [done | |].
  { change (String c t +:+ ?x) with (String c (t +:+ x)). simpl. by rewrite Hc. }
  intros q4.
  rewrite run_seq, run_group, run_star_lazy.
  apply (star_lazy_until Chr.any _ (String c t) ("-->" +:+ post)); [apply str_all_any | |].
  - intros t1 t2 p E Hne. cbv beta.
    exact (close_not_before (String c t) post t1 t2 _ p _ Ht E Hne).
  - intros p. cbv beta. apply run_lit_eq; [done|]. intros q5.
    unfold Re.accept. cbn [String.length]. same_result.
Qed.

Lemma here_meta_slot (prev : option ascii) (name post : string) :
  str_all Chr.is_word name = true →
  Re.here true re_meta prev (slotOpener name +:+ post) =
    Some (String.length (slotOpener name),
          [(1, (10, 10 + String.length (":slot " +:+ name +:+ " ")))]).
Proof.
  intros Hw.
  assert (lacks "-->" (String ":" ("slot " +:+ name +:+ " ")) = true) as Hl.
  { apply lacks_without. unfold without.
    change (String ":" ("slot " +:+ name +:+ " ")) with (":slot " +:+ name +:+ " ").
    rewrite !str_all_app.
    apply andb_true_iff. split; [done|]. apply andb_true_iff. split; [|done].
    eapply str_all_weaken; [|exact Hw]. apply word_not_minus. }
  pose proof (here_meta_text prev ":" ("slot " +:+ name +:+ " ") post eq_refl Hl) as Hh.
  replace (slotOpener name +:+ post)
    with ("<!--" +:+ " " +:+ "monad" +:+ String ":" ("slot " +:+ name +:+ " ") +:+ "-->" +:+ post)
    by (unfold slotOpener; simpl; rewrite !str_app_assoc; reflexivity).
  rewrite Hh. unfold slotOpener. rewrite !str_app_length. cbn [String.length].
  rewrite !str_app_length. cbn [String.length]. same_result.
Qed.

Section SlotAsMeta.

Context `{Host}.

(** X12. In a page without metadata block in front of it, the comment that opens
    a slot is taken for the metadata block: it is removed from the body, and
    its content is handed to the parser. *)
Theorem slot_opener_is_taken_for_metadata (a name post : string) :
  lacks "<!-" a = true → str_all Chr.is_word name = true →
  tryParsePageMeta (a +:+ slotOpener name +:+ post) =
    (default (VObj []) (JSON5_parse (Str.trim (":slot " +:+ name +:+ " "))),
     Str.trim (a +:+ post)).
Proof.
  intros Ha Hw.
  assert (Re.exec true re_meta (a +:+ slotOpener name +:+ post) =
          Some (Re.Result a (slotOpener name) post
                  [(1, (10, 10 + String.length (":slot " +:+ name +:+ " ")))])) as Hm.
  { unfold Re.exec. rewrite search_skip.
    - rewrite search_unfold, here_meta_slot by done.
      unfold Re.mk. cbn [fst snd]. by rewrite take_app, drop_app.
    - intros a1 a2 -> Hne. apply (here_meta_gap _ a2); [done | | done | done].
      by apply lacks_app_r in Ha. }
  rewrite (tryParsePageMeta_some _ _ Hm). cbn [Re.before Re.after].
  pose proof (group_text_token a post ("<!--" +:+ " " +:+ "monad") "-->" (":slot " +:+ name +:+ " ")) as Hg.
  change (String.length ("<!--" +:+ " " +:+ "monad")) with 10 in Hg.
  replace (("<!--" +:+ " " +:+ "monad") +:+ (":slot " +:+ name +:+ " ") +:+ "-->")
    with (slotOpener name) in Hg
    by (unfold slotOpener; simpl; rewrite !str_app_assoc; reflexivity).
  by rewrite Hg.
Qed.

End SlotAsMeta.

Lemma slot_opener_is_taken_for_metadata_witness :
  lacks "<!-" "<p>intro</p>" = true ∧ str_all Chr.is_word "head" = true ∧
  tryParsePageMeta (H := plainHost)
    ("<p>intro</p>" +:+ slotOpener "head" +:+ "<style></style><!-- monad:endslot -->") =
    (VObj [], "<p>intro</p><style></style><!-- monad:endslot -->").
Proof.
  do 2 (split; [reflexivity|]).
  exact (slot_opener_is_taken_for_metadata (H := plainHost) "<p>intro</p>" "head"
           "<style></style><!-- monad:endslot -->" eq_refl eq_refl).
Defined.

Lemma here_lit (p : string) (prev : option ascii) (s : string) :
  p ≠ "" →
  Re.here false (Re.lit p) prev s =
    if String.prefix p s then Some (String.length p, []) else None.
Proof.
  intros Hne. unfold Re.here.
  cut (∀ n prev s, Re.run false (Re.lit p) Re.accept n prev s [] =
                   if String.prefix p s then Some (n + String.length p, []) else None).
  { intros ->. done. }
  clear prev s. induction p as [|x p IH]; [done|]. intros n prev s.
  destruct s as [|c s].
  { by destruct p. }
  rewrite prefix_cons. destruct p as [|y p].
  - simpl. change (Chr.eq false x c) with (Ascii.eqb x c). rewrite prefix_nil, andb_true_r.
    destruct (Ascii.eqb x c); [|done]. unfold Re.accept. do 2 f_equal. lia.
  - change (Re.lit (String x (String y p))) with (RSeq (RChar x) (Re.lit (String y p))).
    cbn [Re.run]. change (Chr.eq false x c) with (Ascii.eqb x c).
    destruct (Ascii.eqb x c); [|done]. rewrite IH by done. cbn [andb].
    destruct (String.prefix (String y p) s); [|done]. do 2 f_equal. simpl. lia.
Qed.

Lemma clash_prefix (p : string) : ∀ t rest, clash p t = true → String.prefix p (t +:+ rest) = false.
Proof.
  induction p as [|x p IH]; intros t rest Hc; [done|].
  destruct t as [|c t]; [done|]. simpl in Hc.
  change (String c t +:+ rest) with (String c (t +:+ rest)). rewrite prefix_cons.
  destruct (Ascii.eqb x c); [|done]. simpl. by apply IH.
Qed.

Lemma clashAll_split (p tok : string) :
  clashAll p tok = true → ∀ t1 t2, tok = t1 +:+ t2 → t2 ≠ "" → clash p t2 = true.
Proof.
  revert p. induction tok as [|c tok IH]; intros p Hc t1 t2 E Hne.
  - destruct t1; [|done]. simpl in E. by subst t2.
  - simpl in Hc. apply andb_true_iff in Hc as [H1 H2].
    destruct t1 as [|c1 t1].
    + simpl in E. by subst t2.
    + injection E as _ E. by apply (IH p H2 t1 t2).
Qed.

Lemma app_split (a b a1 a2 : string) :
  a +:+ b = a1 +:+ a2 →
  (∃ m, a = a1 +:+ m ∧ a2 = m +:+ b) ∨ (∃ m, m ≠ "" ∧ a1 = a +:+ m ∧ b = m +:+ a2).
Proof.
  revert a1. induction a as [|c a IH]; intros a1 E.
  - simpl in E. destruct a1 as [|c1 a1].
    + left. exists "". by simpl in *.
    + right. exists (String c1 a1). by simpl in *.
  - destruct a1 as [|c1 a1].
    + left. exists (String c a). by simpl in *.
    + injection E as -> E. destruct (IH a1 E) as [(m & -> & ->)|(m & Hm & -> & ->)].
      * left. by exists m.
      * right. by exists m.
Qed.

(** A pattern that starts with two braces has no match in a text that
    lacks such a pair. *)
Lemma prefix_braces (p s : string) :
  lacks "{{" s = true → ∀ s1 s2, s = s1 +:+ s2 → String.prefix (String "{" (String "{" p)) s2 = false.
Proof.
  intros Hs s1 s2 ->. apply lacks_app_r in Hs.
  destruct s2 as [|c s2]; [done|]. apply lacks_cons in Hs as [Hp _].
  rewrite prefix_cons. destruct (Ascii.eqb "{" c) eqn:E1; [|done].
  destruct s2 as [|c' s2]; [done|]. rewrite prefix_two, E1, andb_true_l in Hp.
  rewrite prefix_cons, Hp. done.
Qed.

Lemma lacks_braces_before (a b : string) :
  lacks "{{" a = true → lacks "{{" b = true → Str.startsWith b "{" = false →
  lacks "{{" (a +:+ b) = true.
Proof.
  intros Ha Hb Hs. induction a as [|c a IH]; [done|].
  apply lacks_cons in Ha as [Hpre Ha].
  change (String c a +:+ b) with (String c (a +:+ b)).
  unfold lacks. rewrite includes_unfold, negb_orb.
  apply andb_true_iff. split; [|by apply IH].
  apply negb_true_iff. rewrite prefix_cons.
  destruct (Ascii.eqb "{" c) eqn:Ec; [|done]. rewrite andb_true_l.
  destruct a as [|c' a].
  - change ("" +:+ b) with b. destruct b as [|x b]; [done|]. rewrite startsWith_char in Hs.
    by rewrite prefix_cons, Hs.
  - rewrite prefix_two, Ec, andb_true_l in Hpre.
    change (String c' a +:+ b) with (String c' (a +:+ b)). by rewrite prefix_cons, Hpre.
Qed.

(** No match of a pattern [{{...] starts in a text made of a part with
    which the pattern clashes everywhere and a part without [{{]. *)
Lemma no_slot_token (p A rest : string) :
  clashAll (String "{" (String "{" p)) A = true → lacks "{{" rest = true →
  ∀ s1 s2 prev, A +:+ rest = s1 +:+ s2 → s2 ≠ "" →
    Re.here false (Re.lit (String "{" (String "{" p))) prev s2 = None.
Proof.
  intros HA Hr s1 s2 prev E Hne. rewrite here_lit by done.
  destruct (app_split _ _ _ _ E) as [(m & -> & ->)|(m & Hm & -> & ->)].
  - destruct m as [|c m].
    + simpl. by rewrite (prefix_braces p rest Hr "" rest).
    + by rewrite (clash_prefix _ _ rest (clashAll_split _ _ HA s1 (String c m) eq_refl ltac:(done))).
  - by rewrite (prefix_braces p (m +:+ s2) Hr m s2).
Qed.

(** *** The built-in layout *)
Lemma without_join (x : ascii) (sep : string) (l : list string) :
  without x sep = true → Forall (λ t, without x t = true) l → without x (Str.join sep l) = true.
Proof.
  intros Hsep Hl. unfold Str.join. induction Hl as [|t l Ht Hl IH]; [done|].
  simpl. destruct l as [|t' l]; [done|].
  unfold without in *. by rewrite !str_all_app, Ht, Hsep, IH.
Qed.

Lemma Forall_filter_nonempty (P : string → Prop) (l : list string) :
  Forall P l → Forall P (filter (λ t, t ≠ "") l).
Proof.
  intros Hl. apply Forall_forall. intros t Ht.
  apply list_elem_of_filter in Ht as [_ Ht]. by apply (proj1 (Forall_forall _ _) Hl).
Qed.

Lemma insertSlots_builtin (body metaTags assetTags fontTags extraHead : string) :
  lacks "{{" (Subst.expand mainSlot 0 body) = true →
  without "$" metaTags = true → without "$" assetTags = true →
  without "$" fontTags = true → without "$" extraHead = true →
  insertSlots builtinLayout body metaTags assetTags fontTags extraHead =
    "<!doctype html><html><head>" +:+
    Str.join nl (filter (λ t, t ≠ "") [metaTags; assetTags; fontTags; extraHead]) +:+
    "</head><body>" +:+ Subst.expand mainSlot 0 body +:+ "</body></html>".
Proof.
  intros Hb H1 H2 H3 H4.
  set (body' := Subst.expand mainSlot 0 body) in *.
  set (head := Str.join nl (filter (λ t, t ≠ "") [metaTags; assetTags; fontTags; extraHead])).
  assert (without "$" head = true) as Hh.
  { apply without_join; [done|]. apply Forall_filter_nonempty. by repeat constructor. }
  assert (lacks "{{" (body' +:+ "</body></html>") = true) as Hrest
    by (by apply lacks_braces_before).
  unfold insertSlots. fold head.
  assert (replaceAllStr "{{slot:main}}" body builtinLayout =
          "<!doctype html><html><head>{{slot:head}}</head><body>" +:+ body' +:+ "</body></html>")
    as ->.
  { unfold replaceAllStr.
    change builtinLayout
      with ("<!doctype html><html><head>{{slot:head}}</head><body>" +:+ "{{slot:main}}" +:+
            "</body></html>").
    rewrite (greplace_one false _ _ _ "{{slot:main}}" _ []); [done | | done | | |].
    - intros a1 a2 prev E Hne. rewrite here_lit by done.
      by rewrite (clash_prefix _ _ _ (clashAll_split "{{slot:main}}" "<!doctype html><html><head>{{slot:head}}</head><body>" eq_refl a1 a2 E Hne)).
    - intros prev. rewrite here_lit by done. by rewrite prefix_app.
    - intros b1 b2 prev E Hne. rewrite here_lit by done.
      rewrite <- (str_app_nil_r b2).
      by rewrite (clash_prefix _ _ _ (clashAll_split "{{slot:main}}" "</body></html>" eq_refl b1 b2 E Hne)).
    - done. }
  assert (replaceAllStr "{{slot:footer}}" ""
            ("<!doctype html><html><head>{{slot:head}}</head><body>" +:+ body' +:+ "</body></html>") =
          "<!doctype html><html><head>{{slot:head}}</head><body>" +:+ body' +:+ "</body></html>")
    as ->.
  { unfold replaceAllStr. apply matchAll_none; [|done].
    intros a1 a2 prev E Hne.
    by apply (no_slot_token "slot:footer}}" "<!doctype html><html><head>{{slot:head}}</head><body>" _ eq_refl Hrest a1 a2 prev). }
  assert (Str.includes
            ("<!doctype html><html><head>{{slot:head}}</head><body>" +:+ body' +:+ "</body></html>")
            "{{slot:head}}" = true) as ->.
  { by apply includes_app_l. }
  unfold replaceAllStr.
  change ("<!doctype html><html><head>{{slot:head}}</head><body>" +:+ body' +:+ "</body></html>")
    with ("<!doctype html><html><head>" +:+ "{{slot:head}}" +:+
          ("</head><body>" +:+ body' +:+ "</body></html>")).
  rewrite (greplace_one false _ _ _ "{{slot:head}}" _ []).
  - by rewrite expand_plain.
  - intros a1 a2 prev E Hne. rewrite here_lit by done.
    by rewrite (clash_prefix _ _ _ (clashAll_split "{{slot:head}}" "<!doctype html><html><head>" eq_refl a1 a2 E Hne)).
  - done.
  - intros prev. rewrite here_lit by done. by rewrite prefix_app.
  - intros b1 b2 prev E Hne.
    by apply (no_slot_token "slot:head}}" "</head><body>" _ eq_refl Hrest b1 b2 prev).
  - done.
Qed.

Lemma expand_app_plain (m : Re.result) (n : nat) (x t : string) :
  without "$" x = true → Subst.expand m n (x +:+ t) = x +:+ Subst.expand m n t.
Proof.
  induction x as [|c x IH]; [done|].
  unfold without. simpl str_all. intros [Hc Hx]%andb_true_iff.
  specialize (IH Hx). change (String c x +:+ t) with (String c (x +:+ t)).
  destruct c as [[] [] [] [] [] [] [] []]; try discriminate Hc; simpl; by rewrite IH.
Qed.

(** X13. With the built-in layout the insertion of the slots gives the head
    tags that are not empty, one per line, and the body, in the document
    frame, for a body without dollar sign and without [{{]. *)
Theorem page_in_builtin_layout (body metaTags assetTags fontTags extraHead : string) :
  lacks "{{" body = true → without "$" body = true →
  without "$" metaTags = true → without "$" assetTags = true →
  without "$" fontTags = true → without "$" extraHead = true →
  insertSlots builtinLayout body metaTags assetTags fontTags extraHead =
    "<!doctype html><html><head>" +:+
    Str.join nl (filter (λ t, t ≠ "") [metaTags; assetTags; fontTags; extraHead]) +:+
    "</head><body>" +:+ body +:+ "</body></html>".
Proof.
  intros Hb Hd H1 H2 H3 H4.
  rewrite insertSlots_builtin by (rewrite ?expand_plain; done).
  by rewrite expand_plain.
Qed.

(** X14. The body is inserted as a replacement pattern: of two dollar signs in a
    row, one is left after the insertion of the slots. *)
Theorem body_loses_doubled_dollar (x y metaTags assetTags fontTags extraHead : string) :
  without "$" x = true → without "$" y = true → lacks "{{" (x +:+ "$" +:+ y) = true →
  without "$" metaTags = true → without "$" assetTags = true →
  without "$" fontTags = true → without "$" extraHead = true →
  insertSlots builtinLayout (x +:+ "$$" +:+ y) metaTags assetTags fontTags extraHead =
    "<!doctype html><html><head>" +:+
    Str.join nl (filter (λ t, t ≠ "") [metaTags; assetTags; fontTags; extraHead]) +:+
    "</head><body>" +:+ (x +:+ "$" +:+ y) +:+ "</body></html>".
Proof.
  intros Hx Hy Hb H1 H2 H3 H4.
  assert (Subst.expand mainSlot 0 (x +:+ "$$" +:+ y) = x +:+ "$" +:+ y) as E.
  { rewrite expand_app_plain by done. simpl. by rewrite expand_plain. }
  rewrite insertSlots_builtin by (rewrite ?E; done). by rewrite E.
Qed.

Lemma extractSlotBlocks_one_block_witness :
  lacks "<!--" "<p>a</p>" = true ∧ lacks "<!--" "<p>b</p>" = true ∧
  "head" ≠ "" ∧ str_all Chr.is_word "head" = true ∧ lacks "<!--" " <style></style> " = true ∧
  extractSlotBlocks ("<p>a</p>" +:+ slotBlock "head" " <style></style> " +:+ "<p>b</p>") =
    ([("head", VStr "<style></style>")], "<p>a</p><p>b</p>").
Proof.
  do 5 (split; [first [reflexivity | discriminate]|]).
  exact (proj2 (extractSlotBlocks_one_block "<p>a</p>" "head" " <style></style> " "<p>b</p>"
                  eq_refl eq_refl ltac:(discriminate) eq_refl eq_refl)).
Defined.

Lemma page_in_builtin_layout_witness :
  lacks "{{" "<p>5 {x}</p>" = true ∧ without "$" "<p>5 {x}</p>" = true ∧
  without "$" "<title>T</title>" = true ∧ without "$" "" = true ∧
  insertSlots builtinLayout "<p>5 {x}</p>" "<title>T</title>" "" "" "" =
    "<!doctype html><html><head><title>T</title></head><body><p>5 {x}</p></body></html>".
Proof.
  do 4 (split; [reflexivity|]).
  exact (page_in_builtin_layout "<p>5 {x}</p>" "<title>T</title>" "" "" ""
           eq_refl eq_refl eq_refl eq_refl eq_refl eq_refl).
Defined.

Lemma body_loses_doubled_dollar_witness :
  without "$" "<p>US" = true ∧ without "$" "5</p>" = true ∧
  lacks "{{" ("<p>US" +:+ "$" +:+ "5</p>") = true ∧
  without "$" "<title>T</title>" = true ∧ without "$" "" = true ∧
  insertSlots builtinLayout ("<p>US" +:+ "$$" +:+ "5</p>") "<title>T</title>" "" "" "" =
    "<!doctype html><html><head><title>T</title></head><body><p>US$5</p></body></html>".
Proof.
  do 5 (split; [reflexivity|]).
  exact (body_loses_doubled_dollar "<p>US" "5</p>" "<title>T</title>" "" "" ""
           eq_refl eq_refl eq_refl eq_refl eq_refl eq_refl eq_refl).
Defined.

(** ** Heading hierarchy and the accessibility check *)

Lemma if_singleton_nil {A} (c : bool) (x : A) : (if c then [x] else []) = [] ↔ c = false.
Proof. by destruct c. Qed.

Lemma headingScan_facts (l : list element) :
  ∀ st,
    let levels := (λ e, headingLevel e.(tagName)) <$> l in
    let n := count_occ Nat.eq_dec levels 1 in
    let final := foldl headingStep st l in
    final.(h1Count) = st.(h1Count) + n ∧
    final.(hasH1) = st.(hasH1) || Nat.ltb 0 n ∧
    (final.(pushed) = [] ↔
       st.(pushed) = [] ∧ (n = 0 ∨ st.(h1Count) + n ≤ 1) ∧
       stepwise st.(previousLevel) levels = true).
Proof.
  induction l as [|e l IH]; intros st; cbn zeta.
  - simpl. rewrite Nat.add_0_r, orb_false_r. split_and!; [done | done |]. tauto.
  - rewrite fmap_cons. cbn [foldl].
    destruct (IH (headingStep st e)) as (Hc & Hh & Hp). cbn zeta in *.
    rewrite Hc, Hh, Hp. clear IH Hc Hh Hp.
    cbn [count_occ stepwise headingStep previousLevel hasH1 h1Count pushed].
    generalize (count_occ Nat.eq_dec ((λ e0, headingLevel (tagName e0)) <$> l) 1) as n.
    generalize ((λ e0, headingLevel (tagName e0)) <$> l) as levels.
    intros levels n.
    rewrite !app_nil, !if_singleton_nil, andb_true_iff, negb_true_iff.
    destruct (Nat.eq_dec (headingLevel (tagName e)) 1) as [E|E].
    + rewrite E. cbn [Nat.eqb]. rewrite andb_true_l, Nat.ltb_ge.
      split_and!; [lia | |].
      * destruct (hasH1 st); [done|]. simpl. symmetry. apply Nat.ltb_lt. lia.
      * intuition lia.
    + apply Nat.eqb_neq in E as E'. rewrite E'. cbn [andb]. rewrite orb_false_r.
      split_and!; [lia | done |]. intuition lia.
Qed.

(** X15. The heading check gives no warning exactly for a document with one
    first-level heading in which no heading lies more than one level below
    the heading before it. *)
Theorem heading_check_passes_iff (root : list element) :
  headingHierarchyWarnings root = [] ↔
  count_occ Nat.eq_dec (levelsOf root) 1 = 1 ∧ stepwise 0 (levelsOf root) = true.
Proof.
  unfold headingHierarchyWarnings, levelsOf.
  destruct (headingScan_facts (headingsOf root)
              {| previousLevel := 0; hasH1 := false; h1Count := 0; pushed := [] |})
    as (_ & Hh & Hp).
  cbn zeta in *. cbn [previousLevel hasH1 h1Count pushed orb Nat.add] in *.
  rewrite Hh, app_nil, Hp.
  generalize (count_occ Nat.eq_dec ((λ e, headingLevel (tagName e)) <$> headingsOf root) 1) as n.
  intros n. destruct (Nat.ltb_spec 0 n).
  - intuition lia.
  - intuition (try lia; try discriminate).
Qed.

Lemma skipWarning_not_counted (w : string) : isLowSkip w → isAccessibilityWarning w = false.
Proof.
  intros (tag & previous & Ht & [H2 H6] & ->).
  assert (previous = 2 ∨ previous = 3 ∨ previous = 4 ∨ previous = 5 ∨ previous = 6)
    as Hp by lia.
  unfold headingTags in Ht. rewrite !elem_of_cons in Ht.
  destruct Ht as [->|[->|[->|[->|[->|[->|Ht]]]]]]; [..|by apply elem_of_nil in Ht];
    destruct Hp as [->|[->|[->|[->| ->]]]]; by vm_compute.
Qed.

Lemma accessibilityWarnings_zero (results : list RenderResult) :
  (∀ r w, r ∈ results → w ∈ r.(warnings) → isAccessibilityWarning w = false) →
  accessibilityWarnings results = 0.
Proof.
  unfold accessibilityWarnings. intros Hall.
  cut (∀ acc, foldl (λ acc r, acc + List.length (List.filter isAccessibilityWarning r.(warnings)))
                acc results = acc); [by intros ->|].
  induction results as [|r rs IH]; intros acc; [done|]. cbn [foldl].
  assert (List.filter isAccessibilityWarning r.(warnings) = []) as ->.
  { assert (∀ w, w ∈ r.(warnings) → isAccessibilityWarning w = false) as Hr
      by (intros w Hw; apply (Hall r w); [by left | done]).
    induction (warnings r) as [|w ws IHw]; [done|]. simpl.
    rewrite (Hr w) by (by left). apply IHw. intros w' Hw'. apply Hr. by right. }
  simpl. rewrite Nat.add_0_r. apply IH. intros r' w Hr' Hw. apply (Hall r' w); [by right | done].
Qed.

Section Gate.

Context `{Host}.
Variables (o : BuildOptions) (root distDir : string).

(** X16. Warnings about skipped levels behind a heading below the first level
    are not counted by the accessibility check at the end of the build: a
    build whose pages have no other warning completes in mode [fail]. *)
Theorem heading_skips_pass_the_accessibility_gate
    (pages : list RenderResult) (notFound : option RenderResult) :
  let results := pages ++ match notFound with Some r => [r] | None => [] end in
  (∀ r w, r ∈ results → w ∈ r.(warnings) → isLowSkip w) →
  auditAborts o results = false →
  accessibilityWarnings results = 0 ∧
  (closeBundle true o root distDir pages notFound).2 = Completed.
Proof.
  intros results Hall Haudit.
  assert (accessibilityWarnings results = 0) as Hz.
  { apply accessibilityWarnings_zero. intros r w Hr Hw.
    apply skipWarning_not_counted. by apply (Hall r w). }
  split; [done|]. rewrite closeBundle_policy. cbn [snd]. fold results.
  rewrite Haudit. unfold accessibilityAborts. rewrite Hz.
  by rewrite andb_false_r.
Qed.

(** X17. With the audit in mode [fail], the accessibility check never decides
    the outcome of the build: it fails with the message of the audit when
    there is a warning of any kind, and completes otherwise. *)
Theorem audit_in_fail_mode_decides_first
    (pages : list RenderResult) (notFound : option RenderResult) :
  let results := pages ++ match notFound with Some r => [r] | None => [] end in
  o.(audit_enabled) = true → o.(audit_mode) = Fail →
  (closeBundle true o root distDir pages notFound).2 =
    if Nat.ltb 0 (totalWarnings results) then Thrown (auditMessage results) else Completed.
Proof.
  intros results He Hm. rewrite closeBundle_policy. cbn [snd]. fold results.
  unfold auditAborts, accessibilityAborts. rewrite He, Hm. cbn [isFail andb].
  destruct (Nat.ltb_spec 0 (totalWarnings results)) as [Hpos|Hzero]; [done|].
  pose proof (accessibilityWarnings_le results).
  replace (accessibilityWarnings results) with 0 by lia.
  by rewrite andb_false_r.
Qed.

End Gate.

Lemma heading_skips_pass_the_accessibility_gate_witness :
  (∀ r w, r ∈ [skippedHeadingResult] ++ [] → w ∈ r.(warnings) → isLowSkip w) ∧
  auditAborts accessibilityFailOptions ([skippedHeadingResult] ++ []) = false ∧
  accessibility_mode accessibilityFailOptions = Fail ∧
  headingHierarchyWarnings [Element "h1" []; Element "h2" []; Element "h4" []] =
    warnings skippedHeadingResult ∧
  totalWarnings ([skippedHeadingResult] ++ []) = 1 ∧
  (closeBundle (H := plainHost) true accessibilityFailOptions "/site" "dist"
     [skippedHeadingResult] None).2 = Completed.
Proof.
  assert (∀ r w, r ∈ [skippedHeadingResult] ++ [] → w ∈ r.(warnings) → isLowSkip w) as Hall.
  { intros r w Hr Hw. apply list_elem_of_singleton in Hr as ->.
    apply list_elem_of_singleton in Hw as ->.
    exists "h4", 2. split_and!; [| lia | lia | done].
    unfold headingTags. do 3 right. by left. }
  split; [exact Hall|]. do 4 (split; [reflexivity|]).
  exact (proj2 (heading_skips_pass_the_accessibility_gate (H := plainHost)
                  accessibilityFailOptions "/site" "dist" [skippedHeadingResult] None
                  Hall eq_refl)).
Defined.

Lemma audit_in_fail_mode_decides_first_witness :
  audit_enabled auditFailOptions = true ∧ audit_mode auditFailOptions = Fail ∧
  (closeBundle (H := plainHost) true auditFailOptions "/site" "dist" [homeResult] None).2 =
    Thrown (auditMessage ([homeResult] ++ [])).
Proof.
  do 2 (split; [reflexivity|]).
  exact (audit_in_fail_mode_decides_first (H := plainHost) auditFailOptions "/site" "dist"
           [homeResult] None eq_refl eq_refl).
Defined.

Lemma heading_check_passes_iff_witness :
  count_occ Nat.eq_dec
    (levelsOf [Element "h2" []; Element "p" []; Element "h1" []; Element "h2" []; Element "h3" []]) 1
    = 1 ∧
  stepwise 0
    (levelsOf [Element "h2" []; Element "p" []; Element "h1" []; Element "h2" []; Element "h3" []])
    = true ∧
  headingHierarchyWarnings
    [Element "h2" []; Element "p" []; Element "h1" []; Element "h2" []; Element "h3" []] = [].
Proof.
  do 2 (split; [reflexivity|]).
  exact (proj2 (heading_check_passes_iff
                  [Element "h2" []; Element "p" []; Element "h1" []; Element "h2" [];
                   Element "h3" []])
           (conj eq_refl eq_refl)).
Defined.

(** ** Loop blocks *)

Lemma stops_space_path (path rest : string) :
  path ≠ "" → str_all pathUnit path = true → stops Chr.is_space (path +:+ rest) = true.
Proof.
  intros Hne Hw. destruct path as [|c path]; [done|]. simpl in *.
  apply andb_true_iff in Hw as [Hc _].
  destruct c as [[] [] [] [] [] [] [] []]; vm_compute in Hc;
    first [discriminate Hc | reflexivity].
Qed.

(** A loop block at the current position. *)
Lemma here_loop (prev : option ascii) (v path body post : string) :
  v ≠ "" → str_all Chr.is_word v = true →
  path ≠ "" → str_all pathUnit path = true →
  lacks "<!--" body = true →
  Re.here false re_loop prev
    ("<!--" +:+ " " +:+ "monad:loop" +:+ " " +:+ v +:+ " " +:+ "in" +:+ " " +:+ path +:+ " " +:+
     "-->" +:+ body +:+ "<!--" +:+ " " +:+ "monad:endloop" +:+ " " +:+ "-->" +:+ post) =
    Some (46 + String.length v + String.length path + String.length body,
          [(3, (24 + String.length v + String.length path,
                24 + String.length v + String.length path + String.length body));
           (2, (20 + String.length v, 20 + String.length v + String.length path));
           (1, (16, 16 + String.length v))]).
Proof.
  intros Hv Hvw Hp Hpw Hb. unfold Re.here, re_loop. cbn [Re.seq].
  rewrite run_seq. apply run_lit_eq; [done|]. intros q1.
  rewrite run_seq, run_star_greedy. apply (star_greedy_eq _ _ " " _); [done | done |]. intros q2.
  rewrite run_seq. apply run_lit_eq; [done|]. intros q3.
  rewrite run_seq. apply (plus_greedy_eq _ _ _ " "); [done | done | by apply stops_space_word |].
  intros q4.
  rewrite run_seq, run_group. apply plus_greedy_eq; [done | done | done |]. intros q5.
  cbv beta.
  rewrite run_seq. apply (plus_greedy_eq _ _ _ " "); [done | done | done |]. intros q6.
  rewrite run_seq. apply run_lit_eq; [done|]. intros q7.
  rewrite run_seq. apply (plus_greedy_eq _ _ _ " "); [done | done | by apply stops_space_path |].
  intros q8.
  rewrite run_seq, run_group. apply plus_greedy_eq; [done | exact Hpw | done |]. intros q9.
  cbv beta.
  rewrite run_seq, run_star_greedy. apply (star_greedy_eq _ _ " " _); [done | done |]. intros q10.
  rewrite run_seq. apply run_lit_eq; [done|]. intros q11.
  rewrite run_seq, run_group, run_star_lazy.
  apply star_lazy_until; [apply str_all_any | |].
  - intros t1 t2 p -> Hne2. cbv beta. rewrite run_seq.
    apply run_opener_gap; [done | by apply lacks_app_r in Hb | done | done].
  - intros p. cbv beta.
    rewrite run_seq. apply run_lit_eq; [done|]. intros q12.
    rewrite run_seq, run_star_greedy. apply (star_greedy_eq _ _ " " _); [done | done |]. intros q13.
    rewrite run_seq. apply run_lit_eq; [done|]. intros q14.
    rewrite run_seq, run_star_greedy. apply (star_greedy_eq _ _ " " _); [done | done |]. intros q15.
    apply run_lit_eq; [done|]. intros q16.
    unfold Re.accept. simpl String.length. same_result.
Qed.

Lemma here_loop_gap (prev : option ascii) (a rest : string) :
  a ≠ "" → lacks "<!--" a = true →
  Str.startsWith rest "!" = false → Str.startsWith rest "-" = false →
  Re.here false re_loop prev (a +:+ rest) = None.
Proof.
  intros. unfold Re.here, re_loop. cbn [Re.seq]. rewrite run_seq. by apply run_opener_gap.
Qed.

Lemma here_loop_plain (prev : option ascii) (a : string) :
  lacks "<!--" a = true → Re.here false re_loop prev a = None.
Proof.
  intros Ha. destruct a as [|c a]; [done|].
  rewrite <- (str_app_nil_r (String c a)). by apply here_loop_gap.
Qed.

Lemma here_loop_block (prev : option ascii) (v path body post : string) :
  v ≠ "" → str_all Chr.is_word v = true →
  path ≠ "" → str_all pathUnit path = true →
  lacks "<!--" body = true →
  Re.here false re_loop prev (loopBlock v path body +:+ post) =
    Some (String.length (loopBlock v path body), Re.caps (loopMatch "" v path body "")).
Proof.
  intros Hv Hvw Hp Hpw Hb.
  replace (loopBlock v path body +:+ post)
    with ("<!--" +:+ " " +:+ "monad:loop" +:+ " " +:+ v +:+ " " +:+ "in" +:+ " " +:+ path +:+
          " " +:+ "-->" +:+ body +:+ "<!--" +:+ " " +:+ "monad:endloop" +:+ " " +:+ "-->" +:+ post)
    by (unfold loopBlock; rewrite !str_app_assoc; reflexivity).
  rewrite here_loop by done. unfold loopBlock, loopMatch. cbn [Re.caps].
  rewrite !str_app_length. cbn [String.length]. same_result.
Qed.

(** The groups of the match of a loop block. *)
Lemma loopMatch_groups (a v path body b : string) :
  group_text (loopMatch a v path body b) 1 = v ∧
  group_text (loopMatch a v path body b) 2 = path ∧
  group_text (loopMatch a v path body b) 3 = body.
Proof.
  unfold group_text, Re.group, loopMatch.
  cbn [Re.caps Re.cap_lookup Nat.eqb Re.text default]. unfold loopBlock.
  pose proof (slice_mid "<!-- monad:loop " v
                (" in " +:+ path +:+ " -->" +:+ body +:+ "<!-- monad:endloop -->")) as S1.
  change (String.length "<!-- monad:loop ") with 16 in S1.
  pose proof (slice_mid ("<!-- monad:loop " +:+ v +:+ " in ") path
                (" -->" +:+ body +:+ "<!-- monad:endloop -->")) as S2.
  rewrite !str_app_length, !str_app_assoc in S2. cbn [String.length] in S2.
  replace (16 + (String.length v + 4)) with (20 + String.length v) in S2 by lia.
  pose proof (slice_mid ("<!-- monad:loop " +:+ v +:+ " in " +:+ path +:+ " -->") body
                "<!-- monad:endloop -->") as S3.
  rewrite !str_app_length, !str_app_assoc in S3. cbn [String.length] in S3.
  replace (16 + (String.length v + (4 + (String.length path + 4))))
    with (24 + String.length v + String.length path) in S3 by lia.
  unfold id. by rewrite S1, S2, S3.
Qed.

(** *** Replacement of the first occurrence of a text *)
Lemma indexOf_first (pat a b : string) :
  (∀ a1 a2, a = a1 +:+ a2 → a2 ≠ "" → String.prefix pat (a2 +:+ pat +:+ b) = false) →
  Str.indexOf pat (a +:+ pat +:+ b) = Some (String.length a).
Proof.
  induction a as [|c a IH]; intros Hno.
  - change ("" +:+ pat +:+ b) with (pat +:+ b).
    destruct pat as [|x pat]; [by destruct b|].
    change (String x pat +:+ b) with (String x (pat +:+ b)).
    cbn [Str.indexOf]. change (String x (pat +:+ b)) with (String x pat +:+ b).
    by rewrite prefix_app.
  - change (String c a +:+ pat +:+ b) with (String c (a +:+ pat +:+ b)).
    cbn [Str.indexOf]. change (String c (a +:+ pat +:+ b)) with (String c a +:+ pat +:+ b).
    rewrite (Hno "" (String c a) eq_refl) by done.
    rewrite IH; [done|]. intros a1 a2 -> Hne. by apply (Hno (String c a1) a2).
Qed.

Lemma replaceStr_first (pat repl a b : string) :
  (∀ a1 a2, a = a1 +:+ a2 → a2 ≠ "" → String.prefix pat (a2 +:+ pat +:+ b) = false) →
  replaceStr pat repl (a +:+ pat +:+ b) =
    a +:+ Subst.expand (Re.Result a pat b []) 0 repl +:+ b.
Proof.
  intros Hno. unfold replaceStr. rewrite indexOf_first by done.
  cbn [Re.before Re.after]. rewrite take_app.
  replace (Str.drop (String.length a + String.length pat) (a +:+ pat +:+ b)) with b; [done|].
  rewrite <- str_app_length, <- (str_app_assoc a pat b). by rewrite drop_app.
Qed.

Lemma prefix_shorter (p q s : string) :
  String.prefix p s = false → String.prefix (p +:+ q) s = false.
Proof.
  revert s. induction p as [|x p IH]; intros s H.
  - by rewrite prefix_nil in H.
  - destruct s as [|c s]; [done|].
    change (String x p +:+ q) with (String x (p +:+ q)).
    rewrite prefix_cons in *. destruct (Ascii.eqb x c); [|done]. simpl in *. by apply IH.
Qed.

(** No loop block starts inside a text without comment opener. *)
Lemma loopBlock_not_before (a v path body b : string) :
  lacks "<!--" a = true →
  ∀ a1 a2, a = a1 +:+ a2 → a2 ≠ "" →
    String.prefix (loopBlock v path body) (a2 +:+ loopBlock v path body +:+ b) = false.
Proof.
  intros Ha a1 a2 -> Hne. apply lacks_app_r in Ha.
  change (loopBlock v path body)
    with ("<!--" +:+ (" monad:loop " +:+ v +:+ " in " +:+ path +:+ " -->" +:+ body +:+
                      "<!-- monad:endloop -->")) at 1.
  apply prefix_shorter.
  pose proof (run_opener_gap false Re.accept 0 None [] a2
                (loopBlock v path body +:+ b) Hne Ha eq_refl eq_refl) as G.
  pose proof (here_lit "<!--" None (a2 +:+ loopBlock v path body +:+ b) ltac:(done)) as L.
  unfold Re.here in L. rewrite G in L.
  by destruct (String.prefix "<!--" _).
Qed.

(** One loop block between two texts without comment opener: the single
    iteration of the expansion. *)
Lemma expandCollectionLoops_one (a v path body b : string) (collections : value) :
  lacks "<!--" a = true → lacks "<!--" b = true → lacks "<!--" body = true →
  v ≠ "" → str_all Chr.is_word v = true →
  path ≠ "" → str_all pathUnit path = true →
  expandCollectionLoops (a +:+ loopBlock v path body +:+ b) collections =
    match Js.items (getByPath collections path) with
    | Some items =>
        (λ rendered,
           a +:+ Subst.expand (Re.Result a (loopBlock v path body) b []) 0 rendered +:+ b)
          <$> renderItems v body items 0
    | None => Some (a +:+ collectionMarker path +:+ b)
    end.
Proof.
  intros Ha Hb Hbody Hv Hvw Hp Hpw.
  assert (∀ a1 a2 prev, a = a1 +:+ a2 → a2 ≠ "" →
            Re.here false re_loop prev (a2 +:+ loopBlock v path body +:+ b) = None) as Ga.
  { intros a1 a2 prev -> Hne2. apply here_loop_gap; [done | | done | done].
    by apply lacks_app_r in Ha. }
  assert (∀ b1 b2 prev, b = b1 +:+ b2 → b2 ≠ "" → Re.here false re_loop prev b2 = None) as Gb.
  { intros b1 b2 prev -> _. apply here_loop_plain. by apply lacks_app_r in Hb. }
  assert (loopBlock v path body ≠ "") as Hs by done.
  unfold expandCollectionLoops.
  rewrite (matchAll_one false re_loop a _ b _ Ga Hs
             (λ prev, here_loop_block prev v path body b Hv Hvw Hp Hpw Hbody) Gb
             (λ prev, here_loop_plain prev "" eq_refl)).
  cbn [foldl]. unfold expandLoop.
  change (Re.Result a (loopBlock v path body) b (Re.caps (loopMatch "" v path body "")))
    with (loopMatch a v path body b).
  destruct (loopMatch_groups a v path body b) as (-> & -> & ->).
  change (Re.text (loopMatch a v path body b)) with (loopBlock v path body).
  assert (∀ repl, replaceStr (loopBlock v path body) repl (a +:+ loopBlock v path body +:+ b) =
            a +:+ Subst.expand (Re.Result a (loopBlock v path body) b []) 0 repl +:+ b) as Hr.
  { intros repl. apply replaceStr_first. by apply loopBlock_not_before. }
  assert (Subst.expand (Re.Result a (loopBlock v path body) b []) 0
            ("<!-- Collection " +:+ path +:+ " not found -->") = collectionMarker path) as M.
  { unfold collectionMarker. apply expand_plain. unfold without. rewrite !str_all_app.
    assert (str_all (λ c, negb (Ascii.eqb c "$")) path = true) as ->; [|done].
    clear -Hpw. induction path as [|c path IH]; [done|]. simpl in *.
    apply andb_true_iff in Hpw as [Hc Hpw]. rewrite IH by done. rewrite andb_true_r.
    destruct c as [[] [] [] [] [] [] [] []]; vm_compute in Hc;
      first [discriminate Hc | reflexivity]. }
  destruct (Js.items (getByPath collections path)) as [l|] eqn:E; rewrite ?Hr, ?M; try done.
  destruct (renderItems v body l 0); [|done]. simpl. by rewrite Hr.
Qed.

(** *** Patterns that start with two braces *)
Lemma run_lit_none (p : string) (k : Re.cont) :
  p ≠ "" →
  ∀ s n prev cs, String.prefix p s = false → Re.run false (Re.lit p) k n prev s cs = None.
Proof.
  induction p as [|x p IH]; [done|]. intros _ s n prev cs Hp.
  destruct s as [|c s].
  { destruct p; done. }
  rewrite prefix_cons in Hp. destruct p as [|y p].
  - simpl. change (Chr.eq false x c) with (Ascii.eqb x c).
    rewrite prefix_nil, andb_true_r in Hp. by rewrite Hp.
  - change (Re.lit (String x (String y p))) with (RSeq (RChar x) (Re.lit (String y p))).
    cbn [Re.run]. change (Chr.eq false x c) with (Ascii.eqb x c).
    destruct (Ascii.eqb x c); [|done]. simpl in Hp. by apply IH.
Qed.

Lemma prefix_braces_gap (a rest : string) :
  a ≠ "" → lacks "{{" a = true → Str.endsWith a "{" = false →
  String.prefix "{{" (a +:+ rest) = false.
Proof.
  intros Hne Ha Hend. destruct a as [|c a]; [done|].
  apply lacks_cons in Ha as [Hpre _].
  change (String c a +:+ rest) with (String c (a +:+ rest)). rewrite prefix_cons.
  destruct (Ascii.eqb "{" c) eqn:Ec; [|done]. rewrite andb_true_l.
  destruct a as [|c' a].
  - apply Ascii.eqb_eq in Ec as <-. done.
  - rewrite prefix_two, Ec, andb_true_l in Hpre.
    change (String c' a +:+ rest) with (String c' (a +:+ rest)).
    by rewrite prefix_cons, Hpre.
Qed.

Lemma bracesFirst_field (v : string) : bracesFirst (re_item_field v).
Proof.
  intros k s n prev cs Hs. unfold re_item_field. cbn [Re.seq].
  rewrite run_seq. by apply run_lit_none.
Qed.

Lemma bracesFirst_item (v : string) : bracesFirst (re_item v).
Proof.
  intros k s n prev cs Hs. unfold re_item. cbn [Re.seq].
  rewrite run_seq. by apply run_lit_none.
Qed.

Lemma bracesFirst_lit (p : string) : bracesFirst (Re.lit (String "{" (String "{" p))).
Proof.
  intros k s n prev cs Hs. apply run_lit_none; [done|].
  apply (prefix_shorter "{{" p). exact Hs.
Qed.

Lemma prefix_braces_lacks (s s1 s2 : string) :
  lacks "{{" s = true → s = s1 +:+ s2 → String.prefix "{{" s2 = false.
Proof. intros Hs E. exact (prefix_braces "" s Hs s1 s2 E). Qed.

Lemma greplace_braces (r : regex) (f : Re.result → string) (h : string) :
  bracesFirst r → lacks "{{" h = true → Re.greplace false r f h = h.
Proof.
  intros Hr Hh. apply (matchAll_none false r h).
  - intros a1 a2 prev E _. apply Hr. by apply (prefix_braces_lacks h a1 a2).
  - intros prev. by apply Hr.
Qed.

Lemma pieces_braces (r : regex) (h : string) :
  bracesFirst r → lacks "{{" h = true → Re.pieces false r h = units h.
Proof.
  intros Hr Hh. unfold Re.pieces. apply scan_none.
  - intros a1 a2 prev E _. apply Hr. by apply (prefix_braces_lacks h a1 a2).
  - intros prev. by apply Hr.
Qed.

Lemma renderM_all_units (f : Re.result → option string) (h : string) :
  renderM f (units h) = Some h.
Proof.
  rewrite <- (app_nil_r (units h)), renderM_units. simpl. by rewrite str_app_nil_r.
Qed.

(** The passes after the field pass, on a text without [{{]. *)
Lemma renderItem_rest (v h : string) (json : string) (index : nat) :
  lacks "{{" h = true →
  Re.greplace false re_index1 (λ m, Subst.expand m 0 (pretty (index + 1)))
    (Re.greplace false re_index (λ m, Subst.expand m 0 (pretty index))
       (Re.greplace false (re_item v) (λ m, Subst.expand m 0 json) h)) = h.
Proof.
  intros Hh.
  rewrite (greplace_braces (re_item v)) by (done || apply bracesFirst_item).
  rewrite (greplace_braces re_index) by (done || apply (bracesFirst_lit "@index}}")).
  by rewrite (greplace_braces re_index1) by (done || apply (bracesFirst_lit "@index1}}")).
Qed.

(** A template without [{{] is copied for every item, whatever the item. *)
Lemma renderItem_plain (v t : string) (item : value) (index : nat) :
  lacks "{{" t = true → renderItem v t item index = Some t.
Proof.
  intros Ht. unfold renderItem.
  rewrite (pieces_braces (re_item_field v)) by (done || apply bracesFirst_field).
  rewrite renderM_all_units. f_equal. by apply renderItem_rest.
Qed.

(** The field token at the current position. *)
Lemma here_field (prev : option ascii) (v f rest : string) :
  v ≠ "" → str_all Chr.is_word v = true → f ≠ "" → str_all Chr.is_word f = true →
  Re.here false (re_item_field v) prev (fieldToken v f +:+ rest) =
    Some (String.length (fieldToken v f),
          [(1, (3 + String.length v, 3 + String.length v + String.length f))]).
Proof.
  intros Hv Hvw Hf Hfw.
  replace (fieldToken v f +:+ rest)
    with ("{{" +:+ "" +:+ v +:+ "." +:+ f +:+ "" +:+ "}}" +:+ rest)
    by (unfold fieldToken; rewrite !str_app_assoc; reflexivity).
  unfold Re.here, re_item_field. cbn [Re.seq].
  rewrite run_seq. apply run_lit_eq; [done|]. intros q1.
  rewrite run_seq, run_star_greedy.
  apply (star_greedy_eq _ _ "" _); [done | by apply stops_space_word |]. intros q2.
  rewrite run_seq. apply run_lit_eq; [done|]. intros q3.
  rewrite run_seq. change (RChar ".") with (Re.lit "."). apply run_lit_eq; [done|]. intros q4.
  rewrite run_seq, run_group. apply plus_greedy_eq; [done | done | done |]. intros q5.
  cbv beta.
  rewrite run_seq, run_star_greedy. apply (star_greedy_eq _ _ "" _); [done | done |]. intros q6.
  apply run_lit_eq; [done|]. intros q7.
  unfold Re.accept, fieldToken. rewrite !str_app_length. simpl String.length. same_result.
Qed.

Lemma fieldToken_group (a v f b : string) :
  group_text
    (Re.Result a (fieldToken v f) b
       [(1, (3 + String.length v, 3 + String.length v + String.length f))]) 1 = f.
Proof.
  unfold group_text, Re.group. cbn [Re.caps Re.cap_lookup Nat.eqb Re.text default].
  unfold fieldToken, id.
  pose proof (slice_mid ("{{" +:+ v +:+ ".") f "}}") as S1.
  rewrite !str_app_length, !str_app_assoc in S1. cbn [String.length] in S1.
  replace (2 + (String.length v + 1)) with (3 + String.length v) in S1 by lia.
  by rewrite S1.
Qed.

Lemma pieces_field (ta v f tb : string) :
  lacks "{{" ta = true → Str.endsWith ta "{" = false → lacks "{{" tb = true →
  v ≠ "" → str_all Chr.is_word v = true → f ≠ "" → str_all Chr.is_word f = true →
  Re.pieces false (re_item_field v) (ta +:+ fieldToken v f +:+ tb) =
    units ta ++
    Re.Hit (Re.Result ta (fieldToken v f) tb
              [(1, (3 + String.length v, 3 + String.length v + String.length f))]) ::
    units tb.
Proof.
  intros Hta Hend Htb Hv Hvw Hf Hfw.
  apply pieces_one.
  - intros a1 a2 prev -> Hne. apply bracesFirst_field.
    apply prefix_braces_gap; [done | by apply lacks_app_r in Hta | by apply endsWith_suffix in Hend].
  - done.
  - intros prev. by apply here_field.
  - intros b1 b2 prev E _. apply bracesFirst_field. by apply (prefix_braces_lacks tb b1 b2).
  - intros prev. by apply bracesFirst_field.
Qed.

Lemma prop_checked_readable (v : value) (k : string) :
  Js.readable v k = true → Js.prop_checked v k = Some (Js.prop v k).
Proof.
  unfold Js.readable. destruct (Js.prop_checked v k) eqn:E; [|done].
  by apply prop_checked_some in E as [_ ->].
Qed.

Lemma readable_nullish (v : value) (k : string) :
  Js.nullish v = true → Js.readable v k = false.
Proof. by destruct v. Qed.

(** One field token in a template: the item pass puts the text of the
    field in its place, unless the read of the field or the conversion of
    its result throws. *)
Lemma renderItem_field (ta v f tb : string) (item : value) (index : nat) :
  lacks "{{" ta = true → Str.endsWith ta "{" = false → lacks "{{" tb = true →
  v ≠ "" → str_all Chr.is_word v = true → f ≠ "" → str_all Chr.is_word f = true →
  renderItem v (ta +:+ fieldToken v f +:+ tb) item index =
    if fieldPrints item f then
      let json := default "undefined" (Json.stringify item) in
      Some (Re.greplace false re_index1 (λ m, Subst.expand m 0 (pretty (index + 1)))
              (Re.greplace false re_index (λ m, Subst.expand m 0 (pretty index))
                 (Re.greplace false (re_item v) (λ m, Subst.expand m 0 json)
                    (ta +:+ fieldText item f +:+ tb))))
    else None.
Proof.
  intros Hta Hend Htb Hv Hvw Hf Hfw. unfold renderItem.
  rewrite pieces_field by done.
  rewrite renderM_units. cbn [renderM]. rewrite fieldToken_group, renderM_all_units.
  unfold fieldPrints, fieldText.
  destruct (Js.readable item f) eqn:Hr.
  - rewrite (prop_checked_readable item f Hr). unfold Js.string_of.
    by destruct (Js.printable _).
  - unfold Js.readable in Hr. by destruct (Js.prop_checked item f).
Qed.

(** *** Decimal numerals *)
Lemma pretty_N_char_digit (x : N) : Chr.is_digit (pretty_N_char x) = true.
Proof. unfold pretty_N_char. by repeat case_match. Qed.

Lemma pretty_N_go_digits (x : N) :
  ∀ s, str_all Chr.is_digit s = true → str_all Chr.is_digit (pretty_N_go x s) = true.
Proof.
  induction (N.lt_wf_0 x) as [x _ IH]. intros s Hs.
  destruct (decide (0 < x)%N) as [Hx|Hx].
  - rewrite pretty_N_go_step by done. apply IH.
    + by apply N.div_lt.
    + simpl. by rewrite pretty_N_char_digit.
  - assert (x = 0%N) as -> by lia. by rewrite pretty_N_go_0.
Qed.

Lemma pretty_nat_digits (n : nat) : str_all Chr.is_digit (pretty n) = true.
Proof.
  unfold pretty, pretty_nat, pretty, pretty_N.
  destruct (decide (N.of_nat n = 0%N)); [done|]. by apply pretty_N_go_digits.
Qed.

Lemma digit_plain (c : ascii) :
  Chr.is_digit c = true →
  negb (Ascii.eqb c "$") = true ∧ negb (Ascii.eqb c "{") = true.
Proof.
  intros H. destruct c as [[] [] [] [] [] [] [] []]; vm_compute in H;
    first [discriminate H | by split].
Qed.

Lemma without_lacks_braces (s : string) : without "{" s = true → lacks "{{" s = true.
Proof. apply lacks_without. Qed.

Lemma without_endsWith (x : ascii) (s : string) :
  without x s = true → Str.endsWith s (String x "") = false.
Proof.
  unfold without. induction s as [|c s IH]; [done|]. simpl str_all.
  intros [Hc Hs]%andb_true_iff. rewrite endsWith_unfold, (IH Hs), orb_false_r.
  apply negb_true_iff in Hc. destruct s as [|c' s]; simpl.
  - by rewrite Hc.
  - rewrite Hc. done.
Qed.

(** *** A text in three parts without a match *)
Section NoMatch.

Variables (icase : bool) (r : regex).

Lemma nomatch_around (ta tok tb : string) :
  (∀ a1 a2 prev, ta = a1 +:+ a2 → a2 ≠ "" → Re.here icase r prev (a2 +:+ tok +:+ tb) = None) →
  (∀ t1 t2 prev, tok = t1 +:+ t2 → t2 ≠ "" → Re.here icase r prev (t2 +:+ tb) = None) →
  (∀ b1 b2 prev, tb = b1 +:+ b2 → b2 ≠ "" → Re.here icase r prev b2 = None) →
  ∀ h1 h2 prev, ta +:+ tok +:+ tb = h1 +:+ h2 → h2 ≠ "" → Re.here icase r prev h2 = None.
Proof.
  intros Ha Ht Hb h1 h2 prev E Hne.
  destruct (app_split _ _ _ _ E) as [(m & -> & ->)|(m & Hm & -> & E2)].
  - destruct m as [|c m].
    + change ("" +:+ tok +:+ tb) with (tok +:+ tb) in *.
      destruct tok as [|x tok].
      * change ("" +:+ tb) with tb in *. by apply (Hb "" tb).
      * by apply (Ht "" (String x tok)).
    + by apply (Ha h1 (String c m)).
  - destruct (app_split _ _ _ _ E2) as [(m' & -> & ->)|(m' & Hm' & -> & ->)].
    + destruct m' as [|c m'].
      * change ("" +:+ tb) with tb in *. by apply (Hb "" tb).
      * by apply (Ht m (String c m')).
    + by apply (Hb m' h2).
Qed.

End NoMatch.

(** The patterns of the item pass at a token that is not one for the
    loop variable. *)
Lemma here_item_other (tail : regex) (v rest : string) (c : ascii) (prev : option ascii) :
  v ≠ "" → str_all Chr.is_word v = true → Chr.is_word c = false → Chr.is_space c = false →
  Re.here false
    (RSeq (Re.lit "{{") (RSeq (RStar true Chr.is_space) (RSeq (Re.lit v) tail))) prev
    ("{{" +:+ String c rest) = None.
Proof.
  intros Hv Hvw Hcw Hcs. unfold Re.here.
  rewrite run_seq. apply run_lit_eq; [done|]. intros q1.
  rewrite run_seq, run_star_greedy. cbn [Re.star_greedy]. rewrite Hcs.
  rewrite run_seq. apply run_lit_none; [done|].
  destruct v as [|x v]; [done|]. rewrite prefix_cons.
  simpl in Hvw. apply andb_true_iff in Hvw as [Hx _].
  destruct (Ascii.eqb x c) eqn:E; [|done].
  apply Ascii.eqb_eq in E as ->. by rewrite Hx in Hcw.
Qed.

(** A token that begins with [{{@] is left alone by the two passes for the
    loop variable. *)
Lemma nomatch_at_sign (r : regex) (tail : regex) (ta v name tb : string) :
  r = RSeq (Re.lit "{{") (RSeq (RStar true Chr.is_space) (RSeq (Re.lit v) tail)) →
  bracesFirst r →
  lacks "{{" ta = true → Str.endsWith ta "{" = false → lacks "{{" tb = true →
  v ≠ "" → str_all Chr.is_word v = true →
  clashAll "{{" (String "{" (String "@" name)) = true →
  ∀ h1 h2 prev, ta +:+ String "{" (String "{" (String "@" name)) +:+ tb = h1 +:+ h2 → h2 ≠ "" →
    Re.here false r prev h2 = None.
Proof.
  intros Er Hr Hta Hend Htb Hv Hvw Hclash. apply nomatch_around.
  - intros a1 a2 prev -> Hne. apply Hr.
    apply prefix_braces_gap; [done | by apply lacks_app_r in Hta | by apply endsWith_suffix in Hend].
  - intros t1 t2 prev E Hne. destruct t1 as [|c t1].
    + simpl in E. subst t2 r.
      change (String "{" (String "{" (String "@" name)) +:+ tb)
        with ("{{" +:+ String "@" (name +:+ tb)).
      by apply here_item_other.
    + injection E as _ E. apply Hr.
      by apply clash_prefix, (clashAll_split "{{" _ Hclash t1 t2).
  - intros b1 b2 prev E _. apply Hr. by apply (prefix_braces_lacks tb b1 b2).
Qed.

Lemma pieces_nomatch (r : regex) (h : string) :
  bracesFirst r →
  (∀ h1 h2 prev, h = h1 +:+ h2 → h2 ≠ "" → Re.here false r prev h2 = None) →
  Re.pieces false r h = units h ∧ ∀ f, Re.greplace false r f h = h.
Proof.
  intros Hr Hno. split.
  - unfold Re.pieces. apply scan_none; [done|]. intros prev. by apply Hr.
  - apply (matchAll_none false r h); [done|]. intros prev. by apply Hr.
Qed.

Lemma pretty_plain (m : Re.result) (n : nat) : Subst.expand m 0 (pretty n) = pretty n.
Proof.
  apply expand_plain. eapply str_all_weaken; [|apply pretty_nat_digits].
  intros c Hc. by apply digit_plain.
Qed.

Lemma lacks_braces_numeral (ta tb : string) (n : nat) :
  lacks "{{" ta = true → Str.endsWith ta "{" = false → lacks "{{" tb = true →
  lacks "{{" (ta +:+ pretty n +:+ tb) = true.
Proof.
  intros Hta Hend Htb.
  assert (without "{" (pretty n) = true) as Hn.
  { eapply str_all_weaken; [|apply pretty_nat_digits]. intros c Hc. by apply digit_plain. }
  apply lacks_braces_app; [done | done |].
  apply lacks_braces_app; [by apply lacks_without | by apply without_endsWith | done].
Qed.

(** The position tokens: [{{@index}}] gives the position counted from
    zero, [{{@index1}}] the position counted from one. *)
Lemma renderItem_index (ta v tb : string) (item : value) (index : nat) :
  lacks "{{" ta = true → Str.endsWith ta "{" = false → lacks "{{" tb = true →
  v ≠ "" → str_all Chr.is_word v = true →
  renderItem v (ta +:+ "{{@index}}" +:+ tb) item index = Some (ta +:+ pretty index +:+ tb).
Proof.
  intros Hta Hend Htb Hv Hvw. unfold renderItem.
  destruct (pieces_nomatch (re_item_field v) (ta +:+ "{{@index}}" +:+ tb)) as [-> _].
  { apply bracesFirst_field. }
  { by apply (nomatch_at_sign _ _ ta v "index}}" tb eq_refl (bracesFirst_field v)). }
  rewrite renderM_all_units.
  destruct (pieces_nomatch (re_item v) (ta +:+ "{{@index}}" +:+ tb)) as [_ ->].
  { apply bracesFirst_item. }
  { by apply (nomatch_at_sign _ _ ta v "index}}" tb eq_refl (bracesFirst_item v)). }
  rewrite (greplace_one false re_index _ ta "{{@index}}" tb []).
  - rewrite pretty_plain.
    rewrite (greplace_braces re_index1); [done | apply (bracesFirst_lit "@index1}}") |].
    by apply lacks_braces_numeral.
  - intros a1 a2 prev -> Hne. apply (bracesFirst_lit "@index}}").
    apply prefix_braces_gap; [done | by apply lacks_app_r in Hta | by apply endsWith_suffix in Hend].
  - done.
  - intros prev. unfold re_index. rewrite here_lit by done. by rewrite prefix_app.
  - intros b1 b2 prev E _. apply (bracesFirst_lit "@index}}").
    by apply (prefix_braces_lacks tb b1 b2).
  - intros prev. by apply (bracesFirst_lit "@index}}").
Qed.

Lemma renderItem_index1 (ta v tb : string) (item : value) (index : nat) :
  lacks "{{" ta = true → Str.endsWith ta "{" = false → lacks "{{" tb = true →
  v ≠ "" → str_all Chr.is_word v = true →
  renderItem v (ta +:+ "{{@index1}}" +:+ tb) item index =
    Some (ta +:+ pretty (index + 1) +:+ tb).
Proof.
  intros Hta Hend Htb Hv Hvw. unfold renderItem.
  destruct (pieces_nomatch (re_item_field v) (ta +:+ "{{@index1}}" +:+ tb)) as [-> _].
  { apply bracesFirst_field. }
  { by apply (nomatch_at_sign _ _ ta v "index1}}" tb eq_refl (bracesFirst_field v)). }
  rewrite renderM_all_units.
  destruct (pieces_nomatch (re_item v) (ta +:+ "{{@index1}}" +:+ tb)) as [_ ->].
  { apply bracesFirst_item. }
  { by apply (nomatch_at_sign _ _ ta v "index1}}" tb eq_refl (bracesFirst_item v)). }
  destruct (pieces_nomatch re_index (ta +:+ "{{@index1}}" +:+ tb)) as [_ ->].
  { apply (bracesFirst_lit "@index}}"). }
  { apply nomatch_around.
    - intros a1 a2 prev -> Hne. apply (bracesFirst_lit "@index}}").
      apply prefix_braces_gap; [done | by apply lacks_app_r in Hta | by apply endsWith_suffix in Hend].
    - intros t1 t2 prev E Hne. unfold re_index. rewrite here_lit by done.
      by rewrite (clash_prefix _ _ tb
                    (clashAll_split "{{@index}}" "{{@index1}}" eq_refl t1 t2 E Hne)).
    - intros b1 b2 prev E _. apply (bracesFirst_lit "@index}}").
      by apply (prefix_braces_lacks tb b1 b2). }
  rewrite (greplace_one false re_index1 _ ta "{{@index1}}" tb []).
  - by rewrite pretty_plain.
  - intros a1 a2 prev -> Hne. apply (bracesFirst_lit "@index1}}").
    apply prefix_braces_gap; [done | by apply lacks_app_r in Hta | by apply endsWith_suffix in Hend].
  - done.
  - intros prev. unfold re_index1. rewrite here_lit by done. by rewrite prefix_app.
  - intros b1 b2 prev E _. apply (bracesFirst_lit "@index1}}").
    by apply (prefix_braces_lacks tb b1 b2).
  - intros prev. by apply (bracesFirst_lit "@index1}}").
Qed.

(** *** The loop as a whole *)
Lemma renderItems_instances (ta v f tb : string) (items : list value) :
  lacks "{{" ta = true → Str.endsWith ta "{" = false → lacks "{{" tb = true →
  v ≠ "" → str_all Chr.is_word v = true → f ≠ "" → str_all Chr.is_word f = true →
  Forall (λ item, fieldPrints item f = true ∧
                  lacks "{{" (ta +:+ fieldText item f +:+ tb) = true) items →
  ∀ index,
    renderItems v (ta +:+ fieldToken v f +:+ tb) items index = Some (instances ta f tb items).
Proof.
  intros Hta Hend Htb Hv Hvw Hf Hfw Hall.
  induction Hall as [|item items [Hn Hl] _ IH]; intros index; [done|].
  cbn [renderItems instances foldr].
  rewrite renderItem_field by done. rewrite Hn. cbv zeta.
  rewrite renderItem_rest by done.
  by rewrite IH.
Qed.

Lemma renderItems_throws (ta v f tb : string) (items : list value) :
  lacks "{{" ta = true → Str.endsWith ta "{" = false → lacks "{{" tb = true →
  v ≠ "" → str_all Chr.is_word v = true → f ≠ "" → str_all Chr.is_word f = true →
  Exists (λ item, fieldPrints item f = false) items →
  ∀ index, renderItems v (ta +:+ fieldToken v f +:+ tb) items index = None.
Proof.
  intros Hta Hend Htb Hv Hvw Hf Hfw Hex.
  induction Hex as [item items Hn|item items _ IH]; intros index; cbn [renderItems].
  - rewrite renderItem_field by done. by rewrite Hn.
  - rewrite IH. by destruct (renderItem _ _ _ _).
Qed.

Lemma fieldPrints_nullish (item : value) (f : string) :
  Js.nullish item = true → fieldPrints item f = false.
Proof. intros Hn. unfold fieldPrints. by rewrite readable_nullish. Qed.

Lemma renderItems_null (ta v f tb : string) (items : list value) :
  lacks "{{" ta = true → Str.endsWith ta "{" = false → lacks "{{" tb = true →
  v ≠ "" → str_all Chr.is_word v = true → f ≠ "" → str_all Chr.is_word f = true →
  Exists (λ item, Js.nullish item = true) items →
  ∀ index, renderItems v (ta +:+ fieldToken v f +:+ tb) items index = None.
Proof.
  intros Hta Hend Htb Hv Hvw Hf Hfw Hex. apply renderItems_throws; try done.
  eapply Exists_impl; [exact Hex |]. intros item. apply fieldPrints_nullish.
Qed.

Lemma isArray_items (v : value) :
  Js.isArray v = false → Js.items v = None.
Proof.
  unfold Js.isArray. intros Hno. apply bool_decide_eq_false in Hno.
  destruct (Js.items v); [| done]. by destruct Hno.
Qed.

(** X18. A loop over a collection that is not a list leaves a marker that names
    the collection, between the texts around the block.  Whether the value
    found along the path is a list is what [Array.isArray] says of it, and
    the lookup follows inherited properties, none of whose reads is to
    throw. *)
Theorem loop_over_missing_collection (a v path body b : string) (collections : value) :
  lacks "<!--" a = true → lacks "<!--" b = true → lacks "<!--" body = true →
  v ≠ "" → str_all Chr.is_word v = true →
  path ≠ "" → str_all pathUnit path = true →
  walkReturns collections (pathParts path) = true →
  Js.isArray (getByPath collections path) = false →
  expandCollectionLoops (a +:+ loopBlock v path body +:+ b) collections =
    Some (a +:+ collectionMarker path +:+ b).
Proof.
  intros Ha Hb Hbody Hv Hvw Hp Hpw _ Hno.
  rewrite expandCollectionLoops_one by done.
  by rewrite (isArray_items _ Hno).
Qed.

(** X19. A field token of the loop variable is replaced by the text of that
    field of the item, read as the language reads a property: an own
    property first, then an inherited one.  The pass throws when the read
    of the field or the conversion of its result to text does, as for an
    item that is [null] or [undefined]; a field that reads as [null] or
    [undefined] gives the empty text, as does a name that a plain object
    neither owns nor inherits. *)
Theorem loop_field_is_filled_in (ta v f tb : string) (item : value) (index : nat) :
  lacks "{{" ta = true → Str.endsWith ta "{" = false → lacks "{{" tb = true →
  v ≠ "" → str_all Chr.is_word v = true → f ≠ "" → str_all Chr.is_word f = true →
  (fieldPrints item f = false →
   renderItem v (ta +:+ fieldToken v f +:+ tb) item index = None) ∧
  (Js.nullish item = true → fieldPrints item f = false) ∧
  (fieldPrints item f = true → lacks "{{" (ta +:+ fieldText item f +:+ tb) = true →
   renderItem v (ta +:+ fieldToken v f +:+ tb) item index =
     Some (ta +:+ fieldText item f +:+ tb)) ∧
  (Js.readable item f = true → Js.nullish (Js.prop item f) = true →
   renderItem v (ta +:+ fieldToken v f +:+ tb) item index = Some (ta +:+ tb)) ∧
  (∀ l x, item = VObj l → Js.assoc f l = Some x →
     Js.readable item f = true ∧ Js.prop item f = x) ∧
  (∀ l, item = VObj l → Js.assoc f l = None → Js.objectName f = false →
     renderItem v (ta +:+ fieldToken v f +:+ tb) item index = Some (ta +:+ tb)).
Proof.
  intros Hta Hend Htb Hv Hvw Hf Hfw.
  assert (Js.readable item f = true → Js.nullish (Js.prop item f) = true →
          renderItem v (ta +:+ fieldToken v f +:+ tb) item index = Some (ta +:+ tb)) as Hnull.
  { intros Hr Hp. rewrite renderItem_field by done. unfold fieldPrints, fieldText.
    rewrite Hr. unfold Js.coalesce. rewrite Hp. cbn [Js.printable andb Js.toString]. cbv zeta.
    change ("" +:+ tb) with tb. rewrite renderItem_rest; [done|].
    by apply lacks_braces_app. }
  split_and!.
  - intros Hn. rewrite renderItem_field by done. by rewrite Hn.
  - apply fieldPrints_nullish.
  - intros Hn Hl. rewrite renderItem_field by done. rewrite Hn. cbv zeta.
    by rewrite renderItem_rest.
  - exact Hnull.
  - intros l x -> Hx. unfold Js.readable. cbn [Js.prop_checked Js.prop]. by rewrite Hx.
  - intros l -> Hx Hname. apply Hnull.
    + reflexivity.
    + cbn [Js.prop]. by rewrite Hx, Hname.
Qed.

(** X20. The position tokens of a loop: [{{@index}}] is replaced by the
    position of the item counted from zero, [{{@index1}}] by the position
    counted from one, whatever the item. *)
Theorem loop_position_tokens (ta v tb : string) (item : value) (index : nat) :
  lacks "{{" ta = true → Str.endsWith ta "{" = false → lacks "{{" tb = true →
  v ≠ "" → str_all Chr.is_word v = true →
  renderItem v (ta +:+ "{{@index}}" +:+ tb) item index = Some (ta +:+ pretty index +:+ tb) ∧
  renderItem v (ta +:+ "{{@index1}}" +:+ tb) item index =
    Some (ta +:+ pretty (index + 1) +:+ tb).
Proof.
  intros. split; [by apply renderItem_index | by apply renderItem_index1].
Qed.

(** X21. A loop block with one field token, over a list of items for each of
    which the read of the field and the conversion of its result to text
    return: the block is replaced by the instances of the template in the
    order of the list, when these hold no dollar sign. *)
Theorem loop_lists_items_in_order (a v path ta f tb b : string)
    (collections : value) (items : list value) :
  lacks "<!--" a = true → lacks "<!--" b = true →
  lacks "<!--" (ta +:+ fieldToken v f +:+ tb) = true →
  v ≠ "" → str_all Chr.is_word v = true →
  path ≠ "" → str_all pathUnit path = true →
  f ≠ "" → str_all Chr.is_word f = true →
  lacks "{{" ta = true → Str.endsWith ta "{" = false → lacks "{{" tb = true →
  walkReturns collections (pathParts path) = true →
  Js.items (getByPath collections path) = Some items →
  Forall (λ item, fieldPrints item f = true ∧
                  lacks "{{" (ta +:+ fieldText item f +:+ tb) = true) items →
  without "$" (instances ta f tb items) = true →
  expandCollectionLoops
    (a +:+ loopBlock v path (ta +:+ fieldToken v f +:+ tb) +:+ b) collections =
    Some (a +:+ instances ta f tb items +:+ b).
Proof.
  intros Ha Hb Hbody Hv Hvw Hp Hpw Hf Hfw Hta Hend Htb _ Hitems Hall Hd.
  rewrite expandCollectionLoops_one by done. rewrite Hitems.
  rewrite renderItems_instances by done. simpl. by rewrite expand_plain.
Qed.

(** X22. An item that is [null] or [undefined] in the list makes the expansion
    of a loop whose template reads a field throw. *)
Theorem loop_over_null_item_throws (a v path ta f tb b : string)
    (collections : value) (items : list value) :
  lacks "<!--" a = true → lacks "<!--" b = true →
  lacks "<!--" (ta +:+ fieldToken v f +:+ tb) = true →
  v ≠ "" → str_all Chr.is_word v = true →
  path ≠ "" → str_all pathUnit path = true →
  f ≠ "" → str_all Chr.is_word f = true →
  lacks "{{" ta = true → Str.endsWith ta "{" = false → lacks "{{" tb = true →
  getByPath collections path = VArr items →
  Exists (λ item, Js.nullish item = true) items →
  expandCollectionLoops
    (a +:+ loopBlock v path (ta +:+ fieldToken v f +:+ tb) +:+ b) collections = None.
Proof.
  intros Ha Hb Hbody Hv Hvw Hp Hpw Hf Hfw Hta Hend Htb Hitems Hex.
  rewrite expandCollectionLoops_one by done. rewrite Hitems. cbn [Js.items].
  by rewrite renderItems_null.
Qed.


(** ** References to fragments *)

Lemma fileChar_elim (c : ascii) :
  fileChar c = true →
  Chr.is_space c = false ∧ quote_class c = false ∧ Ascii.eqb c "/" = false.
Proof.
  intros H. destruct c as [[] [] [] [] [] [] [] []]; vm_compute in H;
    first [discriminate H | by split_and!].
Qed.

Lemma nameChar_fileChar (s : string) : str_all nameChar s = true → str_all fileChar s = true.
Proof.
  apply str_all_weaken. intros c Hc. unfold fileChar. by rewrite Hc.
Qed.

Lemma nameChar_not_dot (c : ascii) : nameChar c = true → Ascii.eqb c "." = false.
Proof.
  intros H. destruct c as [[] [] [] [] [] [] [] []]; vm_compute in H;
    first [discriminate H | reflexivity].
Qed.

(** *** Names without slash under POSIX rules *)
Lemma strip_slashes_end_id (s : string) :
  str_all fileChar s = true → Posix.strip_slashes_end s = s.
Proof.
  induction s as [|c s IH]; [done|]. simpl.
  intros [Hc Hs]%andb_true_iff. rewrite (IH Hs).
  destruct (fileChar_elim c Hc) as (_ & _ & Hsl). rewrite Hsl. by destruct s.
Qed.

Lemma split_slash_free (s : string) :
  str_all fileChar s = true → Str.split "/" s = [s].
Proof.
  induction s as [|c s IH]; [done|]. simpl.
  intros [Hc Hs]%andb_true_iff. rewrite (IH Hs).
  destruct (fileChar_elim c Hc) as (_ & _ & Hsl). by rewrite Hsl.
Qed.

Lemma split_slash_app (d rest : string) :
  str_all fileChar d = true → Str.split "/" (d +:+ String "/" rest) = d :: Str.split "/" rest.
Proof.
  induction d as [|c d IH]; [done|]. simpl.
  intros [Hc Hd]%andb_true_iff. rewrite (IH Hd).
  destruct (fileChar_elim c Hc) as (_ & _ & Hsl). by rewrite Hsl.
Qed.

Lemma strip_slashes_end_app (d n : string) :
  n ≠ "" → str_all fileChar n = true →
  Posix.strip_slashes_end (d +:+ n) = d +:+ n.
Proof.
  intros Hne Hn. induction d as [|c d IH].
  - by apply strip_slashes_end_id.
  - change (String c d +:+ n) with (String c (d +:+ n)). cbn [Posix.strip_slashes_end].
    rewrite IH. destruct (d +:+ n) eqn:E; [|done].
    destruct d; [|done]. simpl in E. by subst n.
Qed.

Lemma basename_plain (s : string) :
  str_all fileChar s = true → Posix.basename s = s.
Proof.
  intros Hs. unfold Posix.basename. by rewrite strip_slashes_end_id, split_slash_free.
Qed.

Lemma dirname_plain (s : string) :
  s ≠ "" → str_all fileChar s = true → Posix.dirname s = ".".
Proof.
  intros Hne Hs. unfold Posix.dirname.
  destruct s as [|c s]; [done|]. cbn [Str.is_empty].
  rewrite strip_slashes_end_id, split_slash_free by done. cbn [List.rev app].
  unfold Posix.isAbsolute. rewrite startsWith_char.
  simpl in Hs. apply andb_true_iff in Hs as [Hc _].
  destruct (fileChar_elim c Hc) as (_ & _ & Hsl). by rewrite Ascii.eqb_sym, Hsl.
Qed.

Lemma basename_sub (d n : string) :
  str_all fileChar d = true → n ≠ "" → str_all fileChar n = true →
  Posix.basename (d +:+ "/" +:+ n) = n.
Proof.
  intros Hd Hne Hn. unfold Posix.basename.
  rewrite <- str_app_assoc, strip_slashes_end_app, str_app_assoc by done.
  change ("/" +:+ n) with (String "/" n).
  by rewrite split_slash_app, split_slash_free.
Qed.

Lemma dirname_sub (d n : string) :
  d ≠ "" → str_all fileChar d = true → n ≠ "" → str_all fileChar n = true →
  Posix.dirname (d +:+ "/" +:+ n) = d.
Proof.
  intros Hd0 Hd Hne Hn. unfold Posix.dirname.
  destruct d as [|c d]; [done|].
  change (Str.is_empty (String c d +:+ "/" +:+ n)) with false. cbv iota.
  rewrite <- str_app_assoc, strip_slashes_end_app, str_app_assoc by done.
  change ("/" +:+ n) with (String "/" n).
  rewrite split_slash_app, split_slash_free by done.
  cbn [List.rev app Str.join String.concat].
  rewrite strip_slashes_end_id by done. done.
Qed.

(** *** The quotes around a reference *)
Lemma here_quotes_other (prev : option ascii) (c : ascii) (s : string) :
  quote_class c = false → Re.here false re_quotes prev (String c s) = None.
Proof.
  intros Hc. unfold Re.here, re_quotes. cbn [Re.run].
  change (Chr.one_of [Chr.dquote; "'"%char] c) with (quote_class c). rewrite Hc.
  by destruct prev.
Qed.

Lemma here_quotes_end (prev : option ascii) : Re.here false re_quotes prev "" = None.
Proof. unfold Re.here, re_quotes. cbn [Re.run]. by destruct prev. Qed.

Lemma here_quotes_first (q : ascii) (s : string) :
  quote_class q = true → Re.here false re_quotes None (String q s) = Some (1, []).
Proof.
  intros Hq. unfold Re.here, re_quotes. cbn [Re.run].
  change (Chr.one_of [Chr.dquote; "'"%char] q) with (quote_class q). by rewrite Hq.
Qed.

Lemma here_quotes_last (q c : ascii) :
  quote_class q = true → Re.here false re_quotes (Some c) (String q "") = Some (1, []).
Proof.
  intros Hq. unfold Re.here, re_quotes. cbn [Re.run].
  change (Chr.one_of [Chr.dquote; "'"%char] q) with (quote_class q). by rewrite Hq.
Qed.

Lemma quotes_none (f : Re.result → string) (s : string) :
  str_all fileChar s = true → Re.greplace false re_quotes f s = s.
Proof.
  intros Hs. apply (matchAll_none false re_quotes s); [|apply here_quotes_end].
  intros a1 a2 prev -> Hne. rewrite str_all_app in Hs. apply andb_true_iff in Hs as [_ Hs].
  destruct a2 as [|c a2]; [done|]. simpl in Hs. apply andb_true_iff in Hs as [Hc _].
  apply here_quotes_other. by destruct (fileChar_elim c Hc) as (_ & ? & _).
Qed.

Lemma last_app_nonempty (pre s : string) : s ≠ "" → Str.last (pre +:+ s) = Str.last s.
Proof.
  intros Hne. induction pre as [|c pre IH]; [done|].
  change (String c pre +:+ s) with (String c (pre +:+ s)). cbn [Str.last].
  destruct (pre +:+ s) eqn:E; [|done]. destruct pre; [|done]. simpl in E. by subst s.
Qed.

Lemma last_nonempty (s : string) : s ≠ "" → is_Some (Str.last s).
Proof.
  induction s as [|c s IH]; [done|]. intros _. destruct s as [|c' s]; [by eexists|].
  change (Str.last (String c (String c' s))) with (Str.last (String c' s)). by apply IH.
Qed.

Lemma quotes_around (q q' : ascii) (s : string) :
  quote_class q = true → quote_class q' = true → s ≠ "" → str_all fileChar s = true →
  Re.greplace false re_quotes (λ m, Subst.expand m 0 "") (String q (s +:+ String q' "")) = s.
Proof.
  intros Hq Hq' Hne Hs. unfold Re.greplace, Re.pieces.
  change (String q (s +:+ String q' "")) with (String q "" +:+ (s +:+ String q' "")).
  rewrite (scan_hit false re_quotes "" (String q "") _ []); [|done|exact (here_quotes_first q (s +:+ String q' "") Hq)].
  rewrite scan_skip.
  - destruct (Str.last (("" +:+ String q "") +:+ s)) as [c|] eqn:L.
    2:{ rewrite last_app_nonempty in L by done.
        destruct (last_nonempty s Hne) as [x Hx]. by rewrite Hx in L. }
    rewrite <- (str_app_nil_r (String q' "")).
    rewrite (scan_hit false re_quotes _ (String q' "") "" []);
      [|done|rewrite L; exact (here_quotes_last q' c Hq')].
    rewrite fmap_cons. cbn [Re.flat Re.render Subst.expand].
    rewrite flat_units, fmap_cons. cbn [Re.flat Re.render Subst.expand].
    unfold Re.scan. rewrite here_quotes_end. simpl. by rewrite str_app_nil_r.
  - intros a1 a2 -> Hne2. rewrite str_all_app in Hs. apply andb_true_iff in Hs as [_ Hs].
    destruct a2 as [|c a2]; [done|]. simpl in Hs. apply andb_true_iff in Hs as [Hc _].
    apply here_quotes_other. by destruct (fileChar_elim c Hc) as (_ & ? & _).
Qed.

(** *** The spellings of a reference *)
Lemma fileChar_nospace (s : string) :
  str_all fileChar s = true → str_all (λ c, negb (Chr.is_space c)) s = true.
Proof.
  apply str_all_weaken. intros c Hc.
  destruct (fileChar_elim c Hc) as (-> & _). done.
Qed.

Lemma endsWith_html_name (n : string) :
  str_all nameChar n = true → Str.endsWith n ".html" = false.
Proof.
  induction n as [|c n IH]; [done|]. simpl str_all.
  intros [Hc Hn]%andb_true_iff. rewrite endsWith_unfold, (IH Hn), orb_false_r.
  change (String.eqb (String c n) ".html") with (Ascii.eqb c "." && String.eqb n "html").
  by rewrite (nameChar_not_dot c Hc).
Qed.

Lemma endsWith_html_sub (a n : string) :
  str_all nameChar n = true → Str.endsWith (a +:+ "/" +:+ n) ".html" = false.
Proof.
  intros Hn. induction a as [|c a IH].
  - change ("" +:+ "/" +:+ n) with (String "/" n).
    rewrite endsWith_unfold, (endsWith_html_name n Hn). done.
  - change (String c a +:+ "/" +:+ n) with (String c (a +:+ String "/" n)).
    rewrite endsWith_unfold. change (a +:+ String "/" n) with (a +:+ "/" +:+ n) at 2.
    rewrite IH, orb_false_r.
    apply not_true_is_false. intros E%String.eqb_eq. injection E as _ E.
    do 5 (destruct a as [|? a]; [simpl in E; discriminate E|]). simpl in E. discriminate E.
Qed.

Lemma trimEnd_space (s : string) : Str.trimEnd (s +:+ " ") = Str.trimEnd s.
Proof.
  induction s as [|c s IH]; [done|].
  change (String c s +:+ " ") with (String c (s +:+ " ")). cbn [Str.trimEnd]. by rewrite IH.
Qed.

Section Spellings.

Variables (cwd : string) (json : gmap string value) (dom : string → list element).

(** A reference without white space, quote or slash. *)
Lemma resolvePartial_plain (partialsDir ref : string) :
  ref ≠ "" → str_all fileChar ref = true →
  resolvePartial (H := posixHost cwd json dom) partialsDir ref =
    Posix.join [partialsDir;
                (if Str.startsWith ref "_" then ref else "_" +:+ ref) +:+
                (if Str.endsWith ref ".html" then "" else ".html")].
Proof.
  intros Hne Hr. unfold resolvePartial. cbn [path_basename path_dirname path_join posixHost].
  rewrite trim_id by (by apply fileChar_nospace).
  rewrite quotes_none by done.
  rewrite basename_plain, dirname_plain by done.
  change (String.eqb "." ".") with true. cbv iota.
  unfold Posix.join. rewrite !filter_cons, filter_nil.
  destruct (decide (partialsDir ≠ "")); destruct (decide ("" ≠ "")); done.
Qed.

Lemma resolvePartial_same (partialsDir r1 r2 : string) :
  Re.greplace false re_quotes (λ m, Subst.expand m 0 "") (Str.trim r1) =
  Re.greplace false re_quotes (λ m, Subst.expand m 0 "") (Str.trim r2) →
  resolvePartial (H := posixHost cwd json dom) partialsDir r1 =
  resolvePartial (H := posixHost cwd json dom) partialsDir r2.
Proof. intros E. unfold resolvePartial. by rewrite E. Qed.

Lemma resolvePartial_name (partialsDir n : string) :
  n ≠ "" → str_all nameChar n = true → Str.startsWith n "_" = false →
  resolvePartial (H := posixHost cwd json dom) partialsDir n =
    Posix.join [partialsDir; "_" +:+ n +:+ ".html"].
Proof.
  intros Hne Hn Hu. rewrite resolvePartial_plain by (done || by apply nameChar_fileChar).
  by rewrite Hu, endsWith_html_name, str_app_assoc.
Qed.

(** X23. The spellings of a reference to the fragment [n]: the bare name, the
    name with the underscore of the file, the name with the extension, the
    name between quotes and the name between blanks all resolve to the file
    [_n.html] of the fragment directory; a folder in front of the name is
    kept, and the underscore goes to the file name. *)
Theorem fragment_reference_spellings (partialsDir n d : string) (q q' : ascii) :
  n ≠ "" → str_all nameChar n = true → Str.startsWith n "_" = false →
  d ≠ "" → str_all nameChar d = true →
  quote_class q = true → quote_class q' = true →
  let H := posixHost cwd json dom in
  resolvePartial partialsDir n = fragmentFile partialsDir "" n ∧
  resolvePartial partialsDir ("_" +:+ n) = fragmentFile partialsDir "" n ∧
  resolvePartial partialsDir (n +:+ ".html") = fragmentFile partialsDir "" n ∧
  resolvePartial partialsDir (String q (n +:+ String q' "")) = fragmentFile partialsDir "" n ∧
  resolvePartial partialsDir (" " +:+ n +:+ " ") = fragmentFile partialsDir "" n ∧
  resolvePartial partialsDir (d +:+ "/" +:+ n) = fragmentFile partialsDir d n.
Proof.
  intros Hne Hn Hu Hd0 Hd Hq Hq' H.
  assert (str_all fileChar n = true) as Hf by (by apply nameChar_fileChar).
  assert (fragmentFile partialsDir "" n = Posix.join [partialsDir; "_" +:+ n +:+ ".html"]) as ->.
  { unfold fragmentFile. cbn [path_join H posixHost]. unfold Posix.join.
    rewrite !filter_cons, filter_nil.
    destruct (decide (partialsDir ≠ "")); destruct (decide ("" ≠ "")); done. }
  split_and!.
  - by apply resolvePartial_name.
  - rewrite resolvePartial_plain; [| done |].
    + change (Str.startsWith ("_" +:+ n) "_") with (Str.startsWith (String "_" n) "_").
      rewrite startsWith_char. change (Ascii.eqb "_" "_") with true. cbv iota.
      assert (Str.endsWith ("_" +:+ n) ".html" = false) as ->; [|done].
      apply endsWith_html_name. simpl. by rewrite Hn.
    + simpl. by rewrite Hf.
  - rewrite resolvePartial_plain.
    + rewrite endsWith_app, str_app_nil_r.
      destruct n as [|c n]; [done|].
      change (String c n +:+ ".html") with (String c (n +:+ ".html")).
      rewrite startsWith_char in *. by rewrite Hu.
    + by destruct n.
    + by rewrite str_all_app, Hf.
  - rewrite <- (resolvePartial_name partialsDir n) by done.
    apply resolvePartial_same.
    rewrite (trim_id n) by (by apply fileChar_nospace).
    rewrite (quotes_none _ n) by done.
    rewrite trim_id; [by apply quotes_around|].
    simpl. rewrite str_all_app. simpl. rewrite (fileChar_nospace n Hf).
    assert (∀ x, quote_class x = true → Chr.is_space x = false) as Hx.
    { intros x Hx. destruct x as [[] [] [] [] [] [] [] []]; vm_compute in Hx;
        first [discriminate Hx | reflexivity]. }
    by rewrite (Hx q Hq), (Hx q' Hq').
  - rewrite <- (resolvePartial_name partialsDir n) by done.
    apply resolvePartial_same. f_equal.
    rewrite (trim_id n) by (by apply fileChar_nospace).
    unfold Str.trim. change (Str.trimStart (" " +:+ n +:+ " ")) with (Str.trimStart (n +:+ " ")).
    replace (Str.trimStart (n +:+ " ")) with (n +:+ " ").
    + rewrite trimEnd_space. apply trimEnd_id. by apply fileChar_nospace.
    + destruct n as [|c n]; [done|]. simpl in Hf. apply andb_true_iff in Hf as [Hc _].
      destruct (fileChar_elim c Hc) as (Hs & _).
      change (String c n +:+ " ") with (String c (n +:+ " ")). cbn [Str.trimStart]. by rewrite Hs.
  - unfold resolvePartial, fragmentFile. cbn [path_basename path_dirname path_join H posixHost].
    assert (str_all fileChar d = true) as Hfd by (by apply nameChar_fileChar).
    assert (Str.trim (d +:+ "/" +:+ n) = d +:+ "/" +:+ n) as ->.
    { apply trim_id. rewrite !str_all_app.
      rewrite (fileChar_nospace d), (fileChar_nospace n) by done. reflexivity. }
    assert (Re.greplace false re_quotes (λ m, Subst.expand m 0 "") (d +:+ "/" +:+ n) =
            d +:+ "/" +:+ n) as ->.
    { apply (matchAll_none false re_quotes); [|apply here_quotes_end].
      intros a1 a2 prev E Hne2. destruct a2 as [|c a2]; [done|]. apply here_quotes_other.
      assert (str_all (λ x, negb (quote_class x)) (d +:+ "/" +:+ n) = true) as Hall.
      { rewrite !str_all_app.
        assert (∀ s, str_all fileChar s = true → str_all (λ x, negb (quote_class x)) s = true)
          as Hw.
        { intros s. apply str_all_weaken. intros x Hx.
          by destruct (fileChar_elim x Hx) as (_ & -> & _). }
        rewrite (Hw d), (Hw n) by done. reflexivity. }
      rewrite E, str_all_app in Hall. apply andb_true_iff in Hall as [_ Hall].
      simpl in Hall. apply andb_true_iff in Hall as [Hc _]. by apply negb_true_iff in Hc. }
    rewrite basename_sub, dirname_sub by done.
    assert (String.eqb d "." = false) as ->.
    { destruct d as [|c d]; [done|]. simpl in Hd. apply andb_true_iff in Hd as [Hc _].
      change (String.eqb (String c d) ".") with (Ascii.eqb c "." && String.eqb d "").
      by rewrite (nameChar_not_dot c Hc). }
    rewrite Hu.
    assert (Str.endsWith (d +:+ "/" +:+ n) ".html" = false) as ->; [|by rewrite str_app_assoc].
    by apply endsWith_html_sub.
Qed.

End Spellings.

Lemma fragment_reference_spellings_witness :
  "card" ≠ "" ∧ str_all nameChar "card" = true ∧ Str.startsWith "card" "_" = false ∧
  "cards" ≠ "" ∧ str_all nameChar "cards" = true ∧
  quote_class "'" = true ∧ quote_class Chr.dquote = true ∧
  resolvePartial (H := plainHost) "/site/partials" "card" = "/site/partials/_card.html" ∧
  resolvePartial (H := plainHost) "/site/partials" "_card" = "/site/partials/_card.html" ∧
  resolvePartial (H := plainHost) "/site/partials" "card.html" = "/site/partials/_card.html" ∧
  resolvePartial (H := plainHost) "/site/partials" (String "'" ("card" +:+ String Chr.dquote ""))
    = "/site/partials/_card.html" ∧
  resolvePartial (H := plainHost) "/site/partials" " card " = "/site/partials/_card.html" ∧
  resolvePartial (H := plainHost) "/site/partials" "cards/card"
    = "/site/partials/cards/_card.html".
Proof.
  split; [discriminate|]. do 2 (split; [reflexivity|]).
  split; [discriminate|]. do 3 (split; [reflexivity|]).
  exact (fragment_reference_spellings "/site" ∅ (λ _, []) "/site/partials" "card" "cards"
           "'"%char Chr.dquote ltac:(discriminate) eq_refl eq_refl ltac:(discriminate)
           eq_refl eq_refl eq_refl).
Defined.

(** ** The report page *)

Lemma countUnit_app (x : ascii) (a b : string) :
  countUnit x (a +:+ b) = countUnit x a + countUnit x b.
Proof. induction a as [|c a IH]; [done|]. simpl. rewrite IH. lia. Qed.

Lemma countUnit_without (x : ascii) (s : string) : without x s = true → countUnit x s = 0.
Proof.
  unfold without. induction s as [|c s IH]; [done|]. simpl.
  intros [Hc Hs]%andb_true_iff. apply negb_true_iff in Hc. rewrite Hc, IH; done.
Qed.

Lemma countUnit_escapeHtml (x : ascii) (s : string) :
  x = "<"%char ∨ x = ">"%char → countUnit x (escapeHtml s) = 0.
Proof.
  intros Hx. apply countUnit_without. rewrite escapeHtml_encode. unfold without.
  apply str_all_encode. intros c.
  destruct Hx as [-> | ->]; destruct c as [[] [] [] [] [] [] [] []]; reflexivity.
Qed.

Lemma countUnit_items (x : ascii) (ws : list string) :
  x = "<"%char ∨ x = ">"%char →
  countUnit x (Str.join "" ((λ w, "<li>" +:+ escapeHtml w +:+ "</li>") <$> ws)) =
    2 * List.length ws.
Proof.
  intros Hx. unfold Str.join. induction ws as [|w ws IH]; [done|].
  rewrite fmap_cons. cbn [String.concat List.length].
  destruct (_ <$> ws) eqn:E.
  - destruct ws; [|done]. rewrite !countUnit_app, countUnit_escapeHtml by done.
    destruct Hx as [-> | ->]; reflexivity.
  - rewrite <- E in *. change ("" +:+ ?t) with t.
    rewrite !countUnit_app, IH, countUnit_escapeHtml by done.
    destruct Hx as [-> | ->]; simpl; lia.
Qed.

Lemma countUnit_row (x : ascii) (r : RenderResult) :
  x = "<"%char ∨ x = ">"%char →
  countUnit x (reportRow r) = rowTags (List.length r.(warnings)).
Proof.
  intros Hx. unfold reportRow, warningCell.
  destruct (warnings r) as [|w ws] eqn:E.
  - rewrite !countUnit_app, !countUnit_escapeHtml by done.
    destruct Hx as [-> | ->]; reflexivity.
  - rewrite !countUnit_app, !countUnit_escapeHtml, countUnit_items by done.
    unfold rowTags. destruct Hx as [-> | ->]; simpl; lia.
Qed.

(** X24. The rows of the report hold as many angle brackets of either kind as
    their frame has: twelve per page and two per warning.  The routes, titles
    and warnings contribute none. *)
Theorem report_rows_hold_no_foreign_markup (results : list RenderResult) (x : ascii) :
  x = "<"%char ∨ x = ">"%char →
  countUnit x (reportRows results) =
    foldr (λ r acc, rowTags (List.length r.(warnings)) + acc) 0 results.
Proof.
  intros Hx. unfold reportRows, Str.join.
  induction results as [|r rs IH]; [done|].
  rewrite fmap_cons. cbn [String.concat foldr].
  destruct (reportRow <$> rs) eqn:E.
  - destruct rs; [|done]. change ("" +:+ ?t) with t. rewrite countUnit_row by done.
    cbn [foldr]. lia.
  - rewrite <- E in *. rewrite !countUnit_app, IH, countUnit_row by done.
    assert (countUnit x nl = 0) as -> by (destruct Hx as [-> | ->]; reflexivity). lia.
Qed.

Lemma report_rows_hold_no_foreign_markup_witness :
  countUnit "<"
    (reportRows [{| route := "/<b>"; outFile := ""; html := "";
                    warnings := ["<script>alert(1)</script>"]; title := "a < b" |}]) = 14.
Proof.
  exact (report_rows_hold_no_foreign_markup
           [{| route := "/<b>"; outFile := ""; html := "";
               warnings := ["<script>alert(1)</script>"]; title := "a < b" |}] "<"
           (or_introl eq_refl)).
Defined.

(** ** The data of an inclusion *)
Lemma assoc_merge (k : string) (d : list (string * value)) :
  NoDup d.*1 →
  ∀ a, Js.assoc k (Js.merge a d) =
       match Js.assoc k d with Some v => Some v | None => Js.assoc k a end.
Proof.
  unfold Js.merge. induction d as [|[x y] d IH]; intros Hnd a; [done|].
  rewrite fmap_cons in Hnd. apply NoDup_cons in Hnd as [Hx Hnd].
  cbn [foldl fst snd Js.assoc]. rewrite (IH Hnd), assoc_obj_set.
  destruct (String.eqb k x) eqn:E; [|done].
  apply String.eqb_eq in E as ->.
  assert (Js.assoc x d = None) as ->; [|done].
  clear -Hx. induction d as [|[x' y'] d IH]; [done|].
  rewrite fmap_cons in Hx. apply not_elem_of_cons in Hx as [Hne Hx].
  cbn [Js.assoc]. simpl in Hne. apply String.eqb_neq in Hne. rewrite Hne. by apply IH.
Qed.

Lemma split_dot_word (k : string) :
  str_all Chr.is_word k = true → Str.split "." k = [k].
Proof.
  induction k as [|c k IH]; [done|]. simpl.
  intros [Hc Hk]%andb_true_iff. rewrite (IH Hk).
  assert (Ascii.eqb c "." = false) as ->; [|done].
  destruct c as [[] [] [] [] [] [] [] []]; vm_compute in Hc;
    first [discriminate Hc | reflexivity].
Qed.

(** X25. A token [{{data.k}}] in a fragment reads the data given at the
    inclusion site, and for a key that the site does not give it reads the
    data of the caller as the language reads a property: the caller's own
    value, else what every object inherits under that name. *)
Theorem include_data_shadows_caller_data (l cd d : list (string * value)) (k : string) :
  Js.prop (VObj l) "data" = VObj cd → NoDup d.*1 →
  k ≠ "" → str_all Chr.is_word k = true →
  getByPath (nextContext (VObj l) (VObj d)) ("data." +:+ k) =
    Js.coalesce (match Js.assoc k d with Some v => v | None => Js.prop (VObj cd) k end)
      (VStr "").
Proof.
  intros Hdata Hnd Hne Hk. unfold getByPath, pathParts.
  change (Str.split "." ("data." +:+ k)) with ("data" :: Str.split "." k).
  rewrite split_dot_word by done.
  rewrite !filter_cons, filter_nil.
  destruct (decide ("data" ≠ "")) as [_|N]; [|by destruct N].
  destruct (decide (k ≠ "")) as [_|N]; [|by destruct N].
  cbn [walkPath]. unfold nextContext at 1. cbn [Js.nullish].
  unfold nextContext. cbn [Js.nullish]. rewrite Hdata.
  cbn [Js.coalesce Js.nullish Js.spread Js.prop].
  rewrite assoc_obj_set. change (String.eqb "data" "data") with true. cbn [default Js.nullish].
  unfold id. cbn [Js.nullish Js.prop].
  rewrite assoc_merge by done. by destruct (Js.assoc k d).
Qed.


(** ** The body of a page with a loop *)

(** X26. With collections enabled, a page body without inclusion tag that
    holds one loop block, over a list of items for each of which the read
    of the field and the conversion of its result to text return, is
    rendered as the text around the block and the instances of the template
    between them, and only then interpolated in the context of the page:
    the field tokens of the loop are still there when the loop is
    expanded. *)
Theorem page_with_loop_lists_items `{Host} (d : nat) (files : store) (partialsDir : string)
    (a v path ta f tb b : string) (ctx collections : value) (items : list value) :
  lacks "<%" (a +:+ loopBlock v path (ta +:+ fieldToken v f +:+ tb) +:+ b) = true →
  lacks "<!--" a = true → lacks "<!--" b = true →
  lacks "<!--" (ta +:+ fieldToken v f +:+ tb) = true →
  v ≠ "" → str_all Chr.is_word v = true →
  path ≠ "" → str_all pathUnit path = true →
  f ≠ "" → str_all Chr.is_word f = true →
  lacks "{{" ta = true → Str.endsWith ta "{" = false → lacks "{{" tb = true →
  Js.spread collections ≠ [] →
  walkReturns collections (pathParts path) = true →
  Js.items (getByPath collections path) = Some items →
  Forall (λ item, fieldPrints item f = true ∧
                  lacks "{{" (ta +:+ fieldText item f +:+ tb) = true) items →
  without "$" (instances ta f tb items) = true →
  renderBody (S d) files partialsDir
    (a +:+ loopBlock v path (ta +:+ fieldToken v f +:+ tb) +:+ b) ctx true collections =
    Some (interpolateMustache (a +:+ instances ta f tb items +:+ b) ctx).
Proof.
  intros Hpage Ha Hb Hbody Hv Hvw Hp Hpw Hf Hfw Hta Hend Htb Hkeys _ Hitems Hall Hd.
  unfold renderBody. rewrite expandIncludes_plain by done.
  destruct (Js.spread collections) as [|kv rest] eqn:E; [done|].
  cbn [andb]. rewrite expandCollectionLoops_one by done. rewrite Hitems.
  rewrite renderItems_instances by done. simpl. by rewrite expand_plain.
Qed.


(** ** Social images *)

Lemma strip_leading_slash (f : Re.result → string) (s : string) :
  Re.replace false re_leading_slash f (String "/" s) = f (Re.Result "" "/" s []) +:+ s.
Proof. reflexivity. Qed.

Lemma ogSlug_between_slashes (s : string) :
  ogSlug ("/" +:+ s +:+ "/") = encode slashToUnderscore s.
Proof.
  unfold ogSlug.
  assert (String.eqb ("/" +:+ s +:+ "/") "/" = false) as ->.
  { apply String.eqb_neq. by destruct s. }
  change ("/" +:+ s +:+ "/") with (String "/" (s +:+ "/")).
  rewrite strip_leading_slash. cbn [Subst.expand]. change ("" +:+ ?t) with t.
  rewrite strip_trailing_slash. cbn [Subst.expand]. rewrite str_app_nil_r.
  exact (replaceAll_unit "/" "_" s eq_refl).
Qed.

(** X27. The slug of a route turns every slash inside the route into an
    underscore, so a nested route and the flat route spelled with an
    underscore get the same image file, and so do the home page and a page
    named [home]. *)
Theorem og_image_files_collide `{Host} (outDir x y : string) :
  ogSlug ("/" +:+ x +:+ "/" +:+ y +:+ "/") =
    encode slashToUnderscore x +:+ "_" +:+ encode slashToUnderscore y ∧
  ogFile outDir false ("/" +:+ x +:+ "/" +:+ y +:+ "/") =
    ogFile outDir false ("/" +:+ x +:+ "_" +:+ y +:+ "/") ∧
  ogFile outDir false "/home/" = ogFile outDir false "/".
Proof.
  assert (∀ sep, ("/" +:+ x +:+ sep +:+ y +:+ "/") = "/" +:+ (x +:+ sep +:+ y) +:+ "/") as E.
  { intros sep. by rewrite !str_app_assoc. }
  split_and!.
  - rewrite E, ogSlug_between_slashes, !encode_app. done.
  - unfold ogFile. rewrite !E, !ogSlug_between_slashes, !encode_app. done.
  - reflexivity.
Qed.

(** ** The robots file *)

Lemma join_last (sep x : string) (l : list string) :
  ∃ p, Str.join sep (l ++ [x]) = p +:+ x.
Proof.
  unfold Str.join. induction l as [|y l IH].
  - by exists "".
  - destruct IH as [p IH]. destruct l as [|z l].
    + exists (y +:+ sep). simpl. by rewrite str_app_assoc.
    + exists (y +:+ sep +:+ p).
      change ((y :: z :: l) ++ [x]) with (y :: z :: (l ++ [x])).
      change ((z :: l) ++ [x]) with (z :: (l ++ [x])) in IH.
      change (String.concat sep (y :: z :: (l ++ [x])))
        with (y +:+ sep +:+ String.concat sep (z :: (l ++ [x]))).
      rewrite IH. by rewrite !str_app_assoc.
Qed.

(** X28. The text of the robots file ends with the line that names the
    sitemap of the site, whatever the policy.  [closeBundle] writes the
    robots file also when the sitemap is switched off: with the redirect
    manifests off, the files it writes are then the pages, the page for
    missing addresses, the robots file and, when the audit is on, the two
    reports, and no sitemap. *)
Theorem robots_names_sitemap_that_is_not_written `{Host}
    (o : BuildOptions) (s : SiteSettings) (today root distDir : string)
    (pages : list RenderResult) (notFound : option RenderResult) :
  o.(sitemap_enabled) = false → o.(robots_enabled) = true → o.(redirects_enabled) = false →
  (∀ siteUrl policy disallow,
     Str.endsWith (generateRobots siteUrl policy disallow)
       ("Sitemap: " +:+ normalizeUrl siteUrl +:+ "/sitemap.xml" +:+ nl) = true) ∧
  outputFiles o s today root distDir pages notFound =
    ((λ r : RenderResult, (r.(outFile), r.(html))) <$> pages) ++
    match notFound with Some r => [(r.(outFile), r.(html))] | None => [] end ++
    [(path_join [root; distDir; "robots.txt"],
      generateRobots s.(site_url) s.(robots_policy) s.(robots_disallow))] ∧
  (closeBundle true o root distDir pages notFound).1 =
    ((λ r : RenderResult, WriteFile r.(outFile)) <$> pages) ++
    match notFound with Some r => [WriteFile r.(outFile)] | None => [] end ++
    [WriteFile (path_join [root; distDir; "robots.txt"])] ++
    reportWrites o root distDir ++
    (if auditAborts o (pages ++ match notFound with Some r => [r] | None => [] end) ||
        accessibilityAborts o (pages ++ match notFound with Some r => [r] | None => [] end)
     then [] else if o.(lighthouse_enabled) then [RunLighthouse] else []).
Proof.
  intros Hs Hr Hd.
  assert (outputFiles o s today root distDir pages notFound =
    ((λ r : RenderResult, (r.(outFile), r.(html))) <$> pages) ++
    match notFound with Some r => [(r.(outFile), r.(html))] | None => [] end ++
    [(path_join [root; distDir; "robots.txt"],
      generateRobots s.(site_url) s.(robots_policy) s.(robots_disallow))]) as Hfiles.
  { unfold outputFiles. rewrite Hs, Hr. done. }
  split_and!.
  - intros siteUrl policy disallow. unfold generateRobots.
    rewrite app_assoc.
    destruct (join_last nl ("Sitemap: " +:+ normalizeUrl siteUrl +:+ "/sitemap.xml")
                (["User-agent: *"] ++
                 match policy with
                 | AllowAll =>
                     match disallow with
                     | Some (d :: ds) => (λ d0, "Disallow: " +:+ d0) <$> d :: ds
                     | _ => ["Allow: /"]
                     end
                 | DisallowAll => ["Disallow: /"]
                 end)) as [p ->].
    rewrite !str_app_assoc. apply endsWith_app.
  - exact Hfiles.
  - rewrite closeBundle_policy. cbn [fst].
    rewrite (writeOutputs_files o s today), Hfiles.
    unfold redirectWrites. rewrite Hd. cbn [andb]. rewrite app_nil_r.
    rewrite !fmap_app, <- !app_assoc. rewrite <- list_fmap_compose.
    destruct notFound; reflexivity.
Qed.

Lemma robots_names_sitemap_that_is_not_written_witness :
  sitemap_enabled robotsOnlyOptions = false ∧ robots_enabled robotsOnlyOptions = true ∧
  redirects_enabled robotsOnlyOptions = false ∧
  Str.endsWith (generateRobots "https://example.com/" DisallowAll None)
    ("Sitemap: https://example.com/sitemap.xml" +:+ nl) = true ∧
  (closeBundle (H := plainHost) true robotsOnlyOptions "/site" "dist" [homeResult] None).1 =
    [WriteFile "/site/dist/index.html"; WriteFile "/site/dist/robots.txt"].
Proof.
  do 3 (split; [reflexivity|]).
  destruct (robots_names_sitemap_that_is_not_written (H := plainHost) robotsOnlyOptions
              exampleSite "2025-01-01" "/site" "dist" [homeResult] None
              eq_refl eq_refl eq_refl) as (A & _ & B).
  split; [exact (A "https://example.com/" DisallowAll None) | exact B].
Defined.

(** ** C5: the checks of the audit on the text of a document *)

Lemma prefix_split (p : string) : ∀ s, String.prefix p s = true → ∃ b, s = p +:+ b.
Proof.
  induction p as [|x p IH]; intros s Hp; [by exists s |].
  destruct s as [|c s]; [done |]. rewrite prefix_cons in Hp.
  apply andb_true_iff in Hp as [Hx Hp]. apply Ascii.eqb_eq in Hx as ->.
  destruct (IH s Hp) as [b ->]. by exists b.
Qed.

Lemma includes_split (p : string) : ∀ s, Str.includes s p = true → ∃ a b, s = a +:+ p +:+ b.
Proof.
  induction s as [|c s IH]; intros Hs; rewrite includes_unfold in Hs.
  - rewrite orb_false_r in Hs. destruct (prefix_split p "" Hs) as [b ->]. by exists "", b.
  - apply orb_true_iff in Hs as [Hs | Hs].
    + destruct (prefix_split p _ Hs) as [b ->]. by exists "", b.
    + destruct (IH Hs) as (a & b & ->). by exists (String c a), b.
Qed.

(** A pattern without anchors that matches at the start of anything that
    begins with [needle] is found in every text that contains [needle]. *)
Lemma test_includes (icase : bool) (r : regex) (needle html : string) :
  anchorFree r = true →
  (∀ rest, is_Some (Re.here icase r None (needle +:+ rest))) →
  Str.includes html needle = true →
  Re.test icase r html = true.
Proof.
  intros Hfree Hhere Hin. destruct (includes_split needle html Hin) as (a & b & ->).
  by apply test_finds with (prev := None).
Qed.

Lemma run_anyquote_some (icase : bool) (k : Re.cont) (q : ascii) (s : string)
    (cs : Re.captures) (n : nat) :
  quote_class q = true →
  (∀ prev, is_Some (k (n + 1) prev s cs)) →
  ∀ prev, is_Some (Re.run icase (RClass quote_class) k n prev (String q s) cs).
Proof.
  intros Hq Hk prev. cbn [Re.run]. rewrite Hq.
  replace (S n) with (n + 1) by lia. apply Hk.
Qed.

Lemma here_titleTag (t rest : string) :
  t ≠ "" → without "<" t = true →
  is_Some (Re.here true re_title None (titleTag t +:+ rest)).
Proof.
  intros Hne Ht. unfold titleTag. rewrite !str_app_assoc. by apply here_title.
Qed.

Lemma here_descriptionTag (q : ascii) (d rest : string) :
  quote_class q = true → d ≠ "" → plainAttr d = true →
  is_Some (Re.here true re_description None (descriptionTag q d +:+ rest)).
Proof.
  intros Hq Hne Hd. unfold Re.here, re_description, descriptionTag. cbn [Re.seq].
  change ("<meta name=" +:+ ?x) with ("<meta" +:+ " " +:+ "name=" +:+ x).
  rewrite !str_app_assoc.
  rewrite run_seq. apply run_lit_some; [done|]. intros p1.
  rewrite run_seq. apply run_space_some. intros p2.
  rewrite run_seq. apply run_lit_some; [done|]. intros p3.
  change (String q ?x +:+ rest) with (String q (x +:+ rest)).
  rewrite run_seq. apply run_anyquote_some; [done|]. intros p4.
  rewrite !str_app_assoc.
  rewrite run_seq. apply run_lit_some; [done|]. intros p5.
  change (String q ?x +:+ rest) with (String q (x +:+ rest)).
  rewrite run_seq. apply run_anyquote_some; [done|]. intros p6.
  change (" content=" +:+ ?x) with (" " +:+ "content=" +:+ x).
  rewrite !str_app_assoc.
  rewrite run_seq. apply run_space_some. intros p7.
  rewrite run_seq. apply run_lit_some; [done|]. intros p8.
  change (String q ?x +:+ rest) with (String q (x +:+ rest)).
  rewrite run_seq. apply run_anyquote_some; [done|]. intros p9.
  rewrite run_seq. unfold Re.plus. rewrite run_seq.
  destruct d as [|c d]; [done|]. unfold plainAttr in Hd. simpl in Hd.
  apply andb_true_iff in Hd as [Hc Hd].
  rewrite !str_app_assoc.
  change (String c d +:+ ?x) with (String c (d +:+ x)).
  cbn [Re.run]. rewrite Hc.
  apply star_greedy_some; [done|]. intros p10.
  change (String q ">" +:+ rest) with (String q (String ">" rest)).
  cbv beta iota. rewrite Hq.
  apply (star_greedy_some _ _ "" _); [done|]. intros p12.
  known_tests. by eexists.
Qed.

Lemma here_relAttr (q : ascii) (what rest : string) :
  quote_class q = true → what ≠ "" →
  is_Some (Re.here true (re_rel what) None (relAttr q what +:+ rest)).
Proof.
  intros Hq Hne. unfold Re.here, re_rel, relAttr. cbn [Re.seq].
  rewrite !str_app_assoc.
  rewrite run_seq. apply run_lit_some; [done|]. intros p1.
  change (String q ?x +:+ rest) with (String q (x +:+ rest)).
  rewrite run_seq. apply run_anyquote_some; [done|]. intros p2.
  rewrite !str_app_assoc.
  rewrite run_seq. apply run_lit_some; [done|]. intros p3.
  change (String q "" +:+ rest) with (String q rest).
  apply run_anyquote_some; [done|]. intros p4. by eexists.
Qed.

Lemma eq_icase_h (c : ascii) : Chr.eq true "h" c = Ascii.eqb "h" c || Ascii.eqb "H" c.
Proof. by destruct c as [[] [] [] [] [] [] [] []]. Qed.
Lemma eq_icase_one (c : ascii) : Chr.eq true "1" c = Ascii.eqb "1" c.
Proof. by destruct c as [[] [] [] [] [] [] [] []]. Qed.

(** The pattern of the heading count matches exactly at an opener. *)
Lemma here_h1 (prev : option ascii) (s : string) :
  Re.here true re_h1 prev s = if h1At s then Some (3, []) else None.
Proof.
  unfold Re.here, re_h1.
  change (Re.lit "<h1") with (RSeq (RChar "<") (RSeq (RChar "h") (RChar "1"))).
  destruct s as [|c1 [|c2 [|c3 rest]]]; cbn [Re.run h1At].
  - done.
  - rewrite eq_icase_lt. by destruct (Ascii.eqb "<" c1).
  - rewrite eq_icase_lt, eq_icase_h.
    by destruct (Ascii.eqb "<" c1), (Ascii.eqb "h" c2 || Ascii.eqb "H" c2).
  - rewrite eq_icase_lt, eq_icase_h, eq_icase_one.
    destruct (Ascii.eqb "<" c1); [|done].
    destruct (Ascii.eqb "h" c2 || Ascii.eqb "H" c2); [|done].
    destruct (Ascii.eqb "1" c3) eqn:E3; [|done]. apply Ascii.eqb_eq in E3 as <-.
    cbn [andb Re.word_at Re.head]. change (Chr.is_word "1") with true.
    destruct rest as [|x rest]; cbn [xorb stops negb Re.word_at]; [done |].
    cbn [Re.head Re.word_at]. by destruct (Chr.is_word x).
Qed.

Lemma h1At_first (c : ascii) (s : string) : h1At (String c s) = true → c = "<"%char.
Proof.
  destruct s as [|c2 [|c3 rest]]; cbn [h1At]; try done.
  destruct (Ascii.eqb "<" c) eqn:E; [|done]. by apply Ascii.eqb_eq in E.
Qed.

Lemma scan_h1 (n : nat) :
  ∀ s pre, String.length s ≤ n →
    List.length (omap hit (Re.scan true re_h1 0 pre s)) = countH1 s.
Proof.
  induction n as [|n IH]; intros s pre Hlen.
  - destruct s; [|simpl in Hlen; lia]. unfold Re.scan. by rewrite here_h1.
  - destruct s as [|c1 s]; [unfold Re.scan; by rewrite here_h1 |].
    rewrite scan_unfold, here_h1. cbn [countH1].
    destruct (h1At (String c1 s)) eqn:E.
    + destruct s as [|c2 [|c3 rest]]; try done.
      cbn [fst Re.mk].
      change (Re.scan true re_h1 2 ?p (String c2 (String c3 rest)))
        with (Re.scan true re_h1 0 (Str.snoc (Str.snoc p c2) c3) rest).
      change (omap hit (Re.Hit ?m :: ?l)) with (m :: omap hit l). cbn [length].
      rewrite IH by (simpl in *; lia). cbn [countH1].
      assert (h1At (String c2 (String c3 rest)) = false) as ->.
      { destruct (h1At (String c2 (String c3 rest))) eqn:E2; [|done].
        apply h1At_first in E2 as ->.
        cbn [h1At] in E. by rewrite !andb_false_r, ?andb_false_l in E. }
      assert (h1At (String c3 rest) = false) as ->.
      { destruct (h1At (String c3 rest)) eqn:E3; [|done].
        apply h1At_first in E3 as ->.
        cbn [h1At] in E. by rewrite !andb_false_r, ?andb_false_l in E. }
      lia.
    + change (omap hit (Re.Unit ?c :: ?l)) with (omap hit l).
      rewrite IH by (simpl in *; lia). done.
Qed.

(** The heading count of the audit is the number of openers in the text. *)
Lemma matchAll_h1 (s : string) : List.length (Re.matchAll true re_h1 s) = countH1 s.
Proof. unfold Re.matchAll, Re.pieces. by apply (scan_h1 (String.length s)). Qed.

(** C5 (amended). The checks read the text of the document.  A document
    with two or more openers of a first-level heading and an image without
    [alt] gets a warning for each.  A document gets no warning other than
    those of the link check when it contains a title element without
    attributes whose text is not empty and holds no [<]; a description tag
    with [name] before [content] and a value that is not empty and holds
    no quote; exactly one opener of a first-level heading; an attribute
    [rel] with the value [icon] or [shortcut icon] and one with the value
    [canonical]; a non-blank [alt] on every image; and no image above the
    byte budget, which is so when no output root is given or when every
    file is within the budget.  Other spellings are not recognised: a
    title element with an attribute, a description whose text holds an
    apostrophe and one with [content] before [name] are reported as
    missing. *)
Theorem C5_seo_audit :
  (∀ s, List.length (Re.matchAll true re_h1 s) = countH1 s) ∧
  (∀ (H : Host) disk html route opts img n,
     countH1 html = n → 2 ≤ n →
     img ∈ byTag "img" (parseHtml html) →
     getAttribute img "alt" = None →
     "Multiple <h1> (" +:+ pretty n +:+ ")" ∈ auditHtml disk html route opts ∧
     "Image missing alt attribute" ∈ auditHtml disk html route opts ∧
     2 ≤ List.length (auditHtml disk html route opts)) ∧
  (∀ (H : Host) disk html route opts t q1 d q2 icon q3,
     t ≠ "" → without "<" t = true → Str.includes html (titleTag t) = true →
     quote_class q1 = true → d ≠ "" → plainAttr d = true →
     Str.includes html (descriptionTag q1 d) = true →
     countH1 html = 1 →
     quote_class q2 = true → icon = "icon" ∨ icon = "shortcut icon" →
     Str.includes html (relAttr q2 icon) = true →
     quote_class q3 = true → Str.includes html (relAttr q3 "canonical") = true →
     (∀ img, img ∈ byTag "img" (parseHtml html) →
        ∃ alt, getAttribute img "alt" = Some alt ∧ Str.trim alt ≠ "") →
     (opts ≫= distDirAbs = None ∨
      ∀ path size, disk !! path = Some size →
        (size <= default 500000 (opts ≫= maxImageBytes))%N) →
     auditHtml disk html route opts =
       match opts ≫= allRoutes with
       | Some routes => concat (auditLink routes <$> anchorsWithHref (parseHtml html))
       | None => []
       end) ∧
  (∀ (H : Host) disk route opts,
     "Missing <title>" ∈ auditHtml disk docTitleAttr route opts ∧
     "Missing meta description" ∈ auditHtml disk docApostrophe route opts ∧
     "Missing meta description" ∈ auditHtml disk docSwapped route opts) ∧
  auditHtml (H := auditHost) ∅ docTwoHeadings "/" None =
    ["Missing meta description"; "Multiple <h1> (2)"; "Image missing alt attribute";
     faviconWarning; "Missing canonical link tag"] ∧
  auditHtml (H := auditHost) ∅ docComplete "/" (Some linkOpts) = [].
Proof.
  split_and!.
  - apply matchAll_h1.
  - intros H disk html route opts img n Hn Hge Himg Halt.
    assert ("Image missing alt attribute" ∈
              concat (auditImage disk opts <$> byTag "img" (parseHtml html))) as Hin.
    { apply (elem_of_concat _ (auditImage disk opts img)).
      - by apply auditImage_missing_alt.
      - by apply list_elem_of_fmap_2. }
    unfold auditHtml. rewrite matchAll_h1, Hn.
    assert (Nat.eqb n 0 = false) as -> by (apply Nat.eqb_neq; lia).
    assert (Nat.ltb 1 n = true) as -> by (apply Nat.ltb_lt; lia).
    split_and!.
    + apply elem_of_app. right. apply elem_of_app. right.
      apply elem_of_app. right. apply elem_of_app. left. by left.
    + apply elem_of_app. right. apply elem_of_app. right.
      apply elem_of_app. right. apply elem_of_app. right.
      apply elem_of_app. by left.
    + rewrite !length_app. cbn [length].
      apply list_elem_of_In, List.in_split in Hin as (l1 & l2 & ->).
      rewrite length_app. cbn [length]. lia.
  - intros H disk html route opts t q1 d q2 icon q3
      Ht Ht' Htitle Hq1 Hd Hd' Hdesc Hh1 Hq2 Hicon Hfav Hq3 Hcanon Halt Hweight.
    apply auditHtml_clean.
    + apply (test_includes true re_title (titleTag t)); [done | | done].
      intros rest. by apply here_titleTag.
    + apply (test_includes true re_description (descriptionTag q1 d)); [done | | done].
      intros rest. by apply here_descriptionTag.
    + by rewrite matchAll_h1.
    + destruct Hicon as [-> | ->].
      * apply orb_true_iff. left.
        apply (test_includes true (re_rel "icon") (relAttr q2 "icon")); [done | | done].
        intros rest. by apply here_relAttr.
      * apply orb_true_iff. right.
        apply (test_includes true (re_rel "shortcut icon") (relAttr q2 "shortcut icon"));
          [done | | done].
        intros rest. by apply here_relAttr.
    + apply (test_includes true (re_rel "canonical") (relAttr q3 "canonical")); [done | | done].
      intros rest. by apply here_relAttr.
    + intros img Himg. split; [by apply Halt |].
      destruct Hweight as [Hnone | Hbudget].
      * by apply weightWarnings_none.
      * by apply weightWarnings_budget.
  - intros H disk route opts. unfold auditHtml.
    assert (Re.test true re_title docTitleAttr = false) as -> by (vm_compute; reflexivity).
    assert (Re.test true re_description docApostrophe = false) as -> by (vm_compute; reflexivity).
    assert (Re.test true re_description docSwapped = false) as -> by (vm_compute; reflexivity).
    cbn [negb]. split_and!.
    + apply elem_of_app. left. by left.
    + apply elem_of_app. right. apply elem_of_app. left. by left.
    + apply elem_of_app. right. apply elem_of_app. left. by left.
  - reflexivity.
  - reflexivity.
Qed.

(** The two sample documents meet the hypotheses. *)
Lemma C5_seo_audit_witness :
  (countH1 docTwoHeadings = 2 ∧
   Element "img" [("src", "a.png")] ∈ byTag "img" (parseHtml (Host := auditHost) docTwoHeadings) ∧
   getAttribute (Element "img" [("src", "a.png")]) "alt" = None ∧
   2 ≤ List.length (auditHtml (H := auditHost) ∅ docTwoHeadings "/" None)) ∧
  (without "<" "Home" = true ∧ Str.includes docComplete (titleTag "Home") = true ∧
   quote_class "'" = true ∧ plainAttr "Welcome" = true ∧
   Str.includes docComplete (descriptionTag "'" "Welcome") = true ∧
   countH1 docComplete = 1 ∧
   Str.includes docComplete (relAttr "'" "icon") = true ∧
   Str.includes docComplete (relAttr "'" "canonical") = true ∧
   auditHtml (H := auditHost) ∅ docComplete "/" None = []).
Proof.
  split.
  - do 3 (split; [first [reflexivity | by left] |]).
    exact (proj2 (proj2 (proj1 (proj2 C5_seo_audit) auditHost ∅ docTwoHeadings "/" None
                           (Element "img" [("src", "a.png")]) 2
                           eq_refl ltac:(lia) ltac:(by left) eq_refl))).
  - do 8 (split; [reflexivity |]).
    refine (proj1 (proj2 (proj2 C5_seo_audit)) auditHost ∅ docComplete "/" None
              "Home" "'"%char "Welcome" "'"%char "icon" "'"%char
              ltac:(discriminate) eq_refl eq_refl eq_refl ltac:(discriminate) eq_refl eq_refl
              eq_refl eq_refl (or_introl eq_refl) eq_refl eq_refl eq_refl _ (or_introl eq_refl)).
    intros img Himg.
    change (byTag "img" (parseHtml (Host := auditHost) docComplete))
      with [Element "img" [("src", "/a.png"); ("alt", "Logo")]] in Himg.
    apply list_elem_of_singleton in Himg as ->.
    exists "Logo". split; [reflexivity | discriminate].
Defined.

(** ** C8: tokens with white space, and the lookup *)

Lemma stops_space_pathChar (path rest : string) :
  path ≠ "" → str_all pathChar path = true → stops Chr.is_space (path +:+ rest) = true.
Proof.
  intros Hne Hp. destruct path as [|c path]; [done|]. simpl in *.
  apply andb_true_iff in Hp as [Hc _]. destruct (pathChar_elim c Hc) as (-> & _). done.
Qed.

(** A token [{{ path }}] at the current position, with white space around
    a plain path. *)
Lemma here_mustache_padded (prev : option ascii) (wl path wr rest : string) :
  str_all Chr.is_space wl = true → str_all Chr.is_space wr = true →
  path ≠ "" → str_all pathChar path = true →
  Re.here false re_mustache prev ("{{" +:+ wl +:+ path +:+ wr +:+ "}}" +:+ rest) =
    Some (String.length ("{{" +:+ wl +:+ path +:+ wr +:+ "}}"),
          [(1, (2 + String.length wl, 2 + String.length wl + String.length path))]).
Proof.
  intros Hwl Hwr Hne Hall.
  unfold Re.here, re_mustache. simpl. known_tests. simpl.
  apply star_greedy_eq; [done | by apply stops_space_pathChar |]. intros q.
  destruct path as [|c path]; [done |].
  simpl in Hall. apply andb_true_iff in Hall as [Hc Hall].
  destruct (pathChar_elim c Hc) as (Hsp & Hcls & Hbr).
  change (String c path +:+ wr +:+ String "}" (String "}" rest))
    with (String c (path +:+ wr +:+ String "}" (String "}" rest))).
  cbv beta iota. rewrite Hcls.
  apply star_lazy_until.
  - eapply str_all_weaken; [| exact Hall]. intros x Hx.
    by destruct (pathChar_elim x Hx) as (_ & ? & _).
  - intros t1 t2 p -> Hne2. destruct t2 as [|x t2]; [done |].
    rewrite str_all_app in Hall. apply andb_true_iff in Hall as [_ Hall].
    simpl in Hall. apply andb_true_iff in Hall as [Hx _].
    destruct (pathChar_elim x Hx) as (Hxs & _ & Hxb).
    simpl. by rewrite Hxs, Hxb.
  - intros p.
    apply star_greedy_eq; [done | done |]. intros q'.
    known_tests. cbv beta iota.
    rewrite !str_app_length. simpl String.length. unfold Re.accept. same_result.
Qed.

(** The first token after a stretch of text without tokens. *)
Lemma interpolate_padded (ctx : value) (a wl path wr b : string) :
  lacks "{{" a = true → Str.endsWith a "{" = false →
  str_all Chr.is_space wl = true → str_all Chr.is_space wr = true →
  path ≠ "" → str_all pathChar path = true →
  interpolateMustache (a +:+ "{{" +:+ wl +:+ path +:+ wr +:+ "}}" +:+ b) ctx =
    a +:+ Js.toString (getByPath ctx path) +:+ interpolateMustache b ctx.
Proof.
  intros Ha Hend Hwl Hwr Hne Hall. unfold interpolateMustache.
  replace ("{{" +:+ wl +:+ path +:+ wr +:+ "}}" +:+ b)
    with (("{{" +:+ wl +:+ path +:+ wr +:+ "}}") +:+ b)
    by (by rewrite !str_app_assoc).
  rewrite (greplace_token false re_mustache re_mustache_free _ a
             ("{{" +:+ wl +:+ path +:+ wr +:+ "}}") b
             [(1, (2 + String.length wl, 2 + String.length wl + String.length path))]).
  - pose proof (group_text_token "" "" ("{{" +:+ wl) (wr +:+ "}}") path) as Hg.
    rewrite !str_app_length in Hg. change (String.length "{{") with 2 in Hg.
    rewrite <- !str_app_assoc in Hg. rewrite <- !str_app_assoc. rewrite Hg.
    rewrite trim_id; [done |].
    eapply str_all_weaken; [| exact Hall]. intros c Hc.
    destruct (pathChar_elim c Hc) as (-> & _). done.
  - intros m m' Ht Hc. unfold group_text, Re.group. by rewrite Ht, Hc.
  - intros a1 a2 prev -> Hne2. apply here_mustache_gap; [done | |].
    + by apply lacks_app_r in Ha.
    + by apply endsWith_suffix in Hend.
  - done.
  - intros prev. rewrite !str_app_assoc. by apply here_mustache_padded.
Qed.

Lemma missing_returns (v : value) (parts : list string) :
  missing v parts → walkReturns v parts = true.
Proof.
  induction 1 as [v parts Hv | v w p parts Hp Hm IH].
  - destruct parts; [done |]. simpl. by rewrite Hv.
  - simpl. unfold Js.readable. rewrite Hp.
    apply prop_checked_some in Hp as [_ ->]. rewrite IH. apply orb_true_r.
Qed.

(** C8. The interpolation pass replaces a token [{{path}}], with or without
    white space around the path, by the text of the value found by
    sequential property lookup along the dotted path, and goes on with the
    text behind it.  A step of the lookup reads a property as the language
    does: an own property first, then an inherited one, and [undefined]
    for a name that is neither.  A lookup that reaches [null] or
    [undefined] at any step misses: none of its reads throws, it gives the
    empty string, and the token disappears. *)
Theorem C8_interpolation_lookup :
  (∀ ctx a wl path wr b,
     lacks "{{" a = true → Str.endsWith a "{" = false →
     str_all Chr.is_space wl = true → str_all Chr.is_space wr = true →
     path ≠ "" → str_all pathChar path = true →
     walkReturns ctx (pathParts path) = true → Js.printable (getByPath ctx path) = true →
     interpolateMustache (a +:+ "{{" +:+ wl +:+ path +:+ wr +:+ "}}" +:+ b) ctx =
       a +:+ Js.toString (getByPath ctx path) +:+ interpolateMustache b ctx) ∧
  (∀ obj p parts,
     walkPath obj (p :: parts) =
       if Js.nullish obj then VStr "" else walkPath (Js.prop obj p) parts) ∧
  (∀ l k,
     Js.prop (VObj l) k =
       match Js.assoc k l with
       | Some x => x
       | None => if Js.objectName k then inherited KObject k else VUndefined
       end) ∧
  (∀ ctx parts, missing ctx parts → walkReturns ctx parts = true) ∧
  (∀ ctx path, missing ctx (pathParts path) → getByPath ctx path = VStr "") ∧
  (∀ ctx a wl path wr b,
     lacks "{{" a = true → Str.endsWith a "{" = false →
     str_all Chr.is_space wl = true → str_all Chr.is_space wr = true →
     path ≠ "" → str_all pathChar path = true →
     missing ctx (pathParts path) →
     interpolateMustache (a +:+ "{{" +:+ wl +:+ path +:+ wr +:+ "}}" +:+ b) ctx =
       a +:+ interpolateMustache b ctx) ∧
  interpolateMustache "<h1>{{ page.title }}</h1><p>{{page.author.name}}</p>{{site.name}}" pageCtx
    = "<h1>Home</h1><p></p>Monad".
Proof.
  split_and!.
  - intros ctx a wl path wr b Ha Hend Hwl Hwr Hne Hall _ _. by apply interpolate_padded.
  - done.
  - done.
  - apply missing_returns.
  - intros ctx path Hm. by apply walkPath_missing.
  - intros ctx a wl path wr b Ha Hend Hwl Hwr Hne Hall Hm.
    rewrite interpolate_padded by done.
    unfold getByPath. by rewrite walkPath_missing.
  - vm_compute. reflexivity.
Qed.

End AnyRuntime.

(** * Instances

    The theorems above hold in every runtime.  Their instances below are
    closed: they are stated in the runtime of Node, of which
    [nodeRuntime] gives the entries that they read. *)

#[local] Existing Instance nodeRuntime.

(** The self-including fragment: every acyclic chain from the page has one
    fragment, so a nesting bound of two suffices; and the inner tag, met with
    the fragment on the stack, gives the marker. *)
Lemma C1_expandIncludes_terminates_witness :
  chainsBounded (H := plainHost) selfStore "/site/partials" "<% nav %>" 1 ∧
  (∃ out, ∀ depth, 1 < depth →
     expandIncludes (H := plainHost) depth selfStore "/site/partials" "<% nav %>" (VObj []) [] false
       = Some out) ∧
  includeSite (H := plainHost) selfStore "/site/partials" (λ _ _ _, None) (VObj [])
    ["/site/partials/_nav.html"] navTag = Some (cycleMarker "nav").
Proof.
  assert (chainsBounded (H := plainHost) selfStore "/site/partials" "<% nav %>" 1) as Hb.
  { intros l Hch Hnd.
    inversion Hch as [|? abs rest Href Hex Hrest]; subst; [simpl; lia |].
    change (includeRefs (H := plainHost) "/site/partials" "<% nav %>")
      with ["/site/partials/_nav.html"] in Href.
    apply list_elem_of_singleton in Href. subst abs.
    inversion Hrest as [|? abs rest' Href' Hex' Hrest']; subst; [simpl; lia |].
    change (includeRefs (H := plainHost) "/site/partials"
              (readText selfStore "/site/partials/_nav.html"))
      with ["/site/partials/_nav.html"] in Href'.
    apply list_elem_of_singleton in Href'. subst abs.
    apply NoDup_cons in Hnd as [Hnotin _]. exfalso. apply Hnotin. by left. }
  split_and!.
  - exact Hb.
  - exact (proj1 (proj2 C1_expandIncludes_terminates) plainHost selfStore
             "/site/partials" "<% nav %>" (VObj []) false 1 Hb).
  - refine (proj1 (proj2 (proj2 C1_expandIncludes_terminates)) plainHost selfStore
              "/site/partials" (λ _ _ _, None) (VObj []) ["/site/partials/_nav.html"] navTag _ _).
    + vm_compute. by eexists.
    + vm_compute. by left.
Defined.

(** A page with a tag for a fragment that does not exist, and a site whose
    data text the parser rejects. *)
Lemma C7_inclusion_degrades_witness :
  (lacks "<%" "<p>intro</p>" = true ∧ "nope" ≠ "" ∧ str_all refChar "nope" = true ∧
   cardStore !! fragmentPath (H := cardHost) "/site/partials" "nope" = None ∧
   expandIncludes (H := cardHost) 1 cardStore "/site/partials"
     ("<p>intro</p>" +:+ "<% " +:+ "nope" +:+ " %>" +:+ "<p>outro</p>") pageCtx [] true
     = Some "<p>intro</p><!-- monad:missing-partial nope --><p>outro</p>") ∧
  (JSON5_parse (Host := cardHost) (Str.trim " {oops ") = None ∧
   includeData (H := cardHost) (Some " {oops ") = VObj []).
Proof.
  split.
  - split_and!; [reflexivity | discriminate | reflexivity | reflexivity |].
    rewrite (proj1 (proj2 (proj2 C7_inclusion_degrades)) cardHost cardStore "/site/partials"
               0 "<p>intro</p>" "nope" "<p>outro</p>" pageCtx []
               eq_refl ltac:(discriminate) eq_refl eq_refl).
    reflexivity.
  - split; [reflexivity |].
    exact (proj1 (proj2 (proj2 (proj2 C7_inclusion_degrades))) cardHost " {oops " eq_refl).
Defined.

(** The title of the page exists, and the token is replaced by it; the
    author does not, so the lookup of [page.author.name] misses at its
    second step. *)
Lemma C8_interpolation_lookup_witness :
  (lacks "{{" "<h1>" = true ∧ Str.endsWith "<h1>" "{" = false ∧
   str_all Chr.is_space " " = true ∧ str_all pathChar "page.title" = true ∧
   walkReturns pageCtx (pathParts "page.title") = true ∧
   Js.printable (getByPath pageCtx "page.title") = true ∧
   interpolateMustache
     ("<h1>" +:+ "{{" +:+ " " +:+ "page.title" +:+ " " +:+ "}}" +:+ "</h1>") pageCtx
     = "<h1>" +:+ Js.toString (getByPath pageCtx "page.title") +:+
       interpolateMustache "</h1>" pageCtx ∧
   Js.toString (getByPath pageCtx "page.title") = "Home") ∧
  (lacks "{{" "<p style='x{y}'>" = true ∧ Str.endsWith "<p style='x{y}'>" "{" = false ∧
   str_all Chr.is_space " " = true ∧ str_all Chr.is_space "  " = true ∧
   "page.author.name" ≠ "" ∧
   str_all pathChar "page.author.name" = true ∧
   missing pageCtx (pathParts "page.author.name") ∧
   interpolateMustache
     ("<p style='x{y}'>" +:+ "{{" +:+ " " +:+ "page.author.name" +:+ "  " +:+ "}}" +:+ "</p>")
     pageCtx
     = "<p style='x{y}'>" +:+ interpolateMustache "</p>" pageCtx).
Proof.
  assert (missing pageCtx (pathParts "page.author.name")) as Hm.
  { change (pathParts "page.author.name") with ["page"; "author"; "name"].
    eapply missing_later; [reflexivity |]. eapply missing_later; [reflexivity |].
    apply missing_here. reflexivity. }
  split.
  - do 6 (split; [reflexivity |]). split; [| reflexivity].
    exact (proj1 C8_interpolation_lookup
             pageCtx "<h1>" " " "page.title" " " "</h1>"
             eq_refl eq_refl eq_refl eq_refl ltac:(discriminate) eq_refl eq_refl eq_refl).
  - split_and!; [reflexivity | reflexivity | reflexivity | reflexivity | discriminate
                | reflexivity | exact Hm |].
    exact (proj1 (proj2 (proj2 (proj2 (proj2 (proj2 C8_interpolation_lookup)))))
             pageCtx "<p style='x{y}'>" " " "page.author.name" "  " "</p>"
             eq_refl eq_refl eq_refl eq_refl ltac:(discriminate) eq_refl Hm).
Defined.

(** The page of the context owns a route and a title, and no property
    [constructor]; the lookup of [page.constructor.name] finds the
    constructor that every object inherits, and the token is replaced by
    its name.  Under Node the lookup of [page.constructor] prints the text
    of the built-in function. *)
Lemma C8_inherited_name_is_found :
  Js.prop pageCtx "page" = VObj [("route", VStr "/"); ("title", VStr "Home")] ∧
  Js.assoc "constructor" [("route", VStr "/"); ("title", VStr "Home")] = None ∧
  ¬ missing pageCtx (pathParts "page.constructor.name") ∧
  interpolateMustache "<p>{{page.constructor.name}}</p>" pageCtx = "<p>Object</p>" ∧
  interpolateMustache "{{page.constructor}}" pageCtx = "function Object() { [native code] }".
Proof.
  split_and!; [reflexivity | reflexivity | | vm_compute; reflexivity | vm_compute; reflexivity].
  change (pathParts "page.constructor.name") with ["page"; "constructor"; "name"].
  intros Hm.
  inversion Hm as [? ? Hn | ? w1 ? ? Hp1 Hm1]; subst; [discriminate Hn |].
  injection Hp1 as <-.
  inversion Hm1 as [? ? Hn | ? w2 ? ? Hp2 Hm2]; subst; [discriminate Hn |].
  injection Hp2 as <-.
  inversion Hm2 as [? ? Hn | ? w3 ? ? Hp3 Hm3]; subst; [discriminate Hn |].
  injection Hp3 as <-.
  inversion Hm3 as [? ? Hn | ]; subst. discriminate Hn.
Qed.

(** The badge fragment uses [{{item.name}}], which the page context does
    not resolve; the same token on the page survives deferral. *)
Lemma C10_deferral_is_top_level_only_witness :
  lacks "<%" "<h1>x</h1>" = true ∧ lacks "<%" "<i>{{item.name}}</i>" = true ∧
  "badge" ≠ "" ∧ str_all refChar "badge" = true ∧
  badgeStore !! fragmentPath (H := plainHost) "/site/partials" "badge"
    = Some ("<b>" +:+ "{{" +:+ "item.name" +:+ "}}" +:+ "</b>") ∧
  lacks "<%" ("<b>" +:+ "{{" +:+ "item.name" +:+ "}}" +:+ "</b>") = true ∧
  lacks "{{" "<b>" = true ∧ Str.endsWith "<b>" "{" = false ∧
  lacks "{{" "</b>" = true ∧ Str.endsWith "</b>" "{" = false ∧
  "item.name" ≠ "" ∧ str_all pathChar "item.name" = true ∧
  missing (nextContext pageCtx (VObj [])) (pathParts "item.name") ∧
  expandIncludes (H := plainHost) 2 badgeStore "/site/partials"
    ("<h1>x</h1>" +:+ "<% " +:+ "badge" +:+ " %>" +:+ "<i>{{item.name}}</i>") pageCtx [] true
    = Some ("<h1>x</h1>" +:+ ("<b>" +:+ "</b>") +:+ "<i>{{item.name}}</i>").
Proof.
  assert (missing (nextContext pageCtx (VObj [])) (pathParts "item.name")) as Hm.
  { change (pathParts "item.name") with ["item"; "name"].
    eapply missing_later; [reflexivity |]. apply missing_here. reflexivity. }
  do 13 (split; [first [reflexivity | discriminate | exact Hm] |]).
  exact (proj1 (proj2 (proj2 (proj2 C10_deferral_is_top_level_only)))
           plainHost badgeStore "/site/partials" 0 pageCtx
           "<h1>x</h1>" "badge" "<i>{{item.name}}</i>" "<b>" "item.name" "</b>"
           eq_refl eq_refl ltac:(discriminate) eq_refl eq_refl eq_refl
           eq_refl eq_refl eq_refl eq_refl ltac:(discriminate) eq_refl Hm).
Defined.

Lemma loop_over_missing_collection_witness :
  lacks "<!--" "<ul>" = true ∧ lacks "<!--" "</ul>" = true ∧
  lacks "<!--" "<li>{{p.title}}</li>" = true ∧
  str_all Chr.is_word "p" = true ∧ str_all pathUnit "blog.posts" = true ∧
  walkReturns postsTitles (pathParts "blog.posts") = true ∧
  Js.isArray (getByPath postsTitles "blog.posts") = false ∧
  expandCollectionLoops
    ("<ul>" +:+ loopBlock "p" "blog.posts" "<li>{{p.title}}</li>" +:+ "</ul>") postsTitles =
    Some "<ul><!-- Collection blog.posts not found --></ul>".
Proof.
  do 7 (split; [reflexivity|]).
  exact (loop_over_missing_collection "<ul>" "p" "blog.posts" "<li>{{p.title}}</li>" "</ul>"
           postsTitles eq_refl eq_refl eq_refl ltac:(discriminate) eq_refl
           ltac:(discriminate) eq_refl eq_refl eq_refl).
Defined.

Lemma loop_field_is_filled_in_witness :
  lacks "{{" "<li>" = true ∧ Str.endsWith "<li>" "{" = false ∧ lacks "{{" "</li>" = true ∧
  str_all Chr.is_word "p" = true ∧ str_all Chr.is_word "title" = true ∧
  fieldPrints VNull "title" = false ∧
  fieldPrints (VObj [("title", VNum 7)]) "title" = true ∧
  lacks "{{" ("<li>" +:+ fieldText (VObj [("title", VNum 7)]) "title" +:+ "</li>") = true ∧
  fieldPrints (VObj [("title", VObj [("toString", VNum 1)])]) "title" = false ∧
  Js.assoc "title" [] = None ∧ Js.objectName "title" = false ∧
  renderItem "p" ("<li>" +:+ fieldToken "p" "title" +:+ "</li>") VNull 0 = None ∧
  renderItem "p" ("<li>" +:+ fieldToken "p" "title" +:+ "</li>") (VObj [("title", VNum 7)]) 0 =
    Some "<li>7</li>" ∧
  renderItem "p" ("<li>" +:+ fieldToken "p" "title" +:+ "</li>")
    (VObj [("title", VObj [("toString", VNum 1)])]) 0 = None ∧
  renderItem "p" ("<li>" +:+ fieldToken "p" "title" +:+ "</li>") (VObj []) 0 =
    Some "<li></li>".
Proof.
  do 11 (split; [reflexivity|]).
  split_and!.
  - exact (proj1 (loop_field_is_filled_in "<li>" "p" "title" "</li>" VNull 0
                    eq_refl eq_refl eq_refl ltac:(discriminate) eq_refl
                    ltac:(discriminate) eq_refl) eq_refl).
  - exact (proj1 (proj2 (proj2 (loop_field_is_filled_in "<li>" "p" "title" "</li>"
                           (VObj [("title", VNum 7)]) 0
                           eq_refl eq_refl eq_refl ltac:(discriminate) eq_refl
                           ltac:(discriminate) eq_refl))) eq_refl eq_refl).
  - exact (proj1 (loop_field_is_filled_in "<li>" "p" "title" "</li>"
                    (VObj [("title", VObj [("toString", VNum 1)])]) 0
                    eq_refl eq_refl eq_refl ltac:(discriminate) eq_refl
                    ltac:(discriminate) eq_refl) eq_refl).
  - exact (proj2 (proj2 (proj2 (proj2 (proj2
             (loop_field_is_filled_in "<li>" "p" "title" "</li>" (VObj []) 0
                eq_refl eq_refl eq_refl ltac:(discriminate) eq_refl
                ltac:(discriminate) eq_refl))))) [] eq_refl eq_refl eq_refl).
Defined.

Lemma loop_position_tokens_witness :
  lacks "{{" "<li>" = true ∧ Str.endsWith "<li>" "{" = false ∧ lacks "{{" "</li>" = true ∧
  str_all Chr.is_word "p" = true ∧
  renderItem "p" ("<li>" +:+ "{{@index}}" +:+ "</li>") VNull 11 = Some "<li>11</li>" ∧
  renderItem "p" ("<li>" +:+ "{{@index1}}" +:+ "</li>") VNull 11 = Some "<li>12</li>".
Proof.
  do 4 (split; [reflexivity|]).
  exact (loop_position_tokens "<li>" "p" "</li>" VNull 11
           eq_refl eq_refl eq_refl ltac:(discriminate) eq_refl).
Defined.

Lemma loop_lists_items_in_order_witness :
  lacks "<!--" "<ul>" = true ∧ lacks "<!--" "</ul>" = true ∧
  lacks "<!--" ("<li>" +:+ fieldToken "p" "title" +:+ "</li>") = true ∧
  str_all Chr.is_word "p" = true ∧ str_all pathUnit "posts" = true ∧
  str_all Chr.is_word "title" = true ∧
  lacks "{{" "<li>" = true ∧ Str.endsWith "<li>" "{" = false ∧ lacks "{{" "</li>" = true ∧
  walkReturns postsTitles (pathParts "posts") = true ∧
  Js.items (getByPath postsTitles "posts") =
    Some [VObj [("title", VStr "A")]; VObj [("title", VNum 7)]; VObj []] ∧
  without "$" (instances "<li>" "title" "</li>"
                 [VObj [("title", VStr "A")]; VObj [("title", VNum 7)]; VObj []]) = true ∧
  expandCollectionLoops
    ("<ul>" +:+ loopBlock "p" "posts" ("<li>" +:+ fieldToken "p" "title" +:+ "</li>") +:+ "</ul>")
    postsTitles = Some "<ul><li>A</li><li>7</li><li></li></ul>".
Proof.
  do 12 (split; [reflexivity|]).
  exact (loop_lists_items_in_order "<ul>" "p" "posts" "<li>" "title" "</li>" "</ul>"
           postsTitles [VObj [("title", VStr "A")]; VObj [("title", VNum 7)]; VObj []]
           eq_refl eq_refl eq_refl ltac:(discriminate) eq_refl ltac:(discriminate) eq_refl
           ltac:(discriminate) eq_refl eq_refl eq_refl eq_refl eq_refl eq_refl
           ltac:(repeat constructor) eq_refl).
Defined.

Lemma loop_over_null_item_throws_witness :
  lacks "<!--" "<ul>" = true ∧ lacks "<!--" "</ul>" = true ∧
  lacks "<!--" ("<li>" +:+ fieldToken "p" "title" +:+ "</li>") = true ∧
  str_all Chr.is_word "p" = true ∧ str_all pathUnit "posts" = true ∧
  str_all Chr.is_word "title" = true ∧
  lacks "{{" "<li>" = true ∧ Str.endsWith "<li>" "{" = false ∧ lacks "{{" "</li>" = true ∧
  getByPath postsNull "posts" = VArr [VObj [("title", VStr "A")]; VNull] ∧
  Exists (λ item, Js.nullish item = true) [VObj [("title", VStr "A")]; VNull] ∧
  expandCollectionLoops
    ("<ul>" +:+ loopBlock "p" "posts" ("<li>" +:+ fieldToken "p" "title" +:+ "</li>") +:+ "</ul>")
    postsNull = None.
Proof.
  do 10 (split; [reflexivity|]).
  assert (Exists (λ item, Js.nullish item = true) [VObj [("title", VStr "A")]; VNull]) as Hex.
  { apply Exists_cons_tl, Exists_cons_hd. reflexivity. }
  split; [exact Hex|].
  exact (loop_over_null_item_throws "<ul>" "p" "posts" "<li>" "title" "</li>" "</ul>"
           postsNull [VObj [("title", VStr "A")]; VNull]
           eq_refl eq_refl eq_refl ltac:(discriminate) eq_refl ltac:(discriminate) eq_refl
           ltac:(discriminate) eq_refl eq_refl eq_refl eq_refl eq_refl Hex).
Defined.

Lemma include_data_shadows_caller_data_witness :
  Js.prop (VObj [("site", VObj []); ("data", VObj [("title", VStr "Page"); ("lang", VStr "en")])])
    "data" = VObj [("title", VStr "Page"); ("lang", VStr "en")] ∧
  NoDup [("title", VStr "Card")].*1 ∧ str_all Chr.is_word "title" = true ∧
  getByPath
    (nextContext
       (VObj [("site", VObj []); ("data", VObj [("title", VStr "Page"); ("lang", VStr "en")])])
       (VObj [("title", VStr "Card")])) ("data." +:+ "title") = VStr "Card".
Proof.
  split; [reflexivity|].
  assert (NoDup [("title", VStr "Card")].*1) as Hnd.
  { apply NoDup_cons. split; [apply not_elem_of_nil | apply NoDup_nil_2]. }
  split; [exact Hnd|]. split; [reflexivity|].
  exact (include_data_shadows_caller_data
           [("site", VObj []); ("data", VObj [("title", VStr "Page"); ("lang", VStr "en")])]
           [("title", VStr "Page"); ("lang", VStr "en")] [("title", VStr "Card")] "title"
           eq_refl Hnd ltac:(discriminate) eq_refl).
Defined.

Lemma page_with_loop_lists_items_witness :
  lacks "<%" ("<h1>{{page.title}}</h1>" +:+
              loopBlock "p" "posts" ("<li>" +:+ fieldToken "p" "title" +:+ "</li>") +:+
              "<hr>") = true ∧
  lacks "<!--" "<h1>{{page.title}}</h1>" = true ∧ lacks "<!--" "<hr>" = true ∧
  lacks "<!--" ("<li>" +:+ fieldToken "p" "title" +:+ "</li>") = true ∧
  str_all Chr.is_word "p" = true ∧ str_all pathUnit "posts" = true ∧
  str_all Chr.is_word "title" = true ∧
  lacks "{{" "<li>" = true ∧ Str.endsWith "<li>" "{" = false ∧ lacks "{{" "</li>" = true ∧
  Js.spread postsTitles ≠ [] ∧
  walkReturns postsTitles (pathParts "posts") = true ∧
  Js.items (getByPath postsTitles "posts") =
    Some [VObj [("title", VStr "A")]; VObj [("title", VNum 7)]; VObj []] ∧
  renderBody (H := plainHost) 1 ∅ "/site/partials"
    ("<h1>{{page.title}}</h1>" +:+
     loopBlock "p" "posts" ("<li>" +:+ fieldToken "p" "title" +:+ "</li>") +:+ "<hr>")
    pageCtx true postsTitles =
    Some "<h1>Home</h1><li>A</li><li>7</li><li></li><hr>".
Proof.
  do 10 (split; [reflexivity|]). split; [discriminate|]. do 2 (split; [reflexivity|]).
  rewrite (page_with_loop_lists_items (H := plainHost) 0 ∅ "/site/partials"
             "<h1>{{page.title}}</h1>" "p" "posts" "<li>" "title" "</li>" "<hr>"
             pageCtx postsTitles
             [VObj [("title", VStr "A")]; VObj [("title", VNum 7)]; VObj []]
             eq_refl eq_refl eq_refl eq_refl ltac:(discriminate) eq_refl
             ltac:(discriminate) eq_refl ltac:(discriminate) eq_refl eq_refl eq_refl eq_refl
             ltac:(discriminate) eq_refl eq_refl ltac:(repeat constructor) eq_refl).
  reflexivity.
Defined.

(** ** The runtime at work *)

(** The prototype of an array is itself an array, an empty one: a loop over
    it leaves nothing where the block was. *)
Example loop_over_array_prototype :
  expandCollectionLoops
    ("<ul>" +:+ loopBlock "p" "items.__proto__" "<li>{{p.title}}</li>" +:+ "</ul>")
    (VObj [("items", VArr [])]) = Some "<ul></ul>".
Proof. vm_compute. reflexivity. Qed.

(** A field token that names what every object inherits prints it. *)
Example loop_field_constructor :
  renderItem "p" "<li>{{p.constructor}}</li>" (VObj []) 0 =
    Some "<li>function Object() { [native code] }</li>".
Proof. vm_compute. reflexivity. Qed.

(** An integer beyond the safe range is printed as the runtime prints it:
    [1e21] in exponent form. *)
Example number_in_exponent_form :
  interpolateMustache "{{n}}" (VObj [("n", VNum (10 ^ 21))]) = "1e+21" ∧
  interpolateMustache "{{n}}" (VObj [("n", VNum 42)]) = "42".
Proof. split; vm_compute; reflexivity. Qed.
